(** * RooFitDriver: a shallow embedding of roofit/roofitcore/src/RooFitDriver.cxx

    The driver evaluates a computation graph of RooAbsArg nodes.  The node
    list [_nodes] is a vector of [NodeInfo] structs; the C++ code links the
    structs with raw pointers ([serverInfos], [clientInfos]) into that same
    vector, which are modelled here as positions in the vector.  The nodes of
    a RooArgSet are pairwise distinct objects, so a node is identified by its
    position [iNode]; the data maps are keyed by it.

    Mutation of a NodeInfo through a pointer is an [alter] at that position.
    The code under [#ifdef R__HAS_CUDA] is guarded by the build flag
    [R__HAS_CUDA], a variable of the development. *)

From Stdlib Require Import ZArith NArith Bool List String Lia.
From stdpp Require Import base option list gmap strings sorting.

Local Open Scope Z_scope.
Local Open Scope nat_scope.

(** ** Enumerations and plain data *)

(** RooFit::BatchModeOption *)
Inductive BatchModeOption := Off | Cpu | Cuda | Old.

Global Instance BatchModeOption_eq_dec : EqDecision BatchModeOption.
Proof. solve_decision. Defined.

(** RooBatchCompute::Architecture *)
Inductive Architecture := AVX512 | AVX2 | AVX | SSE4 | GENERIC.

Global Instance Architecture_eq_dec : EqDecision Architecture.
Proof. solve_decision. Defined.

(** RooAbsArg::OperMode *)
Inductive OperMode := Auto | AClean | ADirty.

Global Instance OperMode_eq_dec : EqDecision OperMode.
Proof. solve_decision. Defined.

(** The two sides a kernel can run on, each with its own data map. *)
Inductive Side := Host | Device.

Global Instance Side_eq_dec : EqDecision Side.
Proof. solve_decision. Defined.

(** The three kinds of buffers handed out by the buffer manager. *)
Inductive BufferKind := CpuBuffer | GpuBuffer | PinnedBuffer.

Global Instance BufferKind_eq_dec : EqDecision BufferKind.
Proof. solve_decision. Defined.

(** Pointers to double.  [PExt a] is memory owned by the caller (the dataset
    columns handed to [setData]); [PScalar i] is [&_nodes[i].scalarBuffer];
    [PBuf b side] is the host or device view of the pooled buffer [b];
    [PDataset off] is [_cudaMemDataset->data() + off]; [PNull] is the null
    pointer. *)
Inductive Ptr :=
| PNull
| PExt (a : N)
| PScalar (i : nat)
| PBuf (b : nat) (side : Side)
| PDataset (off : nat).

Global Instance Ptr_eq_dec : EqDecision Ptr.
Proof. solve_decision. Defined.

(** std::span<const double>: a pointer and a length. *)
Record Span := mkSpan { spanPtr : Ptr; spanSize : nat }.

Global Instance Span_eq_dec : EqDecision Span.
Proof. solve_decision. Defined.

(** What the driver does that is visible outside its own fields. *)
Inductive Event :=
| EKernel (side : Side) (i : nat)          (* computeBatch of node i, reading that side's data map *)
| ESetDataMap (side : Side) (i : nat) (s : Span)  (* _dataMapCPU.set / _dataMapCUDA.set *)
| ECopyHostToDevice (src dst : Ptr) (n : nat)
| EWaitForEvent (i server : nat)          (* the stream of node i waits for the event of a server *)
| EEventRecord (i : nat)                  (* cudaEventRecord of the event of node i on its stream *)
| ELogNotOnGPU (i : nat)                  (* the FastEvaluations message of computeCPUNode *)
| ESleep.

Global Instance Event_eq_dec : EqDecision Event.
Proof. solve_decision. Defined.

(** The part of a RooAbsArg the driver reads and never changes. *)
Record RooAbsArg := mkArg {
  namePtr : string;                    (* the name, the key of the data spans *)
  isRooRealVar : bool;                 (* dynamic_cast<RooRealVar const *>(arg) *)
  isRooAbsCategory : bool;             (* dynamic_cast<RooAbsCategory const *>(arg) *)
  isReducerNode : bool;
  canComputeBatchWithCuda : bool;
  initialOperMode : OperMode;          (* arg->operMode() before the driver touches it *)
  servers : list (nat * bool)          (* each server, as its position in the sorted
                                          graph, with its isValueServer flag for this node *)
}.

(** What the process-wide services answer when the driver is constructed. *)
Record Runtime := mkRuntime {
  msgActive : bool;       (* RooMsgService::instance().isActive(nullptr, Fitting, INFO) *)
  hasCuda : bool;         (* RooBatchCompute::hasCuda() *)
  cpuArchitecture : Architecture;
  cpuArchitectureName : string
}.

(** The result of code that can throw. *)
Inductive Outcome (A : Type) :=
| Returned (a : A)
| Thrown (what : string).
Arguments Returned {A} a.
Arguments Thrown {A} what.

(** ** logArchitectureInfo

    The function-local static [lastBatchMode] is threaded through; it starts
    zero-initialised, [(Off, false)]. *)

Definition lastBatchMode0 : BatchModeOption * bool := (Off, false).

Definition logArchitectureInfo (rt : Runtime) (lastBatchMode : BatchModeOption * bool)
    (batchMode : BatchModeOption) : (BatchModeOption * bool) * Outcome (list string) :=
  if negb (msgActive rt) then (lastBatchMode, Returned [])
  else if snd lastBatchMode && bool_decide (fst lastBatchMode = batchMode)
  then (lastBatchMode, Returned [])
  else
    let lastBatchMode := (batchMode, true) in
    if bool_decide (batchMode = Cuda) && negb (hasCuda rt)
    then (lastBatchMode, Thrown "Cuda implementation of the computing library is not available")
    else
      let l1 :=
        if bool_decide (cpuArchitecture rt = GENERIC)
        then ["using generic CPU library compiled with no vectorizations"]
        else ["using CPU computation library compiled with -m" +:+ cpuArchitectureName rt] in
      let l2 :=
        if bool_decide (batchMode = Cuda) then ["using CUDA computation library"] else [] in
      (lastBatchMode, Returned (l1 ++ l2)).

(** ** The driver *)

Section Driver.

(** double, and its 0.0 *)
Context {val : Type}.
Variable zero : val.

(** The state of everything outside the driver at the time of a call: the
    values of the RooRealVars, their reset counters, the caller's memory. *)
Context {World : Type}.

(** The build flag. *)
Variable R__HAS_CUDA : bool.

(** static_cast<RooRealVar const *>(node)->valueResetCounter(), a std::size_t *)
Variable valueResetCounter : World → nat → N.

(** The caller's memory: what is stored from [PExt a] onwards. *)
Variable hostMemory : World → N → option (list val).

(** absArg->computeBatch(buffer, nOut, dataMap) of node [i]: the values it
    writes to [buffer], given what each node's span in [dataMap] holds.  The
    kernels are opaque to the driver; [side] says which data map is passed. *)
Variable computeBatch : World → Side → nat → nat → (nat → option (list val)) → list val.

(** std::numeric_limits<std::size_t>::max() *)
Definition size_t_max : N := 18446744073709551615%N.

Record NodeInfo := mkNodeInfo {
  absArg : RooAbsArg;   (* the node of the graph *)
  dataToken : option nat;   (* absArg->hasDataToken() and absArg->dataToken() *)
  operMode : OperMode;   (* absArg->operMode() *)
  buffer : option nat;   (* the pooled buffer held, by its identity; None is the null unique_ptr *)
  iNode : nat;
  remClients : Z;
  remServers : Z;
  event : bool;   (* whether the unique_ptr to the CudaEvent is non-null *)
  stream : bool;   (* whether the unique_ptr to the CudaStream is non-null *)
  copyAfterEvaluation : bool;
  hasLogged : bool;
  fromDataset : bool;
  isVariable : bool;
  isDirty : bool;
  isCategory : bool;
  outputSize : nat;
  lastSetValCount : N;
  scalarBuffer : val;
  serverInfos : list nat;
  clientInfos : list nat
}.

(** Assignment to one member of a NodeInfo. *)
Definition set_dataToken (x : option nat) (n : NodeInfo) : NodeInfo :=
  mkNodeInfo (absArg n) x (operMode n) (buffer n) (iNode n) (remClients n) (remServers n)
    (event n) (stream n) (copyAfterEvaluation n) (hasLogged n) (fromDataset n)
    (isVariable n) (isDirty n) (isCategory n) (outputSize n) (lastSetValCount n)
    (scalarBuffer n) (serverInfos n) (clientInfos n).
Definition set_operMode (x : OperMode) (n : NodeInfo) : NodeInfo :=
  mkNodeInfo (absArg n) (dataToken n) x (buffer n) (iNode n) (remClients n) (remServers n)
    (event n) (stream n) (copyAfterEvaluation n) (hasLogged n) (fromDataset n)
    (isVariable n) (isDirty n) (isCategory n) (outputSize n) (lastSetValCount n)
    (scalarBuffer n) (serverInfos n) (clientInfos n).
Definition set_buffer (x : option nat) (n : NodeInfo) : NodeInfo :=
  mkNodeInfo (absArg n) (dataToken n) (operMode n) x (iNode n) (remClients n) (remServers n)
    (event n) (stream n) (copyAfterEvaluation n) (hasLogged n) (fromDataset n)
    (isVariable n) (isDirty n) (isCategory n) (outputSize n) (lastSetValCount n)
    (scalarBuffer n) (serverInfos n) (clientInfos n).
Definition set_remClients (x : Z) (n : NodeInfo) : NodeInfo :=
  mkNodeInfo (absArg n) (dataToken n) (operMode n) (buffer n) (iNode n) x (remServers n)
    (event n) (stream n) (copyAfterEvaluation n) (hasLogged n) (fromDataset n)
    (isVariable n) (isDirty n) (isCategory n) (outputSize n) (lastSetValCount n)
    (scalarBuffer n) (serverInfos n) (clientInfos n).
Definition set_remServers (x : Z) (n : NodeInfo) : NodeInfo :=
  mkNodeInfo (absArg n) (dataToken n) (operMode n) (buffer n) (iNode n) (remClients n) x
    (event n) (stream n) (copyAfterEvaluation n) (hasLogged n) (fromDataset n)
    (isVariable n) (isDirty n) (isCategory n) (outputSize n) (lastSetValCount n)
    (scalarBuffer n) (serverInfos n) (clientInfos n).
Definition set_event (x : bool) (n : NodeInfo) : NodeInfo :=
  mkNodeInfo (absArg n) (dataToken n) (operMode n) (buffer n) (iNode n) (remClients n)
    (remServers n) x (stream n) (copyAfterEvaluation n) (hasLogged n) (fromDataset n)
    (isVariable n) (isDirty n) (isCategory n) (outputSize n) (lastSetValCount n)
    (scalarBuffer n) (serverInfos n) (clientInfos n).
Definition set_stream (x : bool) (n : NodeInfo) : NodeInfo :=
  mkNodeInfo (absArg n) (dataToken n) (operMode n) (buffer n) (iNode n) (remClients n)
    (remServers n) (event n) x (copyAfterEvaluation n) (hasLogged n) (fromDataset n)
    (isVariable n) (isDirty n) (isCategory n) (outputSize n) (lastSetValCount n)
    (scalarBuffer n) (serverInfos n) (clientInfos n).
Definition set_copyAfterEvaluation (x : bool) (n : NodeInfo) : NodeInfo :=
  mkNodeInfo (absArg n) (dataToken n) (operMode n) (buffer n) (iNode n) (remClients n)
    (remServers n) (event n) (stream n) x (hasLogged n) (fromDataset n) (isVariable n)
    (isDirty n) (isCategory n) (outputSize n) (lastSetValCount n) (scalarBuffer n)
    (serverInfos n) (clientInfos n).
Definition set_hasLogged (x : bool) (n : NodeInfo) : NodeInfo :=
  mkNodeInfo (absArg n) (dataToken n) (operMode n) (buffer n) (iNode n) (remClients n)
    (remServers n) (event n) (stream n) (copyAfterEvaluation n) x (fromDataset n)
    (isVariable n) (isDirty n) (isCategory n) (outputSize n) (lastSetValCount n)
    (scalarBuffer n) (serverInfos n) (clientInfos n).
Definition set_fromDataset (x : bool) (n : NodeInfo) : NodeInfo :=
  mkNodeInfo (absArg n) (dataToken n) (operMode n) (buffer n) (iNode n) (remClients n)
    (remServers n) (event n) (stream n) (copyAfterEvaluation n) (hasLogged n) x
    (isVariable n) (isDirty n) (isCategory n) (outputSize n) (lastSetValCount n)
    (scalarBuffer n) (serverInfos n) (clientInfos n).
Definition set_isDirty (x : bool) (n : NodeInfo) : NodeInfo :=
  mkNodeInfo (absArg n) (dataToken n) (operMode n) (buffer n) (iNode n) (remClients n)
    (remServers n) (event n) (stream n) (copyAfterEvaluation n) (hasLogged n)
    (fromDataset n) (isVariable n) x (isCategory n) (outputSize n) (lastSetValCount n)
    (scalarBuffer n) (serverInfos n) (clientInfos n).
Definition set_outputSize (x : nat) (n : NodeInfo) : NodeInfo :=
  mkNodeInfo (absArg n) (dataToken n) (operMode n) (buffer n) (iNode n) (remClients n)
    (remServers n) (event n) (stream n) (copyAfterEvaluation n) (hasLogged n)
    (fromDataset n) (isVariable n) (isDirty n) (isCategory n) x (lastSetValCount n)
    (scalarBuffer n) (serverInfos n) (clientInfos n).
Definition set_lastSetValCount (x : N) (n : NodeInfo) : NodeInfo :=
  mkNodeInfo (absArg n) (dataToken n) (operMode n) (buffer n) (iNode n) (remClients n)
    (remServers n) (event n) (stream n) (copyAfterEvaluation n) (hasLogged n)
    (fromDataset n) (isVariable n) (isDirty n) (isCategory n) (outputSize n) x
    (scalarBuffer n) (serverInfos n) (clientInfos n).
Definition set_scalarBuffer (x : val) (n : NodeInfo) : NodeInfo :=
  mkNodeInfo (absArg n) (dataToken n) (operMode n) (buffer n) (iNode n) (remClients n)
    (remServers n) (event n) (stream n) (copyAfterEvaluation n) (hasLogged n)
    (fromDataset n) (isVariable n) (isDirty n) (isCategory n) (outputSize n)
    (lastSetValCount n) x (serverInfos n) (clientInfos n).
Definition set_serverInfos (x : list nat) (n : NodeInfo) : NodeInfo :=
  mkNodeInfo (absArg n) (dataToken n) (operMode n) (buffer n) (iNode n) (remClients n)
    (remServers n) (event n) (stream n) (copyAfterEvaluation n) (hasLogged n)
    (fromDataset n) (isVariable n) (isDirty n) (isCategory n) (outputSize n)
    (lastSetValCount n) (scalarBuffer n) x (clientInfos n).
Definition set_clientInfos (x : list nat) (n : NodeInfo) : NodeInfo :=
  mkNodeInfo (absArg n) (dataToken n) (operMode n) (buffer n) (iNode n) (remClients n)
    (remServers n) (event n) (stream n) (copyAfterEvaluation n) (hasLogged n)
    (fromDataset n) (isVariable n) (isDirty n) (isCategory n) (outputSize n)
    (lastSetValCount n) (scalarBuffer n) (serverInfos n) x.

Record RooFitDriver := mkDriver {
  _nodes : list NodeInfo;
  _batchMode : BatchModeOption;
  _getValInvocations : nat;
  _dataMapCPU : gmap nat Span;
  _dataMapCUDA : gmap nat Span;
  _nextBuffer : nat;   (* _bufferManager: the identity of the next buffer it hands out *)
  _buffers : gmap nat (BufferKind * list val);   (* _bufferManager: the buffers held by nodes, with their contents *)
  _cudaMemDatasetSize : nat;   (* the length of the device array _cudaMemDataset *)
  _cudaMemDataset : gmap nat (list val);   (* its contents: what was copied to each offset *)
  _changeOperModeRAIIs : list (nat * OperMode);   (* a stack of (node, operation mode to restore) *)
  _trace : list Event   (* the events so far, oldest first *)
}.

(** Assignment to one member of the driver. *)
Definition set_nodes (x : list NodeInfo) (d : RooFitDriver) : RooFitDriver :=
  mkDriver x (_batchMode d) (_getValInvocations d) (_dataMapCPU d) (_dataMapCUDA d)
    (_nextBuffer d) (_buffers d) (_cudaMemDatasetSize d) (_cudaMemDataset d)
    (_changeOperModeRAIIs d) (_trace d).
Definition set_batchMode (x : BatchModeOption) (d : RooFitDriver) : RooFitDriver :=
  mkDriver (_nodes d) x (_getValInvocations d) (_dataMapCPU d) (_dataMapCUDA d)
    (_nextBuffer d) (_buffers d) (_cudaMemDatasetSize d) (_cudaMemDataset d)
    (_changeOperModeRAIIs d) (_trace d).
Definition set_getValInvocations (x : nat) (d : RooFitDriver) : RooFitDriver :=
  mkDriver (_nodes d) (_batchMode d) x (_dataMapCPU d) (_dataMapCUDA d) (_nextBuffer d)
    (_buffers d) (_cudaMemDatasetSize d) (_cudaMemDataset d) (_changeOperModeRAIIs d)
    (_trace d).
Definition set_dataMapCPU (x : gmap nat Span) (d : RooFitDriver) : RooFitDriver :=
  mkDriver (_nodes d) (_batchMode d) (_getValInvocations d) x (_dataMapCUDA d)
    (_nextBuffer d) (_buffers d) (_cudaMemDatasetSize d) (_cudaMemDataset d)
    (_changeOperModeRAIIs d) (_trace d).
Definition set_dataMapCUDA (x : gmap nat Span) (d : RooFitDriver) : RooFitDriver :=
  mkDriver (_nodes d) (_batchMode d) (_getValInvocations d) (_dataMapCPU d) x
    (_nextBuffer d) (_buffers d) (_cudaMemDatasetSize d) (_cudaMemDataset d)
    (_changeOperModeRAIIs d) (_trace d).
Definition set_nextBuffer (x : nat) (d : RooFitDriver) : RooFitDriver :=
  mkDriver (_nodes d) (_batchMode d) (_getValInvocations d) (_dataMapCPU d) (_dataMapCUDA d)
    x (_buffers d) (_cudaMemDatasetSize d) (_cudaMemDataset d) (_changeOperModeRAIIs d)
    (_trace d).
Definition set_buffers (x : gmap nat (BufferKind * list val)) (d : RooFitDriver) : RooFitDriver :=
  mkDriver (_nodes d) (_batchMode d) (_getValInvocations d) (_dataMapCPU d) (_dataMapCUDA d)
    (_nextBuffer d) x (_cudaMemDatasetSize d) (_cudaMemDataset d) (_changeOperModeRAIIs d)
    (_trace d).
Definition set_cudaMemDatasetSize (x : nat) (d : RooFitDriver) : RooFitDriver :=
  mkDriver (_nodes d) (_batchMode d) (_getValInvocations d) (_dataMapCPU d) (_dataMapCUDA d)
    (_nextBuffer d) (_buffers d) x (_cudaMemDataset d) (_changeOperModeRAIIs d) (_trace d).
Definition set_cudaMemDataset (x : gmap nat (list val)) (d : RooFitDriver) : RooFitDriver :=
  mkDriver (_nodes d) (_batchMode d) (_getValInvocations d) (_dataMapCPU d) (_dataMapCUDA d)
    (_nextBuffer d) (_buffers d) (_cudaMemDatasetSize d) x (_changeOperModeRAIIs d)
    (_trace d).
Definition set_changeOperModeRAIIs (x : list (nat * OperMode)) (d : RooFitDriver) : RooFitDriver :=
  mkDriver (_nodes d) (_batchMode d) (_getValInvocations d) (_dataMapCPU d) (_dataMapCUDA d)
    (_nextBuffer d) (_buffers d) (_cudaMemDatasetSize d) (_cudaMemDataset d) x (_trace d).
Definition set_trace (x : list Event) (d : RooFitDriver) : RooFitDriver :=
  mkDriver (_nodes d) (_batchMode d) (_getValInvocations d) (_dataMapCPU d) (_dataMapCUDA d)
    (_nextBuffer d) (_buffers d) (_cudaMemDatasetSize d) (_cudaMemDataset d)
    (_changeOperModeRAIIs d) x.

Definition emit (e : Event) (d : RooFitDriver) : RooFitDriver :=
  set_trace (_trace d ++ [e]) d.

(** _nodes[i].member = x, through a reference or a pointer to the NodeInfo *)
Definition updNode (i : nat) (f : NodeInfo → NodeInfo) (d : RooFitDriver) : RooFitDriver :=
  set_nodes (alter f i (_nodes d)) d.

(** ** Memory

    Modelled from the spec: the BufferManager (4.1), which is not part of
    this file.  A buffer is host (CPU), device (GPU) or pinned; a pinned
    buffer is visible from both sides.  Every buffer handed out gets an
    identity of its own, and a buffer that was released can no longer be
    read. *)

Definition makeBuffer (kind : BufferKind) (d : RooFitDriver) : nat * RooFitDriver :=
  let b := _nextBuffer d in
  (b, set_buffers (<[b := (kind, [])]> (_buffers d)) (set_nextBuffer (S b) d)).

(** info.buffer.reset() *)
Definition resetBuffer (i : nat) (d : RooFitDriver) : RooFitDriver :=
  match _nodes d !! i with
  | Some info =>
      match buffer info with
      | Some b => updNode i (set_buffer None) (set_buffers (delete b (_buffers d)) d)
      | None => d
      end
  | None => d
  end.

Definition visibleFrom (kind : BufferKind) (side : Side) : bool :=
  match kind, side with
  | CpuBuffer, Host | GpuBuffer, Device | PinnedBuffer, _ => true
  | _, _ => false
  end.

(** What [n] doubles read from pointer [p] on [side] are.  A kernel on the
    device is handed scalars by value, so a host pointer to one double can be
    read there too. *)
Definition readPtr (w : World) (side : Side) (d : RooFitDriver) (p : Ptr) (n : nat)
    : option (list val) :=
  match p with
  | PNull => None
  | PExt a => if bool_decide (side = Host) || (n =? 1) then hostMemory w a else None
  | PScalar i => info ← _nodes d !! i; Some [scalarBuffer info]
  | PBuf b s =>
      if bool_decide (s = side) then
        '(kind, data) ← _buffers d !! b;
        if visibleFrom kind side then Some data else None
      else None
  | PDataset off => if bool_decide (side = Device) then _cudaMemDataset d !! off else None
  end.

Definition readSpan (w : World) (side : Side) (d : RooFitDriver) (s : Span)
    : option (list val) :=
  data ← readPtr w side d (spanPtr s) (spanSize s);
  if length data <? spanSize s then None else Some (take (spanSize s) data).

(** A kernel stores its output. *)
Definition writePtr (p : Ptr) (out : list val) (d : RooFitDriver) : RooFitDriver :=
  match p with
  | PScalar i => updNode i (λ info, set_scalarBuffer (default (scalarBuffer info) (head out)) info) d
  | PBuf b _ => set_buffers (alter (λ kb, (kb.1, out)) b (_buffers d)) d
  | _ => d
  end.

(** ** The data maps

    Modelled from the spec: the DataMap (4.2), which is not part of this file:
    a map from node identity to the span currently published for it, with
    [set] and [at]. *)

Definition dataMap (side : Side) (d : RooFitDriver) : gmap nat Span :=
  match side with Host => _dataMapCPU d | Device => _dataMapCUDA d end.

Definition dataMapSet (side : Side) (i : nat) (s : Span) (d : RooFitDriver) : RooFitDriver :=
  emit (ESetDataMap side i s)
    match side with
    | Host => set_dataMapCPU (<[i := s]> (_dataMapCPU d)) d
    | Device => set_dataMapCUDA (<[i := s]> (_dataMapCUDA d)) d
    end.

(** [at], with the null span where the node was never published *)
Definition dataMapAt (side : Side) (i : nat) (d : RooFitDriver) : Span :=
  default (mkSpan PNull 0) (dataMap side d !! i).

(** What a kernel sees through the data map of [side]. *)
Definition dataMapView (w : World) (side : Side) (d : RooFitDriver) : nat → option (list val) :=
  λ j, s ← dataMap side d !! j; readSpan w side d s.

(** ** NodeInfo members *)

Definition isScalar (info : NodeInfo) : bool := outputSize info =? 1.

Definition computeInGPU (info : NodeInfo) : bool :=
  (isReducerNode (absArg info) || negb (isScalar info)) && canComputeBatchWithCuda (absArg info).

(** computeInGPU of the node a pointer refers to *)
Definition computeInGPUAt (d : RooFitDriver) (i : nat) : bool :=
  from_option computeInGPU false (_nodes d !! i).

(** for (auto &info : _nodes) body *)
Definition forNodes (body : nat → RooFitDriver → RooFitDriver) (d : RooFitDriver)
    : RooFitDriver :=
  foldl (λ d i, body i d) d (seq 0 (length (_nodes d))).

(** ** The constructor *)

(** A NodeInfo with its default member initialisers, after the first loop of
    the constructor. *)
Definition newNodeInfo (i : nat) (arg : RooAbsArg) : NodeInfo :=
  {| absArg := arg;
     dataToken := if isRooRealVar arg then None else Some i;
     operMode := initialOperMode arg;
     buffer := None;
     iNode := i;
     remClients := 0;
     remServers := 0;
     event := false;
     stream := false;
     copyAfterEvaluation := false;
     hasLogged := false;
     fromDataset := false;
     isVariable := isRooRealVar arg;
     isDirty := true;
     isCategory := isRooAbsCategory arg;
     outputSize := 1;
     lastSetValCount := size_t_max;
     scalarBuffer := zero;
     serverInfos := [];
     clientInfos := [] |}.

(** The inner loop of the second loop: the value servers of node [c]. *)
Fixpoint linkServers (c : nat) (srv : list (nat * bool)) (nodes : list NodeInfo)
    : Outcome (list NodeInfo) :=
  match srv with
  | [] => Returned nodes
  | (s, isValueServer) :: srv =>
      if isValueServer then
        match nodes !! s with
        | None => Thrown "map::at"
        | Some _ =>
            let nodes := alter (λ info, set_serverInfos (serverInfos info ++ [s]) info) c nodes in
            let nodes := alter (λ info, set_clientInfos (clientInfos info ++ [c]) info) s nodes in
            linkServers c srv nodes
        end
      else linkServers c srv nodes
  end.

Fixpoint linkNodes (cs : list nat) (nodes : list NodeInfo) : Outcome (list NodeInfo) :=
  match cs with
  | [] => Returned nodes
  | c :: cs =>
      match linkServers c (from_option (servers ∘ absArg) [] (nodes !! c)) nodes with
      | Thrown what => Thrown what
      | Returned nodes => linkNodes cs nodes
      end
  end.

(** [serverSet] is what RooHelpers::getSortedComputationGraph returns for the
    top node.  syncDataTokens only touches RooAbsArgs that are not in
    [_nodes], and the per-node configuration of the device data map holds
    the node's own stream; neither is state of this model. *)
Definition construct (rt : Runtime) (lastBatchMode : BatchModeOption * bool)
    (serverSet : list RooAbsArg) (batchMode : BatchModeOption)
    : (BatchModeOption * bool) * Outcome (list string * RooFitDriver) :=
  if negb R__HAS_CUDA && bool_decide (batchMode = Cuda)
  then (lastBatchMode,
        Thrown "Can't create RooFitDriver in CUDA mode because ROOT was compiled without CUDA support!")
  else
    let '(lastBatchMode, logged) := logArchitectureInfo rt lastBatchMode batchMode in
    match logged with
    | Thrown what => (lastBatchMode, Thrown what)
    | Returned messages =>
        match linkNodes (seq 0 (length serverSet)) (imap newNodeInfo serverSet) with
        | Thrown what => (lastBatchMode, Thrown what)
        | Returned nodes =>
            let nodes :=
              if R__HAS_CUDA && bool_decide (batchMode = Cuda)
              then (λ info, set_stream true (set_event true info)) <$> nodes
              else nodes in
            (lastBatchMode,
             Returned (messages,
                       {| _nodes := nodes;
                          _batchMode := batchMode;
                          _getValInvocations := 0;
                          _dataMapCPU := ∅;
                          _dataMapCUDA := ∅;
                          _nextBuffer := 0;
                          _buffers := ∅;
                          _cudaMemDatasetSize := 0;
                          _cudaMemDataset := ∅;
                          _changeOperModeRAIIs := [];
                          _trace := [] |}))
        end
    end.

(** ** markGPUNodes *)

(** The inner loop, with its break: whether some client of [info] is placed
    on the other side. *)
Definition clientOnOtherSide (d : RooFitDriver) (info : NodeInfo) : bool :=
  existsb (λ c, negb (eqb (computeInGPU info) (computeInGPUAt d c))) (clientInfos info).

Definition markGPUNodes (d : RooFitDriver) : RooFitDriver :=
  forNodes (λ i d,
    match _nodes d !! i with
    | None => d
    | Some info =>
        let d := updNode i (set_copyAfterEvaluation false) d in
        if negb (isScalar info)
        then if clientOnOtherSide d info then updNode i (set_copyAfterEvaluation true) d else d
        else d
    end) d.

(** ** setData *)

(** setOperMode(arg, opMode): the ChangeOperModeRAII changes the mode and
    remembers the old one. *)
Definition setOperMode (i : nat) (opMode : OperMode) (d : RooFitDriver) : RooFitDriver :=
  match _nodes d !! i with
  | None => d
  | Some info =>
      if bool_decide (opMode ≠ operMode info)
      then set_changeOperModeRAIIs ((i, operMode info) :: _changeOperModeRAIIs d)
             (updNode i (set_operMode opMode) d)
      else d
  end.

(** The first loop of setData; [totalSize] is carried along. *)
Definition bindDataSpan (dataSpans : gmap string Span) (i : nat) (acc : nat * RooFitDriver)
    : nat * RooFitDriver :=
  let '(totalSize, d) := acc in
  let d := resetBuffer i d in
  match _nodes d !! i with
  | None => (totalSize, d)
  | Some info =>
      match dataSpans !! namePtr (absArg info) with
      | Some found =>
          let d := updNode i (set_dataToken (Some i)) d in
          let d := dataMapSet Host i found d in
          let d := updNode i (set_fromDataset true) d in
          let d := updNode i (set_isDirty false) d in
          (totalSize + spanSize found, d)
      | None =>
          let d := updNode i (set_fromDataset false) d in
          let d := updNode i (set_isDirty true) d in
          (totalSize, d)
      end
  end.

(** The second loop; [outputSizeMap] is what
    RooFit::BatchModeDataHelpers::determineOutputSizes returned. *)
Definition bindOutputSize (outputSizeMap : nat → nat) (i : nat) (d : RooFitDriver)
    : RooFitDriver :=
  let d := updNode i (set_outputSize (outputSizeMap i)) d in
  if negb (outputSizeMap i =? 1) then setOperMode i ADirty d else d.

(** The loop that copies the observables to the device; [idx] is carried
    along. *)
Definition copyToDevice (w : World) (i : nat) (acc : nat * RooFitDriver) : nat * RooFitDriver :=
  let '(idx, d) := acc in
  match _nodes d !! i with
  | None => (idx, d)
  | Some info =>
      if negb (fromDataset info) then (idx, d)
      else
        let size := outputSize info in
        if size =? 1
        then (idx, dataMapSet Device i (dataMapAt Host i d) d)
        else
          let d := dataMapSet Device i (mkSpan (PDataset idx) size) d in
          let src := spanPtr (dataMapAt Host i d) in
          let data := default [] (take size <$> readPtr w Host d src size) in
          let d := emit (ECopyHostToDevice src (PDataset idx) size)
                     (set_cudaMemDataset (<[idx := data]> (_cudaMemDataset d)) d) in
          (idx + size, d)
  end.

Definition setData (w : World) (dataSpans : gmap string Span) (outputSizeMap : nat → nat)
    (d : RooFitDriver) : RooFitDriver :=
  let n := length (_nodes d) in
  let '(totalSize, d) := foldl (λ acc i, bindDataSpan dataSpans i acc) (0, d) (seq 0 n) in
  let d := forNodes (bindOutputSize outputSizeMap) d in
  if negb R__HAS_CUDA then d
  else if bool_decide (_batchMode d ≠ Cuda) then d
  else
    let d := set_cudaMemDataset ∅ (set_cudaMemDatasetSize totalSize d) in
    let '(_, d) := foldl (λ acc i, copyToDevice w i acc) (0, d) (seq 0 n) in
    markGPUNodes d.

(** ** computeCPUNode *)

Definition inCudaMode (d : RooFitDriver) : bool :=
  R__HAS_CUDA && bool_decide (_batchMode d = Cuda).

(** The pointer a view of the buffer of a node gives; the null pointer when
    the node holds no buffer. *)
Definition bufferPtr (d : RooFitDriver) (i : nat) (side : Side) : Ptr :=
  match _nodes d !! i with
  | Some info => match buffer info with Some b => PBuf b side | None => PNull end
  | None => PNull
  end.

(** The kernel of node [i] runs on [side] and writes to [buffer]. *)
Definition runKernel (w : World) (side : Side) (i : nat) (buffer : Ptr) (nOut : nat)
    (d : RooFitDriver) : RooFitDriver :=
  emit (EKernel side i) (writePtr buffer (computeBatch w side i nOut (dataMapView w side d)) d).

Definition computeCPUNode (w : World) (i : nat) (d : RooFitDriver) : RooFitDriver :=
  match _nodes d !! i with
  | None => d
  | Some info =>
      let nOut := outputSize info in
      let '(buffer, d) :=
        if nOut =? 1
        then (PScalar i, if inCudaMode d then dataMapSet Device i (mkSpan (PScalar i) nOut) d else d)
        else
          let d :=
            if R__HAS_CUDA && negb (hasLogged info) && bool_decide (_batchMode d = Cuda)
            then updNode i (set_hasLogged true) (emit (ELogNotOnGPU i) d)
            else d in
          let d :=
            match buffer info with
            | Some _ => d
            | None =>
                let made :=
                  makeBuffer (if R__HAS_CUDA && copyAfterEvaluation info
                              then PinnedBuffer else CpuBuffer) d in
                updNode i (set_buffer (Some made.1)) made.2
            end in
          (bufferPtr d i Host, d) in
      let d := dataMapSet Host i (mkSpan buffer nOut) d in
      let d := runKernel w Host i buffer nOut d in
      if R__HAS_CUDA && copyAfterEvaluation info
      then
        let d := dataMapSet Device i (mkSpan (bufferPtr d i Device) nOut) d in
        if event info then emit (EEventRecord i) d else d
      else d
  end.

(** ** The host evaluation *)

Definition setClientsDirty (i : nat) (d : RooFitDriver) : RooFitDriver :=
  match _nodes d !! i with
  | None => d
  | Some info => foldl (λ d c, updNode c (set_isDirty true) d) d (clientInfos info)
  end.

Definition processVariable (w : World) (i : nat) (d : RooFitDriver) : RooFitDriver :=
  match _nodes d !! i with
  | None => d
  | Some info =>
      if bool_decide (lastSetValCount info ≠ valueResetCounter w i)
      then
        let d := updNode i (set_lastSetValCount (valueResetCounter w i)) d in
        let d := foldl (λ d c, updNode c (set_isDirty true) d) d (clientInfos info) in
        let d := computeCPUNode w i d in
        updNode i (set_isDirty false) d
      else d
  end.

(** The body of the loop of getVal. *)
Definition evaluateNode (w : World) (i : nat) (d : RooFitDriver) : RooFitDriver :=
  match _nodes d !! i with
  | None => d
  | Some info =>
      if negb (fromDataset info)
      then
        if isVariable info then processVariable w i d
        else if isDirty info
        then
          let d := setClientsDirty i d in
          let d := computeCPUNode w i d in
          updNode i (set_isDirty false) d
        else d
      else d
  end.

(** The top node is the last one of the sorted graph. *)
Definition topNode (d : RooFitDriver) : nat := length (_nodes d) - 1.

(** _dataMapCPU.at(&topNode())[0]; nothing where there is no such element *)
Definition topValue (w : World) (d : RooFitDriver) : option val :=
  s ← _dataMapCPU d !! topNode d; data ← readSpan w Host d s; head data.

(** ** The heterogeneous evaluation *)

Definition assignToGPU (w : World) (i : nat) (d : RooFitDriver) : RooFitDriver :=
  match _nodes d !! i with
  | None => d
  | Some info =>
      let d := updNode i (set_remServers (-1)) d in
      let d :=
        foldl (λ d s, if from_option event false (_nodes d !! s) then emit (EWaitForEvent i s) d else d)
          d (serverInfos info) in
      let nOut := outputSize info in
      let '(buffer, d) :=
        if nOut =? 1
        then (PScalar i, dataMapSet Host i (mkSpan (PScalar i) nOut) d)
        else
          let d := resetBuffer i d in
          let made :=
            makeBuffer (if copyAfterEvaluation info then PinnedBuffer else GpuBuffer) d in
          let d := updNode i (set_buffer (Some made.1)) made.2 in
          (bufferPtr d i Device, d) in
      let d := dataMapSet Device i (mkSpan buffer nOut) d in
      let d := runKernel w Device i buffer nOut d in
      let d := emit (EEventRecord i) d in
      if copyAfterEvaluation info
      then dataMapSet Host i (mkSpan (bufferPtr d i Host) nOut) d
      else d
  end.

(** The two loops run after a node is done: over its clients, then over its
    servers. *)
Definition notifyClients (w : World) (i : nat) (d : RooFitDriver) : RooFitDriver :=
  foldl (λ d c,
    let d := updNode c (λ info, set_remServers (remServers info - 1) info) d in
    match _nodes d !! c with
    | Some info =>
        if bool_decide (remServers info = 0%Z) && computeInGPU info then assignToGPU w c d else d
    | None => d
    end) d (from_option clientInfos [] (_nodes d !! i)).

Definition releaseServers (i : nat) (d : RooFitDriver) : RooFitDriver :=
  foldl (λ d s,
    let d := updNode s (λ info, set_remClients (remClients info - 1) info) d in
    match _nodes d !! s with
    | Some info => if bool_decide (remClients info = 0%Z) then resetBuffer s d else d
    | None => d
    end) d (from_option serverInfos [] (_nodes d !! i)).

(** "find finished GPU nodes": the body for one node; [active i] is what
    info.stream->isActive() answers at this point. *)
Definition retireGPUNode (w : World) (active : nat → bool) (i : nat) (d : RooFitDriver)
    : RooFitDriver :=
  match _nodes d !! i with
  | None => d
  | Some info =>
      if bool_decide (remServers info = (-1)%Z) && negb (active i)
      then
        let d := updNode i (set_remServers (-2)) d in
        let d := notifyClients w i d in
        releaseServers i d
      else d
  end.

(** "find next CPU node": the first node with no remaining server that is not
    computed on the device. *)
Definition nextCPUNode (d : RooFitDriver) : option nat :=
  fst <$> list_find (λ info, remServers info = 0%Z ∧ computeInGPU info = false) (_nodes d).

(** "compute next CPU node" *)
Definition runCPUNode (w : World) (i : nat) (d : RooFitDriver) : RooFitDriver :=
  match _nodes d !! i with
  | None => d
  | Some info =>
      let d := updNode i (set_remServers (-2)) d in
      let d := if negb (fromDataset info) then computeCPUNode w i d else d in
      let d := notifyClients w i d in
      releaseServers i d
  end.

(** topNodeInfo.remServers == -2, for topNodeInfo = _nodes.back(); an empty
    node list has no back. *)
Definition topRetired (d : RooFitDriver) : bool :=
  match last (_nodes d) with
  | Some info => bool_decide (remServers info = (-2)%Z)
  | None => false
  end.

(** One round of the while loop. *)
Definition scheduleRound (w : World) (active : nat → bool) (d : RooFitDriver) : RooFitDriver :=
  let d := forNodes (retireGPUNode w active) d in
  match nextCPUNode d with
  | None => emit ESleep d
  | Some i => runCPUNode w i d
  end.

(** The while loop.  [isActive t i] is the answer of the stream of node [i] in
    round [t]; the loop may run forever, so it is given [fuel] rounds. *)
Fixpoint schedule (w : World) (isActive : nat → nat → bool) (fuel t : nat) (d : RooFitDriver)
    : option RooFitDriver :=
  if topRetired d then Some d
  else
    match fuel with
    | 0 => None
    | S fuel => schedule w isActive fuel (S t) (scheduleRound w (isActive t) d)
    end.

(** The two for loops before the while loop. *)
Definition resetCounters (d : RooFitDriver) : RooFitDriver :=
  forNodes (λ i d,
    let d := updNode i (λ info, set_remClients (Z.of_nat (length (clientInfos info))) info) d in
    let d := updNode i (λ info, set_remServers (Z.of_nat (length (serverInfos info))) info) d in
    resetBuffer i d) d.

Definition assignInitialGPUNodes (w : World) (d : RooFitDriver) : RooFitDriver :=
  forNodes (λ i d,
    match _nodes d !! i with
    | Some info =>
        if bool_decide (remServers info = 0%Z) && computeInGPU info then assignToGPU w i d else d
    | None => d
    end) d.

Definition getValHeterogeneous (w : World) (isActive : nat → nat → bool) (fuel : nat)
    (d : RooFitDriver) : option (option val * RooFitDriver) :=
  let d := resetCounters d in
  let d := assignInitialGPUNodes w d in
  d ← schedule w isActive fuel 0 d;
  Some (topValue w d, d).

(** ** getVal *)

Definition getValHost (w : World) (d : RooFitDriver) : option val * RooFitDriver :=
  let d := forNodes (evaluateNode w) d in
  (topValue w d, d).

Definition getVal (w : World) (isActive : nat → nat → bool) (fuel : nat) (d : RooFitDriver)
    : option (option val * RooFitDriver) :=
  let d := set_getValInvocations (S (_getValInvocations d)) d in
  if inCudaMode d then getValHeterogeneous w isActive fuel d
  else Some (getValHost w d).

(** ** getValues *)

(** getValues calls getVal and copies the span of the top node in the host
    data map; nothing where there is none to read. *)
Definition getValues (w : World) (isActive : nat → nat → bool) (fuel : nat) (d : RooFitDriver)
    : option (option (list val) * RooFitDriver) :=
  '(_, d) ← getVal w isActive fuel d;
  Some (readSpan w Host d (dataMapAt Host (topNode d) d), d).
(** * Properties *)

(** ** Loops over the node list *)

Lemma foldl_seq_ind {A} (P : nat → A → Prop) (f : A → nat → A) (a : A) (n : nat) :
  P 0 a →
  (∀ k a', k < n → P k a' → P (S k) (f a' k)) →
  P n (foldl f a (seq 0 n)).
Proof.
  intros H0 Hstep. induction n as [|n IH].
  - exact H0.
  - rewrite seq_S, foldl_snoc. simpl. apply Hstep; [lia|].
    apply IH. intros k a' Hk. apply Hstep. lia.
Qed.

Lemma forNodes_ind (P : nat → RooFitDriver → Prop) body d :
  P 0 d →
  (∀ k d', k < length (_nodes d) → P k d' → P (S k) (body k d')) →
  P (length (_nodes d)) (forNodes body d).
Proof. intros H0 Hstep. unfold forNodes. by apply (foldl_seq_ind P). Qed.

Lemma nodes_updNode i f d : _nodes (updNode i f d) = alter f i (_nodes d).
Proof. reflexivity. Qed.

Lemma lookup_updNode i f d j :
  _nodes (updNode i f d) !! j = if decide (i = j) then f <$> _nodes d !! i else _nodes d !! j.
Proof. apply list_lookup_alter. Qed.

Lemma lookup_updNode_eq i f d : _nodes (updNode i f d) !! i = f <$> _nodes d !! i.
Proof. apply list_lookup_alter_eq. Qed.

Lemma lookup_updNode_ne i f d j : i ≠ j → _nodes (updNode i f d) !! j = _nodes d !! j.
Proof. apply list_lookup_alter_ne. Qed.

Lemma length_updNode i f d : length (_nodes (updNode i f d)) = length (_nodes d).
Proof. apply length_alter. Qed.

(** ** Device placement (markGPUNodes) *)

Lemma computeInGPUAt_updNode_copy i b d c :
  computeInGPUAt (updNode i (set_copyAfterEvaluation b) d) c = computeInGPUAt d c.
Proof.
  unfold computeInGPUAt. rewrite lookup_updNode.
  case_decide; subst; [|done]. by destruct (_nodes d !! c).
Qed.

Lemma updNode_copy_twice i b b' d :
  updNode i (set_copyAfterEvaluation b') (updNode i (set_copyAfterEvaluation b) d)
  = updNode i (set_copyAfterEvaluation b') d.
Proof.
  destruct d. unfold updNode, set_nodes. simpl. f_equal.
  rewrite list_alter_alter_eq. by apply list_alter_ext.
Qed.

Lemma length_markGPUNodes d : length (_nodes (markGPUNodes d)) = length (_nodes d).
Proof.
  unfold markGPUNodes.
  apply (forNodes_ind (λ _ d', length (_nodes d') = length (_nodes d))); [done|].
  intros k d' _ H. repeat case_match; by rewrite ?length_updNode.
Qed.

Lemma clientOnOtherSide_ext d d' info :
  (∀ c, computeInGPUAt d' c = computeInGPUAt d c) →
  clientOnOtherSide d' info = clientOnOtherSide d info.
Proof.
  intros H. unfold clientOnOtherSide.
  induction (clientInfos info) as [|c l IH]; simpl; [done|]. by rewrite H, IH.
Qed.

(** markGPUNodes changes nothing but the copyAfterEvaluation flags, and sets
    the flag of each node from the placement of the node and of its clients. *)
Lemma markGPUNodes_lookup d i info :
  _nodes d !! i = Some info →
  _nodes (markGPUNodes d) !! i =
    Some (set_copyAfterEvaluation (negb (isScalar info) && clientOnOtherSide d info) info).
Proof.
  intros Hi. unfold markGPUNodes.
  pose (g := λ x, set_copyAfterEvaluation (negb (isScalar x) && clientOnOtherSide d x) x).
  pose (P := λ (k : nat) (d' : RooFitDriver),
    (∀ c, computeInGPUAt d' c = computeInGPUAt d c) ∧
    ∀ j x, _nodes d !! j = Some x →
      _nodes d' !! j = Some (if decide (j < k) then g x else x)).
  match goal with |- _nodes (forNodes ?body d) !! i = _ =>
    assert (P (length (_nodes d)) (forNodes body d)) as [_ HP] end.
  { apply forNodes_ind.
    - split; [done|]. intros j x Hj. by rewrite decide_False by lia.
    - intros k d' Hk [Hc Hn].
      destruct (lookup_lt_is_Some_2 (_nodes d) k Hk) as [x Hx].
      rewrite (Hn k x Hx), decide_False by lia.
      rewrite (clientOnOtherSide_ext d) by (intros c; by rewrite computeInGPUAt_updNode_copy).
      assert (∀ b, (∀ c, computeInGPUAt (updNode k (set_copyAfterEvaluation b) d') c
                          = computeInGPUAt d c) ∧
                ∀ j y, _nodes d !! j = Some y →
                _nodes (updNode k (set_copyAfterEvaluation b) d') !! j =
                  Some (if decide (j = k) then set_copyAfterEvaluation b x
                        else if decide (j < k) then g y else y)) as Hupd.
      { intros b. split; [intros c; by rewrite computeInGPUAt_updNode_copy|].
        intros j y Hj. rewrite lookup_updNode. case_decide; subst.
        - rewrite decide_True by done. rewrite (Hn j x Hx), decide_False by lia. done.
        - rewrite decide_False by done. by rewrite (Hn j y Hj). }
      assert (P (S k) (updNode k (set_copyAfterEvaluation
                (negb (isScalar x) && clientOnOtherSide d x)) d')) as HP.
      { destruct (Hupd (negb (isScalar x) && clientOnOtherSide d x)) as [Hc' Hn'].
        split; [done|]. intros j y Hj. rewrite (Hn' j y Hj).
        repeat case_decide; subst; try lia; try done.
        rewrite Hx in Hj. by simplify_eq. }
      destruct (isScalar x); simpl in *; [done|].
      destruct (clientOnOtherSide d x); [|done].
      by rewrite updNode_copy_twice. }
  rewrite (HP i info Hi). rewrite decide_True; [done|]. by eapply lookup_lt_Some.
Qed.

Lemma elem_of_existsb {A} (f : A → bool) (l : list A) :
  existsb f l = true ↔ ∃ x, x ∈ l ∧ f x = true.
Proof.
  rewrite existsb_exists. split; intros (x & Hx & Hf); exists x;
    (split; [by apply list_elem_of_In|done]).
Qed.

(** C4.  A node computes on the device iff it is a reducer or not scalar,
    and its kernel can compute with CUDA.  markGPUNodes leaves everything but
    the copyAfterEvaluation flags as it was, and afterwards the flag of a node
    is set iff the node is not scalar and one of its clients is placed on a
    side different from the node's own. *)
Theorem markGPUNodes_placement d i info :
  _nodes d !! i = Some info →
  (computeInGPU info = true ↔
     (isReducerNode (absArg info) = true ∨ outputSize info ≠ 1)
     ∧ canComputeBatchWithCuda (absArg info) = true)
  ∧ ∃ info',
      _nodes (markGPUNodes d) !! i = Some info'
      ∧ computeInGPU info' = computeInGPU info
      ∧ outputSize info' = outputSize info
      ∧ clientInfos info' = clientInfos info
      ∧ (copyAfterEvaluation info' = true ↔
           outputSize info' ≠ 1
           ∧ ∃ c, c ∈ clientInfos info'
                  ∧ computeInGPUAt (markGPUNodes d) c ≠ computeInGPU info').
Proof.
  intros Hi. split.
  - unfold computeInGPU, isScalar.
    rewrite andb_true_iff, orb_true_iff, negb_true_iff, Nat.eqb_neq. tauto.
  - eexists. split; [by apply markGPUNodes_lookup|].
    do 3 (split; [done|]). simpl.
    assert (∀ c, computeInGPUAt (markGPUNodes d) c = computeInGPUAt d c) as Hat.
    { intros c. unfold computeInGPUAt. destruct (_nodes d !! c) as [y|] eqn:Hy.
      - by rewrite (markGPUNodes_lookup d c y Hy).
      - apply lookup_ge_None in Hy.
        rewrite (proj2 (lookup_ge_None _ _)); [done|]. by rewrite length_markGPUNodes. }
    rewrite andb_true_iff, negb_true_iff. unfold isScalar, clientOnOtherSide.
    rewrite Nat.eqb_neq, elem_of_existsb.
    split; intros [Hs (c & Hc & H)]; (split; [done|]); exists c; (split; [done|]).
    + apply negb_true_iff, eqb_false_iff in H. rewrite Hat. intros Heq. by rewrite Heq in H.
    + apply negb_true_iff, eqb_false_iff. rewrite Hat in H. intros Heq. by rewrite <- Heq in H.
Qed.

(** ** Binding the dataset (setData) *)

(** What the first loop of setData makes of node [j]. *)
Definition boundNode (dataSpans : gmap string Span) (j : nat) (x : NodeInfo) : NodeInfo :=
  match dataSpans !! namePtr (absArg x) with
  | Some _ => set_isDirty false (set_fromDataset true (set_dataToken (Some j) (set_buffer None x)))
  | None => set_isDirty true (set_fromDataset false (set_buffer None x))
  end.

Definition boundSpan (dataSpans : gmap string Span) (d : RooFitDriver) (j : nat) : option Span :=
  match (x ← _nodes d !! j; dataSpans !! namePtr (absArg x)) with
  | Some found => Some found
  | None => _dataMapCPU d !! j
  end.

Lemma resetBuffer_lookup i d j :
  _nodes (resetBuffer i d) !! j =
    if decide (i = j) then set_buffer None <$> _nodes d !! j else _nodes d !! j.
Proof.
  unfold resetBuffer. case_decide; subst.
  - destruct (_nodes d !! j) as [x|] eqn:Hx; [|by rewrite Hx].
    destruct (buffer x) eqn:Hb.
    + rewrite lookup_updNode_eq. simpl. by rewrite Hx.
    + rewrite Hx. simpl. f_equal. destruct x; simpl in *. by subst.
  - destruct (_nodes d !! i) as [x|]; [|done].
    destruct (buffer x); [|done]. by rewrite lookup_updNode_ne.
Qed.

Lemma resetBuffer_buffers i d b :
  _buffers (resetBuffer i d) !! b =
    if decide ((_nodes d !! i) ≫= buffer = Some b) then None else _buffers d !! b.
Proof.
  unfold resetBuffer. destruct (_nodes d !! i) as [x|] eqn:Hx.
  - destruct (buffer x) as [b'|] eqn:Hb; case_decide as Hd; simpl in Hd; rewrite ?Hb in Hd;
      simplify_eq; simpl; try done.
    + apply lookup_delete_eq.
    + apply lookup_delete_ne. congruence.
  - case_decide as Hd; [simpl in Hd; done|done].
Qed.

Lemma resetBuffer_frame i d :
  _dataMapCPU (resetBuffer i d) = _dataMapCPU d
  ∧ _dataMapCUDA (resetBuffer i d) = _dataMapCUDA d
  ∧ _trace (resetBuffer i d) = _trace d
  ∧ _batchMode (resetBuffer i d) = _batchMode d
  ∧ _nextBuffer (resetBuffer i d) = _nextBuffer d
  ∧ _cudaMemDataset (resetBuffer i d) = _cudaMemDataset d
  ∧ length (_nodes (resetBuffer i d)) = length (_nodes d).
Proof.
  unfold resetBuffer. destruct (_nodes d !! i) as [x|]; [|done].
  destruct (buffer x); [|done]. simpl. by rewrite length_alter.
Qed.

(** The state after [k] rounds of the first loop. *)
Record boundUpTo (dataSpans : gmap string Span) (d : RooFitDriver) (k : nat)
    (acc : nat * RooFitDriver) : Prop := {
  bound_nodes : ∀ j x, _nodes d !! j = Some x →
    _nodes acc.2 !! j = Some (if decide (j < k) then boundNode dataSpans j x else x);
  bound_length : length (_nodes acc.2) = length (_nodes d);
  bound_dataMapCPU : ∀ j,
    _dataMapCPU acc.2 !! j = if decide (j < k) then boundSpan dataSpans d j else _dataMapCPU d !! j;
  bound_buffers : ∀ b,
    _buffers acc.2 !! b = None ∨
    (_buffers acc.2 !! b = _buffers d !! b ∧ ∀ j x, j < k → _nodes d !! j = Some x → buffer x ≠ Some b);
  bound_frame :
    _dataMapCUDA acc.2 = _dataMapCUDA d ∧ _batchMode acc.2 = _batchMode d
    ∧ _nextBuffer acc.2 = _nextBuffer d;
  bound_trace : ∃ evs, _trace acc.2 = _trace d ++ evs
    ∧ ∀ e, e ∈ evs → ∃ j s, e = ESetDataMap Host j s;
}.

Lemma bindDataSpan_step dataSpans d k acc :
  k < length (_nodes d) →
  boundUpTo dataSpans d k acc → boundUpTo dataSpans d (S k) (bindDataSpan dataSpans k acc).
Proof.
  intros Hk [Hn Hl Hm Hb (Hf1 & Hf2 & Hf3) (evs & Ht & Hev)]. destruct acc as [total d']. simpl in *.
  destruct (lookup_lt_is_Some_2 (_nodes d) k Hk) as [x Hx].
  pose proof (Hn k x Hx) as Hk'. rewrite decide_False in Hk' by lia.
  destruct (resetBuffer_frame k d') as (R1 & R2 & R3 & R4 & R5 & R6 & R7).
  unfold bindDataSpan. rewrite resetBuffer_lookup, decide_True, Hk' by done. simpl.
  assert (∀ b, _buffers (resetBuffer k d') !! b = None ∨
     (_buffers (resetBuffer k d') !! b = _buffers d !! b ∧
      ∀ j y, j < S k → _nodes d !! j = Some y → buffer y ≠ Some b)) as Hb'.
  { intros b. rewrite resetBuffer_buffers, Hk'. simpl. case_decide as Hd; [by left|].
    destruct (Hb b) as [?|[? Hnb]]; [by left|right]. split; [done|].
    intros j y Hj Hy. destruct (decide (j = k)) as [->|]; [congruence|].
    apply (Hnb j); [lia|done]. }
  assert (boundNode dataSpans k x =
    match dataSpans !! namePtr (absArg x) with
    | Some _ => set_isDirty false (set_fromDataset true (set_dataToken (Some k) (set_buffer None x)))
    | None => set_isDirty true (set_fromDataset false (set_buffer None x))
    end) as Hbn by done.
  assert (boundSpan dataSpans d k =
    match dataSpans !! namePtr (absArg x) with
    | Some found => Some found
    | None => _dataMapCPU d !! k
    end) as Hbs by (unfold boundSpan; rewrite Hx; done).
  destruct (dataSpans !! namePtr (absArg x)) as [found|] eqn:Hfound.
  - split; simpl.
    + intros j y Hy. destruct (decide (j = k)) as [->|Hne].
      * rewrite !list_lookup_alter_eq, resetBuffer_lookup, decide_True, Hk' by done.
        rewrite decide_True by lia. simplify_eq. by rewrite Hbn.
      * rewrite !list_lookup_alter_ne, resetBuffer_lookup, decide_False, (Hn j y Hy) by done.
        repeat case_decide; try lia; done.
    + by rewrite !length_alter, R7.
    + intros j. rewrite R1. destruct (decide (j = k)) as [->|].
      * by rewrite lookup_insert_eq, decide_True, Hbs by lia.
      * rewrite lookup_insert_ne, Hm by done. repeat case_decide; try lia; done.
    + done.
    + by rewrite R2, R4, R5.
    + rewrite R3, Ht. exists (evs ++ [ESetDataMap Host k found]).
      split; [by rewrite app_assoc|]. intros e [He|He]%elem_of_app; [by apply Hev|].
      apply list_elem_of_singleton in He. eauto.
  - split; simpl.
    + intros j y Hy. destruct (decide (j = k)) as [->|Hne].
      * rewrite !list_lookup_alter_eq, resetBuffer_lookup, decide_True, Hk' by done.
        rewrite decide_True by lia. simplify_eq. by rewrite Hbn.
      * rewrite !list_lookup_alter_ne, resetBuffer_lookup, decide_False, (Hn j y Hy) by done.
        repeat case_decide; try lia; done.
    + by rewrite !length_alter, R7.
    + intros j. rewrite R1, Hm. destruct (decide (j = k)) as [->|].
      * by rewrite decide_False, decide_True, Hbs by lia.
      * repeat case_decide; try lia; done.
    + done.
    + by rewrite R2, R4, R5.
    + rewrite R3, Ht. eauto.
Qed.

Lemma bindDataSpan_loop dataSpans d :
  boundUpTo dataSpans d (length (_nodes d))
    (foldl (λ acc i, bindDataSpan dataSpans i acc) (0, d) (seq 0 (length (_nodes d)))).
Proof.
  apply (foldl_seq_ind (boundUpTo dataSpans d)).
  - split; simpl.
    + intros j x Hx. repeat case_decide; try lia; done.
    + done.
    + intros j. repeat case_decide; try lia; done.
    + intros b. right. split; [done|]. intros; lia.
    + done.
    + exists []. split; [by rewrite app_nil_r|]. by intros e ?%elem_of_nil.
  - intros k acc Hk H. by apply bindDataSpan_step.
Qed.

(** Everything of the driver but the node list and the stack of operation
    modes to restore. *)
Definition frameEq (d d' : RooFitDriver) : Prop :=
  _batchMode d' = _batchMode d ∧ _getValInvocations d' = _getValInvocations d
  ∧ _dataMapCPU d' = _dataMapCPU d ∧ _dataMapCUDA d' = _dataMapCUDA d
  ∧ _nextBuffer d' = _nextBuffer d ∧ _buffers d' = _buffers d
  ∧ _cudaMemDatasetSize d' = _cudaMemDatasetSize d ∧ _cudaMemDataset d' = _cudaMemDataset d
  ∧ _trace d' = _trace d.

Lemma frameEq_refl d : frameEq d d.
Proof. by repeat split. Qed.

Lemma frameEq_trans d1 d2 d3 : frameEq d1 d2 → frameEq d2 d3 → frameEq d1 d3.
Proof. unfold frameEq. intros ??. destruct_and!. repeat split; congruence. Qed.

Lemma frameEq_updNode i f d : frameEq d (updNode i f d).
Proof. by repeat split. Qed.

Lemma frameEq_setOperMode i m d : frameEq d (setOperMode i m d).
Proof. unfold setOperMode. repeat case_match; by repeat split. Qed.

Lemma frameEq_markGPUNodes d : frameEq d (markGPUNodes d).
Proof.
  unfold markGPUNodes. apply (forNodes_ind (λ _ d', frameEq d d')); [apply frameEq_refl|].
  intros k d' _ H. repeat case_match; try done;
    repeat (eapply frameEq_trans; [|apply frameEq_updNode]); done.
Qed.

(** What the second loop of setData makes of node [j]. *)
Definition sizedNode (outputSizeMap : nat → nat) (j : nat) (x : NodeInfo) : NodeInfo :=
  let x' := set_outputSize (outputSizeMap j) x in
  if negb (outputSizeMap j =? 1) && bool_decide (ADirty ≠ operMode x)
  then set_operMode ADirty x' else x'.

Lemma bindOutputSize_lookup m k d j :
  _nodes (bindOutputSize m k d) !! j =
    if decide (k = j) then sizedNode m k <$> _nodes d !! k else _nodes d !! j.
Proof.
  unfold bindOutputSize, sizedNode, setOperMode.
  rewrite lookup_updNode_eq.
  destruct (_nodes d !! k) as [x|] eqn:Hx; simpl.
  - destruct (negb (m k =? 1)); simpl; [case_bool_decide; simpl|];
      rewrite ?list_lookup_alter, ?Hx; by repeat case_decide.
  - destruct (negb (m k =? 1)); simpl; rewrite ?list_lookup_alter, ?Hx; by repeat case_decide.
Qed.

Lemma bindOutputSize_frame m k d :
  frameEq d (bindOutputSize m k d) ∧ length (_nodes (bindOutputSize m k d)) = length (_nodes d).
Proof.
  unfold bindOutputSize. split.
  - case_match; [eapply frameEq_trans; [|apply frameEq_setOperMode]|]; apply frameEq_updNode.
  - unfold setOperMode. repeat case_match; simpl; by rewrite ?length_alter.
Qed.

Lemma bindOutputSize_loop m d :
  let d' := forNodes (bindOutputSize m) d in
  frameEq d d' ∧ length (_nodes d') = length (_nodes d)
  ∧ ∀ j x, _nodes d !! j = Some x → _nodes d' !! j = Some (sizedNode m j x).
Proof.
  pose (P := λ (k : nat) (d' : RooFitDriver),
    frameEq d d' ∧ length (_nodes d') = length (_nodes d)
    ∧ ∀ j x, _nodes d !! j = Some x →
        _nodes d' !! j = Some (if decide (j < k) then sizedNode m j x else x)).
  assert (P (length (_nodes d)) (forNodes (bindOutputSize m) d)) as (Hf & Hl & Hn).
  { apply forNodes_ind.
    - split; [apply frameEq_refl|]. split; [done|]. intros j x Hx.
      repeat case_decide; try lia; done.
    - intros k d' Hk (Hf & Hl & Hn). destruct (bindOutputSize_frame m k d') as [Hf' Hl'].
      split; [by eapply frameEq_trans|]. split; [congruence|].
      intros j x Hx. rewrite bindOutputSize_lookup.
      destruct (decide (k = j)) as [->|].
      + rewrite (Hn j x Hx), decide_False, decide_True by lia. done.
      + rewrite (Hn j x Hx). repeat case_decide; try lia; done. }
  simpl. split; [done|]. split; [done|]. intros j x Hx. rewrite (Hn j x Hx).
  rewrite decide_True; [done|]. by eapply lookup_lt_Some.
Qed.

(** *** The copy of the observables to the device *)

(** How many doubles the loop copies for node [j]. *)
Definition copiedSize (d : RooFitDriver) (j : nat) : nat :=
  match _nodes d !! j with
  | Some x => if fromDataset x && negb (outputSize x =? 1) then outputSize x else 0
  | None => 0
  end.

(** [idx] when the loop reaches node [k]. *)
Definition deviceOffset (d : RooFitDriver) (k : nat) : nat :=
  sum_list_with (copiedSize d) (seq 0 k).

Definition deviceSpan (d : RooFitDriver) (j : nat) : option Span :=
  match _nodes d !! j with
  | Some x =>
      if fromDataset x
      then Some (if outputSize x =? 1 then dataMapAt Host j d
                 else mkSpan (PDataset (deviceOffset d j)) (outputSize x))
      else _dataMapCUDA d !! j
  | None => _dataMapCUDA d !! j
  end.

Definition deviceEvents (d : RooFitDriver) (j : nat) : list Event :=
  match _nodes d !! j with
  | Some x =>
      if fromDataset x
      then
        if outputSize x =? 1
        then [ESetDataMap Device j (dataMapAt Host j d)]
        else [ESetDataMap Device j (mkSpan (PDataset (deviceOffset d j)) (outputSize x));
              ECopyHostToDevice (spanPtr (dataMapAt Host j d)) (PDataset (deviceOffset d j))
                (outputSize x)]
      else []
  | None => []
  end.

Record copiedUpTo (d : RooFitDriver) (k : nat) (acc : nat * RooFitDriver) : Prop := {
  copied_idx : acc.1 = deviceOffset d k;
  copied_nodes : _nodes acc.2 = _nodes d;
  copied_frame : _dataMapCPU acc.2 = _dataMapCPU d ∧ _batchMode acc.2 = _batchMode d
    ∧ _buffers acc.2 = _buffers d ∧ _nextBuffer acc.2 = _nextBuffer d
    ∧ _cudaMemDatasetSize acc.2 = _cudaMemDatasetSize d;
  copied_trace : _trace acc.2 = _trace d ++ (seq 0 k ≫= deviceEvents d);
  copied_dataMapCUDA : ∀ j,
    _dataMapCUDA acc.2 !! j = if decide (j < k) then deviceSpan d j else _dataMapCUDA d !! j;
}.

Lemma deviceOffset_S d k : deviceOffset d (S k) = deviceOffset d k + copiedSize d k.
Proof. unfold deviceOffset. rewrite seq_S, sum_list_with_app. simpl. lia. Qed.

Lemma copyToDevice_step w d k acc :
  copiedUpTo d k acc → copiedUpTo d (S k) (copyToDevice w k acc).
Proof.
  intros [Hi Hn (F1 & F2 & F3 & F4 & F5) Ht Hm]. destruct acc as [idx d']. simpl in *.
  assert (∀ s j, <[k := s]> (_dataMapCUDA d') !! j =
      if decide (j < S k) then (if decide (j = k) then Some s else deviceSpan d j)
      else _dataMapCUDA d !! j) as Hins.
  { intros s j. destruct (decide (j = k)) as [->|].
    - by rewrite lookup_insert_eq, decide_True by lia.
    - rewrite lookup_insert_ne, Hm by done. repeat case_decide; try lia; done. }
  assert (∃ E, E = seq 0 (S k) ≫= deviceEvents d
            ∧ E = (seq 0 k ≫= deviceEvents d) ++ deviceEvents d k) as (E & HE & Hev).
  { eexists. split; [done|]. rewrite seq_S, bind_app. simpl. by rewrite app_nil_r. }
  assert (∃ o, o = deviceOffset d (S k) ∧ o = deviceOffset d k + copiedSize d k)
    as (o & Ho & Hoff).
  { eexists. split; [done|]. apply deviceOffset_S. }
  assert (∀ j, deviceSpan d j = deviceSpan d j) as Hds by done.
  unfold copyToDevice. rewrite Hn.
  unfold copiedSize in Hoff. unfold deviceEvents in Hev. unfold deviceSpan at 2 in Hds.
  specialize (Hds k).
  destruct (_nodes d !! k) as [x|] eqn:Hx;
    [destruct (fromDataset x) eqn:Hfd;
       [destruct (outputSize x =? 1) eqn:Hs|]|];
    simpl in Hoff, Hev, Hds; split; rewrite <- ?HE, <- ?Ho; unfold dataMapAt; simpl;
    rewrite ?F1; fold (dataMapAt Host k d); try done; try lia.
  all: try (rewrite Ht, Hev, ?Hi, <- ?app_assoc, ?app_nil_r; done).
  all: intros j; rewrite ?Hins, ?Hm; repeat case_decide; subst; try lia; try done.
  all: try (by rewrite ?Hds, ?Hi).
  all: assert (j = k) as -> by lia; by rewrite ?Hds, ?Hi.
Qed.

Lemma copyToDevice_loop w d n :
  copiedUpTo d n (foldl (λ acc i, copyToDevice w i acc) (0, d) (seq 0 n)).
Proof.
  apply (foldl_seq_ind (copiedUpTo d)).
  - split; simpl; try done; try (by rewrite app_nil_r).
    all: intros j; repeat case_decide; try lia; done.
  - intros k acc _ H. by apply copyToDevice_step.
Qed.

(** *** setData as a whole *)

Lemma setData_stages w dataSpans m d :
  ∃ total d1 d2,
    foldl (λ acc i, bindDataSpan dataSpans i acc) (0, d) (seq 0 (length (_nodes d))) = (total, d1)
    ∧ d2 = forNodes (bindOutputSize m) d1
    ∧ setData w dataSpans m d =
        if negb R__HAS_CUDA then d2
        else if bool_decide (_batchMode d2 ≠ Cuda) then d2
        else markGPUNodes
               (foldl (λ acc i, copyToDevice w i acc)
                  (0, set_cudaMemDataset ∅ (set_cudaMemDatasetSize total d2))
                  (seq 0 (length (_nodes d)))).2.
Proof.
  unfold setData.
  destruct (foldl _ (0, d) _) as [total d1]. exists total, d1, (forNodes (bindOutputSize m) d1).
  do 2 (split; [done|]).
  destruct (negb R__HAS_CUDA); [done|]. case_bool_decide; [done|].
  by destruct (foldl _ (0, _) _).
Qed.

Lemma sizedNode_fields m j x :
  buffer (sizedNode m j x) = buffer x ∧ fromDataset (sizedNode m j x) = fromDataset x
  ∧ isDirty (sizedNode m j x) = isDirty x ∧ absArg (sizedNode m j x) = absArg x
  ∧ outputSize (sizedNode m j x) = m j ∧ clientInfos (sizedNode m j x) = clientInfos x
  ∧ serverInfos (sizedNode m j x) = serverInfos x ∧ isVariable (sizedNode m j x) = isVariable x.
Proof. unfold sizedNode. by case_match. Qed.

Lemma boundNode_fields dataSpans j x :
  buffer (boundNode dataSpans j x) = None ∧ absArg (boundNode dataSpans j x) = absArg x
  ∧ outputSize (boundNode dataSpans j x) = outputSize x
  ∧ clientInfos (boundNode dataSpans j x) = clientInfos x
  ∧ serverInfos (boundNode dataSpans j x) = serverInfos x
  ∧ isVariable (boundNode dataSpans j x) = isVariable x
  ∧ fromDataset (boundNode dataSpans j x) = bool_decide (is_Some (dataSpans !! namePtr (absArg x)))
  ∧ isDirty (boundNode dataSpans j x) = negb (fromDataset (boundNode dataSpans j x)).
Proof.
  unfold boundNode. destruct (dataSpans !! namePtr (absArg x)) eqn:H; simpl; repeat split;
    try (by rewrite bool_decide_eq_true_2);
    try (rewrite bool_decide_eq_false_2; [done|]; by intros [? ?]).
Qed.

(** The node list and the host data map after setData. *)
Lemma setData_nodes w dataSpans m d :
  let d' := setData w dataSpans m d in
  length (_nodes d') = length (_nodes d)
  ∧ (∀ j, _dataMapCPU d' !! j = if decide (j < length (_nodes d)) then boundSpan dataSpans d j
                                 else _dataMapCPU d !! j)
  ∧ _batchMode d' = _batchMode d
  ∧ (∀ b, _buffers d' !! b = None ∨
          (_buffers d' !! b = _buffers d !! b ∧ ∀ j x, _nodes d !! j = Some x → buffer x ≠ Some b))
  ∧ ∀ j x, _nodes d !! j = Some x →
      ∃ c, _nodes d' !! j =
             Some (set_copyAfterEvaluation c (sizedNode m j (boundNode dataSpans j x))).
Proof.
  destruct (setData_stages w dataSpans m d) as (total & d1 & d2 & H1 & H2 & ->).
  pose proof (bindDataSpan_loop dataSpans d) as B. rewrite H1 in B.
  destruct B as [Bn Bl Bm Bb (Bf1 & Bf2 & Bf3) _]. simpl in *.
  destruct (bindOutputSize_loop m d1) as (Sf & Sl & Sn). rewrite <- H2 in Sf, Sl, Sn.
  destruct Sf as (S1 & S2 & S3 & S4 & S5 & S6 & S7 & S8 & S9).
  assert (length (_nodes d2) = length (_nodes d)
    ∧ (∀ j, _dataMapCPU d2 !! j = if decide (j < length (_nodes d)) then boundSpan dataSpans d j
                                  else _dataMapCPU d !! j)
    ∧ _batchMode d2 = _batchMode d
    ∧ (∀ b, _buffers d2 !! b = None ∨
          (_buffers d2 !! b = _buffers d !! b ∧ ∀ j x, _nodes d !! j = Some x → buffer x ≠ Some b))
    ∧ ∀ j x, _nodes d !! j = Some x →
        _nodes d2 !! j = Some (sizedNode m j (boundNode dataSpans j x))) as (L2 & M2 & B2 & U2 & N2).
  { split; [congruence|]. split; [intros j; by rewrite S3|]. split; [congruence|]. split.
    - intros b. rewrite S6. destruct (Bb b) as [?|[? Hb]]; [by left|right]. split; [done|].
      intros j x Hx. apply (Hb j x); [by eapply lookup_lt_Some|done].
    - intros j x Hx. erewrite Sn; [done|]. rewrite (Bn j x Hx), decide_True; [done|].
      by eapply lookup_lt_Some. }
  assert (∀ j x, _nodes d !! j = Some x →
     ∃ c, _nodes d2 !! j = Some (set_copyAfterEvaluation c (sizedNode m j (boundNode dataSpans j x))))
    as N2'.
  { intros j x Hx. exists (copyAfterEvaluation (sizedNode m j (boundNode dataSpans j x))).
    rewrite (N2 j x Hx). f_equal. by destruct (sizedNode m j (boundNode dataSpans j x)). }
  destruct (negb R__HAS_CUDA); [done|]. case_bool_decide; [done|].
  pose proof (copyToDevice_loop w (set_cudaMemDataset ∅ (set_cudaMemDatasetSize total d2))
                (length (_nodes d))) as C.
  destruct C as [_ Cn (C1 & C2 & C3 & C4 & C5) _ _]. simpl in *.
  match goal with |- context [markGPUNodes ?d3] => set (D3 := d3) in * end.
  destruct (frameEq_markGPUNodes D3) as (G1 & G2 & G3 & G4 & G5 & G6 & G7 & G8 & G9).
  split; [by rewrite length_markGPUNodes, Cn|].
  split; [intros j; by rewrite G3, C1|].
  split; [congruence|].
  split; [intros b; by rewrite G6, C3|].
  intros j x Hx. eexists. erewrite markGPUNodes_lookup; [|by rewrite Cn; apply N2].
  f_equal.
Qed.

(** The span the data has for node [j], if any. *)
Definition spanOf (dataSpans : gmap string Span) (d : RooFitDriver) (j : nat) : option Span :=
  x ← _nodes d !! j; dataSpans !! namePtr (absArg x).

(** The property C6 states: after setData every node has its buffer reset,
    the nodes with a span in the data have it published on the host and are
    fromDataset and not dirty, and the other nodes have both flags cleared. *)
Definition setData_clears_flags (w : World) (dataSpans : gmap string Span) (m : nat → nat)
    (d : RooFitDriver) : Prop :=
  ∀ i info, _nodes d !! i = Some info →
    ∃ info', _nodes (setData w dataSpans m d) !! i = Some info'
      ∧ buffer info' = None
      ∧ match dataSpans !! namePtr (absArg info) with
        | Some found =>
            _dataMapCPU (setData w dataSpans m d) !! i = Some found
            ∧ fromDataset info' = true ∧ isDirty info' = false
        | None => fromDataset info' = false ∧ isDirty info' = false
        end.

(** C6, amended.  setData resets the buffer of every node; a node whose name
    has a span in the data gets that span published in the host data map,
    fromDataset = true and isDirty = false; every other node keeps its entry
    of the host data map and gets fromDataset = false and isDirty = true. *)
Theorem setData_binds_dataset w dataSpans m d i info :
  _nodes d !! i = Some info →
  ∃ info', _nodes (setData w dataSpans m d) !! i = Some info'
    ∧ buffer info' = None
    ∧ (∀ b, buffer info = Some b → _buffers (setData w dataSpans m d) !! b = None)
    ∧ match dataSpans !! namePtr (absArg info) with
      | Some found =>
          _dataMapCPU (setData w dataSpans m d) !! i = Some found
          ∧ fromDataset info' = true ∧ isDirty info' = false
      | None =>
          _dataMapCPU (setData w dataSpans m d) !! i = _dataMapCPU d !! i
          ∧ fromDataset info' = false ∧ isDirty info' = true
      end.
Proof.
  intros Hi. destruct (setData_nodes w dataSpans m d) as (Hl & Hm & _ & Hb & Hn).
  destruct (Hn i info Hi) as [c Hc]. eexists. split; [exact Hc|].
  destruct (sizedNode_fields m i (boundNode dataSpans i info)) as (S1 & S2 & S3 & _).
  destruct (boundNode_fields dataSpans i info) as (B1 & _ & _ & _ & _ & _ & B2 & B3).
  simpl. split; [congruence|]. split.
  { intros b Hbuf. destruct (Hb b) as [?|[_ Hno]]; [done|]. by destruct (Hno i info Hi). }
  rewrite Hm, decide_True by (by eapply lookup_lt_Some).
  unfold boundSpan. rewrite Hi. simpl. rewrite S2, S3, B3, B2.
  destruct (dataSpans !! namePtr (absArg info)) as [found|] eqn:Hf.
  - rewrite bool_decide_eq_true_2 by done. done.
  - rewrite bool_decide_eq_false_2 by (by intros [? ?]). done.
Qed.

(** *** The spans published on the device *)

(** What the loop copies for node [j], and where to, in terms of the data. *)
Definition datasetCopySize (dataSpans : gmap string Span) (m : nat → nat) (d : RooFitDriver)
    (j : nat) : nat :=
  match spanOf dataSpans d j with
  | Some _ => if m j =? 1 then 0 else m j
  | None => 0
  end.

Definition datasetOffset (dataSpans : gmap string Span) (m : nat → nat) (d : RooFitDriver)
    (k : nat) : nat :=
  sum_list_with (datasetCopySize dataSpans m d) (seq 0 k).

Definition hostToDeviceCopies (evs : list Event) : list (Ptr * Ptr * nat) :=
  omap (λ e, match e with ECopyHostToDevice src dst n => Some (src, dst, n) | _ => None end) evs.

Lemma hostToDeviceCopies_app l k :
  hostToDeviceCopies (l ++ k) = hostToDeviceCopies l ++ hostToDeviceCopies k.
Proof. apply omap_app. Qed.

Lemma hostToDeviceCopies_bind {A} (f : A → list Event) (g : A → option (Ptr * Ptr * nat)) l :
  (∀ a, a ∈ l → hostToDeviceCopies (f a) = option_list (g a)) →
  hostToDeviceCopies (l ≫= f) = omap g l.
Proof.
  induction l as [|a l IH]; intros H; [done|].
  rewrite bind_cons, hostToDeviceCopies_app, H, IH by set_solver.
  simpl. by destruct (g a).
Qed.

(** C10.  In device mode setData leaves in the device data map, for every
    node with a span in the data, the host span itself when the node is
    scalar, and otherwise a span of the device array, at the offset that
    packs the non-scalar spans one after the other; and the host-to-device
    copies it performs are exactly those of the non-scalar spans, in the
    order of the nodes. *)
Theorem setData_device_spans w dataSpans m d :
  R__HAS_CUDA = true → _batchMode d = Cuda →
  (∀ j found, spanOf dataSpans d j = Some found →
     _dataMapCPU (setData w dataSpans m d) !! j = Some found
     ∧ _dataMapCUDA (setData w dataSpans m d) !! j =
         Some (if m j =? 1 then found
               else mkSpan (PDataset (datasetOffset dataSpans m d j)) (m j)))
  ∧ ∃ evs, _trace (setData w dataSpans m d) = _trace d ++ evs
      ∧ hostToDeviceCopies evs =
          omap (λ j, match spanOf dataSpans d j with
                     | Some found =>
                         if m j =? 1 then None
                         else Some (spanPtr found, PDataset (datasetOffset dataSpans m d j), m j)
                     | None => None
                     end) (seq 0 (length (_nodes d))).
Proof.
  intros Hcuda Hmode.
  destruct (setData_stages w dataSpans m d) as (total & d1 & d2 & H1 & H2 & ->).
  pose proof (bindDataSpan_loop dataSpans d) as B. rewrite H1 in B.
  destruct B as [Bn Bl Bm Bb (Bf1 & Bf2 & Bf3) (evs1 & Bt & Bev)]. simpl in *.
  destruct (bindOutputSize_loop m d1) as (Sf & Sl & Sn). rewrite <- H2 in Sf, Sl, Sn.
  destruct Sf as (S1 & S2 & S3 & S4 & S5 & S6 & S7 & S8 & S9).
  rewrite Hcuda. simpl. rewrite bool_decide_eq_false_2 by (intros ?; congruence).
  set (D3 := set_cudaMemDataset ∅ (set_cudaMemDatasetSize total d2)).
  destruct (copyToDevice_loop w D3 (length (_nodes d))) as [_ Cn (C1 & _) Ct Cm].
  match goal with |- context [markGPUNodes ?d4] => set (D4 := d4) in * end.
  destruct (frameEq_markGPUNodes D4) as (G1 & G2 & G3 & G4 & G5 & G6 & G7 & G8 & G9).
  (* the nodes and the host data map the copy loop starts from *)
  assert (∀ j x, _nodes d !! j = Some x →
            _nodes D3 !! j = Some (sizedNode m j (boundNode dataSpans j x))) as N3.
  { intros j x Hx. simpl. erewrite Sn; [done|]. rewrite (Bn j x Hx), decide_True; [done|].
    by eapply lookup_lt_Some. }
  assert (∀ j, _nodes d !! j = None → _nodes D3 !! j = None) as N3'.
  { intros j Hj. simpl. apply lookup_ge_None. apply lookup_ge_None in Hj. lia. }
  assert (∀ j found, spanOf dataSpans d j = Some found → dataMapAt Host j D3 = found) as A3.
  { intros j found Hf. unfold dataMapAt. simpl. rewrite S3, Bm.
    unfold spanOf in Hf. destruct (_nodes d !! j) as [x|] eqn:Hx; [|done].
    rewrite decide_True by (by eapply lookup_lt_Some).
    unfold boundSpan. rewrite Hx. simpl in *. by rewrite Hf. }
  assert (∀ j, copiedSize D3 j = datasetCopySize dataSpans m d j) as Hsize.
  { intros j. unfold copiedSize, datasetCopySize, spanOf.
    destruct (_nodes d !! j) as [x|] eqn:Hx.
    - rewrite (N3 j x Hx). simpl.
      destruct (sizedNode_fields m j (boundNode dataSpans j x)) as (_ & -> & _ & _ & -> & _).
      destruct (boundNode_fields dataSpans j x) as (_ & _ & _ & _ & _ & _ & -> & _).
      destruct (dataSpans !! namePtr (absArg x)).
      + rewrite bool_decide_eq_true_2 by done. simpl. by destruct (m j =? 1).
      + rewrite bool_decide_eq_false_2 by (by intros [? ?]). done.
    - by rewrite (N3' j Hx). }
  assert (∀ k, deviceOffset D3 k = datasetOffset dataSpans m d k) as Hoff.
  { intros k. unfold deviceOffset, datasetOffset.
    induction (seq 0 k) as [|a l IH]; simpl; [done|]. by rewrite Hsize, IH. }
  split.
  - intros j found Hf. rewrite G3, G4, C1, Cm.
    pose proof (A3 j found Hf) as Hat.
    unfold spanOf in Hf. destruct (_nodes d !! j) as [x|] eqn:Hx; [|done]. simpl in Hf.
    assert (j < length (_nodes d)) by (by eapply lookup_lt_Some).
    split.
    + simpl. rewrite S3, Bm, decide_True by done. unfold boundSpan. by rewrite Hx; simpl; rewrite Hf.
    + rewrite decide_True by done. unfold deviceSpan. rewrite (N3 j x Hx).
      destruct (sizedNode_fields m j (boundNode dataSpans j x)) as (_ & -> & _ & _ & -> & _).
      destruct (boundNode_fields dataSpans j x) as (_ & _ & _ & _ & _ & _ & -> & _).
      rewrite bool_decide_eq_true_2 by (by rewrite Hf). by rewrite Hat, Hoff.
  - exists (evs1 ++ (seq 0 (length (_nodes d)) ≫= deviceEvents D3)).
    split; [rewrite G9, Ct; simpl; by rewrite S9, Bt, app_assoc|].
    rewrite hostToDeviceCopies_app.
    assert (hostToDeviceCopies evs1 = []) as ->.
    { clear -Bev. induction evs1 as [|e l IH]; [done|].
      destruct (Bev e) as (j & s & ->); [set_solver|]. simpl. apply IH. intros; apply Bev. set_solver. }
    simpl. apply hostToDeviceCopies_bind. intros j _.
    unfold deviceEvents. destruct (spanOf dataSpans d j) as [found|] eqn:Hf.
    + rewrite (A3 j found Hf). unfold spanOf in Hf.
      destruct (_nodes d !! j) as [x|] eqn:Hx; [|done]. simpl in Hf.
      rewrite (N3 j x Hx).
      destruct (sizedNode_fields m j (boundNode dataSpans j x)) as (_ & -> & _ & _ & -> & _).
      destruct (boundNode_fields dataSpans j x) as (_ & _ & _ & _ & _ & _ & -> & _).
      rewrite bool_decide_eq_true_2 by (by rewrite Hf). rewrite Hoff.
      by destruct (m j =? 1).
    + unfold spanOf in Hf. destruct (_nodes d !! j) as [x|] eqn:Hx.
      * simpl in Hf. rewrite (N3 j x Hx).
        destruct (sizedNode_fields m j (boundNode dataSpans j x)) as (_ & -> & _).
        destruct (boundNode_fields dataSpans j x) as (_ & _ & _ & _ & _ & _ & -> & _).
        rewrite bool_decide_eq_false_2; [done|]. rewrite Hf. by intros [? ?].
      * by rewrite (N3' j Hx).
Qed.

(** *** The device array of the dataset *)

(** The size of the span the data has for node [j]; 0 if it has none. *)
Definition datasetSpanSize (dataSpans : gmap string Span) (d : RooFitDriver) (j : nat) : nat :=
  from_option spanSize 0 (spanOf dataSpans d j).

Lemma bindDataSpan_total dataSpans d :
  (foldl (λ acc i, bindDataSpan dataSpans i acc) (0, d) (seq 0 (length (_nodes d)))).1
  = sum_list_with (datasetSpanSize dataSpans d) (seq 0 (length (_nodes d))).
Proof.
  pose (P := λ (k : nat) (acc : nat * RooFitDriver),
    boundUpTo dataSpans d k acc
    ∧ acc.1 = sum_list_with (datasetSpanSize dataSpans d) (seq 0 k)).
  assert (P (length (_nodes d))
            (foldl (λ acc i, bindDataSpan dataSpans i acc) (0, d) (seq 0 (length (_nodes d)))))
    as [_ H]; [|done].
  apply (foldl_seq_ind P).
  { split; [|done]. split; simpl.
    - intros j x Hx. repeat case_decide; try lia; done.
    - done.
    - intros j. repeat case_decide; try lia; done.
    - intros b. right. split; [done|]. intros; lia.
    - done.
    - exists []. split; [by rewrite app_nil_r|]. by intros e ?%elem_of_nil. }
  intros k acc Hk [Hb Ht]. split; [by apply bindDataSpan_step|].
  rewrite seq_S, sum_list_with_app. simpl. rewrite <- Ht, Nat.add_0_r.
  destruct (lookup_lt_is_Some_2 (_nodes d) k Hk) as [x Hx].
  pose proof (bound_nodes _ _ _ _ Hb k x Hx) as Hnode. rewrite decide_False in Hnode by lia.
  destruct acc as [total d']. unfold bindDataSpan, datasetSpanSize, spanOf. simpl in *.
  rewrite resetBuffer_lookup, decide_True, Hnode, Hx by done. simpl.
  by destruct (dataSpans !! namePtr (absArg x)).
Qed.

(** X5.  In device mode setData allocates a device array as long as the
    spans of the data that are used in the graph together.  If the output
    size of no node is larger than its span, every copy to the device stays
    within the array; and the copies go to consecutive pieces of it, so that
    no two overlap. *)
Theorem setData_device_region w dataSpans m d :
  R__HAS_CUDA = true → _batchMode d = Cuda →
  (∀ j found, spanOf dataSpans d j = Some found → m j ≤ spanSize found) →
  _cudaMemDatasetSize (setData w dataSpans m d)
    = sum_list_with (datasetSpanSize dataSpans d) (seq 0 (length (_nodes d)))
  ∧ (∀ j, j < length (_nodes d) →
       datasetOffset dataSpans m d j + datasetCopySize dataSpans m d j
         ≤ _cudaMemDatasetSize (setData w dataSpans m d))
  ∧ (∀ i j, i < j →
       datasetOffset dataSpans m d i + datasetCopySize dataSpans m d i
         ≤ datasetOffset dataSpans m d j).
Proof.
  intros Hcuda Hmode Hsizes.
  assert (∀ i j, i < j →
            datasetOffset dataSpans m d i + datasetCopySize dataSpans m d i
              ≤ datasetOffset dataSpans m d j) as Hmono.
  { intros i j Hij. unfold datasetOffset.
    replace j with (S i + (j - S i)) by lia.
    rewrite seq_app, sum_list_with_app, seq_S, sum_list_with_app. simpl. lia. }
  assert (_cudaMemDatasetSize (setData w dataSpans m d)
          = sum_list_with (datasetSpanSize dataSpans d) (seq 0 (length (_nodes d)))) as Hsize.
  { rewrite <- bindDataSpan_total.
    destruct (setData_stages w dataSpans m d) as (total & d1 & d2 & H1 & H2 & ->).
    rewrite H1. simpl.
    pose proof (bindDataSpan_loop dataSpans d) as B. rewrite H1 in B.
    destruct B as [_ _ _ _ (_ & Bm & _) _]. simpl in *.
    destruct (bindOutputSize_loop m d1) as (Sf & _). rewrite <- H2 in Sf.
    destruct Sf as (S1 & _).
    rewrite Hcuda. simpl. rewrite bool_decide_eq_false_2 by (intros ?; congruence).
    set (D3 := set_cudaMemDataset ∅ (set_cudaMemDatasetSize total d2)).
    destruct (copyToDevice_loop w D3 (length (_nodes d))) as [_ _ (_ & _ & _ & _ & C5) _ _].
    match goal with |- context [markGPUNodes ?d4] => set (D4 := d4) in * end.
    destruct (frameEq_markGPUNodes D4) as (_ & _ & _ & _ & _ & _ & G7 & _).
    by rewrite G7, C5. }
  split; [done|]. split; [|done]. intros j Hj. rewrite Hsize.
  transitivity (datasetOffset dataSpans m d (length (_nodes d))).
  - destruct (decide (S j = length (_nodes d))) as [<-|].
    + unfold datasetOffset. rewrite seq_S, sum_list_with_app. simpl. lia.
    + etrans; [apply (Hmono j (length (_nodes d) - 1)); lia|].
      unfold datasetOffset. replace (length (_nodes d)) with (S (length (_nodes d) - 1)) at 2 by lia.
      rewrite seq_S, sum_list_with_app. lia.
  - unfold datasetOffset. generalize (seq 0 (length (_nodes d))). intros ns.
    induction ns as [|k ns IH]; simpl; [done|].
    assert (datasetCopySize dataSpans m d k ≤ datasetSpanSize dataSpans d k); [|lia].
    unfold datasetCopySize, datasetSpanSize.
    destruct (spanOf dataSpans d k) as [found|] eqn:Hf; simpl; [|done].
    specialize (Hsizes k found Hf). destruct (m k =? 1); lia.
Qed.

(** *** The operation modes *)

(** The ChangeOperModeRAII the second loop of setData makes for node [i]:
    none for a scalar node, and none for a node that is ADirty already. *)
Definition modeRecord (m : nat → nat) (d : RooFitDriver) (i : nat) : option (nat * OperMode) :=
  info ← _nodes d !! i;
  if negb (m i =? 1) && bool_decide (ADirty ≠ operMode info) then Some (i, operMode info)
  else None.

Lemma raii_resetBuffer i d :
  _changeOperModeRAIIs (resetBuffer i d) = _changeOperModeRAIIs d.
Proof. unfold resetBuffer. by repeat case_match. Qed.

Lemma raii_bindDataSpan dataSpans i acc :
  _changeOperModeRAIIs (bindDataSpan dataSpans i acc).2 = _changeOperModeRAIIs acc.2.
Proof.
  unfold bindDataSpan. destruct acc as [total d].
  repeat case_match; simpl; by rewrite raii_resetBuffer.
Qed.

Lemma raii_copyToDevice w i acc :
  _changeOperModeRAIIs (copyToDevice w i acc).2 = _changeOperModeRAIIs acc.2.
Proof. unfold copyToDevice. destruct acc as [idx d]. by repeat case_match. Qed.

Lemma raii_foldl {A} (f : A → nat * RooFitDriver → nat * RooFitDriver) (l : list A) acc :
  (∀ a acc, _changeOperModeRAIIs (f a acc).2 = _changeOperModeRAIIs acc.2) →
  _changeOperModeRAIIs (foldl (λ acc a, f a acc) acc l).2 = _changeOperModeRAIIs acc.2.
Proof.
  intros Hf. revert acc. induction l as [|a l IH]; intros acc; [done|].
  simpl. by rewrite IH, Hf.
Qed.

Lemma raii_markGPUNodes d : _changeOperModeRAIIs (markGPUNodes d) = _changeOperModeRAIIs d.
Proof.
  unfold markGPUNodes.
  apply (forNodes_ind (λ _ d', _changeOperModeRAIIs d' = _changeOperModeRAIIs d)); [done|].
  intros k d' _ H. by repeat case_match.
Qed.

Lemma omap_pointwise {A B} (f g : A → option B) (l : list A) :
  (∀ x, x ∈ l → f x = g x) → omap f l = omap g l.
Proof.
  induction l as [|x l IH]; intros H; [done|].
  change (omap f (x :: l)) with (match f x with Some y => y :: omap f l | None => omap f l end).
  change (omap g (x :: l)) with (match g x with Some y => y :: omap g l | None => omap g l end).
  rewrite (H x) by (by left). rewrite IH; [done|]. intros y Hy. apply H. by right.
Qed.

Lemma omap_none {A B} (f : A → option B) (l : list A) :
  (∀ x, x ∈ l → f x = None) → omap f l = [].
Proof.
  induction l as [|x l IH]; intros H; [done|].
  change (omap f (x :: l)) with (match f x with Some y => y :: omap f l | None => omap f l end).
  rewrite (H x) by (by left). apply IH. intros y Hy. apply H. by right.
Qed.

(** The second loop pushes the records of the nodes in their order. *)
Lemma bindOutputSize_raii m d :
  _changeOperModeRAIIs (forNodes (bindOutputSize m) d)
  = rev (omap (modeRecord m d) (seq 0 (length (_nodes d)))) ++ _changeOperModeRAIIs d.
Proof.
  pose (P := λ (k : nat) (d' : RooFitDriver),
    _changeOperModeRAIIs d' = rev (omap (modeRecord m d) (seq 0 k)) ++ _changeOperModeRAIIs d
    ∧ ∀ j x, _nodes d !! j = Some x →
        _nodes d' !! j = Some (if decide (j < k) then sizedNode m j x else x)).
  assert (P (length (_nodes d)) (forNodes (bindOutputSize m) d)) as [H _]; [|done].
  apply forNodes_ind.
  - split; [done|]. intros j x Hx. by rewrite decide_False by lia.
  - intros k d' Hk [Hs Hn]. split.
    + rewrite seq_S, omap_app, rev_app_distr. simpl.
      destruct (lookup_lt_is_Some_2 (_nodes d) k Hk) as [x Hx].
      pose proof (Hn k x Hx) as Hk'. rewrite decide_False in Hk' by lia.
      unfold modeRecord. rewrite Hx. simpl. unfold bindOutputSize, setOperMode.
      rewrite lookup_updNode_eq, Hk'. simpl.
      destruct (negb (m k =? 1)); simpl; [|done].
      case_bool_decide; simpl; by rewrite Hs.
    + intros j x Hx. rewrite bindOutputSize_lookup. destruct (decide (k = j)) as [->|].
      * rewrite (Hn j x Hx), decide_False, decide_True by lia. done.
      * rewrite (Hn j x Hx). repeat case_decide; try lia; done.
Qed.

(** X9.  setData leaves every scalar node with the operation mode it had
    and every other node in mode ADirty.  It makes one ChangeOperModeRAII
    for each node that is not scalar and was not ADirty before, in the order
    of the nodes, with the mode the node had; so a second setData with the
    same output sizes makes none. *)
Theorem setData_operModes w dataSpans m d :
  (∀ i info, _nodes d !! i = Some info →
     ∃ info', _nodes (setData w dataSpans m d) !! i = Some info'
       ∧ operMode info' = if m i =? 1 then operMode info else ADirty)
  ∧ _changeOperModeRAIIs (setData w dataSpans m d)
    = rev (omap (modeRecord m d) (seq 0 (length (_nodes d)))) ++ _changeOperModeRAIIs d
  ∧ ∀ dataSpans',
      _changeOperModeRAIIs (setData w dataSpans' m (setData w dataSpans m d))
      = _changeOperModeRAIIs (setData w dataSpans m d).
Proof.
  assert (∀ ds d i info, _nodes d !! i = Some info →
     ∃ info', _nodes (setData w ds m d) !! i = Some info'
       ∧ operMode info' = if m i =? 1 then operMode info else ADirty) as Hmodes.
  { intros ds d' i info Hi.
    destruct (setData_nodes w ds m d') as (_ & _ & _ & _ & Hn).
    destruct (Hn i info Hi) as (c & ->). eexists. split; [done|]. simpl.
    unfold sizedNode, boundNode.
    destruct (m i =? 1), (ds !! namePtr (absArg info)); simpl; try done;
      case_bool_decide as Hd; simpl; try done; destruct (operMode info); done. }
  assert (∀ ds d, _changeOperModeRAIIs (setData w ds m d)
            = rev (omap (modeRecord m d) (seq 0 (length (_nodes d)))) ++ _changeOperModeRAIIs d)
    as Hstack.
  { intros ds d'.
    destruct (setData_stages w ds m d') as (total & d1 & d2 & H1 & H2 & ->).
    pose proof (bindDataSpan_loop ds d') as B. rewrite H1 in B.
    destruct B as [Bn Bl _ _ _ _]. simpl in *.
    pose proof (raii_foldl (bindDataSpan ds) (seq 0 (length (_nodes d'))) (0, d')
                  (raii_bindDataSpan ds)) as R1. rewrite H1 in R1. simpl in R1.
    assert (_changeOperModeRAIIs d2
            = rev (omap (modeRecord m d') (seq 0 (length (_nodes d')))) ++ _changeOperModeRAIIs d')
      as R2.
    { rewrite H2, bindOutputSize_raii, Bl, R1. f_equal. f_equal.
      apply omap_pointwise. intros i Hi%elem_of_seq. unfold modeRecord.
      destruct (lookup_lt_is_Some_2 (_nodes d') i) as [x Hx]; [lia|].
      rewrite Hx, (Bn i x Hx), decide_True by lia. simpl.
      unfold boundNode. by destruct (ds !! namePtr (absArg x)). }
    destruct (negb R__HAS_CUDA); [done|]. case_bool_decide; [done|].
    rewrite raii_markGPUNodes.
    by rewrite (raii_foldl (copyToDevice w) (seq 0 (length (_nodes d'))) _ (raii_copyToDevice w)). }
  split; [apply Hmodes|]. split; [apply Hstack|].
  intros ds'. rewrite (Hstack ds' (setData w dataSpans m d)).
  rewrite omap_none; [done|]. intros i Hi%elem_of_seq. unfold modeRecord.
  destruct (_nodes (setData w dataSpans m d) !! i) as [info'|] eqn:Hi'; [|done]. simpl.
  destruct (lookup_lt_is_Some_2 (_nodes d) i) as [info Hinfo].
  { destruct (setData_nodes w dataSpans m d) as (<- & _). by eapply lookup_lt_Some. }
  destruct (Hmodes dataSpans d i info Hinfo) as (info'' & Hi'' & Hmode).
  rewrite Hi' in Hi''. injection Hi'' as <-. rewrite Hmode.
  by destruct (m i =? 1).
Qed.
(** ** Running a node on the host (computeCPUNode) *)

(** A NodeInfo up to the members a kernel run changes. *)
Definition computed (info : NodeInfo) : NodeInfo :=
  set_buffer None (set_hasLogged false (set_scalarBuffer zero info)).

(** The events of computeCPUNode for node [i] in state [d]. *)
Definition computeCPUNodeEvents (d : RooFitDriver) (i : nat) : list Event :=
  match _nodes d !! i with
  | None => []
  | Some info =>
      let nOut := outputSize info in
      let b := default (_nextBuffer d) (buffer info) in
      (if nOut =? 1
       then (if inCudaMode d then [ESetDataMap Device i (mkSpan (PScalar i) nOut)] else [])
              ++ [ESetDataMap Host i (mkSpan (PScalar i) nOut)]
       else (if R__HAS_CUDA && negb (hasLogged info) && bool_decide (_batchMode d = Cuda)
             then [ELogNotOnGPU i] else [])
              ++ [ESetDataMap Host i (mkSpan (PBuf b Host) nOut)])
      ++ [EKernel Host i]
      ++ (if R__HAS_CUDA && copyAfterEvaluation info
          then [ESetDataMap Device i
                  (mkSpan (if nOut =? 1 then match buffer info with
                                             | Some b => PBuf b Device | None => PNull end
                           else PBuf b Device) nOut)]
                 ++ (if event info then [EEventRecord i] else [])
          else [])
  end.

Lemma bufferPtr_updNode_buffer i b d side :
  i < length (_nodes d) → bufferPtr (updNode i (set_buffer (Some b)) d) i side = PBuf b side.
Proof.
  intros Hi. unfold bufferPtr. rewrite lookup_updNode_eq.
  destruct (lookup_lt_is_Some_2 _ _ Hi) as [x ->]. done.
Qed.

Lemma writePtr_nodes p out d j :
  computed <$> _nodes (writePtr p out d) !! j = computed <$> _nodes d !! j.
Proof.
  destruct p; simpl; try done.
  rewrite list_lookup_alter. case_decide; subst; [|done]. by destruct (_nodes d !! j).
Qed.

Lemma writePtr_nodes_ne p out d i j :
  (∀ k, p = PScalar k → k = i) → i ≠ j →
  _nodes (writePtr p out d) !! j = _nodes d !! j.
Proof.
  intros Hp Hne. destruct p; simpl; try done.
  rewrite list_lookup_alter_ne; [done|]. intros ->. by apply Hne, eq_sym, Hp.
Qed.

Lemma writePtr_frame p out d :
  _trace (writePtr p out d) = _trace d ∧ _batchMode (writePtr p out d) = _batchMode d
  ∧ _dataMapCPU (writePtr p out d) = _dataMapCPU d
  ∧ _dataMapCUDA (writePtr p out d) = _dataMapCUDA d
  ∧ _nextBuffer (writePtr p out d) = _nextBuffer d
  ∧ _getValInvocations (writePtr p out d) = _getValInvocations d
  ∧ length (_nodes (writePtr p out d)) = length (_nodes d).
Proof. destruct p; simpl; rewrite ?length_alter; done. Qed.

(** [d'] comes from [d] by a kernel run of node [i] that emitted [evs]:
    node [i] alone changed, and there only the buffer, the scalar buffer and
    the hasLogged flag. *)
Record kernelRun (i : nat) (d d' : RooFitDriver) (evs : list Event) : Prop := {
  run_trace : _trace d' = _trace d ++ evs;
  run_length : length (_nodes d') = length (_nodes d);
  run_batchMode : _batchMode d' = _batchMode d;
  run_invocations : _getValInvocations d' = _getValInvocations d;
  run_other : ∀ j, i ≠ j → _nodes d' !! j = _nodes d !! j;
  run_computed : ∀ j, computed <$> _nodes d' !! j = computed <$> _nodes d !! j;
}.

Lemma kernelRun_refl i d : kernelRun i d d [].
Proof. split; try done. by rewrite app_nil_r. Qed.

Lemma kernelRun_trans i d1 d2 d3 e1 e2 :
  kernelRun i d1 d2 e1 → kernelRun i d2 d3 e2 → kernelRun i d1 d3 (e1 ++ e2).
Proof.
  intros [] []. split; try congruence.
  - rewrite app_assoc. congruence.
  - intros j Hj. rewrite run_other1, run_other0; done.
Qed.

Lemma kernelRun_emit i e d : kernelRun i d (emit e d) [e].
Proof. by split. Qed.

Lemma kernelRun_dataMapSet i side k s d : kernelRun i d (dataMapSet side k s d) [ESetDataMap side k s].
Proof. by destruct side; split. Qed.

Lemma kernelRun_updNode i f d :
  (∀ x, computed (f x) = computed x) → kernelRun i d (updNode i f d) [].
Proof.
  intros Hf. split; simpl; try done.
  - by rewrite app_nil_r.
  - apply length_alter.
  - intros j Hj. by apply list_lookup_alter_ne.
  - intros j. rewrite list_lookup_alter. case_decide; subst; [|done].
    destruct (_nodes d !! j); simpl; [|done]. by rewrite Hf.
Qed.

Lemma kernelRun_writePtr i p out d :
  (∀ k, p = PScalar k → k = i) → kernelRun i d (writePtr p out d) [].
Proof.
  intros Hp. destruct (writePtr_frame p out d) as (? & ? & ? & ? & ? & ? & ?).
  split; try done.
  - by rewrite app_nil_r.
  - intros j Hj. by apply (writePtr_nodes_ne p out d i).
  - apply writePtr_nodes.
Qed.

Lemma kernelRun_makeBuffer i kind d : kernelRun i d (makeBuffer kind d).2 [].
Proof. split; try done. by rewrite app_nil_r. Qed.

Ltac kernelRun_step :=
  cbv zeta;
  lazymatch goal with
  | |- kernelRun _ ?d ?d _ => apply kernelRun_refl
  | |- kernelRun _ _ (dataMapSet _ _ _ _) _ =>
      eapply kernelRun_trans; [|apply kernelRun_dataMapSet]
  | |- kernelRun _ _ (emit _ _) _ => eapply kernelRun_trans; [|apply kernelRun_emit]
  | |- kernelRun _ _ (updNode _ _ _) _ =>
      eapply kernelRun_trans; [|by apply kernelRun_updNode]
  | |- kernelRun _ _ (writePtr _ _ _) _ =>
      eapply kernelRun_trans;
        [|apply kernelRun_writePtr; unfold bufferPtr; intros ?; repeat case_match; congruence]
  | |- kernelRun _ _ (snd (makeBuffer _ _)) _ =>
      eapply kernelRun_trans; [|apply kernelRun_makeBuffer]
  end.

Ltac kernelRun_steps := repeat kernelRun_step.

Lemma kernelRun_eq i d d' evs evs' :
  kernelRun i d d' evs → evs = evs' → kernelRun i d d' evs'.
Proof. by intros ? <-. Qed.

Lemma bufferPtr_eq d d' i side :
  buffer <$> _nodes d' !! i = buffer <$> _nodes d !! i → bufferPtr d' i side = bufferPtr d i side.
Proof.
  unfold bufferPtr. destruct (_nodes d' !! i), (_nodes d !! i); simpl; intros [=]; try done.
  by match goal with H : buffer _ = buffer _ |- _ => rewrite H end.
Qed.

Lemma bufferPtr_emit e d i side : bufferPtr (emit e d) i side = bufferPtr d i side.
Proof. done. Qed.

Lemma bufferPtr_dataMapSet s k sp d i side :
  bufferPtr (dataMapSet s k sp d) i side = bufferPtr d i side.
Proof. by destruct s. Qed.

Lemma bufferPtr_writePtr p out d i side : bufferPtr (writePtr p out d) i side = bufferPtr d i side.
Proof.
  apply bufferPtr_eq. destruct p; simpl; try done.
  rewrite list_lookup_alter. case_decide; subst; [|done]. by destruct (_nodes d !! i).
Qed.

Lemma bufferPtr_updNode k f d i side :
  (∀ x, buffer (f x) = buffer x) → bufferPtr (updNode k f d) i side = bufferPtr d i side.
Proof.
  intros Hf. apply bufferPtr_eq. simpl.
  rewrite list_lookup_alter. case_decide; subst; [|done].
  destruct (_nodes d !! i); simpl; [|done]. by rewrite Hf.
Qed.

(** computeCPUNode is a kernel run. *)
Lemma computeCPUNode_spec w i d :
  kernelRun i d (computeCPUNode w i d) (computeCPUNodeEvents d i).
Proof.
  unfold computeCPUNode, computeCPUNodeEvents.
  destruct (_nodes d !! i) as [info|] eqn:Hi; [|apply kernelRun_refl].
  assert (i < length (_nodes d)) as Hlt by (by eapply lookup_lt_Some).
  destruct (outputSize info =? 1) eqn:Hs.
  - (* a scalar *)
    unfold runKernel.
    destruct (inCudaMode d) eqn:Hc, (R__HAS_CUDA && copyAfterEvaluation info) eqn:Hcp;
      try destruct (event info) eqn:Hev.
    all: eapply kernelRun_eq; [kernelRun_steps|].
    all: unfold bufferPtr; simpl; rewrite ?list_lookup_alter_eq, ?Hi; simpl.
    all: by rewrite <- ?app_assoc.
  - (* a batch *)
    unfold runKernel.
    destruct (R__HAS_CUDA && negb (hasLogged info) && bool_decide (_batchMode d = Cuda)) eqn:Hlog,
      (buffer info) as [b|] eqn:Hb, (R__HAS_CUDA && copyAfterEvaluation info) eqn:Hcp;
      try destruct (event info) eqn:Hev.
    all: eapply kernelRun_eq; [kernelRun_steps|].
    all: rewrite ?bufferPtr_emit, ?bufferPtr_writePtr, ?bufferPtr_dataMapSet.
    all: rewrite ?bufferPtr_updNode_buffer by done.
    all: rewrite ?(bufferPtr_updNode _ (set_hasLogged true)) by done.
    all: rewrite ?bufferPtr_emit.
    all: unfold bufferPtr; simpl; rewrite ?list_lookup_alter_eq, ?Hi; simpl; rewrite ?Hb.
    all: rewrite <- ?app_assoc; simpl; reflexivity.
Qed.
(** ** The host evaluation (getVal): one node *)

(** A NodeInfo up to the members the host evaluation changes. *)
Definition graphPart (info : NodeInfo) : NodeInfo :=
  set_isDirty false (set_lastSetValCount 0%N (computed info)).

Lemma fmap_through {A B} (g : A → A) (f : A → B) (a b : option A) :
  (∀ x, f (g x) = f x) → g <$> a = g <$> b → f <$> a = f <$> b.
Proof.
  intros Hf. destruct a as [x|], b as [y|]; simpl; intros [=]; [|done].
  by rewrite <- (Hf x), <- (Hf y), H0.
Qed.

(** Whether the loop body of getVal runs the kernel of node [i]. *)
Definition recomputes (w : World) (i : nat) (d : RooFitDriver) : bool :=
  match _nodes d !! i with
  | Some info =>
      negb (fromDataset info) &&
      (if isVariable info then bool_decide (lastSetValCount info ≠ valueResetCounter w i)
       else isDirty info)
  | None => false
  end.

(** The loop that flags the clients dirty. *)
Lemma clientsDirty_spec (cs : list nat) d :
  let d' := foldl (λ d c, updNode c (set_isDirty true) d) d cs in
  frameEq d d'
  ∧ length (_nodes d') = length (_nodes d)
  ∧ ∀ j, _nodes d' !! j =
         if decide (j ∈ cs) then set_isDirty true <$> _nodes d !! j else _nodes d !! j.
Proof.
  revert d. induction cs as [|c cs IH]; intros d; cbn [foldl].
  - split; [apply frameEq_refl|]. split; [done|]. intros j. by rewrite decide_False by set_solver.
  - destruct (IH (updNode c (set_isDirty true) d)) as (Hf & Hl & Hn).
    split; [eapply frameEq_trans; [apply frameEq_updNode|done]|].
    split; [by rewrite Hl, length_updNode|].
    intros j. rewrite Hn, lookup_updNode.
    destruct (decide (c = j)) as [->|Hne].
    + rewrite (decide_True (P := j ∈ j :: cs)) by set_solver.
      case_decide; [|done]. by destruct (_nodes d !! j).
    + destruct (decide (j ∈ cs)).
      * by rewrite decide_True by set_solver.
      * by rewrite decide_False by set_solver.
Qed.

Lemma computeCPUNodeEvents_eq d d' i :
  _batchMode d' = _batchMode d → _nextBuffer d' = _nextBuffer d →
  graphPart <$> _nodes d' !! i = graphPart <$> _nodes d !! i →
  buffer <$> _nodes d' !! i = buffer <$> _nodes d !! i →
  hasLogged <$> _nodes d' !! i = hasLogged <$> _nodes d !! i →
  computeCPUNodeEvents d' i = computeCPUNodeEvents d i.
Proof.
  intros Hb Hn Hg Hbuf Hlog. unfold computeCPUNodeEvents, inCudaMode. rewrite Hb, Hn.
  destruct (_nodes d' !! i) as [x|], (_nodes d !! i) as [y|]; simpl in *; try done.
  apply (inj Some) in Hg. injection Hbuf as Hbuf. injection Hlog as Hlog.
  assert (outputSize x = outputSize y) as -> by (by apply (f_equal outputSize) in Hg).
  assert (copyAfterEvaluation x = copyAfterEvaluation y) as ->
    by (by apply (f_equal copyAfterEvaluation) in Hg).
  assert (event x = event y) as -> by (by apply (f_equal event) in Hg).
  by rewrite Hbuf, Hlog.
Qed.

Lemma kernel_in_computeCPUNodeEvents d i s k :
  EKernel s k ∈ computeCPUNodeEvents d i ↔ is_Some (_nodes d !! i) ∧ s = Host ∧ k = i.
Proof.
  unfold computeCPUNodeEvents. destruct (_nodes d !! i) as [x|].
  - rewrite !elem_of_app, list_elem_of_singleton. split.
    + intros [H|[[= -> ->]|H]]; [|done|].
      * repeat case_match; set_solver.
      * repeat case_match; set_solver.
    + intros (_ & -> & ->). by right; left.
  - split; [by intros ?%elem_of_nil|]. by intros [[? ?] _].
Qed.

(** What one round of the loop of getVal does to the driver. *)
Record hostStep (w : World) (i : nat) (d d' : RooFitDriver) : Prop := {
  hs_trace :
    _trace d' = _trace d ++ (if recomputes w i d then computeCPUNodeEvents d i else []);
  hs_length : length (_nodes d') = length (_nodes d);
  hs_batchMode : _batchMode d' = _batchMode d;
  hs_graph : ∀ j, graphPart <$> _nodes d' !! j = graphPart <$> _nodes d !! j;
  hs_isDirty : ∀ j,
    isDirty <$> _nodes d' !! j =
      if recomputes w i d
      then if decide (j = i) then (λ _, false) <$> _nodes d !! j
           else if decide (j ∈ from_option clientInfos [] (_nodes d !! i))
                then (λ _, true) <$> _nodes d !! j
                else isDirty <$> _nodes d !! j
      else isDirty <$> _nodes d !! j;
  hs_lastSetValCount : ∀ j,
    lastSetValCount <$> _nodes d' !! j =
      if decide (j = i)
      then (λ x, if recomputes w i d && isVariable x then valueResetCounter w i
                 else lastSetValCount x) <$> _nodes d !! j
      else lastSetValCount <$> _nodes d !! j;
  hs_unchanged : recomputes w i d = false → d' = d;
}.

Lemma hostStep_unchanged w i d : recomputes w i d = false → hostStep w i d d.
Proof.
  intros Hr. split; rewrite ?Hr; try done.
  - by rewrite app_nil_r.
  - intros j. case_decide; subst; [|done]. destruct (_nodes d !! i); simpl; [|done].
    by destruct (isVariable n).
Qed.

(** The rounds that run the kernel: the members [f] sets first, then the
    clients flagged dirty, the kernel, and the node's own flag cleared. *)
Lemma hostStep_recompute w i d info (f : NodeInfo → NodeInfo) :
  _nodes d !! i = Some info →
  recomputes w i d = true →
  (∀ x, graphPart (f x) = graphPart x) → (∀ x, buffer (f x) = buffer x) →
  (∀ x, hasLogged (f x) = hasLogged x) →
  (∀ x, clientInfos (f x) = clientInfos x) →
  lastSetValCount (f info) = (if isVariable info then valueResetCounter w i
                              else lastSetValCount info) →
  hostStep w i d
    (updNode i (set_isDirty false)
       (computeCPUNode w i
          (foldl (λ d c, updNode c (set_isDirty true) d) (updNode i f d) (clientInfos info)))).
Proof.
  intros Hi Hr Hg Hbuf Hlog Hcl Hlast.
  set (d1 := updNode i f d).
  destruct (clientsDirty_spec (clientInfos info) d1) as (Hf & Hl2 & Hn2).
  set (d2 := foldl _ d1 _) in *.
  destruct (computeCPUNode_spec w i d2) as [Kt Kl Kb Ki Ko Kc].
  set (d3 := computeCPUNode w i d2) in *.
  destruct Hf as (F1 & F2 & F3 & F4 & F5 & F6 & F7 & F8 & F9).
  assert (∀ j, _nodes d2 !! j =
     (if decide (j ∈ clientInfos info) then set_isDirty true else id) <$>
     ((if decide (i = j) then f else id) <$> _nodes d !! j)) as N2.
  { intros j. rewrite Hn2. unfold d1. rewrite lookup_updNode.
    destruct (decide (i = j)) as [->|]; destruct (decide (j ∈ clientInfos info));
      destruct (_nodes d !! j); done. }
  assert (∀ B (g : NodeInfo → B) j, (∀ x, g (set_isDirty true x) = g x) → (∀ x, g (f x) = g x) →
            g <$> _nodes d2 !! j = g <$> _nodes d !! j) as N2g.
  { intros B g j Hg1 Hg2. rewrite N2. destruct (_nodes d !! j) as [x|]; simpl; [|done].
    repeat case_decide; simpl; by rewrite ?Hg1, ?Hg2. }
  split; rewrite ?Hr; simpl.
  - rewrite Kt, F9. simpl. f_equal. apply computeCPUNodeEvents_eq; [by rewrite F1|by rewrite F5|..].
    + apply N2g; [done|]. intros x. apply Hg.
    + apply (N2g _ buffer); [done|]. apply Hbuf.
    + apply (N2g _ hasLogged); [done|]. apply Hlog.
  - rewrite length_alter, Kl, Hl2. apply length_updNode.
  - by rewrite Kb, F1.
  - intros j. rewrite list_lookup_alter.
    assert (graphPart <$> _nodes d3 !! j = graphPart <$> _nodes d !! j) as H3.
    { rewrite <- (N2g _ graphPart j); [|done|done].
      apply (fmap_through computed); [done|apply Kc]. }
    case_decide; subst; [|done]. rewrite <- H3. by destruct (_nodes d3 !! j).
  - intros j. rewrite list_lookup_alter, Hi. simpl.
    assert (isDirty <$> _nodes d3 !! j = isDirty <$> _nodes d2 !! j) as H3
      by (apply (fmap_through computed); [done|apply Kc]).
    destruct (decide (i = j)) as [->|Hne].
    + rewrite decide_True by done.
      assert (is_Some (_nodes d3 !! j)) as [y Hy].
      { apply lookup_lt_is_Some. rewrite Kl, Hl2. unfold d1. rewrite length_updNode.
        by eapply lookup_lt_Some. }
      by rewrite Hy, Hi.
    + rewrite (decide_False (P := j = i)) by congruence. rewrite H3, N2.
      rewrite (decide_False (P := i = j)) by done.
      destruct (_nodes d !! j) as [x|]; simpl; [|by repeat case_decide].
      repeat case_decide; simpl; try done.
  - intros j. rewrite list_lookup_alter.
    assert (lastSetValCount <$> _nodes d3 !! j = lastSetValCount <$> _nodes d2 !! j) as H3
      by (apply (fmap_through computed); [done|apply Kc]).
    assert (lastSetValCount <$> _nodes d3 !! j =
            lastSetValCount <$> ((if decide (i = j) then f else id) <$> _nodes d !! j)) as H3'.
    { rewrite H3, N2. destruct (_nodes d !! j); simpl; [|done].
      repeat case_decide; done. }
    destruct (decide (i = j)) as [->|Hne].
    + rewrite !decide_True by done.
      transitivity (lastSetValCount <$> _nodes d3 !! j); [by destruct (_nodes d3 !! j)|].
      rewrite H3', Hi. simpl. by rewrite Hlast.
    + rewrite !decide_False by congruence. rewrite H3'. by destruct (_nodes d !! j).
  - done.
Qed.

Lemma updNode_id i d : updNode i id d = d.
Proof. destruct d. unfold updNode, set_nodes. simpl. f_equal. by apply list_alter_id. Qed.

Lemma evaluateNode_spec w i d : hostStep w i d (evaluateNode w i d).
Proof.
  unfold evaluateNode.
  destruct (_nodes d !! i) as [info|] eqn:Hi;
    [|apply hostStep_unchanged; unfold recomputes; by rewrite Hi].
  destruct (fromDataset info) eqn:Hfd; simpl;
    [apply hostStep_unchanged; unfold recomputes; by rewrite Hi, Hfd|].
  destruct (isVariable info) eqn:Hv.
  - unfold processVariable. rewrite Hi. case_bool_decide as Hc.
    + apply (hostStep_recompute w i d info (set_lastSetValCount (valueResetCounter w i)));
        try done.
      * unfold recomputes. rewrite Hi, Hfd, Hv. simpl. by apply bool_decide_eq_true_2.
      * by rewrite Hv.
    + apply hostStep_unchanged. unfold recomputes. rewrite Hi, Hfd, Hv. simpl.
      apply bool_decide_eq_false_2. intros Hn. first [by apply Hn|by apply Hc].
  - destruct (isDirty info) eqn:Hd.
    + unfold setClientsDirty. rewrite Hi. rewrite <- (updNode_id i d) at 2.
      apply (hostStep_recompute w i d info id); try done.
      * unfold recomputes. by rewrite Hi, Hfd, Hv.
      * by rewrite Hv.
    + apply hostStep_unchanged. unfold recomputes. by rewrite Hi, Hfd, Hv.
Qed.
(** ** The graph *)

(** A NodeInfo up to the members an evaluation changes, in either mode. *)
Definition staticPart (info : NodeInfo) : NodeInfo :=
  set_remClients 0%Z (set_remServers 0%Z (graphPart info)).

(** Two node lists hold the same graph. *)
Definition sameGraph (l l' : list NodeInfo) : Prop :=
  ∀ j, staticPart <$> l' !! j = staticPart <$> l !! j.

Lemma sameGraph_refl l : sameGraph l l.
Proof. done. Qed.

Lemma sameGraph_trans l1 l2 l3 : sameGraph l1 l2 → sameGraph l2 l3 → sameGraph l1 l3.
Proof. intros H1 H2 j. by rewrite H2, H1. Qed.

Lemma sameGraph_sym l l' : sameGraph l l' → sameGraph l' l.
Proof. intros H j. by rewrite H. Qed.

Lemma sameGraph_length l l' : sameGraph l l' → length l' = length l.
Proof.
  intros H. destruct (decide (length l' = length l)) as [|Hne]; [done|exfalso].
  destruct (decide (length l < length l')).
  - specialize (H (length l)). rewrite (proj2 (lookup_ge_None l _)) in H by lia.
    destruct (lookup_lt_is_Some_2 l' (length l)) as [x Hx]; [lia|]. by rewrite Hx in H.
  - specialize (H (length l')). rewrite (proj2 (lookup_ge_None l' _)) in H by lia.
    destruct (lookup_lt_is_Some_2 l (length l')) as [x Hx]; [lia|]. by rewrite Hx in H.
Qed.

Lemma sameGraph_lookup l l' j x :
  sameGraph l l' → l !! j = Some x → ∃ x', l' !! j = Some x' ∧ staticPart x' = staticPart x.
Proof.
  intros H Hx. specialize (H j). rewrite Hx in H.
  destruct (l' !! j) as [x'|]; [|done]. exists x'. split; [done|]. by apply (inj Some) in H.
Qed.

(** The members that make up the graph. *)
Lemma staticPart_fields x x' :
  staticPart x' = staticPart x →
  absArg x' = absArg x ∧ fromDataset x' = fromDataset x ∧ isVariable x' = isVariable x
  ∧ outputSize x' = outputSize x ∧ copyAfterEvaluation x' = copyAfterEvaluation x
  ∧ serverInfos x' = serverInfos x ∧ clientInfos x' = clientInfos x ∧ event x' = event x.
Proof.
  intros H.
  pose proof (f_equal absArg H). pose proof (f_equal fromDataset H).
  pose proof (f_equal isVariable H). pose proof (f_equal outputSize H).
  pose proof (f_equal copyAfterEvaluation H). pose proof (f_equal serverInfos H).
  pose proof (f_equal clientInfos H). pose proof (f_equal event H). done.
Qed.

Lemma sameGraph_of_graphPart l l' :
  (∀ j, graphPart <$> l' !! j = graphPart <$> l !! j) → sameGraph l l'.
Proof.
  intros H j. specialize (H j). destruct (l' !! j) as [x|], (l !! j) as [y|]; simpl in *; try done.
  apply (inj Some) in H. unfold staticPart. by rewrite H.
Qed.

(** How often [x] occurs in [l]. *)
Definition occurrences (x : nat) (l : list nat) : nat := length (filter (eq x) l).

Lemma occurrences_pos x l : x ∈ l ↔ 0 < occurrences x l.
Proof.
  unfold occurrences. induction l as [|y l IH]; simpl.
  - split; [by intros ?%elem_of_nil|lia].
  - rewrite filter_cons. case_decide; subst; simpl.
    + split; [lia|set_solver].
    + rewrite <- IH. set_solver.
Qed.

(** The pointers of the NodeInfos are sound: the client and the server lists
    mirror each other, and the node list is sorted topologically, servers
    before clients. *)
Record wellFormed (l : list NodeInfo) : Prop := {
  wf_edges : ∀ s c sinfo cinfo, l !! s = Some sinfo → l !! c = Some cinfo →
    occurrences c (clientInfos sinfo) = occurrences s (serverInfos cinfo);
  wf_clients : ∀ s sinfo c, l !! s = Some sinfo → c ∈ clientInfos sinfo → s < c < length l;
  wf_servers : ∀ c cinfo s, l !! c = Some cinfo → s ∈ serverInfos cinfo → s < c;
}.

Lemma wellFormed_sameGraph l l' : sameGraph l l' → wellFormed l → wellFormed l'.
Proof.
  intros H [He Hc Hs]. pose proof (sameGraph_length _ _ H) as Hl.
  apply sameGraph_sym in H. split.
  - intros s c sinfo cinfo Hsi Hci.
    destruct (sameGraph_lookup _ _ _ _ H Hsi) as (x & Hx & (_&_&_&_&_&_&<-&_)%staticPart_fields).
    destruct (sameGraph_lookup _ _ _ _ H Hci) as (y & Hy & (_&_&_&_&_&<-&_)%staticPart_fields).
    by apply He.
  - intros s sinfo c Hsi Hin.
    destruct (sameGraph_lookup _ _ _ _ H Hsi) as (x & Hx & (_&_&_&_&_&_&Heq&_)%staticPart_fields).
    rewrite Hl. apply (Hc s x c Hx). by rewrite Heq.
  - intros c cinfo s Hci Hin.
    destruct (sameGraph_lookup _ _ _ _ H Hci) as (y & Hy & (_&_&_&_&_&Heq&_)%staticPart_fields).
    apply (Hs c y s Hy). by rewrite Heq.
Qed.

(** Well-formedness is a property of the client and server lists. *)
Lemma wellFormed_edges l l' :
  (∀ j, (λ x, (clientInfos x, serverInfos x)) <$> l' !! j
        = (λ x, (clientInfos x, serverInfos x)) <$> l !! j) →
  wellFormed l → wellFormed l'.
Proof.
  intros H [He Hc Hs].
  assert (∀ j x', l' !! j = Some x' →
            ∃ x, l !! j = Some x ∧ clientInfos x' = clientInfos x
                 ∧ serverInfos x' = serverInfos x) as Hback.
  { intros j x' Hx'. specialize (H j). rewrite Hx' in H.
    destruct (l !! j) as [x|]; simplify_eq/=. by exists x. }
  assert (length l' = length l) as Hlen.
  { assert ((λ x, (clientInfos x, serverInfos x)) <$> l' = (λ x, (clientInfos x, serverInfos x)) <$> l)
      as Hl by (apply list_eq; intros j; by rewrite !list_lookup_fmap).
    apply (f_equal length) in Hl. by rewrite !length_fmap in Hl. }
  split.
  - intros s c sinfo cinfo (x & Hx & -> & _)%Hback (y & Hy & _ & ->)%Hback. by apply He.
  - intros s sinfo c (x & Hx & -> & _)%Hback Hin. rewrite Hlen. by apply (Hc s x).
  - intros c cinfo s (y & Hy & _ & ->)%Hback Hin. by apply (Hs c y).
Qed.

Lemma wellFormed_client_server l s c sinfo cinfo :
  wellFormed l → l !! s = Some sinfo → l !! c = Some cinfo →
  c ∈ clientInfos sinfo ↔ s ∈ serverInfos cinfo.
Proof. intros [He _ _] Hs Hc. rewrite !occurrences_pos. by rewrite (He s c sinfo cinfo). Qed.

(** [s] is a value server of [c]. *)
Definition serverOf (l : list NodeInfo) (s c : nat) : Prop :=
  ∃ cinfo, l !! c = Some cinfo ∧ s ∈ serverInfos cinfo.

(** A parameter: a RooRealVar that is not bound to the dataset. *)
Definition isParameter (info : NodeInfo) : bool := isVariable info && negb (fromDataset info).

(** A derived node: neither a RooRealVar nor bound to the dataset. *)
Definition isDerived (info : NodeInfo) : bool := negb (isVariable info) && negb (fromDataset info).
(** ** The host evaluation: the whole pass *)

(** Node [i] is out of date on the evaluation with world [w'] that follows
    the one with world [w]: a parameter whose counter changed, or a derived
    node with a server that is out of date. *)
Inductive stale (w w' : World) (l : list NodeInfo) : nat → Prop :=
| stale_parameter i info :
    l !! i = Some info → isParameter info = true →
    valueResetCounter w' i ≠ valueResetCounter w i →
    stale w w' l i
| stale_derived i info s :
    l !! i = Some info → isDerived info = true →
    s ∈ serverInfos info → stale w w' l s →
    stale w w' l i.

Lemma stale_sameGraph w w' l l' i : sameGraph l l' → stale w w' l i → stale w w' l' i.
Proof.
  intros H. induction 1 as [i info Hi Hp Hc|i info s Hi Hd Hs _ IH].
  - destruct (sameGraph_lookup _ _ _ _ H Hi) as (x & Hx & (_&F&V&_)%staticPart_fields).
    eapply stale_parameter; [done| |done]. unfold isParameter in *. by rewrite F, V.
  - destruct (sameGraph_lookup _ _ _ _ H Hi) as (x & Hx & (_&F&V&_&_&S&_)%staticPart_fields).
    eapply stale_derived; [done| | |done]; [unfold isDerived in *; by rewrite F, V|by rewrite S].
Qed.

(** The state an evaluation with world [w] leaves behind: every parameter has
    its counter recorded and no derived node is dirty. *)
Definition evaluatedAt (w : World) (l : list NodeInfo) : Prop :=
  ∀ i info, l !! i = Some info → fromDataset info = false →
    if isVariable info then lastSetValCount info = valueResetCounter w i
    else isDirty info = false.

Lemma hostStep_sameGraph w i d d' : hostStep w i d d' → sameGraph (_nodes d) (_nodes d').
Proof. intros [_ _ _ Hg _ _ _]. by apply sameGraph_of_graphPart. Qed.

Lemma hostPass_sameGraph w d : sameGraph (_nodes d) (_nodes (forNodes (evaluateNode w) d)).
Proof.
  apply (forNodes_ind (λ _ d', sameGraph (_nodes d) (_nodes d'))); [done|].
  intros k d' _ H. eapply sameGraph_trans; [done|].
  eapply hostStep_sameGraph, evaluateNode_spec.
Qed.

Lemma hostPass_batchMode w d : _batchMode (forNodes (evaluateNode w) d) = _batchMode d.
Proof.
  apply (forNodes_ind (λ _ d', _batchMode d' = _batchMode d)); [done|].
  intros k d' _ H. by destruct (evaluateNode_spec w k d') as [_ _ -> _ _ _ _].
Qed.

(** After a pass every node that is not bound to the dataset is up to date. *)
Lemma hostPass_evaluated w d :
  wellFormed (_nodes d) → evaluatedAt w (_nodes (forNodes (evaluateNode w) d)).
Proof.
  intros Hwf.
  pose (P := λ (k : nat) (d' : RooFitDriver),
    sameGraph (_nodes d) (_nodes d') ∧
    ∀ i info, i < k → _nodes d' !! i = Some info → fromDataset info = false →
      if isVariable info then lastSetValCount info = valueResetCounter w i
      else isDirty info = false).
  assert (P (length (_nodes d)) (forNodes (evaluateNode w) d)) as [Hg HP].
  { apply forNodes_ind.
    - split; [done|]. intros; lia.
    - intros k d' Hk [Hg HP].
      pose proof (evaluateNode_spec w k d') as Hstep.
      split; [eapply sameGraph_trans; [done|by eapply hostStep_sameGraph]|].
      destruct Hstep as [_ _ _ Hgp Hdirty Hlast _].
      pose proof (wellFormed_sameGraph _ _ Hg Hwf) as Hwf'.
      intros i info Hi Hinfo Hfd.
      specialize (Hgp i). specialize (Hdirty i). specialize (Hlast i).
      rewrite Hinfo in Hgp, Hdirty, Hlast. simpl in *.
      destruct (_nodes d' !! i) as [x|] eqn:Hx; [|done]. simpl in *.
      apply (inj Some) in Hgp.
      assert (isVariable info = isVariable x) as HV by (by apply (f_equal isVariable) in Hgp).
      assert (fromDataset info = fromDataset x) as HF by (by apply (f_equal fromDataset) in Hgp).
      destruct (decide (i = k)) as [->|Hne].
      + (* the node of this round *)
        rewrite ?decide_True in Hlast by done.
        unfold recomputes in *. rewrite Hx in *. rewrite <- HF, Hfd, <- HV in *. simpl in *.
        destruct (isVariable info) eqn:Hv.
        * apply (inj Some) in Hlast. rewrite Hlast. rewrite andb_true_r.
          case_bool_decide as Hc; done.
        * destruct (isDirty x) eqn:Hd; simpl in *; rewrite ?decide_True in Hdirty by done;
            by apply (inj Some) in Hdirty.
      + (* an earlier node: it is not a client of the node of this round *)
        rewrite ?decide_False in Hlast by done.
        assert (i < k) as Hlt by lia.
        specialize (HP i x Hlt Hx). rewrite <- HF, <- HV in HP. specialize (HP Hfd).
        destruct (isVariable info); [apply (inj Some) in Hlast; by rewrite Hlast|].
        destruct (recomputes w k d'); [|apply (inj Some) in Hdirty; by rewrite Hdirty].
        rewrite ?(decide_False (P := i = k)) in Hdirty by done.
        case_decide as Hcl; [|apply (inj Some) in Hdirty; by rewrite Hdirty].
        exfalso. destruct (_nodes d' !! k) as [y|] eqn:Hy; simpl in Hcl; [|by apply elem_of_nil in Hcl].
        destruct (wf_clients _ Hwf' k y i Hy Hcl). lia. }
  intros i info Hi. apply HP; [|done]. rewrite <- (sameGraph_length _ _ Hg).
  by eapply lookup_lt_Some.
Qed.

Lemma stale_iff w w' l i :
  stale w w' l i ↔
  ∃ info, l !! i = Some info ∧
    ((isParameter info = true ∧ valueResetCounter w' i ≠ valueResetCounter w i)
     ∨ (isDerived info = true ∧ ∃ s, s ∈ serverInfos info ∧ stale w w' l s)).
Proof.
  split.
  - intros H. inversion H; subst; eauto 10.
  - intros (info & Hi & [[Hp Hc]|[Hd (s & Hs & Hst)]]).
    + by eapply stale_parameter.
    + by eapply stale_derived.
Qed.

(** The state of the pass that follows an evaluation with world [w], before
    the round of node [k]. *)
Record passUpTo (w w' : World) (d : RooFitDriver) (k : nat) (d' : RooFitDriver) : Prop := {
  pass_graph : sameGraph (_nodes d) (_nodes d');
  pass_trace : ∃ evs, _trace d' = _trace d ++ evs
    ∧ ∀ s i, EKernel s i ∈ evs ↔ s = Host ∧ i < k ∧ stale w w' (_nodes d) i;
  pass_ahead : ∀ j x, k ≤ j → _nodes d' !! j = Some x → fromDataset x = false →
    if isVariable x then lastSetValCount x = valueResetCounter w j
    else isDirty x = true ↔ ∃ s, s < k ∧ s ∈ serverInfos x ∧ stale w w' (_nodes d) s;
}.

Lemma passUpTo_recomputes w w' d k d' :
  wellFormed (_nodes d) → k < length (_nodes d) → passUpTo w w' d k d' →
  recomputes w' k d' = true ↔ stale w w' (_nodes d) k.
Proof.
  intros Hwf Hk [Hg _ Ha].
  destruct (lookup_lt_is_Some_2 _ _ Hk) as [x1 Hx1].
  destruct (sameGraph_lookup _ _ _ _ Hg Hx1) as (x & Hx & (_&F&V&_&_&S&_)%staticPart_fields).
  specialize (Ha k x (le_n _) Hx).
  transitivity
    ((isParameter x = true ∧ valueResetCounter w' k ≠ valueResetCounter w k)
     ∨ (isDerived x = true ∧ ∃ s, s ∈ serverInfos x ∧ stale w w' (_nodes d) s)).
  2:{ rewrite stale_iff. unfold isParameter, isDerived. rewrite F, V, S. split.
      - intros H. by exists x1.
      - intros (? & Hi & H). rewrite Hx1 in Hi. by apply (inj Some) in Hi as <-. }
  unfold recomputes, isParameter, isDerived. rewrite Hx.
  destruct (fromDataset x) eqn:Hfd; simpl.
  { rewrite !andb_false_r. split; [done|]. by intros [[? _]|[? _]]. }
  specialize (Ha eq_refl). rewrite !andb_true_r. destruct (isVariable x) eqn:Hv; simpl.
  - rewrite Ha, bool_decide_eq_true. split.
    + intros Hc. left. split; [done|congruence].
    + intros [[_ Hc]|[? _]]; [congruence|done].
  - rewrite Ha. split.
    + intros (s & Hlt & Hs & Hst). right. eauto.
    + intros [[? _]|[_ (s & Hs & Hst)]]; [done|].
      exists s. split; [|done]. apply (wf_servers _ Hwf k x1 s Hx1). by rewrite <- S.
Qed.

Lemma passUpTo_step w w' d k d' :
  wellFormed (_nodes d) → k < length (_nodes d) →
  passUpTo w w' d k d' → passUpTo w w' d (S k) (evaluateNode w' k d').
Proof.
  intros Hwf Hk HP. pose proof (passUpTo_recomputes w w' d k d' Hwf Hk HP) as Hrec.
  destruct HP as [Hg (evs & Ht & He) Ha].
  pose proof (evaluateNode_spec w' k d') as Hstep.
  pose proof (hostStep_sameGraph _ _ _ _ Hstep) as Hg'.
  destruct Hstep as [St _ _ Sg Sd Sl _].
  pose proof (wellFormed_sameGraph _ _ Hg Hwf) as Hwf'.
  destruct (lookup_lt_is_Some_2 _ _ Hk) as [x1 Hx1].
  destruct (sameGraph_lookup _ _ _ _ Hg Hx1) as (xk & Hxk & _).
  split.
  - by eapply sameGraph_trans.
  - eexists. split; [rewrite St, Ht; by rewrite <- app_assoc|].
    intros s i. rewrite elem_of_app, He.
    destruct (recomputes w' k d') eqn:Hr.
    + rewrite kernel_in_computeCPUNodeEvents, Hxk. split.
      * intros [(-> & Hlt & Hst)|(_ & -> & ->)]; [split; [done|split; [lia|done]]|].
        split; [done|]. split; [lia|]. by apply Hrec.
      * intros (-> & Hlt & Hst). destruct (decide (i = k)) as [->|]; [right; eauto|left].
        split; [done|]. split; [lia|done].
    + split.
      * intros [(-> & Hlt & Hst)|[]%elem_of_nil]. split; [done|]. split; [lia|done].
      * intros (-> & Hlt & Hst). left. split; [done|]. split; [|done].
        destruct (decide (i = k)) as [->|]; [|lia].
        apply Hrec in Hst. congruence.
  - intros j x Hj Hx Hfd.
    assert (j ≠ k) as Hne by lia.
    specialize (Sg j). specialize (Sd j). specialize (Sl j).
    rewrite Hx in Sg, Sd, Sl. rewrite decide_False in Sl by done.
    destruct (_nodes d' !! j) as [y|] eqn:Hy; [|done]. simpl in *.
    apply (inj Some) in Sg. injection Sl as Sl.
    assert (isVariable x = isVariable y) as HV by (by apply (f_equal isVariable) in Sg).
    assert (fromDataset x = fromDataset y) as HF by (by apply (f_equal fromDataset) in Sg).
    assert (serverInfos x = serverInfos y) as HS by (by apply (f_equal serverInfos) in Sg).
    specialize (Ha j y ltac:(lia) Hy). rewrite <- HF, <- HV, <- HS in Ha. specialize (Ha Hfd).
    destruct (isVariable x); [congruence|].
    assert (j ∈ clientInfos xk ↔ k ∈ serverInfos x) as Hcs.
    { rewrite HS. by apply (wellFormed_client_server _ k j xk y Hwf'). }
    rewrite Hxk in Sd. simpl in Sd.
    destruct (recomputes w' k d') eqn:Hr.
    + rewrite decide_False in Sd by done. case_decide as Hcl.
      * injection Sd as ->. split; [|done]. intros _. exists k. split; [lia|].
        split; [by apply Hcs|by apply Hrec].
      * injection Sd as ->. rewrite Ha. split.
        -- intros (s & ? & ? & ?). exists s. split; [lia|done].
        -- intros (s & Hlt & Hs & Hst). destruct (decide (s = k)) as [->|].
           ++ by apply Hcs in Hs.
           ++ exists s. split; [lia|done].
    + injection Sd as ->. rewrite Ha. split.
      * intros (s & ? & ? & ?). exists s. split; [lia|done].
      * intros (s & Hlt & Hs & Hst). destruct (decide (s = k)) as [->|].
        -- apply Hrec in Hst. congruence.
        -- exists s. split; [lia|done].
Qed.

(** The kernels a pass runs after an evaluation with world [w] are those of
    the nodes that are out of date. *)
Lemma hostPass_kernels w w' d :
  wellFormed (_nodes d) → evaluatedAt w (_nodes d) →
  ∃ evs, _trace (forNodes (evaluateNode w') d) = _trace d ++ evs
    ∧ ∀ s i, EKernel s i ∈ evs ↔ s = Host ∧ stale w w' (_nodes d) i.
Proof.
  intros Hwf Hev.
  assert (passUpTo w w' d (length (_nodes d)) (forNodes (evaluateNode w') d))
    as [_ (evs & Ht & He) _].
  { apply forNodes_ind.
    - split; [done| |].
      + exists []. split; [by rewrite app_nil_r|]. intros s i. split; [by intros ?%elem_of_nil|].
        intros (_ & ? & _). lia.
      + intros j x _ Hx Hfd. specialize (Hev j x Hx Hfd).
        destruct (isVariable x); [done|]. rewrite Hev. split; [done|]. intros (s & ? & _). lia.
    - intros k d' Hk HP. by apply passUpTo_step. }
  exists evs. split; [done|]. intros s i. rewrite He. split; [tauto|].
  intros [-> Hst]. split; [done|]. split; [|done].
  apply stale_iff in Hst as (info & Hi & _). by eapply lookup_lt_Some.
Qed.
(** ** Which kernels an evaluation on the host runs *)

Lemma stale_same_world w l i : ¬ stale w w l i.
Proof. induction 1; done. Qed.

(** A parameter or a node bound to the dataset is a leaf. *)
Definition leavesHaveNoServers (l : list NodeInfo) : Prop :=
  ∀ i info, l !! i = Some info →
    isVariable info = true ∨ fromDataset info = true → serverInfos info = [].

(** A changed parameter among the transitive servers of [i]. *)
Definition changedParameterAbove (w w' : World) (l : list NodeInfo) (i : nat) : Prop :=
  ∃ p pinfo, l !! p = Some pinfo ∧ isParameter pinfo = true
    ∧ tc (serverOf l) p i
    ∧ valueResetCounter w' p ≠ valueResetCounter w p.

Lemma stale_source w w' l i :
  stale w w' l i →
  (∃ info, l !! i = Some info ∧ isParameter info = true
     ∧ valueResetCounter w' i ≠ valueResetCounter w i)
  ∨ changedParameterAbove w w' l i.
Proof.
  induction 1 as [i info Hi Hp Hc|i info s Hi Hd Hs _ IH]; [left; eauto|right].
  assert (serverOf l s i) as Hsi by (by exists info).
  destruct IH as [(sinfo & Hsinfo & Hp & Hc)|(p & pinfo & Hpi & Hp & Htc & Hc)].
  - exists s, sinfo. by repeat split; [..|apply tc_once|].
  - exists p, pinfo. repeat split; try done. by eapply tc_r.
Qed.

Lemma stale_below w w' l p i :
  leavesHaveNoServers l → tc (serverOf l) p i → stale w w' l p → stale w w' l i.
Proof.
  intros Hleaf Htc. induction Htc as [p i (info & Hi & Hs)|p y i (info & Hy & Hs) _ IH];
    intros Hst.
  - apply (stale_derived w w' l i info p); try done.
    unfold isDerived. destruct (isVariable info) eqn:Hv.
    { rewrite (Hleaf i info Hi) in Hs by auto. by apply elem_of_nil in Hs. }
    destruct (fromDataset info) eqn:Hf; [|done].
    rewrite (Hleaf i info Hi) in Hs by auto. by apply elem_of_nil in Hs.
  - apply IH. apply (stale_derived w w' l y info p); try done.
    unfold isDerived. destruct (isVariable info) eqn:Hv.
    { rewrite (Hleaf y info Hy) in Hs by auto. by apply elem_of_nil in Hs. }
    destruct (fromDataset info) eqn:Hf; [|done].
    rewrite (Hleaf y info Hy) in Hs by auto. by apply elem_of_nil in Hs.
Qed.

(** With leaves as leaves, a node is out of date iff it is a parameter whose
    counter changed or a derived node below such a parameter. *)
Lemma stale_characterisation w w' l i info :
  leavesHaveNoServers l → l !! i = Some info → fromDataset info = false →
  stale w w' l i ↔
    if isVariable info then valueResetCounter w' i ≠ valueResetCounter w i
    else changedParameterAbove w w' l i.
Proof.
  intros Hleaf Hi Hfd. split.
  - intros Hst. destruct (stale_source _ _ _ _ Hst) as [(x & Hx & Hp & Hc)|Habove].
    + rewrite Hi in Hx. apply (inj Some) in Hx as <-.
      unfold isParameter in Hp. by destruct (isVariable info).
    + destruct (isVariable info) eqn:Hv; [|done].
      destruct Habove as (p & pinfo & _ & _ & Htc & _).
      assert (∃ s, s ∈ serverInfos info) as [s Hs].
      { clear -Htc Hi. induction Htc as [p i (x & Hx & Hs)|]; [|auto].
        rewrite Hi in Hx. apply (inj Some) in Hx as <-. eauto. }
      rewrite (Hleaf i info Hi) in Hs by auto. by apply elem_of_nil in Hs.
  - destruct (isVariable info) eqn:Hv.
    + intros Hc. apply (stale_parameter w w' l i info); [done| |done].
      unfold isParameter. by rewrite Hv, Hfd.
    + intros (p & pinfo & Hp & Hpar & Htc & Hc).
      apply (stale_below w w' l p i Hleaf Htc). by apply (stale_parameter w w' l p pinfo).
Qed.

(** In host mode getVal always returns. *)
Lemma getVal_host w isActive fuel d :
  inCudaMode d = false →
  getVal w isActive fuel d =
    Some (getValHost w (set_getValInvocations (S (_getValInvocations d)) d)).
Proof. intros H. unfold getVal. unfold inCudaMode in *. simpl. by rewrite H. Qed.

(** C1.  In host mode, on two consecutive evaluations with no setData in
    between, the second evaluation runs the kernel of a parameter iff its
    valueResetCounter differs from the one of the first evaluation, and the
    kernel of a derived node iff that holds for some parameter among the
    transitive servers of the node; it runs nothing on the device. *)
Theorem host_recompute_iff_parameter_changed
    (w w' : World) isActive isActive' fuel fuel' d r d1 r' d2 :
  inCudaMode d = false →
  wellFormed (_nodes d) →
  leavesHaveNoServers (_nodes d) →
  getVal w isActive fuel d = Some (r, d1) →
  getVal w' isActive' fuel' d1 = Some (r', d2) →
  ∃ evs, _trace d2 = _trace d1 ++ evs
    ∧ (∀ i, EKernel Device i ∉ evs)
    ∧ ∀ i info, _nodes d !! i = Some info → fromDataset info = false →
        EKernel Host i ∈ evs ↔
          if isVariable info then valueResetCounter w' i ≠ valueResetCounter w i
          else changedParameterAbove w w' (_nodes d) i.
Proof.
  intros Hmode Hwf Hleaf H1 H2.
  rewrite getVal_host in H1 by done. unfold getValHost in H1. injection H1 as _ <-.
  set (d0 := set_getValInvocations (S (_getValInvocations d)) d) in *.
  assert (sameGraph (_nodes d) (_nodes (forNodes (evaluateNode w) d0))) as Hg
    by apply (hostPass_sameGraph w d0).
  set (d1 := forNodes (evaluateNode w) d0) in *.
  assert (inCudaMode d1 = false) as Hmode1.
  { unfold inCudaMode, d1. by rewrite hostPass_batchMode. }
  rewrite getVal_host in H2 by done. unfold getValHost in H2. injection H2 as _ <-.
  set (d1' := set_getValInvocations (S (_getValInvocations d1)) d1) in *.
  pose proof (wellFormed_sameGraph _ _ Hg Hwf) as Hwf1.
  destruct (hostPass_kernels w w' d1' Hwf1 (hostPass_evaluated w d0 Hwf)) as (evs & Ht & He).
  exists evs. split; [done|]. split.
  { intros i Hin. by apply He in Hin as [? _]. }
  intros i info Hi Hfd. rewrite He.
  rewrite <- (stale_characterisation w w' (_nodes d) i info Hleaf Hi Hfd). split.
  - intros [_ Hst]. by apply (stale_sameGraph w w' _ _ i (sameGraph_sym _ _ Hg)).
  - intros Hst. split; [done|]. by apply (stale_sameGraph w w' _ _ i Hg).
Qed.

(** ** Evaluating twice on the host *)

(** A pass with the world of the evaluation before it changes nothing. *)
Lemma hostPass_again w d :
  wellFormed (_nodes d) → evaluatedAt w (_nodes d) → forNodes (evaluateNode w) d = d.
Proof.
  intros Hwf Hev.
  assert (passUpTo w w d (length (_nodes d)) (forNodes (evaluateNode w) d)
          ∧ forNodes (evaluateNode w) d = d) as [_ H]; [|done].
  apply (forNodes_ind (λ k d', passUpTo w w d k d' ∧ d' = d)).
  - split; [|done]. split; [done| |].
    + exists []. split; [by rewrite app_nil_r|]. intros s i. split; [by intros ?%elem_of_nil|].
      intros (_ & ? & _). lia.
    + intros j x _ Hx Hfd. specialize (Hev j x Hx Hfd).
      destruct (isVariable x); [done|]. rewrite Hev. split; [done|]. intros (s & ? & _). lia.
  - intros k d' Hk [HP ->]. split; [by apply passUpTo_step|].
    apply (hs_unchanged _ _ _ _ (evaluateNode_spec w k d)).
    destruct (recomputes w k d) eqn:Hr; [|done].
    apply (passUpTo_recomputes w w d k d Hwf Hk HP) in Hr. by apply stale_same_world in Hr.
Qed.
(** ** Running a node on the device (assignToGPU) *)

(** The events of assignToGPU for node [i] in state [d]. *)
Definition assignToGPUEvents (d : RooFitDriver) (i : nat) : list Event :=
  match _nodes d !! i with
  | None => []
  | Some info =>
      let nOut := outputSize info in
      (EWaitForEvent i <$> filter (λ s, from_option event false (_nodes d !! s) = true) (serverInfos info))
      ++ (if nOut =? 1
          then [ESetDataMap Host i (mkSpan (PScalar i) nOut);
                ESetDataMap Device i (mkSpan (PScalar i) nOut)]
          else [ESetDataMap Device i (mkSpan (PBuf (_nextBuffer d) Device) nOut)])
      ++ [EKernel Device i; EEventRecord i]
      ++ (if copyAfterEvaluation info
          then [ESetDataMap Host i
                  (mkSpan (if nOut =? 1 then match buffer info with
                                             | Some b => PBuf b Host | None => PNull end
                           else PBuf (_nextBuffer d) Host) nOut)]
          else [])
  end.

Lemma kernelRun_resetBuffer i d : kernelRun i d (resetBuffer i d) [].
Proof.
  destruct (resetBuffer_frame i d) as (? & ? & ? & ? & ? & ? & ?).
  split; try done.
  - by rewrite app_nil_r.
  - unfold resetBuffer. by repeat case_match.
  - intros j Hj. by rewrite resetBuffer_lookup, decide_False.
  - intros j. rewrite resetBuffer_lookup. case_decide; [|done]. by destruct (_nodes d !! j).
Qed.

Lemma kernelRun_waitForEvents i (ss : list nat) d :
  kernelRun i d
    (foldl (λ d s, if from_option event false (_nodes d !! s) then emit (EWaitForEvent i s) d else d)
       d ss)
    (EWaitForEvent i <$> filter (λ s, from_option event false (_nodes d !! s) = true) ss).
Proof.
  revert d. induction ss as [|s ss IH]; intros d; [apply kernelRun_refl|].
  cbn [foldl]. rewrite filter_cons.
  destruct (from_option event false (_nodes d !! s)) eqn:He.
  - rewrite decide_True by done. rewrite fmap_cons.
    change (EWaitForEvent i s :: ?l) with ([EWaitForEvent i s] ++ l).
    eapply kernelRun_trans; [apply kernelRun_emit|]. apply (IH (emit (EWaitForEvent i s) d)).
  - rewrite decide_False by done. apply IH.
Qed.

Lemma waitForEvents_frame i (ss : list nat) d :
  let d' := foldl (λ d s, if from_option event false (_nodes d !! s)
                          then emit (EWaitForEvent i s) d else d) d ss in
  _nodes d' = _nodes d ∧ _nextBuffer d' = _nextBuffer d.
Proof.
  revert d. induction ss as [|s ss IH]; intros d; [done|].
  cbn [foldl]. destruct (from_option event false (_nodes d !! s)); [|apply IH].
  apply (IH (emit (EWaitForEvent i s) d)).
Qed.

Lemma resetBuffer_nextBuffer i d : _nextBuffer (resetBuffer i d) = _nextBuffer d.
Proof. by destruct (resetBuffer_frame i d) as (_ & _ & _ & _ & -> & _). Qed.

(** assignToGPU marks node [i] as launched and is a kernel run otherwise. *)
Lemma assignToGPU_spec w i d :
  is_Some (_nodes d !! i) →
  kernelRun i (updNode i (set_remServers (-1)) d) (assignToGPU w i d) (assignToGPUEvents d i).
Proof.
  intros [info Hi]. unfold assignToGPU, assignToGPUEvents. rewrite Hi.
  assert (i < length (_nodes d)) as Hlt by (by eapply lookup_lt_Some).
  set (d1 := updNode i (set_remServers (-1)) d).
  assert (∀ s, from_option event false (_nodes d1 !! s) = from_option event false (_nodes d !! s))
    as Hev.
  { intros s. unfold d1. rewrite lookup_updNode. case_decide; subst; [|done].
    by destruct (_nodes d !! s). }
  pose proof (kernelRun_waitForEvents i (serverInfos info) d1) as Hwait.
  assert (filter (λ s, from_option event false (_nodes d1 !! s) = true) (serverInfos info)
          = filter (λ s, from_option event false (_nodes d !! s) = true) (serverInfos info)) as Hf.
  { apply list_filter_iff. intros s. by rewrite Hev. }
  rewrite Hf in Hwait. clear Hf.
  set (d2 := foldl _ d1 _) in *.
  assert (_nodes d2 !! i = Some (set_remServers (-1) info)
          ∧ _nextBuffer d2 = _nextBuffer d) as [Hi2 Hnb].
  { destruct (waitForEvents_frame i (serverInfos info) d1) as [Hn Hb].
    fold d2 in Hn, Hb. rewrite Hn, Hb.
    split; [|done]. unfold d1. by rewrite lookup_updNode_eq, Hi. }
  unfold runKernel.
  destruct (outputSize info =? 1) eqn:Hs, (copyAfterEvaluation info) eqn:Hcp.
  all: eapply kernelRun_eq;
    [eapply kernelRun_trans; [exact Hwait|kernelRun_steps; try apply kernelRun_resetBuffer]|].
  all: f_equal.
  all: rewrite ?bufferPtr_emit, ?bufferPtr_writePtr, ?bufferPtr_dataMapSet.
  all: unfold bufferPtr; simpl; rewrite ?list_lookup_alter_eq, ?resetBuffer_lookup, ?Hi2; simpl.
  all: rewrite ?resetBuffer_nextBuffer, ?Hnb.
  all: rewrite ?decide_True by done; simpl.
  all: rewrite <- ?app_assoc; simpl.
  all: reflexivity.
Qed.
(** ** The scheduler of the heterogeneous evaluation

    The scheduler is followed on the node list alone: what the loop decides
    depends on the graph, the placement and the [remServers] countdowns, and
    what it leaves in the trace is, above all, which kernels ran. *)

(** The kernels of a list of events, in order. *)
Definition kernels (evs : list Event) : list (Side * nat) :=
  omap (λ e, match e with EKernel side i => Some (side, i) | _ => None end) evs.

Lemma kernels_app l k : kernels (l ++ k) = kernels l ++ kernels k.
Proof. apply omap_app. Qed.

Lemma elem_of_kernels evs side i : (side, i) ∈ kernels evs ↔ EKernel side i ∈ evs.
Proof.
  unfold kernels. rewrite list_elem_of_omap. split.
  - intros (e & He & Hk). destruct e; try done. by injection Hk as -> ->.
  - intros He. by exists (EKernel side i).
Qed.

(** A NodeInfo up to the members a kernel run changes and [remClients]. *)
Definition schedPart (info : NodeInfo) : NodeInfo := set_remClients 0%Z (computed info).

(** The node list and the kernels run so far. *)
Definition Sched : Type := list NodeInfo * list (Side * nat).

Definition setRemServers (i : nat) (z : Z) (s : Sched) : Sched :=
  (alter (set_remServers z) i s.1, s.2).

(** assignToGPU *)
Definition launch (i : nat) (s : Sched) : Sched :=
  (alter (set_remServers (-1)) i s.1, s.2 ++ [(Device, i)]).

(** The loop over the clients of a node that is done. *)
Definition countDownClient (s : Sched) (c : nat) : Sched :=
  let l := alter (λ info, set_remServers (remServers info - 1) info) c s.1 in
  match l !! c with
  | Some info =>
      if bool_decide (remServers info = 0%Z) && computeInGPU info then launch c (l, s.2)
      else (l, s.2)
  | None => (l, s.2)
  end.

Definition countDown (i : nat) (s : Sched) : Sched :=
  foldl countDownClient s (from_option clientInfos [] (s.1 !! i)).

(** "find finished GPU nodes", for one node *)
Definition retire (active : nat → bool) (i : nat) (s : Sched) : Sched :=
  match s.1 !! i with
  | Some info =>
      if bool_decide (remServers info = (-1)%Z) && negb (active i)
      then countDown i (setRemServers i (-2) s)
      else s
  | None => s
  end.

(** "compute next CPU node" *)
Definition hostRun (i : nat) (s : Sched) : Sched :=
  match s.1 !! i with
  | Some info =>
      countDown i
        (alter (set_remServers (-2)) i s.1, s.2 ++ (if fromDataset info then [] else [(Host, i)]))
  | None => s
  end.

Definition nextHostNode (l : list NodeInfo) : option nat :=
  fst <$> list_find (λ info, remServers info = 0%Z ∧ computeInGPU info = false) l.

Definition round (active : nat → bool) (s : Sched) : Sched :=
  let s := foldl (λ s i, retire active i s) s (seq 0 (length s.1)) in
  match nextHostNode s.1 with
  | None => s
  | Some i => hostRun i s
  end.

(** Every host kernel of a scalar node comes right after the publication of
    the node's scalar buffer in the device data map and in the host data
    map. *)
Definition publishedFirst (l0 : list NodeInfo) (evs : list Event) : Prop :=
  ∀ pre post i info,
    evs = pre ++ EKernel Host i :: post →
    l0 !! i = Some info → outputSize info = 1 →
    ∃ pre', pre = pre' ++ [ESetDataMap Device i (mkSpan (PScalar i) 1);
                           ESetDataMap Host i (mkSpan (PScalar i) 1)].

Lemma publishedFirst_app l0 a b :
  publishedFirst l0 a → publishedFirst l0 b → publishedFirst l0 (a ++ b).
Proof.
  intros Ha Hb pre post i info Heq Hi Hs.
  apply app_eq_inv in Heq as [(k & -> & Hk)|(k & -> & ->)].
  - destruct k as [|e k].
    + simpl in Hk. destruct (Hb [] post i info (eq_sym Hk) Hi Hs) as [pre' Hpre'].
      by destruct pre'.
    + injection Hk as <- ->. by apply (Ha pre k i info).
  - destruct (Hb k post i info eq_refl Hi Hs) as [pre' ->].
    exists (a ++ pre'). by rewrite app_assoc.
Qed.

(** A block with host kernels of batches only. *)
Lemma publishedFirst_batches l0 evs :
  (∀ i info, EKernel Host i ∈ evs → l0 !! i = Some info → outputSize info ≠ 1) →
  publishedFirst l0 evs.
Proof.
  intros H pre post i info -> Hi Hs. destruct (H i info); [set_solver|done|done].
Qed.

(** The block of a scalar node run on the host in device mode. *)
Lemma publishedFirst_scalar l0 i rest :
  (∀ j, EKernel Host j ∉ rest) →
  publishedFirst l0
    ([ESetDataMap Device i (mkSpan (PScalar i) 1); ESetDataMap Host i (mkSpan (PScalar i) 1);
      EKernel Host i] ++ rest).
Proof.
  intros Hrest. apply publishedFirst_app.
  - intros pre post j info Heq _ _. exists [].
    destruct pre as [|e1 [|e2 [|e3 pre]]]; simplify_eq/=; try done.
    by destruct pre.
  - apply publishedFirst_batches. intros j info Hj. by destruct (Hrest j).
Qed.

(** The state of the scheduler follows the driver: the graph is that of
    [d0], the node lists agree up to what kernel runs change, and the
    kernels are those of the events since [d0]. *)
Record tracks (d0 d : RooFitDriver) (s : Sched) : Prop := {
  tr_graph : sameGraph (_nodes d0) (_nodes d);
  tr_nodes : ∀ j, schedPart <$> _nodes d !! j = schedPart <$> s.1 !! j;
  tr_batchMode : _batchMode d = _batchMode d0;
  tr_trace : ∃ evs, _trace d = _trace d0 ++ evs ∧ kernels evs = s.2
    ∧ publishedFirst (_nodes d0) evs;
}.

Lemma tracks_lookup d0 d s j x :
  tracks d0 d s → _nodes d !! j = Some x →
  ∃ y, s.1 !! j = Some y ∧ schedPart x = schedPart y.
Proof.
  intros [_ Hn _ _] Hx. specialize (Hn j). rewrite Hx in Hn.
  destruct (s.1 !! j) as [y|]; [|done]. exists y. split; [done|]. by apply (inj Some) in Hn.
Qed.

Lemma tracks_lookup_None d0 d s j : tracks d0 d s → _nodes d !! j = None → s.1 !! j = None.
Proof.
  intros [_ Hn _ _] Hx. specialize (Hn j). rewrite Hx in Hn. by destruct (s.1 !! j).
Qed.

Lemma tracks_length d0 d s : tracks d0 d s → length s.1 = length (_nodes d).
Proof.
  intros H. destruct (decide (length s.1 = length (_nodes d))) as [|Hne]; [done|exfalso].
  destruct (decide (length s.1 < length (_nodes d))).
  - destruct (lookup_lt_is_Some_2 (_nodes d) (length s.1)) as [x Hx]; [lia|].
    destruct (tracks_lookup _ _ _ _ _ H Hx) as (y & Hy & _).
    apply lookup_lt_Some in Hy. lia.
  - pose proof (tracks_lookup_None _ _ _ (length (_nodes d)) H) as Hn.
    rewrite lookup_ge_None in Hn. specialize (Hn (le_n _)).
    apply lookup_ge_None in Hn. lia.
Qed.

(** The members the scheduler reads. *)
Lemma schedPart_fields x y :
  schedPart x = schedPart y →
  remServers x = remServers y ∧ computeInGPU x = computeInGPU y
  ∧ fromDataset x = fromDataset y ∧ clientInfos x = clientInfos y
  ∧ serverInfos x = serverInfos y ∧ outputSize x = outputSize y
  ∧ copyAfterEvaluation x = copyAfterEvaluation y ∧ staticPart x = staticPart y.
Proof.
  intros H.
  pose proof (f_equal remServers H). pose proof (f_equal fromDataset H).
  pose proof (f_equal clientInfos H). pose proof (f_equal serverInfos H).
  pose proof (f_equal outputSize H). pose proof (f_equal copyAfterEvaluation H).
  pose proof (f_equal absArg H). simpl in *.
  repeat split; try done.
  - unfold computeInGPU, isScalar. congruence.
  - apply (f_equal (λ i, set_remServers 0%Z (set_isDirty false (set_lastSetValCount 0%N i)))) in H.
    done.
Qed.

Lemma sameGraph_of_schedPart l l' :
  (∀ j, (schedPart ∘ set_remServers 0%Z) <$> l' !! j = (schedPart ∘ set_remServers 0%Z) <$> l !! j) →
  sameGraph l l'.
Proof.
  intros H j. specialize (H j). destruct (l' !! j) as [x|], (l !! j) as [y|]; simpl in *; try done.
  apply (inj Some) in H. f_equal.
  by apply (f_equal (λ i, set_isDirty false (set_lastSetValCount 0%N i))) in H.
Qed.

(** A step of the driver: the countdowns change as [f] says, then a kernel
    run of node [i] emits [evs]. *)
Lemma tracks_kernelRun d0 d d1 d' s i evs (f : list NodeInfo → list NodeInfo) :
  tracks d0 d s →
  (∀ j, schedPart <$> _nodes d1 !! j = schedPart <$> f s.1 !! j) →
  sameGraph (_nodes d) (_nodes d1) →
  _batchMode d1 = _batchMode d → _trace d1 = _trace d →
  kernelRun i d1 d' evs →
  publishedFirst (_nodes d0) evs →
  tracks d0 d' (f s.1, s.2 ++ kernels evs).
Proof.
  intros [Hg Hn Hb (evs0 & Ht & Hk & Hp)] Hf Hg1 Hb1 Ht1 [Rt Rl Rb _ _ Rc] Hpub. split; simpl.
  - eapply sameGraph_trans; [done|]. eapply sameGraph_trans; [done|].
    intros j. apply (fmap_through computed); [done|apply Rc].
  - intros j. rewrite <- Hf. apply (fmap_through computed); [done|apply Rc].
  - congruence.
  - exists (evs0 ++ evs). split; [rewrite Rt, Ht1, Ht; by rewrite app_assoc|].
    split; [by rewrite kernels_app, Hk|by apply publishedFirst_app].
Qed.

(** A step of the driver the scheduler does not see. *)
Lemma tracks_silent d0 d d' s :
  tracks d0 d s →
  (∀ j, schedPart <$> _nodes d' !! j = schedPart <$> _nodes d !! j) →
  _batchMode d' = _batchMode d → _trace d' = _trace d →
  tracks d0 d' s.
Proof.
  intros [Hg Hn Hb Ht] Hn' Hb' Ht'. split.
  - eapply sameGraph_trans; [done|]. intros j.
    apply (fmap_through schedPart); [done|apply Hn'].
  - intros j. by rewrite Hn'.
  - congruence.
  - by rewrite Ht'.
Qed.

(** The two loops before the while loop. *)
Definition initialCounters (l : list NodeInfo) : list NodeInfo :=
  (λ info, set_remServers (Z.of_nat (length (serverInfos info))) info) <$> l.

Definition launchIfReady (s : Sched) (i : nat) : Sched :=
  match s.1 !! i with
  | Some info => if bool_decide (remServers info = 0%Z) && computeInGPU info then launch i s else s
  | None => s
  end.

Definition launchReady (s : Sched) : Sched := foldl launchIfReady s (seq 0 (length s.1)).

(** The while loop. *)
Definition lastRetired (l : list NodeInfo) : bool :=
  match last l with
  | Some info => bool_decide (remServers info = (-2)%Z)
  | None => false
  end.

Fixpoint rounds (isActive : nat → nat → bool) (fuel t : nat) (s : Sched) : option Sched :=
  if lastRetired s.1 then Some s
  else
    match fuel with
    | 0 => None
    | S fuel => rounds isActive fuel (S t) (round (isActive t) s)
    end.
(** ** The driver follows the scheduler *)

Lemma sameGraph_updNode i f d :
  (∀ x, staticPart (f x) = staticPart x) → sameGraph (_nodes d) (_nodes (updNode i f d)).
Proof.
  intros Hf j. rewrite lookup_updNode. case_decide; subst; [|done].
  destruct (_nodes d !! j); simpl; [|done]. by rewrite Hf.
Qed.

Lemma schedPart_alter (g : NodeInfo → NodeInfo) (l l' : list NodeInfo) i :
  (∀ x, schedPart (g x) = g (schedPart x)) →
  (∀ j, schedPart <$> l !! j = schedPart <$> l' !! j) →
  ∀ j, schedPart <$> alter g i l !! j = schedPart <$> alter g i l' !! j.
Proof.
  intros Hg H j. rewrite !list_lookup_alter. case_decide; subst; [|done].
  specialize (H j). destruct (l !! j), (l' !! j); simpl in *; try done.
  apply (inj Some) in H. by rewrite !Hg, H.
Qed.

Lemma kernels_waitForEvent i (ss : list nat) : kernels (EWaitForEvent i <$> ss) = [].
Proof. by induction ss. Qed.

Lemma kernels_assignToGPUEvents d i :
  is_Some (_nodes d !! i) → kernels (assignToGPUEvents d i) = [(Device, i)].
Proof.
  intros [info Hi]. unfold assignToGPUEvents. rewrite Hi.
  rewrite !kernels_app, kernels_waitForEvent. by repeat case_match.
Qed.

Lemma kernels_computeCPUNodeEvents d i :
  is_Some (_nodes d !! i) → kernels (computeCPUNodeEvents d i) = [(Host, i)].
Proof.
  intros [info Hi]. unfold computeCPUNodeEvents. rewrite Hi.
  rewrite !kernels_app. by repeat case_match.
Qed.

Lemma tracks_assignToGPU w d0 d s i :
  tracks d0 d s → is_Some (_nodes d !! i) → tracks d0 (assignToGPU w i d) (launch i s).
Proof.
  intros Ht Hi. unfold launch. rewrite <- (kernels_assignToGPUEvents d i Hi).
  apply (tracks_kernelRun d0 d (updNode i (set_remServers (-1)) d) _ s i _
           (alter (set_remServers (-1)) i)); try done.
  - apply schedPart_alter; [done|apply Ht].
  - by apply sameGraph_updNode.
  - by apply assignToGPU_spec.
  - apply publishedFirst_batches. intros j info Hj.
    apply elem_of_kernels in Hj. rewrite kernels_assignToGPUEvents in Hj by done.
    by apply list_elem_of_singleton in Hj.
Qed.

(** The host run of a node in device mode. *)
Lemma tracks_computeCPUNode w d0 d s i info :
  R__HAS_CUDA = true → _batchMode d0 = Cuda →
  tracks d0 d s → _nodes d !! i = Some info →
  tracks d0 (computeCPUNode w i d) (s.1, s.2 ++ [(Host, i)]).
Proof.
  intros Hcuda Hmode Ht Hi.
  rewrite <- (kernels_computeCPUNodeEvents d i) by done.
  apply (tracks_kernelRun d0 d d _ s i _ id); try done.
  - apply Ht.
  - apply computeCPUNode_spec.
  - destruct (outputSize info =? 1) eqn:Hs.
    + apply Nat.eqb_eq in Hs. unfold computeCPUNodeEvents. rewrite Hi, Hs. simpl.
      unfold inCudaMode. rewrite Hcuda, (tr_batchMode _ _ _ Ht), Hmode. simpl.
      rewrite ?bool_decide_eq_true_2 by done. simpl.
      apply (publishedFirst_scalar _ i). intros j Hj. repeat case_match; set_solver.
    + apply Nat.eqb_neq in Hs. apply publishedFirst_batches. intros j info0 Hj Hi0.
      apply kernel_in_computeCPUNodeEvents in Hj as (_ & _ & ->).
      destruct (sameGraph_lookup _ _ _ _ (tr_graph _ _ _ Ht) Hi0) as (x & Hx & Hsp).
      rewrite Hi in Hx. apply (inj Some) in Hx as <-.
      apply staticPart_fields in Hsp as (_ & _ & _ & <- & _). done.
Qed.

Lemma tracks_updNode d0 d s i (g : NodeInfo → NodeInfo) :
  (∀ x, schedPart (g x) = g (schedPart x)) → (∀ x, staticPart (g x) = staticPart x) →
  tracks d0 d s → tracks d0 (updNode i g d) (alter g i s.1, s.2).
Proof.
  intros Hg Hst [Hgr Hn Hb Ht]. split; simpl; try done.
  - eapply sameGraph_trans; [done|]. by apply sameGraph_updNode.
  - by apply schedPart_alter.
Qed.

Lemma schedPart_decrement x :
  schedPart (set_remServers (remServers x - 1) x)
  = set_remServers (remServers (schedPart x) - 1) (schedPart x).
Proof. done. Qed.

Lemma tracks_notifyClient w d0 d s c :
  tracks d0 d s →
  tracks d0
    (let d := updNode c (λ info, set_remServers (remServers info - 1) info) d in
     match _nodes d !! c with
     | Some info =>
         if bool_decide (remServers info = 0%Z) && computeInGPU info then assignToGPU w c d else d
     | None => d
     end)
    (countDownClient s c).
Proof.
  intros Ht. cbv zeta. unfold countDownClient.
  pose proof (tracks_updNode d0 d s c (λ info, set_remServers (remServers info - 1) info)
                schedPart_decrement ltac:(done) Ht) as Ht1.
  destruct (_nodes (updNode c _ d) !! c) as [x|] eqn:Hx.
  - destruct (tracks_lookup _ _ _ _ _ Ht1 Hx) as (y & Hy & Hxy). simpl in Hy. rewrite Hy.
    apply schedPart_fields in Hxy as (-> & -> & _).
    destruct (bool_decide (remServers y = 0%Z) && computeInGPU y); [|done].
    by apply (tracks_assignToGPU w d0 _ (_, s.2)).
  - pose proof (tracks_lookup_None _ _ _ _ Ht1 Hx) as Hy. simpl in Hy. by rewrite Hy.
Qed.

Lemma tracks_notifyClients w d0 d s i :
  tracks d0 d s → tracks d0 (notifyClients w i d) (countDown i s).
Proof.
  intros Ht. unfold notifyClients, countDown.
  assert (from_option clientInfos [] (_nodes d !! i) = from_option clientInfos [] (s.1 !! i)) as ->.
  { destruct (_nodes d !! i) as [x|] eqn:Hx.
    - destruct (tracks_lookup _ _ _ _ _ Ht Hx) as (y & -> & Hxy). simpl.
      by apply schedPart_fields in Hxy as (_ & _ & _ & -> & _).
    - by rewrite (tracks_lookup_None _ _ _ _ Ht Hx). }
  generalize (from_option clientInfos [] (s.1 !! i)). intros cs.
  revert d s Ht. induction cs as [|c cs IH]; intros d s Ht; [done|].
  cbn [foldl]. apply IH. by apply tracks_notifyClient.
Qed.

Lemma resetBuffer_schedPart i d j :
  schedPart <$> _nodes (resetBuffer i d) !! j = schedPart <$> _nodes d !! j.
Proof. rewrite resetBuffer_lookup. case_decide; [|done]. by destruct (_nodes d !! j). Qed.

Lemma tracks_releaseServers d0 d s i : tracks d0 d s → tracks d0 (releaseServers i d) s.
Proof.
  unfold releaseServers. generalize (from_option serverInfos [] (_nodes d !! i)).
  intros ss. revert d. induction ss as [|c ss IH]; intros d Ht; [done|].
  cbn [foldl]. apply IH.
  assert (tracks d0 (updNode c (λ info, set_remClients (remClients info - 1) info) d) s) as Ht1.
  { apply (tracks_silent d0 d); try done. intros j. rewrite lookup_updNode.
    case_decide; subst; [|done]. by destruct (_nodes d !! j). }
  destruct (_nodes (updNode c _ d) !! c) as [x|]; [|done].
  case_bool_decide; [|done].
  apply (tracks_silent d0 _ _ s Ht1).
  - apply resetBuffer_schedPart.
  - by destruct (resetBuffer_frame c (updNode c (λ info, set_remClients (remClients info - 1) info) d))
      as (_ & _ & _ & -> & _).
  - by destruct (resetBuffer_frame c (updNode c (λ info, set_remClients (remClients info - 1) info) d))
      as (_ & _ & -> & _).
Qed.

Lemma tracks_retireGPUNode w active d0 d s i :
  tracks d0 d s → tracks d0 (retireGPUNode w active i d) (retire active i s).
Proof.
  intros Ht. unfold retireGPUNode, retire.
  destruct (_nodes d !! i) as [x|] eqn:Hx.
  - destruct (tracks_lookup _ _ _ _ _ Ht Hx) as (y & -> & Hxy).
    apply schedPart_fields in Hxy as (-> & _).
    destruct (bool_decide (remServers y = (-1)%Z) && negb (active i)); [|done].
    apply tracks_releaseServers, tracks_notifyClients.
    by apply (tracks_updNode d0 d s i (set_remServers (-2))).
  - by rewrite (tracks_lookup_None _ _ _ _ Ht Hx).
Qed.

Lemma tracks_runCPUNode w d0 d s i :
  R__HAS_CUDA = true → _batchMode d0 = Cuda →
  tracks d0 d s → tracks d0 (runCPUNode w i d) (hostRun i s).
Proof.
  intros Hcuda Hmode Ht. unfold runCPUNode, hostRun.
  destruct (_nodes d !! i) as [x|] eqn:Hx.
  - destruct (tracks_lookup _ _ _ _ _ Ht Hx) as (y & -> & Hxy).
    apply schedPart_fields in Hxy as (_ & _ & -> & _).
    apply tracks_releaseServers, tracks_notifyClients.
    pose proof (tracks_updNode d0 d s i (set_remServers (-2)) ltac:(done) ltac:(done) Ht) as Ht1.
    destruct (fromDataset y); simpl.
    + by rewrite app_nil_r.
    + apply (tracks_computeCPUNode w d0 _ (_, s.2) i (set_remServers (-2) x)); try done.
      by rewrite lookup_updNode_eq, Hx.
  - by rewrite (tracks_lookup_None _ _ _ _ Ht Hx).
Qed.

Lemma find_first_ext {A} (P Q : A → Prop) `{!∀ x, Decision (P x)} `{!∀ x, Decision (Q x)}
    (l k : list A) :
  length l = length k →
  (∀ j x y, l !! j = Some x → k !! j = Some y → P x ↔ Q y) →
  fst <$> list_find P l = fst <$> list_find Q k.
Proof.
  revert k. induction l as [|x l IH]; intros [|y k] Hlen Hpq; simplify_eq/=; [done|].
  pose proof (Hpq 0 x y eq_refl eq_refl) as Hxy.
  repeat case_decide; try tauto; try done.
  rewrite <- !option_fmap_compose.
  specialize (IH k ltac:(done) (λ j, Hpq (S j))).
  destruct (list_find P l) as [[]|], (list_find Q k) as [[]|]; simplify_eq/=; done.
Qed.

Lemma tracks_nextCPUNode d0 d s : tracks d0 d s → nextCPUNode d = nextHostNode s.1.
Proof.
  intros Ht. unfold nextCPUNode, nextHostNode. apply find_first_ext.
  - by rewrite (tracks_length _ _ _ Ht).
  - intros j x y Hx Hy. destruct (tracks_lookup _ _ _ _ _ Ht Hx) as (y' & Hy' & Hxy).
    rewrite Hy in Hy'. apply (inj Some) in Hy' as <-.
    by apply schedPart_fields in Hxy as (-> & -> & _).
Qed.

Lemma tracks_foldl {A} (f : RooFitDriver → A → RooFitDriver) (g : Sched → A → Sched) d0 (l : list A) :
  (∀ d s a, tracks d0 d s → tracks d0 (f d a) (g s a)) →
  ∀ d s, tracks d0 d s → tracks d0 (foldl f d l) (foldl g s l).
Proof. intros H. induction l as [|a l IH]; intros d s Ht; [done|]. cbn [foldl]. auto. Qed.

Lemma tracks_emit d0 d s e :
  (∀ side i, e ≠ EKernel side i) → tracks d0 d s → tracks d0 (emit e d) s.
Proof.
  intros He [Hg Hn Hb (evs & Ht & Hk & Hp)]. split; try done.
  exists (evs ++ [e]). split; [simpl; by rewrite Ht, app_assoc|].
  split; [rewrite kernels_app, Hk; destruct e; try done; [by destruct (He side i)|
                                                         by rewrite app_nil_r..]|].
  apply publishedFirst_app; [done|]. apply publishedFirst_batches.
  intros i info Hi. apply list_elem_of_singleton in Hi. by destruct (He Host i).
Qed.

Lemma tracks_scheduleRound w active d0 d s :
  R__HAS_CUDA = true → _batchMode d0 = Cuda →
  tracks d0 d s → tracks d0 (scheduleRound w active d) (round active s).
Proof.
  intros Hcuda Hmode Ht. unfold scheduleRound, round, forNodes.
  rewrite (tracks_length _ _ _ Ht).
  pose proof (tracks_foldl (λ d i, retireGPUNode w active i d) (λ s i, retire active i s) d0
                (seq 0 (length (_nodes d)))
                (λ d s i, tracks_retireGPUNode w active d0 d s i) d s Ht) as Ht1.
  rewrite (tracks_nextCPUNode _ _ _ Ht1).
  destruct (nextHostNode _); [by apply tracks_runCPUNode|by apply tracks_emit].
Qed.

Lemma tracks_topRetired d0 d s : tracks d0 d s → topRetired d = lastRetired s.1.
Proof.
  intros Ht. unfold topRetired, lastRetired. rewrite !last_lookup, (tracks_length _ _ _ Ht).
  destruct (_nodes d !! _) as [x|] eqn:Hx.
  - destruct (tracks_lookup _ _ _ _ _ Ht Hx) as (y & -> & Hxy).
    by apply schedPart_fields in Hxy as (-> & _).
  - by rewrite (tracks_lookup_None _ _ _ _ Ht Hx).
Qed.

(** The while loop of the driver and the rounds of the scheduler stop
    together. *)
Lemma tracks_schedule w isActive d0 fuel :
  R__HAS_CUDA = true → _batchMode d0 = Cuda →
  ∀ t d s, tracks d0 d s →
    match schedule w isActive fuel t d, rounds isActive fuel t s with
    | Some d', Some s' => tracks d0 d' s'
    | None, None => True
    | _, _ => False
    end.
Proof.
  intros Hcuda Hmode. induction fuel as [|fuel IH]; intros t d s Ht; simpl;
    rewrite (tracks_topRetired _ _ _ Ht); destruct (lastRetired s.1); try done.
  apply IH. by apply tracks_scheduleRound.
Qed.

Lemma tracks_resetCounters d : tracks d (resetCounters d) (initialCounters (_nodes d), []).
Proof.
  unfold resetCounters.
  pose (P := λ (k : nat) (d' : RooFitDriver),
    _batchMode d' = _batchMode d ∧ _trace d' = _trace d ∧ length (_nodes d') = length (_nodes d)
    ∧ ∀ j, schedPart <$> _nodes d' !! j =
           schedPart <$> (if decide (j < k) then initialCounters (_nodes d) !! j
                          else _nodes d !! j)).
  match goal with |- tracks d (forNodes ?body d) _ =>
    assert (P (length (_nodes d)) (forNodes body d)) as (Hb & Ht & Hl & Hn) end.
  { apply forNodes_ind.
    - split; [done|]. split; [done|]. split; [done|]. intros j. by rewrite decide_False by lia.
    - intros k d' Hk (Hb & Ht & Hl & Hn).
      match goal with |- P _ (resetBuffer k ?d1) => set (D1 := d1) end.
      destruct (resetBuffer_frame k D1) as (_ & _ & F3 & F4 & _ & _ & F7).
      split; [by rewrite F4|]. split; [by rewrite F3|].
      split; [by rewrite F7; unfold D1; rewrite !length_updNode|].
      intros j. rewrite resetBuffer_schedPart. unfold D1. simpl.
      rewrite !list_lookup_alter. destruct (decide (k = j)) as [->|Hne].
      + specialize (Hn j). rewrite decide_False in Hn by lia.
        rewrite (decide_True (P := j < S j)) by lia.
        rewrite !(decide_True (P := j = j)) by done.
        unfold initialCounters. rewrite list_lookup_fmap.
        destruct (_nodes d' !! j) as [x|], (_nodes d !! j) as [y|]; simpl in *; try done.
        apply (inj Some) in Hn. apply schedPart_fields in Hn as Hf.
        destruct Hf as (_ & _ & _ & _ & Hs & _). rewrite ?Hs. f_equal.
        apply (f_equal (set_remServers (Z.of_nat (length (serverInfos y))))) in Hn. done.
      + rewrite Hn. repeat case_decide; try lia; done. }
  assert (∀ j, schedPart <$> _nodes (forNodes
            (λ i d, resetBuffer i
               (updNode i (λ info, set_remServers (Z.of_nat (length (serverInfos info))) info)
                  (updNode i (λ info, set_remClients (Z.of_nat (length (clientInfos info))) info)
                     d))) d) !! j
          = schedPart <$> initialCounters (_nodes d) !! j) as Hn'.
  { intros j. rewrite Hn. case_decide as Hj; [done|].
    unfold initialCounters. rewrite list_lookup_fmap.
    by rewrite (proj2 (lookup_ge_None (_nodes d) j)) by lia. }
  split; simpl.
  - intros j. transitivity (staticPart <$> initialCounters (_nodes d) !! j).
    + apply (fmap_through schedPart); [done|apply Hn'].
    + unfold initialCounters. rewrite list_lookup_fmap. by destruct (_nodes d !! j).
  - apply Hn'.
  - done.
  - exists []. rewrite app_nil_r. split; [done|]. split; [done|].
    apply publishedFirst_batches. by intros i info ?%elem_of_nil.
Qed.

Lemma tracks_launchIfReady w d0 d s i :
  tracks d0 d s →
  tracks d0
    match _nodes d !! i with
    | Some info =>
        if bool_decide (remServers info = 0%Z) && computeInGPU info then assignToGPU w i d else d
    | None => d
    end
    (launchIfReady s i).
Proof.
  intros Ht. unfold launchIfReady.
  destruct (_nodes d !! i) as [x|] eqn:Hx.
  - destruct (tracks_lookup _ _ _ _ _ Ht Hx) as (y & -> & Hxy).
    apply schedPart_fields in Hxy as (-> & -> & _).
    destruct (bool_decide (remServers y = 0%Z) && computeInGPU y); [|done].
    by apply tracks_assignToGPU.
  - by rewrite (tracks_lookup_None _ _ _ _ Ht Hx).
Qed.

Lemma tracks_assignInitialGPUNodes w d0 d s :
  tracks d0 d s → tracks d0 (assignInitialGPUNodes w d) (launchReady s).
Proof.
  intros Ht. unfold assignInitialGPUNodes, launchReady, forNodes.
  rewrite (tracks_length _ _ _ Ht).
  apply (tracks_foldl _ launchIfReady); [|done].
  intros d' s' i Ht'. by apply (tracks_launchIfReady w).
Qed.

(** The heterogeneous evaluation returns when the rounds of the scheduler
    stop, and then the scheduler has followed the driver. *)
Lemma tracks_getValHeterogeneous w isActive fuel d :
  R__HAS_CUDA = true → _batchMode d = Cuda →
  match getValHeterogeneous w isActive fuel d,
        rounds isActive fuel 0 (launchReady (initialCounters (_nodes d), [])) with
  | Some (r, d'), Some s' => tracks d d' s' ∧ r = topValue w d'
  | None, None => True
  | _, _ => False
  end.
Proof.
  intros Hcuda Hmode. unfold getValHeterogeneous.
  pose proof (tracks_assignInitialGPUNodes w d _ _ (tracks_resetCounters d)) as Ht.
  pose proof (tracks_schedule w isActive d fuel Hcuda Hmode 0 _ _ Ht) as Hs.
  destruct (schedule _ _ _ _ _) as [d'|], (rounds _ _ _ _) as [s'|]; simpl; done.
Qed.
(** ** The countdowns of the scheduler *)

Definition retiredIn (l : list NodeInfo) (i : nat) : bool :=
  bool_decide (remServers <$> l !! i = Some (-2)%Z).

(** The servers of a node that are not retired yet, counted with the
    multiplicity they have in the server list. *)
Definition pending (l : list NodeInfo) (info : NodeInfo) : nat :=
  length (filter (λ s, retiredIn l s = false) (serverInfos info)).

(** The invariant of the scheduler.  [owed c] is the number of decrements
    node [c] is still to get from the loop over the clients of the node that
    was just retired. *)
Record counting (owed : nat → nat) (s : Sched) : Prop := {
  cnt_wf : wellFormed s.1;
  cnt_count : ∀ c info, s.1 !! c = Some info →
    remServers info = Z.of_nat (pending s.1 info + owed c)
    ∨ (pending s.1 info = 0 ∧ owed c = 0
       ∧ (remServers info = (-1)%Z ∨ remServers info = (-2)%Z));
  cnt_launched : ∀ c info, s.1 !! c = Some info → remServers info = (-1)%Z →
    computeInGPU info = true;
  cnt_device : ∀ i info, s.1 !! i = Some info →
    (Device, i) ∈ s.2 ↔
      remServers info = (-1)%Z ∨ (remServers info = (-2)%Z ∧ computeInGPU info = true);
  cnt_host : ∀ i info, s.1 !! i = Some info →
    (Host, i) ∈ s.2 ↔
      remServers info = (-2)%Z ∧ computeInGPU info = false ∧ fromDataset info = false;
}.

(** A node that computes on the device is launched as soon as it is ready. *)
Definition eager (l : list NodeInfo) : Prop :=
  ∀ c info, l !! c = Some info → computeInGPU info = true → remServers info ≠ 0%Z.

Lemma sameGraph_alter_remServers (f : NodeInfo → Z) i l :
  sameGraph l (alter (λ info, set_remServers (f info) info) i l).
Proof.
  intros j. rewrite list_lookup_alter. case_decide; subst; [|done]. by destruct (l !! j).
Qed.

Lemma retiredIn_alter (f : NodeInfo → Z) i l j :
  retiredIn (alter (λ info, set_remServers (f info) info) i l) j =
    if decide (i = j)
    then from_option (λ info, bool_decide (f info = (-2)%Z)) false (l !! j)
    else retiredIn l j.
Proof.
  unfold retiredIn. rewrite list_lookup_alter. case_decide; subst; [|done].
  destruct (l !! j) as [x|]; simpl; [|done].
  apply bool_decide_ext. split; [by intros [= ->]|by intros ->].
Qed.

(** Changing a countdown that is not -2 into another that is not -2 leaves
    the pending servers of every node as they were. *)
Lemma pending_alter_same (f : NodeInfo → Z) i l x info :
  l !! i = Some x → remServers x ≠ (-2)%Z → f x ≠ (-2)%Z →
  pending (alter (λ info, set_remServers (f info) info) i l) info = pending l info.
Proof.
  intros Hx Hold Hnew. unfold pending. f_equal. apply list_filter_iff. intros s.
  rewrite retiredIn_alter. case_decide; subst; [|done].
  rewrite Hx. simpl. unfold retiredIn. rewrite Hx. simpl.
  rewrite !bool_decide_eq_false_2; [done|by intros [= ?]|done].
Qed.

Lemma filter_remove_length (P : nat → Prop) `{!∀ x, Decision (P x)} (i : nat) (l : list nat) :
  P i →
  length (filter P l) = length (filter (λ s, P s ∧ s ≠ i) l) + occurrences i l.
Proof.
  intros Hi. unfold occurrences. induction l as [|y l IH]; [done|].
  rewrite !filter_cons. destruct (decide (y = i)) as [->|Hne].
  - rewrite decide_True by done. rewrite (decide_False (P := P i ∧ i ≠ i)) by tauto.
    rewrite decide_True by done. simpl. lia.
  - rewrite (decide_False (P := i = y)) by done.
    destruct (decide (P y)).
    + rewrite decide_True by done. simpl. lia.
    + rewrite decide_False by tauto. done.
Qed.

(** Retiring node [i] takes it from the pending servers of its clients. *)
Lemma pending_alter_retire i l x info :
  l !! i = Some x → remServers x ≠ (-2)%Z →
  pending l info =
    pending (alter (set_remServers (-2)) i l) info + occurrences i (serverInfos info).
Proof.
  intros Hx Hold. unfold pending.
  change (set_remServers (-2)) with (λ info, set_remServers ((λ _, (-2)%Z) info) info).
  rewrite (filter_remove_length (λ s, retiredIn l s = false) i).
  2:{ unfold retiredIn. rewrite Hx. simpl. apply bool_decide_eq_false_2. by intros [= ?]. }
  f_equal. f_equal. apply list_filter_iff. intros s.
  rewrite retiredIn_alter. case_decide; subst.
  - rewrite Hx. simpl. split; [by intros [_ ?]|done].
  - split; [by intros [? _]|done].
Qed.

Lemma pending_set_remServers l z x : pending l (set_remServers z x) = pending l x.
Proof. done. Qed.

Lemma computeInGPU_set_remServers z x : computeInGPU (set_remServers z x) = computeInGPU x.
Proof. done. Qed.

Lemma counting_launch owed s i x :
  counting owed s → s.1 !! i = Some x → remServers x = 0%Z → computeInGPU x = true →
  counting owed (launch i s).
Proof.
  intros [Hwf Hc Hl Hd Hh] Hx Hr Hg. destruct s as [l ks]. simpl in *.
  assert (∀ info, pending (alter (λ info, set_remServers (-1) info) i l) info = pending l info)
    as Hp.
  { intros info. apply (pending_alter_same (λ _, (-1)%Z) i l x); [done|lia|done]. }
  split; simpl.
  - eapply wellFormed_sameGraph; [|done]. apply (sameGraph_alter_remServers (λ _, (-1)%Z)).
  - intros c info. rewrite list_lookup_alter. case_decide; subst.
    + rewrite Hx. intros [= <-]. rewrite Hp, pending_set_remServers. simpl.
      destruct (Hc c x Hx) as [H|(? & ? & [?|?])]; [|lia..].
      right. split; [lia|]. split; [lia|by left].
    + intros Hinfo. rewrite Hp. by apply Hc.
  - intros c info. rewrite list_lookup_alter. case_decide; subst.
    + rewrite Hx. by intros [= <-].
    + apply Hl.
  - intros j info. rewrite list_lookup_alter, elem_of_app, list_elem_of_singleton.
    case_decide; subst.
    + rewrite Hx. intros [= <-]. simpl. split; [by left|]. intros _. by right.
    + intros Hinfo. rewrite (Hd j info Hinfo). split; [|by left].
      intros [?|[= ?]]; [done|congruence].
  - intros j info. rewrite list_lookup_alter, elem_of_app, list_elem_of_singleton.
    case_decide; subst.
    + rewrite Hx. intros [= <-]. simpl. rewrite (Hh j x Hx). split; [|lia].
      intros [(? & _)|[= ]]. lia.
    + intros Hinfo. rewrite (Hh j info Hinfo). split; [|by left].
      by intros [?|[= ]].
Qed.

(** Node [i], ready or launched, is retired; its clients are owed their
    decrements. *)
Lemma counting_retired s i x ks' :
  counting (λ _, 0) s → s.1 !! i = Some x →
  remServers x = 0%Z ∨ remServers x = (-1)%Z →
  (∀ j info, alter (set_remServers (-2)) i s.1 !! j = Some info →
     (Device, j) ∈ ks' ↔
       remServers info = (-1)%Z ∨ (remServers info = (-2)%Z ∧ computeInGPU info = true)) →
  (∀ j info, alter (set_remServers (-2)) i s.1 !! j = Some info →
     (Host, j) ∈ ks' ↔
       remServers info = (-2)%Z ∧ computeInGPU info = false ∧ fromDataset info = false) →
  counting (λ c, occurrences c (clientInfos x)) (alter (set_remServers (-2)) i s.1, ks').
Proof.
  intros [Hwf Hc Hl _ _] Hx Hr Hd' Hh'. destruct s as [l ks]. simpl in *.
  assert (remServers x ≠ (-2)%Z) as Hnot by lia.
  split; simpl; try done.
  - eapply wellFormed_sameGraph; [|done]. apply (sameGraph_alter_remServers (λ _, (-2)%Z)).
  - intros c info. rewrite list_lookup_alter. case_decide; subst.
    + rewrite Hx. intros [= <-]. rewrite pending_set_remServers. right.
      pose proof (pending_alter_retire c l x x Hx Hnot) as Hp.
      assert (pending l x = 0) as Hp0.
      { destruct (Hc c x Hx) as [H|(? & _)]; [lia|done]. }
      split; [lia|]. split; [|by right].
      destruct (decide (0 < occurrences c (clientInfos x))) as [Hpos|]; [|lia].
      apply occurrences_pos in Hpos. destruct (wf_clients _ Hwf c x c Hx Hpos). lia.
    + intros Hinfo.
      pose proof (pending_alter_retire i l x info Hx Hnot) as Hp.
      rewrite (wf_edges _ Hwf i c x info Hx Hinfo).
      destruct (Hc c info Hinfo) as [Hcl|(Hp0 & _ & Hcr)]; [left; lia|right].
      split; [lia|]. split; [lia|done].
  - intros c info. rewrite list_lookup_alter. case_decide; subst.
    + rewrite Hx. by intros [= <-].
    + apply Hl.
Qed.

Lemma occurrences_cons c c' (cs : list nat) :
  occurrences c' (c :: cs) = (if decide (c' = c) then 1 else 0) + occurrences c' cs.
Proof. unfold occurrences. rewrite filter_cons. by case_decide. Qed.

(** One round of the loop over the clients. *)
Lemma counting_countDownClient s c cs :
  counting (λ c', occurrences c' (c :: cs)) s → eager s.1 →
  counting (λ c', occurrences c' cs) (countDownClient s c) ∧ eager (countDownClient s c).1.
Proof.
  intros Hcnt Heager. destruct s as [l ks]. unfold countDownClient. simpl.
  set (dec := λ info, set_remServers (remServers info - 1) info).
  destruct (l !! c) as [x|] eqn:Hx.
  2:{ rewrite list_lookup_alter_eq, Hx. simpl.
      assert (alter dec c l = l) as -> by (apply list_eq; intros j; rewrite list_lookup_alter;
                                           case_decide; subst; by rewrite ?Hx).
      split; [|done]. destruct Hcnt as [Hwf Hc Hl Hd Hh]. simpl in *. split; try done.
      intros c' info Hinfo. simpl in *. specialize (Hc c' info Hinfo). rewrite occurrences_cons in Hc.
      rewrite decide_False in Hc by (intros Heq; subst; congruence). done. }
  rewrite list_lookup_alter_eq, Hx. simpl.
  destruct Hcnt as [Hwf Hc Hl Hd Hh]. simpl in *.
  (* the client is owed a decrement, so its countdown is positive *)
  assert (remServers x = Z.of_nat (pending l x + S (occurrences c cs))) as Hrx.
  { destruct (Hc c x Hx) as [H|(_ & H & _)]; rewrite occurrences_cons, decide_True in H by done;
      [by rewrite H|lia]. }
  assert (∀ info, pending (alter dec c l) info = pending l info) as Hp.
  { intros info. apply (pending_alter_same (λ info, (remServers info - 1)%Z) c l x); [done|lia..]. }
  assert (counting (λ c', occurrences c' cs) (alter dec c l, ks)) as Hcnt'.
  { split; simpl.
    - eapply wellFormed_sameGraph; [|done].
      apply (sameGraph_alter_remServers (λ info, (remServers info - 1)%Z)).
    - intros c' info. rewrite list_lookup_alter. case_decide; subst.
      + rewrite Hx. intros [= <-]. rewrite Hp. unfold dec. rewrite pending_set_remServers. simpl.
        left. lia.
      + intros Hinfo. rewrite Hp. specialize (Hc c' info Hinfo).
        rewrite occurrences_cons, decide_False in Hc by done. done.
    - intros c' info. rewrite list_lookup_alter. case_decide; subst.
      + rewrite Hx. intros [= <-]. simpl. lia.
      + apply Hl.
    - intros j info. rewrite list_lookup_alter. case_decide; subst.
      + rewrite Hx. intros [= <-]. simpl. rewrite (Hd j x Hx). lia.
      + apply Hd.
    - intros j info. rewrite list_lookup_alter. case_decide; subst.
      + rewrite Hx. intros [= <-]. simpl. rewrite (Hh j x Hx). lia.
      + apply Hh. }
  assert (∀ c' info, c' ≠ c → alter dec c l !! c' = Some info → computeInGPU info = true →
            remServers info ≠ 0%Z) as Hothers.
  { intros c' info Hne. rewrite list_lookup_alter_ne by done. apply Heager. }
  destruct (bool_decide (remServers x - 1 = 0)%Z && computeInGPU (dec x)) eqn:Hready.
  - apply andb_true_iff in Hready as [Hz%bool_decide_eq_true Hg].
    split.
    + apply (counting_launch _ (alter dec c l, ks) c (dec x)); try done.
      simpl. by rewrite list_lookup_alter_eq, Hx.
    + intros c' info. simpl. rewrite list_lookup_alter. case_decide; subst.
      * rewrite list_lookup_alter_eq, Hx. by intros [= <-].
      * apply Hothers. done.
  - split; [done|]. intros c' info. simpl. destruct (decide (c' = c)) as [->|Hne].
    + rewrite list_lookup_alter_eq, Hx. intros [= <-] Hg. simpl.
      rewrite Hg, andb_true_r in Hready. by apply bool_decide_eq_false in Hready.
    + by apply Hothers.
Qed.

(** The whole loop over the clients. *)
Lemma counting_countDownClients cs s :
  counting (λ c', occurrences c' cs) s → eager s.1 →
  counting (λ _, 0) (foldl countDownClient s cs) ∧ eager (foldl countDownClient s cs).1.
Proof.
  revert s. induction cs as [|c cs IH]; intros s Hcnt Heager; [done|].
  cbn [foldl]. destruct (counting_countDownClient s c cs Hcnt Heager). by apply IH.
Qed.

Lemma eager_retired l i :
  eager l → eager (alter (set_remServers (-2)) i l).
Proof.
  intros He c info. rewrite list_lookup_alter. case_decide; subst; [|apply He].
  destruct (l !! c); simpl; [|done]. by intros [= <-].
Qed.

Lemma counting_retire active i s :
  counting (λ _, 0) s → eager s.1 →
  counting (λ _, 0) (retire active i s) ∧ eager (retire active i s).1.
Proof.
  intros Hcnt He. unfold retire. destruct (s.1 !! i) as [x|] eqn:Hx; [|done].
  destruct (bool_decide (remServers x = (-1)%Z) && negb (active i)) eqn:Hgo; [|done].
  apply andb_true_iff in Hgo as [Hr%bool_decide_eq_true _].
  unfold countDown, setRemServers. simpl. rewrite list_lookup_alter_eq, Hx. simpl.
  apply counting_countDownClients; [|by apply eager_retired].
  apply (counting_retired s i x s.2 Hcnt Hx); [by right|..].
  - intros j info. rewrite list_lookup_alter. case_decide; subst.
    + rewrite Hx. intros [= <-]. simpl. rewrite ?computeInGPU_set_remServers, (cnt_device _ _ Hcnt j x Hx).
      pose proof (cnt_launched _ _ Hcnt j x Hx Hr). split; [by right|by left].
    + apply (cnt_device _ _ Hcnt).
  - intros j info. rewrite list_lookup_alter. case_decide; subst.
    + rewrite Hx. intros [= <-]. simpl. rewrite ?computeInGPU_set_remServers, (cnt_host _ _ Hcnt j x Hx).
      pose proof (cnt_launched _ _ Hcnt j x Hx Hr). split; [lia|]. intros (_ & ? & _). congruence.
    + apply (cnt_host _ _ Hcnt).
Qed.

Lemma counting_hostRun i s x :
  counting (λ _, 0) s → eager s.1 →
  s.1 !! i = Some x → remServers x = 0%Z → computeInGPU x = false →
  counting (λ _, 0) (hostRun i s) ∧ eager (hostRun i s).1.
Proof.
  intros Hcnt He Hx Hr Hg. unfold hostRun. rewrite Hx.
  unfold countDown. simpl. rewrite list_lookup_alter_eq, Hx. simpl.
  apply counting_countDownClients; [|by apply eager_retired].
  apply (counting_retired s i x _ Hcnt Hx); [by left|..].
  - intros j info. rewrite list_lookup_alter, elem_of_app. case_decide; subst.
    + rewrite Hx. intros [= <-]. simpl. rewrite ?computeInGPU_set_remServers, (cnt_device _ _ Hcnt j x Hx). split.
      * intros [[?|[? _]]|Hin]; [lia..|]. destruct (fromDataset x); set_solver.
      * intros [?|[_ ?]]; [lia|congruence].
    + intros Hinfo. rewrite (cnt_device _ _ Hcnt j info Hinfo). split; [|by left].
      intros [?|Hin]; [done|]. destruct (fromDataset x); set_solver.
  - intros j info. rewrite list_lookup_alter, elem_of_app. case_decide; subst.
    + rewrite Hx. intros [= <-]. simpl. rewrite ?computeInGPU_set_remServers, (cnt_host _ _ Hcnt j x Hx). split.
      * intros [(? & _)|Hin]; [lia|]. destruct (fromDataset x); [set_solver|done].
      * intros (_ & _ & ->). right. set_solver.
    + intros Hinfo. rewrite (cnt_host _ _ Hcnt j info Hinfo). split; [|by left].
      intros [?|Hin]; [done|]. destruct (fromDataset x); set_solver.
Qed.

Lemma counting_round active s :
  counting (λ _, 0) s → eager s.1 →
  counting (λ _, 0) (round active s) ∧ eager (round active s).1.
Proof.
  intros Hcnt He. unfold round.
  assert (∀ (ns : list nat) s, counting (λ _, 0) s → eager s.1 →
            counting (λ _, 0) (foldl (λ s i, retire active i s) s ns)
            ∧ eager (foldl (λ s i, retire active i s) s ns).1) as Hfold.
  { induction ns as [|i ns IH]; intros s' Hc' He'; [done|].
    cbn [foldl]. destruct (counting_retire active i s' Hc' He'). by apply IH. }
  destruct (Hfold (seq 0 (length s.1)) s Hcnt He) as [Hc1 He1].
  set (s1 := foldl _ s _) in *.
  unfold nextHostNode. destruct (list_find _ s1.1) as [[i x]|] eqn:Hfind; simpl; [|done].
  apply list_find_Some in Hfind as (Hx & [Hr Hg] & _).
  by apply (counting_hostRun i s1 x).
Qed.

Lemma counting_rounds isActive fuel t s s' :
  counting (λ _, 0) s → eager s.1 → rounds isActive fuel t s = Some s' →
  counting (λ _, 0) s' ∧ eager s'.1 ∧ lastRetired s'.1 = true.
Proof.
  revert t s. induction fuel as [|fuel IH]; intros t s Hcnt He; simpl;
    destruct (lastRetired s.1) eqn:Hlast; try done.
  - by intros [= <-].
  - by intros [= <-].
  - destruct (counting_round (isActive t) s Hcnt He). by apply IH.
Qed.

Lemma filter_all {A} (P : A → Prop) `{!∀ x, Decision (P x)} (l : list A) :
  (∀ x, P x) → filter P l = l.
Proof.
  intros HP. induction l as [|x l IH]; [done|]. by rewrite filter_cons_True, IH.
Qed.

Lemma length_initialCounters l : length (initialCounters l) = length l.
Proof. apply length_fmap. Qed.

Lemma retiredIn_initialCounters l i : retiredIn (initialCounters l) i = false.
Proof.
  unfold retiredIn, initialCounters. rewrite list_lookup_fmap.
  apply bool_decide_eq_false_2. destruct (l !! i); simpl; [|done]. intros [= ?]. lia.
Qed.

Lemma counting_initial l : wellFormed l → counting (λ _, 0) (initialCounters l, []).
Proof.
  intros Hwf.
  assert (∀ c info, initialCounters l !! c = Some info →
            remServers info = Z.of_nat (length (serverInfos info))) as Hrs.
  { intros c info. unfold initialCounters. rewrite list_lookup_fmap.
    destruct (l !! c); simpl; [|done]. by intros [= <-]. }
  split; simpl.
  - eapply wellFormed_sameGraph; [|done]. intros j. unfold initialCounters.
    rewrite list_lookup_fmap. by destruct (l !! j).
  - intros c info Hinfo. left. rewrite (Hrs c info Hinfo). f_equal. unfold pending.
    rewrite Nat.add_0_r. f_equal. symmetry. apply filter_all. intros s.
    apply retiredIn_initialCounters.
  - intros c info Hinfo Hr. rewrite (Hrs c info Hinfo) in Hr. lia.
  - intros i info Hinfo. rewrite (Hrs i info Hinfo). split; [by intros ?%elem_of_nil|lia].
  - intros i info Hinfo. rewrite (Hrs i info Hinfo). split; [by intros ?%elem_of_nil|lia].
Qed.

Lemma counting_launchReady s :
  counting (λ _, 0) s → counting (λ _, 0) (launchReady s) ∧ eager (launchReady s).1.
Proof.
  intros Hcnt. unfold launchReady.
  pose (P := λ (k : nat) (s' : Sched),
    counting (λ _, 0) s' ∧ length s'.1 = length s.1
    ∧ ∀ j info, j < k → s'.1 !! j = Some info → computeInGPU info = true →
        remServers info ≠ 0%Z).
  assert (P (length s.1) (foldl launchIfReady s (seq 0 (length s.1)))) as (Hc & Hl & He).
  { apply (foldl_seq_ind P).
    - split; [done|]. split; [done|]. intros; lia.
    - intros k s' Hk (Hc & Hl & He). unfold launchIfReady.
      destruct (s'.1 !! k) as [x|] eqn:Hx.
      2:{ split; [done|]. split; [done|]. intros j info Hj Hinfo.
          destruct (decide (j = k)) as [->|]; [congruence|]. apply (He j); [lia|done]. }
      destruct (bool_decide (remServers x = 0%Z) && computeInGPU x) eqn:Hready.
      + apply andb_true_iff in Hready as [Hr%bool_decide_eq_true Hg].
        split; [by apply (counting_launch _ s' k x)|]. simpl.
        split; [by rewrite length_alter|].
        intros j info Hj. rewrite list_lookup_alter. case_decide; subst.
        * rewrite Hx. by intros [= <-].
        * apply He. lia.
      + split; [done|]. split; [done|]. intros j info Hj Hinfo Hg.
        destruct (decide (j = k)) as [->|]; [|apply (He j info); [lia|done..]].
        rewrite Hx in Hinfo. apply (inj Some) in Hinfo as <-.
        rewrite Hg, andb_true_r in Hready. by apply bool_decide_eq_false in Hready. }
  split; [done|]. intros c info Hinfo. apply (He c info); [|done].
  rewrite <- Hl. by eapply lookup_lt_Some.
Qed.

(** *** When the top node is retired *)

(** Every node but the last has a client: every node is among the
    transitive servers of the top node. *)
Definition reachesTop (l : list NodeInfo) : Prop :=
  ∀ i info, l !! i = Some info → S i < length l → clientInfos info ≠ [].

Lemma reachesTop_sameGraph l l' : sameGraph l l' → reachesTop l → reachesTop l'.
Proof.
  intros Hg H i info Hi Hlt. apply sameGraph_sym in Hg.
  destruct (sameGraph_lookup _ _ _ _ Hg Hi) as (x & Hx & Hs).
  apply staticPart_fields in Hs as (_ & _ & _ & _ & _ & _ & Hc & _). rewrite <- Hc.
  apply (H i x Hx). pose proof (sameGraph_length _ _ Hg). lia.
Qed.

Lemma filter_length_0 {A} (P : A → Prop) `{!∀ x, Decision (P x)} (l : list A) x :
  length (filter P l) = 0 → x ∈ l → ¬ P x.
Proof.
  intros Hlen Hx HP. assert (x ∈ filter P l) as Hin by (by apply list_elem_of_filter).
  destruct (filter P l); [by apply elem_of_nil in Hin|done].
Qed.

Lemma counting_all_retired s :
  counting (λ _, 0) s → reachesTop s.1 → lastRetired s.1 = true →
  ∀ i info, s.1 !! i = Some info → remServers info = (-2)%Z.
Proof.
  intros Hcnt Hreach Hlast.
  assert (∀ m i info, length s.1 - i ≤ m → s.1 !! i = Some info → remServers info = (-2)%Z)
    as H; [|by eauto].
  induction m as [|m IH]; intros i info Hm Hinfo.
  { apply lookup_lt_Some in Hinfo. lia. }
  pose proof (lookup_lt_Some _ _ _ Hinfo) as Hlt.
  destruct (decide (S i = length s.1)) as [Htop|Hne].
  - unfold lastRetired in Hlast. rewrite last_lookup in Hlast.
    replace (pred (length s.1)) with i in Hlast by lia. rewrite Hinfo in Hlast.
    by apply bool_decide_eq_true in Hlast.
  - destruct (clientInfos info) as [|c cs] eqn:Hc; [by destruct (Hreach i info Hinfo); [lia|]|].
    assert (c ∈ clientInfos info) as Hin by (rewrite Hc; set_solver).
    destruct (wf_clients _ (cnt_wf _ _ Hcnt) i info c Hinfo Hin) as [Hic Hcl].
    destruct (lookup_lt_is_Some_2 _ _ Hcl) as [cinfo Hcinfo].
    pose proof (IH c cinfo ltac:(lia) Hcinfo) as Hrc.
    destruct (cnt_count _ _ Hcnt c cinfo Hcinfo) as [?|(Hp & _)]; [lia|].
    apply (wellFormed_client_server _ i c info cinfo (cnt_wf _ _ Hcnt) Hinfo Hcinfo) in Hin.
    pose proof (filter_length_0 _ _ i Hp Hin) as Hret.
    apply not_false_is_true in Hret. unfold retiredIn in Hret.
    apply bool_decide_eq_true in Hret. rewrite Hinfo in Hret. by injection Hret.
Qed.

(** ** Progress of the scheduler *)

(** What a node still has to count down: two more than its countdown. *)
Definition weight (info : NodeInfo) : nat := Z.to_nat (remServers info + 2).

Definition potential (l : list NodeInfo) : nat := sum_list (weight <$> l).

Lemma potential_alter (f : NodeInfo → NodeInfo) i l x :
  l !! i = Some x → potential (alter f i l) + weight x = potential l + weight (f x).
Proof.
  unfold potential. revert i. induction l as [|y l IH]; intros [|i] Hx; simplify_eq/=.
  - lia.
  - specialize (IH i Hx). lia.
Qed.

Lemma potential_alter_le (f : NodeInfo → NodeInfo) i l :
  (∀ x, weight (f x) ≤ weight x) → potential (alter f i l) ≤ potential l.
Proof.
  intros Hf. unfold potential. revert i. induction l as [|y l IH]; intros [|i]; simpl in *; try lia.
  - specialize (Hf y). lia.
  - apply Nat.add_le_mono_l, IH.
Qed.

Lemma potential_lookup l i x : l !! i = Some x → weight x ≤ potential l.
Proof.
  unfold potential. revert i. induction l as [|y l IH]; intros [|i] Hx; simplify_eq/=.
  - lia.
  - specialize (IH i Hx). lia.
Qed.

Lemma launch_potential i s x :
  s.1 !! i = Some x → remServers x = 0%Z → potential (launch i s).1 < potential s.1.
Proof.
  intros Hx Hr. unfold launch. simpl.
  pose proof (potential_alter (set_remServers (-1)) i s.1 x Hx) as H.
  unfold weight in H. rewrite Hr in H. simpl in H. lia.
Qed.

Lemma countDownClient_potential s c : potential (countDownClient s c).1 ≤ potential s.1.
Proof.
  unfold countDownClient.
  set (l := alter _ c s.1).
  assert (potential l ≤ potential s.1) as Hl.
  { apply potential_alter_le. intros x. unfold weight. simpl. lia. }
  destruct (l !! c) as [info|] eqn:Hinfo; [|done].
  destruct (bool_decide (remServers info = 0%Z) && computeInGPU info) eqn:Hgo; [|done].
  apply andb_true_iff in Hgo as [Hr%bool_decide_eq_true _].
  pose proof (launch_potential c (l, s.2) info Hinfo Hr). simpl in *. lia.
Qed.

Lemma countDownClients_potential cs s : potential (foldl countDownClient s cs).1 ≤ potential s.1.
Proof.
  revert s. induction cs as [|c cs IH]; intros s; [done|]. cbn [foldl].
  pose proof (IH (countDownClient s c)). pose proof (countDownClient_potential s c). lia.
Qed.

Lemma countDown_potential i s : potential (countDown i s).1 ≤ potential s.1.
Proof. apply countDownClients_potential. Qed.

Lemma retire_potential active i s : potential (retire active i s).1 ≤ potential s.1.
Proof.
  unfold retire. destruct (s.1 !! i) as [x|] eqn:Hx; [|done].
  destruct (bool_decide _ && _); [|done].
  pose proof (countDown_potential i (setRemServers i (-2) s)) as H.
  etrans; [exact H|]. unfold setRemServers. simpl.
  pose proof (potential_alter (set_remServers (-2)) i s.1 x Hx) as H'.
  unfold weight at 2 in H'. simpl in H'. lia.
Qed.

Lemma retire_launched active i s x :
  s.1 !! i = Some x → remServers x = (-1)%Z → active i = false →
  potential (retire active i s).1 < potential s.1.
Proof.
  intros Hx Hr Ha. unfold retire. rewrite Hx, Ha, andb_true_r, bool_decide_eq_true_2 by done.
  pose proof (countDown_potential i (setRemServers i (-2) s)) as H.
  eapply Nat.le_lt_trans; [exact H|]. unfold setRemServers. simpl.
  pose proof (potential_alter (set_remServers (-2)) i s.1 x Hx) as H'.
  unfold weight in H'. rewrite Hr in H'. simpl in H'. lia.
Qed.

Lemma retire_skip active i s :
  (∀ x, s.1 !! i = Some x → remServers x ≠ (-1)%Z) → retire active i s = s.
Proof.
  intros H. unfold retire. destruct (s.1 !! i) as [x|]; [|done].
  by rewrite bool_decide_eq_false_2 by (by apply H).
Qed.

Lemma retireAll_potential active ns s :
  potential (foldl (λ s i, retire active i s) s ns).1 ≤ potential s.1.
Proof.
  revert s. induction ns as [|i ns IH]; intros s; [done|]. cbn [foldl].
  pose proof (IH (retire active i s)). pose proof (retire_potential active i s). lia.
Qed.

Lemma retireAll_skip active ns s :
  (∀ i x, i ∈ ns → s.1 !! i = Some x → remServers x ≠ (-1)%Z) →
  foldl (λ s i, retire active i s) s ns = s.
Proof.
  induction ns as [|i ns IH]; intros H; [done|]. cbn [foldl].
  rewrite retire_skip by (intros x; apply H; set_solver). apply IH.
  intros j x Hj. apply H. set_solver.
Qed.

Lemma retireAll_launched active ns s i x :
  (∀ j, active j = false) → i ∈ ns → s.1 !! i = Some x → remServers x = (-1)%Z →
  potential (foldl (λ s i, retire active i s) s ns).1 < potential s.1.
Proof.
  intros Hidle. revert s. induction ns as [|k ns IH]; intros s Hin Hx Hr.
  { by apply elem_of_nil in Hin. }
  cbn [foldl].
  destruct (s.1 !! k) as [y|] eqn:Hy.
  - destruct (decide (remServers y = (-1)%Z)) as [Hry|Hry].
    + pose proof (retire_launched active k s y Hy Hry (Hidle k)).
      pose proof (retireAll_potential active ns (retire active k s)). lia.
    + rewrite retire_skip by (intros y'; rewrite Hy; by intros [= <-]).
      apply IH; [|done..]. apply elem_of_cons in Hin as [->|]; [congruence|done].
  - rewrite retire_skip by (intros y'; by rewrite Hy).
    apply IH; [|done..]. apply elem_of_cons in Hin as [->|]; [congruence|done].
Qed.

Lemma hostRun_potential i s x :
  s.1 !! i = Some x → remServers x = 0%Z → potential (hostRun i s).1 < potential s.1.
Proof.
  intros Hx Hr. unfold hostRun. rewrite Hx.
  eapply Nat.le_lt_trans; [apply countDown_potential|]. simpl.
  pose proof (potential_alter (set_remServers (-2)) i s.1 x Hx) as H.
  unfold weight in H. rewrite Hr in H. simpl in H. lia.
Qed.

Lemma round_potential active s : potential (round active s).1 ≤ potential s.1.
Proof.
  unfold round. pose proof (retireAll_potential active (seq 0 (length s.1)) s) as H.
  set (s1 := foldl _ s _) in *. unfold nextHostNode.
  destruct (list_find _ s1.1) as [[i x]|] eqn:Hfind; simpl; [|done].
  apply list_find_Some in Hfind as (Hx & [Hr _] & _).
  pose proof (hostRun_potential i s1 x Hx Hr). lia.
Qed.

(** The steps of the scheduler keep the number of nodes. *)
Lemma countDownClient_length s c : length (countDownClient s c).1 = length s.1.
Proof.
  unfold countDownClient. destruct (_ !! c) as [info|]; simpl; [|by rewrite length_alter].
  destruct (_ && _); simpl; by rewrite ?length_alter.
Qed.

Lemma countDown_length i s : length (countDown i s).1 = length s.1.
Proof.
  unfold countDown. generalize (from_option clientInfos [] (s.1 !! i)). intros cs.
  revert s. induction cs as [|c cs IH]; intros s; [done|]. cbn [foldl].
  by rewrite IH, countDownClient_length.
Qed.

Lemma retire_length active i s : length (retire active i s).1 = length s.1.
Proof.
  unfold retire. destruct (s.1 !! i); [|done]. destruct (_ && _); [|done].
  rewrite countDown_length. apply length_alter.
Qed.

Lemma round_length active s : length (round active s).1 = length s.1.
Proof.
  unfold round.
  assert (∀ ns s, length (foldl (λ s i, retire active i s) s ns).1 = length s.1) as H.
  { induction ns as [|i ns IH]; intros s'; [done|]. cbn [foldl]. by rewrite IH, retire_length. }
  specialize (H (seq 0 (length s.1)) s). set (s1 := foldl _ s _) in *.
  destruct (nextHostNode s1.1) as [i|]; [|done].
  unfold hostRun. destruct (s1.1 !! i); [|done]. rewrite countDown_length. simpl.
  by rewrite length_alter.
Qed.

(** The countdown of a node in a state of the scheduler is at least -2. *)
Lemma counting_bound s i x : counting (λ _, 0) s → s.1 !! i = Some x → (-2 ≤ remServers x)%Z.
Proof. intros Hcnt Hx. destruct (cnt_count _ _ Hcnt i x Hx) as [?|(_ & _ & [?|?])]; lia. Qed.

Lemma filter_none {A} (P : A → Prop) `{!∀ x, Decision (P x)} (l : list A) :
  (∀ x, x ∈ l → ¬ P x) → filter P l = [].
Proof.
  induction l as [|x l IH]; intros Hl; [done|].
  rewrite filter_cons_False by (apply Hl; set_solver). apply IH. intros y Hy. apply Hl. set_solver.
Qed.

(** With idle streams a round retires a node or counts down, unless the top
    node is retired. *)
Lemma round_progress active s :
  counting (λ _, 0) s → eager s.1 → lastRetired s.1 = false → s.1 ≠ [] →
  (∀ i, active i = false) →
  potential (round active s).1 < potential s.1.
Proof.
  intros Hcnt He Hlast Hne Hidle.
  destruct (list_find (λ x, remServers x = (-1)%Z) s.1) as [[i x]|] eqn:Hlaunched.
  { apply list_find_Some in Hlaunched as (Hx & Hr & _).
    unfold round.
    assert (i ∈ seq 0 (length s.1)) as Hin.
    { apply elem_of_seq. apply lookup_lt_Some in Hx. lia. }
    pose proof (retireAll_launched active _ s i x Hidle Hin Hx Hr) as H.
    set (s1 := foldl _ s _) in *. unfold nextHostNode.
    destruct (list_find _ s1.1) as [[j y]|] eqn:Hfind; simpl; [|done].
    apply list_find_Some in Hfind as (Hy & [Hry _] & _).
    pose proof (hostRun_potential j s1 y Hy Hry). lia. }
  apply list_find_None in Hlaunched. rewrite Forall_lookup in Hlaunched.
  unfold round. rewrite retireAll_skip by (intros i x _ Hx; by apply (Hlaunched i x)).
  destruct (list_find (λ x, remServers x ≠ (-2)%Z) s.1) as [[i x]|] eqn:Hfirst.
  2:{ apply list_find_None in Hfirst. rewrite Forall_lookup in Hfirst.
      unfold lastRetired in Hlast. rewrite last_lookup in Hlast.
      destruct (s.1 !! pred (length s.1)) as [y|] eqn:Hy.
      - specialize (Hfirst _ _ Hy). apply bool_decide_eq_false in Hlast.
        destruct (decide (remServers y = (-2)%Z)); done.
      - apply lookup_ge_None in Hy. destruct s.1; [done|simpl in Hy; lia]. }
  apply list_find_Some in Hfirst as (Hx & Hr & Hmin).
  assert (pending s.1 x = 0) as Hp.
  { unfold pending. rewrite filter_none; [done|]. intros j Hj.
    pose proof (wf_servers _ (cnt_wf _ _ Hcnt) i x j Hx Hj) as Hlt.
    destruct (lookup_lt_is_Some_2 s.1 j) as [y Hy]; [apply lookup_lt_Some in Hx; lia|].
    specialize (Hmin j y Hy Hlt). unfold retiredIn. rewrite Hy. simpl.
    rewrite bool_decide_eq_true_2; [done|]. f_equal.
    destruct (decide (remServers y = (-2)%Z)); done. }
  assert (remServers x = 0%Z) as Hr0.
  { pose proof (Hlaunched i x Hx).
    destruct (cnt_count _ _ Hcnt i x Hx) as [?|(_ & _ & [?|?])]; [lia|done..]. }
  assert (computeInGPU x = false) as Hg.
  { destruct (computeInGPU x) eqn:Hg; [|done]. by destruct (He i x Hx Hg). }
  unfold nextHostNode.
  destruct (list_find _ s.1) as [[j y]|] eqn:Hfind; simpl.
  - apply list_find_Some in Hfind as (Hy & [Hry _] & _). by apply (hostRun_potential j s y).
  - apply list_find_None in Hfind. rewrite Forall_lookup in Hfind.
    by destruct (Hfind i x Hx).
Qed.

(** If the streams are idle from round [T] on, the scheduler stops. *)
Lemma rounds_terminate isActive T :
  (∀ t i, T ≤ t → isActive t i = false) →
  ∀ fuel t s, counting (λ _, 0) s → eager s.1 → s.1 ≠ [] →
    (T - t) + potential s.1 ≤ fuel → is_Some (rounds isActive fuel t s).
Proof.
  intros Hidle. induction fuel as [|fuel IH]; intros t s Hcnt He Hne Hfuel; simpl;
    destruct (lastRetired s.1) eqn:Hlast; try done.
  - exfalso. unfold lastRetired in Hlast. rewrite last_lookup in Hlast.
    destruct (s.1 !! pred (length s.1)) as [y|] eqn:Hy.
    + pose proof (potential_lookup _ _ _ Hy) as Hw.
      pose proof (counting_bound _ _ _ Hcnt Hy). apply bool_decide_eq_false in Hlast.
      unfold weight in Hw. lia.
    + apply lookup_ge_None in Hy. destruct s.1; [done|simpl in Hy; lia].
  - destruct (counting_round (isActive t) s Hcnt He) as [Hcnt' He'].
    apply IH; [done|done|..].
    + intros Hnil. apply (f_equal length) in Hnil. rewrite round_length in Hnil.
      by destruct s.1.
    + destruct (decide (T ≤ t)) as [Ht|Ht].
      * pose proof (round_progress (isActive t) s Hcnt He Hlast Hne (λ i, Hidle t i Ht)). lia.
      * pose proof (round_potential (isActive t) s). lia.
Qed.

(** ** The heterogeneous evaluation *)

(** The driver at the head of the while loop after [n] rounds, the first of
    them being round [t]. *)
Fixpoint loopState (w : World) (isActive : nat → nat → bool) (n t : nat) (d : RooFitDriver)
    : RooFitDriver :=
  match n with
  | 0 => d
  | S n => loopState w isActive n (S t) (scheduleRound w (isActive t) d)
  end.

Lemma schedule_loopState w isActive fuel t d d' :
  schedule w isActive fuel t d = Some d' →
  ∃ n, n ≤ fuel ∧ d' = loopState w isActive n t d ∧ topRetired d' = true.
Proof.
  revert t d. induction fuel as [|fuel IH]; intros t d; simpl;
    destruct (topRetired d) eqn:Htop; try done.
  - intros [= <-]. by exists 0.
  - intros [= <-]. exists 0. split; [lia|done].
  - intros (n & Hn & -> & Hr)%IH. exists (S n). split; [lia|done].
Qed.

Lemma loopState_schedule w isActive n t d :
  topRetired (loopState w isActive n t d) = true →
  ∃ d', schedule w isActive n t d = Some d' ∧ topRetired d' = true.
Proof.
  revert t d. induction n as [|n IH]; intros t d; simpl.
  - intros Hr. exists d. by rewrite Hr.
  - intros Hr. destruct (topRetired d) eqn:Htop; [by exists d|]. by apply IH.
Qed.

Lemma schedule_more w isActive fuel fuel' t d d' :
  schedule w isActive fuel t d = Some d' → fuel ≤ fuel' →
  schedule w isActive fuel' t d = Some d'.
Proof.
  revert fuel' t d. induction fuel as [|fuel IH]; intros fuel' t d; simpl.
  - destruct (topRetired d) eqn:Htop; [|done]. intros [= <-] _.
    destruct fuel'; simpl; by rewrite Htop.
  - destruct (topRetired d) eqn:Htop.
    + intros [= <-] _. destruct fuel'; simpl; by rewrite Htop.
    + intros Hs Hle. destruct fuel' as [|fuel']; [lia|]. simpl. rewrite Htop.
      apply IH; [done|lia].
Qed.

(** The states the scheduler goes through, seen from the driver. *)
Definition scheduled (d0 d : RooFitDriver) : Prop :=
  ∃ s, tracks d0 d s ∧ counting (λ _, 0) s ∧ eager s.1.

Lemma tracks_sameGraph d0 d s : tracks d0 d s → sameGraph (_nodes d0) s.1.
Proof.
  intros Ht. eapply sameGraph_trans; [apply (tr_graph _ _ _ Ht)|]. intros j.
  pose proof (tr_nodes _ _ _ Ht j) as Hj.
  destruct (_nodes d !! j) as [x|], (s.1 !! j) as [y|]; simpl in *; try done.
  apply (inj Some) in Hj. f_equal. symmetry. by apply schedPart_fields in Hj as (_&_&_&_&_&_&_&?).
Qed.

Lemma scheduled_start w d :
  wellFormed (_nodes d) → scheduled d (assignInitialGPUNodes w (resetCounters d)).
Proof.
  intros Hwf. exists (launchReady (initialCounters (_nodes d), [])).
  split; [apply tracks_assignInitialGPUNodes, tracks_resetCounters|].
  apply counting_launchReady. by apply counting_initial.
Qed.

Lemma scheduled_round w active d0 d :
  R__HAS_CUDA = true → _batchMode d0 = Cuda →
  scheduled d0 d → scheduled d0 (scheduleRound w active d).
Proof.
  intros Hcuda Hmode (s & Ht & Hc & He). exists (round active s).
  split; [by apply tracks_scheduleRound|]. by apply counting_round.
Qed.

Lemma scheduled_loopState w isActive d0 n t d :
  R__HAS_CUDA = true → _batchMode d0 = Cuda →
  scheduled d0 d → scheduled d0 (loopState w isActive n t d).
Proof.
  intros Hcuda Hmode. revert t d. induction n as [|n IH]; intros t d Hs; [done|].
  simpl. apply IH. by apply scheduled_round.
Qed.

(** When the top node is retired, every node is. *)
Lemma scheduled_all_retired d0 d :
  scheduled d0 d → reachesTop (_nodes d0) → topRetired d = true →
  ∀ i info, _nodes d !! i = Some info → remServers info = (-2)%Z.
Proof.
  intros (s & Ht & Hc & He) Hreach Htop i info Hinfo.
  destruct (tracks_lookup _ _ _ _ _ Ht Hinfo) as (y & Hy & Hxy).
  apply schedPart_fields in Hxy as (-> & _).
  apply (counting_all_retired s Hc) with (i := i);
    [|by rewrite <- (tracks_topRetired _ _ _ Ht)|done].
  eapply reachesTop_sameGraph; [|done]. by eapply tracks_sameGraph.
Qed.

Lemma all_retired_top d :
  _nodes d ≠ [] → (∀ i info, _nodes d !! i = Some info → remServers info = (-2)%Z) →
  topRetired d = true.
Proof.
  intros Hne Hall. unfold topRetired. rewrite last_lookup.
  destruct (_nodes d !! pred (length (_nodes d))) as [x|] eqn:Hx.
  - apply bool_decide_eq_true. by eapply Hall.
  - apply lookup_ge_None in Hx. destruct (_nodes d); [done|simpl in Hx; lia].
Qed.

Lemma staticPart_computeInGPU x y : staticPart x = staticPart y → computeInGPU x = computeInGPU y.
Proof.
  intros (Ha & _ & _ & Ho & _)%staticPart_fields. unfold computeInGPU, isScalar. by rewrite Ha, Ho.
Qed.

(** The kernels of an evaluation in which every node was retired: each node
    that computes on the device ran there, each other node not bound to the
    dataset ran on the host, and nothing else ran. *)
Definition kernelsOf (l0 : list NodeInfo) (evs : list Event) : Prop :=
  ∀ i info, l0 !! i = Some info →
    (EKernel Device i ∈ evs ↔ computeInGPU info = true)
    ∧ (EKernel Host i ∈ evs ↔ computeInGPU info = false ∧ fromDataset info = false).

Lemma scheduled_kernels d0 d :
  scheduled d0 d →
  (∀ i info, _nodes d !! i = Some info → remServers info = (-2)%Z) →
  ∃ evs, _trace d = _trace d0 ++ evs ∧ publishedFirst (_nodes d0) evs
         ∧ kernelsOf (_nodes d0) evs.
Proof.
  intros (s & Ht & Hc & He) Hall.
  destruct (tr_trace _ _ _ Ht) as (evs & Htr & Hk & Hpub).
  exists evs. split; [done|]. split; [done|]. intros i info Hinfo.
  pose proof (tracks_sameGraph _ _ _ Ht) as Hg.
  destruct (sameGraph_lookup _ _ _ _ Hg Hinfo) as (y & Hy & Hs).
  pose proof (staticPart_computeInGPU _ _ Hs) as Hgpu.
  apply staticPart_fields in Hs as (_ & Hfd & _).
  assert (remServers y = (-2)%Z) as Hr.
  { destruct (lookup_lt_is_Some_2 (_nodes d) i) as [x Hx].
    { rewrite <- (tracks_length _ _ _ Ht). by eapply lookup_lt_Some. }
    destruct (tracks_lookup _ _ _ _ _ Ht Hx) as (y' & Hy' & Hxy).
    rewrite Hy in Hy'. apply (inj Some) in Hy' as <-.
    apply schedPart_fields in Hxy as (<- & _). by apply (Hall i x). }
  rewrite <- !elem_of_kernels, Hk, (cnt_device _ _ Hc i y Hy), (cnt_host _ _ Hc i y Hy).
  rewrite <- Hgpu, <- Hfd. split; [|tauto]. split; [|by right].
  intros [?|[_ ?]]; [lia|done].
Qed.

(** One evaluation in device mode. *)
Lemma getVal_device w isActive fuel d r d' :
  R__HAS_CUDA = true → _batchMode d = Cuda →
  wellFormed (_nodes d) → reachesTop (_nodes d) →
  getVal w isActive fuel d = Some (r, d') →
  sameGraph (_nodes d) (_nodes d') ∧ _batchMode d' = Cuda
  ∧ (∀ i info, _nodes d' !! i = Some info → remServers info = (-2)%Z)
  ∧ ∃ evs, _trace d' = _trace d ++ evs ∧ publishedFirst (_nodes d) evs
           ∧ kernelsOf (_nodes d) evs.
Proof.
  intros Hcuda Hmode Hwf Hreach. unfold getVal, inCudaMode, getValHeterogeneous. simpl.
  rewrite Hcuda, Hmode. simpl.
  set (d0 := set_getValInvocations _ d).
  destruct (schedule _ _ _ _ _) as [d1|] eqn:Hs; simpl; [|done]. intros [= <- <-].
  apply schedule_loopState in Hs as (n & _ & -> & Htop).
  pose proof (scheduled_loopState w isActive d0 n 0 _ Hcuda Hmode (scheduled_start w d0 Hwf))
    as Hsch.
  pose proof (scheduled_all_retired _ _ Hsch Hreach Htop) as Hall.
  split; [destruct Hsch as (s & Ht & _); apply (tr_graph _ _ _ Ht)|].
  split; [destruct Hsch as (s & Ht & _); by rewrite (tr_batchMode _ _ _ Ht)|].
  split; [done|]. exact (scheduled_kernels d0 _ Hsch Hall).
Qed.

Lemma launchReady_length s : length (launchReady s).1 = length s.1.
Proof.
  unfold launchReady. generalize (seq 0 (length s.1)). intros ns. revert s.
  induction ns as [|i ns IH]; intros s; [done|]. cbn [foldl]. rewrite IH.
  unfold launchIfReady. destruct (s.1 !! i); [|done]. destruct (_ && _); [|done].
  apply length_alter.
Qed.

(** If the streams are idle from round [T] on, the evaluation returns. *)
Lemma getVal_device_returns w isActive T d :
  R__HAS_CUDA = true → _batchMode d = Cuda → wellFormed (_nodes d) → _nodes d ≠ [] →
  (∀ t i, T ≤ t → isActive t i = false) →
  ∃ fuel0, ∀ fuel, fuel0 ≤ fuel → is_Some (getVal w isActive fuel d).
Proof.
  intros Hcuda Hmode Hwf Hne Hidle.
  set (s := launchReady (initialCounters (_nodes d), [])).
  exists (T + potential s.1). intros fuel Hfuel.
  unfold getVal, inCudaMode. simpl. rewrite Hcuda, Hmode. simpl.
  set (d0 := set_getValInvocations _ d).
  pose proof (tracks_getValHeterogeneous w isActive fuel d0 Hcuda Hmode) as Ht.
  destruct (counting_launchReady _ (counting_initial _ Hwf)) as [Hc He].
  destruct (rounds_terminate isActive T Hidle fuel 0 s Hc He) as [s' Hs'].
  - intros Hnil. apply (f_equal length) in Hnil. unfold s in Hnil.
    rewrite launchReady_length in Hnil. simpl in Hnil. rewrite length_initialCounters in Hnil.
    by destruct (_nodes d).
  - lia.
  - simpl in Ht. fold s in Ht. rewrite Hs' in Ht.
    by destruct (getValHeterogeneous w isActive fuel d0) as [[??]|].
Qed.

(** C7.  In device mode the evaluation returns, for some number of rounds
    the loop is given, if and only if after some number of rounds every node
    of the graph is retired (remServers = -2); whenever the top node is
    retired at the head of the loop every node is; so every node is retired
    in the state an evaluation returns; and the evaluation does return once
    the streams are idle from some round on.  The graph is the one the
    constructor builds: each node but the top node has a client. *)
Theorem device_returns_iff_all_retired w isActive d :
  R__HAS_CUDA = true → _batchMode d = Cuda →
  wellFormed (_nodes d) → reachesTop (_nodes d) → _nodes d ≠ [] →
  let start :=
    assignInitialGPUNodes w (resetCounters (set_getValInvocations (S (_getValInvocations d)) d)) in
  let retiredAt n i :=
    remServers <$> _nodes (loopState w isActive n 0 start) !! i = Some (-2)%Z in
  ((∃ fuel, is_Some (getVal w isActive fuel d)) ↔ ∃ n, ∀ i, i < length (_nodes d) → retiredAt n i)
  ∧ (∀ n, retiredAt n (topNode d) → ∀ i, i < length (_nodes d) → retiredAt n i)
  ∧ (∀ fuel r d', getVal w isActive fuel d = Some (r, d') →
       ∀ i, i < length (_nodes d) → remServers <$> _nodes d' !! i = Some (-2)%Z)
  ∧ (∀ T, (∀ t i, T ≤ t → isActive t i = false) → ∃ fuel, is_Some (getVal w isActive fuel d)).
Proof.
  intros Hcuda Hmode Hwf Hreach Hne start retiredAt.
  set (d0 := set_getValInvocations (S (_getValInvocations d)) d) in *.
  assert (∀ n, scheduled d0 (loopState w isActive n 0 start)) as Hsch.
  { intros n. apply scheduled_loopState; [done..|]. by apply scheduled_start. }
  assert (∀ n, length (_nodes (loopState w isActive n 0 start)) = length (_nodes d)) as Hlen.
  { intros n. destruct (Hsch n) as (s & Ht & _). apply (sameGraph_length _ _ (tr_graph _ _ _ Ht)). }
  assert (∀ n, topRetired (loopState w isActive n 0 start) = true →
            ∀ i, i < length (_nodes d) → retiredAt n i) as Hall.
  { intros n Htop i Hi. unfold retiredAt.
    destruct (lookup_lt_is_Some_2 (_nodes (loopState w isActive n 0 start)) i) as [x Hx];
      [by rewrite Hlen|].
    rewrite Hx. simpl. f_equal. by apply (scheduled_all_retired d0 _ (Hsch n) Hreach Htop i x). }
  assert (∀ n, retiredAt n (topNode d) → topRetired (loopState w isActive n 0 start) = true)
    as Htop.
  { intros n Hr. unfold retiredAt, topNode in Hr. unfold topRetired.
    rewrite last_lookup, Hlen. replace (pred (length (_nodes d))) with (length (_nodes d) - 1) by lia.
    destruct (_ !! _) as [x|]; simplify_eq/=. by apply bool_decide_eq_true. }
  assert (topNode d < length (_nodes d)) as Hlt.
  { unfold topNode. destruct (_nodes d); [done|simpl; lia]. }
  assert (∀ fuel r d', getVal w isActive fuel d = Some (r, d') →
            ∃ n, d' = loopState w isActive n 0 start ∧ topRetired d' = true) as Hret.
  { intros fuel r d'. unfold getVal, inCudaMode, getValHeterogeneous. simpl.
    rewrite Hcuda, Hmode. simpl. fold d0. fold start.
    destruct (schedule _ _ _ _ _) as [d1|] eqn:Hs; simpl; [|done]. intros [= <- <-].
    apply schedule_loopState in Hs as (n & _ & -> & Ht). by exists n. }
  split; [split|split; [|split]].
  - intros (fuel & [[r d'] Hd']). destruct (Hret fuel r d' Hd') as (n & -> & Ht).
    exists n. by apply Hall.
  - intros (n & Hn). destruct (loopState_schedule w isActive n 0 start) as (d' & Hd' & _).
    { apply Htop, Hn, Hlt. }
    exists n. unfold getVal, inCudaMode, getValHeterogeneous. simpl.
    rewrite Hcuda, Hmode. simpl. fold d0. fold start. by rewrite Hd'.
  - intros n Hn. by apply Hall, Htop.
  - intros fuel r d' Hd'. destruct (Hret fuel r d' Hd') as (n & -> & Ht). by apply Hall.
  - intros T Hidle.
    destruct (getVal_device_returns w isActive T d Hcuda Hmode Hwf Hne Hidle) as [fuel0 H0].
    exists fuel0. by apply H0.
Qed.

(** ** How many rounds the loop runs *)

(** The number of edges of the graph. *)
Definition edges (l : list NodeInfo) : nat := sum_list ((λ x, length (serverInfos x)) <$> l).

Lemma potential_initial l : potential (initialCounters l) = 2 * length l + edges l.
Proof.
  unfold potential, initialCounters, edges, weight.
  induction l as [|x l IH]; [done|]. cbn [fmap list_fmap sum_list length] in *.
  simpl. rewrite IH. lia.
Qed.

Lemma launchReady_potential s : potential (launchReady s).1 ≤ potential s.1.
Proof.
  unfold launchReady. generalize (seq 0 (length s.1)). intros ns. revert s.
  induction ns as [|i ns IH]; intros s; [done|]. cbn [foldl].
  etrans; [apply IH|]. unfold launchIfReady.
  destruct (s.1 !! i) as [x|] eqn:Hx; [|done].
  destruct (bool_decide (remServers x = 0%Z) && computeInGPU x) eqn:Hgo; [|done].
  apply andb_true_iff in Hgo as [Hr%bool_decide_eq_true _].
  pose proof (launch_potential i s x Hx Hr). lia.
Qed.

(** X4.  In device mode, if the streams are idle from round [T] on, the
    evaluation returns when it is given [T] rounds and two more for every
    node and one more for every edge of the graph. *)
Theorem device_returns_within w isActive T d fuel :
  R__HAS_CUDA = true → _batchMode d = Cuda → wellFormed (_nodes d) → _nodes d ≠ [] →
  (∀ t i, T ≤ t → isActive t i = false) →
  T + 2 * length (_nodes d) + edges (_nodes d) ≤ fuel →
  is_Some (getVal w isActive fuel d).
Proof.
  intros Hcuda Hmode Hwf Hne Hidle Hfuel.
  set (s := launchReady (initialCounters (_nodes d), [])).
  unfold getVal, inCudaMode. simpl. rewrite Hcuda, Hmode. simpl.
  set (d0 := set_getValInvocations _ d).
  pose proof (tracks_getValHeterogeneous w isActive fuel d0 Hcuda Hmode) as Ht.
  destruct (counting_launchReady _ (counting_initial _ Hwf)) as [Hc He].
  destruct (rounds_terminate isActive T Hidle fuel 0 s Hc He) as [s' Hs'].
  - intros Hnil. apply (f_equal length) in Hnil. unfold s in Hnil.
    rewrite launchReady_length in Hnil. simpl in Hnil. rewrite length_initialCounters in Hnil.
    by destruct (_nodes d).
  - pose proof (launchReady_potential (initialCounters (_nodes d), [])) as Hp.
    simpl in Hp. rewrite potential_initial in Hp. fold s in Hp. lia.
  - simpl in Ht. fold s in Ht. rewrite Hs' in Ht.
    by destruct (getValHeterogeneous w isActive fuel d0) as [[??]|].
Qed.

(** ** Each kernel runs once, after the kernels of its servers *)

(** A node whose kernel an evaluation in device mode runs, and the side it
    runs on. *)
Definition ranNode (info : NodeInfo) : bool := computeInGPU info || negb (fromDataset info).

Definition sideOf (info : NodeInfo) : Side := if computeInGPU info then Device else Host.

(** No kernel is listed twice, and where the kernel of a node is listed the
    kernels of its servers are listed before. *)
Definition inOrder (s : Sched) : Prop :=
  NoDup s.2
  ∧ ∀ pre side c post cinfo j sinfo,
      s.2 = pre ++ (side, c) :: post →
      s.1 !! c = Some cinfo → j ∈ serverInfos cinfo →
      s.1 !! j = Some sinfo → ranNode sinfo = true →
      (sideOf sinfo, j) ∈ pre.

Lemma inOrder_alter (f : NodeInfo → Z) i l ks :
  inOrder (l, ks) → inOrder (alter (λ info, set_remServers (f info) info) i l, ks).
Proof.
  intros [Hnd Hord]. split; [done|]. simpl in *.
  intros pre side c post cinfo j sinfo Hks. rewrite !list_lookup_alter.
  intros Hc Hj Hs Hran.
  assert (∃ cinfo', l !! c = Some cinfo' ∧ serverInfos cinfo' = serverInfos cinfo)
    as (cinfo' & Hc' & Hsi).
  { destruct (decide (i = c)) as [->|]; [|by exists cinfo].
    destruct (l !! c) as [y|]; simplify_eq/=. by exists y. }
  assert (∃ sinfo', l !! j = Some sinfo' ∧ ranNode sinfo' = ranNode sinfo
                    ∧ sideOf sinfo' = sideOf sinfo) as (sinfo' & Hs' & Hr & Hsd).
  { destruct (decide (i = j)) as [->|]; [|by exists sinfo].
    destruct (l !! j) as [y|]; simplify_eq/=. by exists y. }
  rewrite <- Hsd. apply (Hord pre side c post cinfo' j sinfo'); try done; congruence.
Qed.

(** A node that is ready: its servers are retired, and its kernel has not
    run. *)
Lemma inOrder_append owed l ks c x side :
  counting owed (l, ks) → l !! c = Some x → remServers x = 0%Z →
  inOrder (l, ks) → inOrder (l, ks ++ [(side, c)]).
Proof.
  intros Hcnt Hx Hr [Hnd Hord]. simpl in *. split; simpl.
  - apply NoDup_app. split; [done|]. split; [|apply NoDup_singleton].
    intros k Hk ->%list_elem_of_singleton. destruct side.
    + apply (cnt_host _ _ Hcnt c x Hx) in Hk. simpl in Hk. lia.
    + apply (cnt_device _ _ Hcnt c x Hx) in Hk. simpl in Hk. lia.
  - intros pre side' c' post cinfo j sinfo Hks Hc Hj Hs Hran.
    destruct post as [|p post _] using rev_ind.
    + apply (app_inj_2 _ _ _ [(side', c')]) in Hks as [<- [= <- <-]]; [|done].
      rewrite Hx in Hc. apply (inj Some) in Hc as <-.
      assert (pending l x = 0) as Hp.
      { destruct (cnt_count _ _ Hcnt c x Hx) as [H|(? & _)]; simpl in *; [lia|done]. }
      pose proof (filter_length_0 _ _ j Hp Hj) as Hret.
      apply not_false_is_true in Hret. unfold retiredIn in Hret.
      apply bool_decide_eq_true in Hret. rewrite Hs in Hret. injection Hret as Hret.
      unfold sideOf, ranNode in *. destruct (computeInGPU sinfo) eqn:Hg.
      * apply (cnt_device _ _ Hcnt j sinfo Hs). by right.
      * apply (cnt_host _ _ Hcnt j sinfo Hs). simpl in Hran.
        by apply negb_true_iff in Hran.
    + rewrite app_comm_cons, app_assoc in Hks.
      apply (app_inj_2 _ _ _ [p]) in Hks as [-> _]; [|done].
      by apply (Hord pre side' c' post cinfo j sinfo).
Qed.

Lemma counting_decrement s c x cs :
  counting (λ c', occurrences c' (c :: cs)) s → s.1 !! c = Some x →
  counting (λ c', occurrences c' cs)
    (alter (λ info, set_remServers (remServers info - 1) info) c s.1, s.2).
Proof.
  intros [Hwf Hc Hl Hd Hh] Hx. destruct s as [l ks]. simpl in *.
  set (dec := λ info, set_remServers (remServers info - 1) info).
  assert (remServers x = Z.of_nat (pending l x + S (occurrences c cs))) as Hrx.
  { destruct (Hc c x Hx) as [H|(_ & H & _)]; rewrite occurrences_cons, decide_True in H by done;
      [by rewrite H|lia]. }
  assert (∀ info, pending (alter dec c l) info = pending l info) as Hp.
  { intros info. apply (pending_alter_same (λ info, (remServers info - 1)%Z) c l x); [done|lia..]. }
  split; simpl.
  - eapply wellFormed_sameGraph; [|done].
    apply (sameGraph_alter_remServers (λ info, (remServers info - 1)%Z)).
  - intros c' info. rewrite list_lookup_alter. case_decide; subst.
    + rewrite Hx. intros [= <-]. rewrite Hp. unfold dec. rewrite pending_set_remServers. simpl.
      left. lia.
    + intros Hinfo. rewrite Hp. specialize (Hc c' info Hinfo).
      rewrite occurrences_cons, decide_False in Hc by done. done.
  - intros c' info. rewrite list_lookup_alter. case_decide; subst.
    + rewrite Hx. intros [= <-]. simpl. lia.
    + apply Hl.
  - intros j info. rewrite list_lookup_alter. case_decide; subst.
    + rewrite Hx. intros [= <-]. simpl. rewrite (Hd j x Hx). lia.
    + apply Hd.
  - intros j info. rewrite list_lookup_alter. case_decide; subst.
    + rewrite Hx. intros [= <-]. simpl. rewrite (Hh j x Hx). lia.
    + apply Hh.
Qed.

Lemma inOrder_launch owed s i x :
  counting owed s → s.1 !! i = Some x → remServers x = 0%Z →
  inOrder s → inOrder (launch i s).
Proof.
  intros Hcnt Hx Hr Hord. destruct s as [l ks]. unfold launch. simpl in *.
  apply (inOrder_alter (λ _, (-1)%Z)). by apply (inOrder_append owed l ks i x).
Qed.

Lemma inOrder_countDownClient s c cs :
  counting (λ c', occurrences c' (c :: cs)) s → inOrder s → inOrder (countDownClient s c).
Proof.
  intros Hcnt Hord. unfold countDownClient.
  set (dec := λ info, set_remServers (remServers info - 1) info).
  assert (inOrder (alter dec c s.1, s.2)) as Hord'.
  { destruct s. by apply (inOrder_alter (λ info, (remServers info - 1)%Z)). }
  destruct (alter dec c s.1 !! c) as [y|] eqn:Hy; [|done].
  destruct (bool_decide (remServers y = 0%Z) && computeInGPU y) eqn:Hgo; [|done].
  apply andb_true_iff in Hgo as [Hr%bool_decide_eq_true _].
  rewrite list_lookup_alter_eq in Hy. destruct (s.1 !! c) as [x|] eqn:Hx; simplify_eq/=.
  apply (inOrder_launch (λ c', occurrences c' cs) (alter dec c s.1, s.2) c (dec x));
    [by apply (counting_decrement s c x)|simpl; by rewrite list_lookup_alter_eq, Hx|done|done].
Qed.

Lemma inOrder_countDownClients cs s :
  counting (λ c', occurrences c' cs) s → eager s.1 → inOrder s →
  inOrder (foldl countDownClient s cs).
Proof.
  revert s. induction cs as [|c cs IH]; intros s Hcnt He Hord; [done|]. cbn [foldl].
  destruct (counting_countDownClient s c cs Hcnt He).
  apply IH; [done..|]. by apply (inOrder_countDownClient s c cs).
Qed.

Lemma inOrder_retire active i s :
  counting (λ _, 0) s → eager s.1 → inOrder s → inOrder (retire active i s).
Proof.
  intros Hcnt He Hord. unfold retire. destruct (s.1 !! i) as [x|] eqn:Hx; [|done].
  destruct (bool_decide (remServers x = (-1)%Z) && negb (active i)) eqn:Hgo; [|done].
  apply andb_true_iff in Hgo as [Hr%bool_decide_eq_true _].
  unfold countDown, setRemServers. simpl. rewrite list_lookup_alter_eq, Hx. simpl.
  apply inOrder_countDownClients; [|by apply eager_retired|].
  - apply (counting_retired s i x s.2 Hcnt Hx); [by right|..].
    + intros j info. rewrite list_lookup_alter. case_decide; subst.
      * rewrite Hx. intros [= <-]. simpl.
        rewrite ?computeInGPU_set_remServers, (cnt_device _ _ Hcnt j x Hx).
        pose proof (cnt_launched _ _ Hcnt j x Hx Hr). split; [by right|by left].
      * apply (cnt_device _ _ Hcnt).
    + intros j info. rewrite list_lookup_alter. case_decide; subst.
      * rewrite Hx. intros [= <-]. simpl.
        rewrite ?computeInGPU_set_remServers, (cnt_host _ _ Hcnt j x Hx).
        pose proof (cnt_launched _ _ Hcnt j x Hx Hr). split; [lia|]. intros (_ & ? & _). congruence.
      * apply (cnt_host _ _ Hcnt).
  - destruct s. by apply (inOrder_alter (λ _, (-2)%Z)).
Qed.

Lemma inOrder_hostRun i s x :
  counting (λ _, 0) s → eager s.1 →
  s.1 !! i = Some x → remServers x = 0%Z → computeInGPU x = false →
  inOrder s → inOrder (hostRun i s).
Proof.
  intros Hcnt He Hx Hr Hg Hord. unfold hostRun. rewrite Hx.
  unfold countDown. simpl. rewrite list_lookup_alter_eq, Hx. simpl.
  apply inOrder_countDownClients; [|by apply eager_retired|].
  - apply (counting_retired s i x _ Hcnt Hx); [by left|..].
    + intros j info. rewrite list_lookup_alter, elem_of_app. case_decide; subst.
      * rewrite Hx. intros [= <-]. simpl.
        rewrite ?computeInGPU_set_remServers, (cnt_device _ _ Hcnt j x Hx). split.
        -- intros [[?|[? _]]|Hin]; [lia..|]. destruct (fromDataset x); set_solver.
        -- intros [?|[_ ?]]; [lia|congruence].
      * intros Hinfo. rewrite (cnt_device _ _ Hcnt j info Hinfo). split; [|by left].
        intros [?|Hin]; [done|]. destruct (fromDataset x); set_solver.
    + intros j info. rewrite list_lookup_alter, elem_of_app. case_decide; subst.
      * rewrite Hx. intros [= <-]. simpl.
        rewrite ?computeInGPU_set_remServers, (cnt_host _ _ Hcnt j x Hx). split.
        -- intros [(? & _)|Hin]; [lia|]. destruct (fromDataset x); [set_solver|done].
        -- intros (_ & _ & ->). right. set_solver.
      * intros Hinfo. rewrite (cnt_host _ _ Hcnt j info Hinfo). split; [|by left].
        intros [?|Hin]; [done|]. destruct (fromDataset x); set_solver.
  - apply (inOrder_alter (λ _, (-2)%Z)). destruct s as [l ks]. simpl in *.
    destruct (fromDataset x); [by rewrite app_nil_r|].
    by apply (inOrder_append (λ _, 0) l ks i x).
Qed.

Lemma inOrder_round active s :
  counting (λ _, 0) s → eager s.1 → inOrder s → inOrder (round active s).
Proof.
  intros Hcnt He Hord. unfold round.
  assert (∀ (ns : list nat) s, counting (λ _, 0) s → eager s.1 → inOrder s →
            counting (λ _, 0) (foldl (λ s i, retire active i s) s ns)
            ∧ eager (foldl (λ s i, retire active i s) s ns).1
            ∧ inOrder (foldl (λ s i, retire active i s) s ns)) as Hfold.
  { induction ns as [|i ns IH]; intros s' Hc' He' Ho'; [done|].
    cbn [foldl]. destruct (counting_retire active i s' Hc' He').
    apply IH; [done..|]. by apply inOrder_retire. }
  destruct (Hfold (seq 0 (length s.1)) s Hcnt He Hord) as (Hc1 & He1 & Ho1).
  set (s1 := foldl _ s _) in *.
  unfold nextHostNode. destruct (list_find _ s1.1) as [[i x]|] eqn:Hfind; simpl; [|done].
  apply list_find_Some in Hfind as (Hx & [Hr Hg] & _).
  by apply (inOrder_hostRun i s1 x).
Qed.

Lemma inOrder_launchReady s :
  counting (λ _, 0) s → inOrder s → inOrder (launchReady s).
Proof.
  intros Hcnt Hord. unfold launchReady.
  assert (∀ (ns : list nat) s, counting (λ _, 0) s → inOrder s →
            counting (λ _, 0) (foldl launchIfReady s ns) ∧ inOrder (foldl launchIfReady s ns))
    as Hfold; [|by apply Hfold].
  induction ns as [|i ns IH]; intros s' Hc' Ho'; [done|]. cbn [foldl].
  apply IH; unfold launchIfReady; destruct (s'.1 !! i) as [x|] eqn:Hx; try done;
    destruct (bool_decide (remServers x = 0%Z) && computeInGPU x) eqn:Hgo; try done;
    apply andb_true_iff in Hgo as [Hr%bool_decide_eq_true Hg].
  - by apply (counting_launch _ s' i x).
  - by apply (inOrder_launch (λ _, 0) s' i x).
Qed.

Lemma inOrder_initial l : inOrder (initialCounters l, []).
Proof.
  split; [apply NoDup_nil_2|]. simpl. intros pre side c post cinfo j sinfo Hks.
  by destruct pre.
Qed.

(** The states of the scheduler, with the order of the kernels. *)
Definition scheduledInOrder (d0 d : RooFitDriver) : Prop :=
  ∃ s, tracks d0 d s ∧ counting (λ _, 0) s ∧ eager s.1 ∧ inOrder s.

Lemma scheduledInOrder_start w d :
  wellFormed (_nodes d) → scheduledInOrder d (assignInitialGPUNodes w (resetCounters d)).
Proof.
  intros Hwf. exists (launchReady (initialCounters (_nodes d), [])).
  split; [apply tracks_assignInitialGPUNodes, tracks_resetCounters|].
  pose proof (counting_initial _ Hwf) as Hc.
  destruct (counting_launchReady _ Hc) as [Hc' He'].
  split; [done|]. split; [done|]. apply inOrder_launchReady; [done|]. apply inOrder_initial.
Qed.

Lemma scheduledInOrder_loopState w isActive d0 n t d :
  R__HAS_CUDA = true → _batchMode d0 = Cuda →
  scheduledInOrder d0 d → scheduledInOrder d0 (loopState w isActive n t d).
Proof.
  intros Hcuda Hmode. revert t d. induction n as [|n IH]; intros t d Hs; [done|].
  simpl. apply IH. destruct Hs as (s & Ht & Hc & He & Ho). exists (round (isActive t) s).
  split; [by apply tracks_scheduleRound|].
  destruct (counting_round (isActive t) s Hc He). split; [done|]. split; [done|].
  by apply inOrder_round.
Qed.

(** X3.  In an evaluation in device mode no kernel runs twice, and when the
    kernel of a node runs, the kernel of each of its servers that the
    evaluation computes has run before, on the side the server computes
    on. *)
Theorem device_kernels_once_after_servers w isActive fuel d r d' :
  R__HAS_CUDA = true → _batchMode d = Cuda → wellFormed (_nodes d) →
  getVal w isActive fuel d = Some (r, d') →
  ∃ evs, _trace d' = _trace d ++ evs
    ∧ NoDup (kernels evs)
    ∧ ∀ pre side c post cinfo j sinfo,
        evs = pre ++ EKernel side c :: post →
        _nodes d !! c = Some cinfo → j ∈ serverInfos cinfo →
        _nodes d !! j = Some sinfo →
        computeInGPU sinfo = true ∨ fromDataset sinfo = false →
        EKernel (if computeInGPU sinfo then Device else Host) j ∈ pre.
Proof.
  intros Hcuda Hmode Hwf. unfold getVal, inCudaMode, getValHeterogeneous. simpl.
  rewrite Hcuda, Hmode. simpl.
  set (d0 := set_getValInvocations _ d).
  destruct (schedule _ _ _ _ _) as [d1|] eqn:Hs; simpl; [|done]. intros [= <- <-].
  apply schedule_loopState in Hs as (n & _ & -> & _).
  destruct (scheduledInOrder_loopState w isActive d0 n 0 _ Hcuda Hmode
              (scheduledInOrder_start w d0 Hwf)) as (s & Ht & Hc & He & [Hnd Hord]).
  destruct (tr_trace _ _ _ Ht) as (evs & Htr & Hk & _).
  exists evs. split; [done|]. split; [by rewrite Hk|].
  intros pre side c post cinfo j sinfo -> Hci Hj Hsi Hran.
  pose proof (tracks_sameGraph _ _ _ Ht) as Hg.
  destruct (sameGraph_lookup _ _ _ _ Hg Hci) as (cinfo' & Hci' & Hcs).
  destruct (sameGraph_lookup _ _ _ _ Hg Hsi) as (sinfo' & Hsi' & Hss).
  pose proof (staticPart_computeInGPU _ _ Hss) as Hgpu.
  apply staticPart_fields in Hcs as (_ & _ & _ & _ & _ & Hsv & _).
  apply staticPart_fields in Hss as (_ & Hfd & _).
  rewrite kernels_app in Hk. simpl in Hk.
  apply elem_of_kernels. rewrite <- Hgpu.
  apply (Hord (kernels pre) side c (kernels post) cinfo' j sinfo'); try done.
  - by rewrite Hsv.
  - unfold ranNode. rewrite Hgpu, Hfd. destruct Hran as [->| ->]; [done|]. by rewrite orb_true_r.
Qed.

(** ** What a kernel run leaves in memory *)

Definition otherSide (side : Side) : Side :=
  match side with Host => Device | Device => Host end.

(** The kind of buffer computeCPUNode and assignToGPU ask the buffer manager
    for. *)
Definition bufferKindOf (info : NodeInfo) : BufferKind :=
  if computeInGPU info
  then if copyAfterEvaluation info then PinnedBuffer else GpuBuffer
  else if R__HAS_CUDA && copyAfterEvaluation info then PinnedBuffer else CpuBuffer.

(** The run of the kernel of node [c] on [side], from [d] to [d'], after
    which the countdown of the node is [z]: the other nodes, their spans and
    the buffers there were are as before; the kernel reads a data map that
    is, away from [c], the one of [d]; and its output is in the scalar buffer
    of the node or in a fresh buffer, published on the side of the kernel
    and, when it is copied after the evaluation, on the other side. *)
Record sameMemory (c : nat) (d dK : RooFitDriver) : Prop := {
  sm_maps : ∀ σ j, j ≠ c → dataMap σ dK !! j = dataMap σ d !! j;
  sm_scalars : ∀ j, scalarBuffer <$> _nodes dK !! j = scalarBuffer <$> _nodes d !! j;
  sm_buffers : ∀ b, b < _nextBuffer d → _buffers dK !! b = _buffers d !! b;
  sm_mem : _cudaMemDataset dK = _cudaMemDataset d;
}.

Record kernelEffect (w : World) (side : Side) (c : nat) (z : Z) (info : NodeInfo)
    (d d' : RooFitDriver) : Prop := {
  ke_mem : _cudaMemDataset d' = _cudaMemDataset d;
  ke_maps : ∀ σ j, j ≠ c → dataMap σ d' !! j = dataMap σ d !! j;
  ke_nodes : ∀ j, j ≠ c → _nodes d' !! j = _nodes d !! j;
  ke_buffers : ∀ b, b < _nextBuffer d → _buffers d' !! b = _buffers d !! b;
  ke_kernel : ∃ dK info',
    sameMemory c d dK
    ∧ _nodes d' !! c = Some info'
    ∧ staticPart info' = staticPart info ∧ remClients info' = remClients info
    ∧ remServers info' = z
    ∧ let out := computeBatch w side c (outputSize info) (dataMapView w side dK) in
      if outputSize info =? 1
      then scalarBuffer info' = default (scalarBuffer info) (head out)
           ∧ buffer info' = None ∧ _nextBuffer d' = _nextBuffer d
           ∧ ∀ σ, dataMap σ d' !! c = Some (mkSpan (PScalar c) 1)
      else buffer info' = Some (_nextBuffer d) ∧ _nextBuffer d' = S (_nextBuffer d)
           ∧ _buffers d' !! _nextBuffer d = Some (bufferKindOf info, out)
           ∧ dataMap side d' !! c
             = Some (mkSpan (PBuf (_nextBuffer d) side) (outputSize info))
           ∧ dataMap (otherSide side) d' !! c
             = if copyAfterEvaluation info
               then Some (mkSpan (PBuf (_nextBuffer d) (otherSide side)) (outputSize info))
               else dataMap (otherSide side) d !! c;
}.

(** The loop of assignToGPU over the servers only records waits. *)
Lemma waitForEvents_fields i (ss : list nat) d :
  let d' := foldl (λ d s, if from_option event false (_nodes d !! s)
                          then emit (EWaitForEvent i s) d else d) d ss in
  _nodes d' = _nodes d ∧ _nextBuffer d' = _nextBuffer d ∧ _buffers d' = _buffers d
  ∧ _dataMapCPU d' = _dataMapCPU d ∧ _dataMapCUDA d' = _dataMapCUDA d
  ∧ _cudaMemDataset d' = _cudaMemDataset d ∧ _batchMode d' = _batchMode d.
Proof.
  revert d. induction ss as [|s ss IH]; intros d; [done|].
  cbn [foldl]. destruct (from_option event false (_nodes d !! s)); [|apply IH].
  apply (IH (emit (EWaitForEvent i s) d)).
Qed.

Lemma assignToGPU_effect w c d info :
  _nodes d !! c = Some info → buffer info = None → computeInGPU info = true →
  (copyAfterEvaluation info = true → outputSize info ≠ 1) →
  kernelEffect w Device c (-1) info d (assignToGPU w c d).
Proof.
  intros Hc Hbuf Hgpu Hcae. unfold assignToGPU. rewrite Hc. cbv zeta.
  set (d1 := updNode c (set_remServers (-1)) d).
  destruct (waitForEvents_fields c (serverInfos info) d1) as (W1 & W2 & W3 & W4 & W5 & W6 & W7).
  set (d2 := foldl _ d1 _) in *.
  assert (_nodes d2 !! c = Some (set_remServers (-1) info)) as Hc2.
  { rewrite W1. unfold d1. by rewrite lookup_updNode_eq, Hc. }
  assert (∀ j, j ≠ c → _nodes d2 !! j = _nodes d !! j) as Hn2.
  { intros j Hj. rewrite W1. unfold d1. by rewrite lookup_updNode_ne. }
  destruct (outputSize info =? 1) eqn:Hn.
  - apply Nat.eqb_eq in Hn as Hn1.
    assert (copyAfterEvaluation info = false) as Hcp
      by (destruct (copyAfterEvaluation info); [by destruct Hcae|done]).
    rewrite Hcp. split; simpl.
    + by rewrite W6.
    + intros [] j Hj; simpl; rewrite ?lookup_insert_ne by done; by rewrite ?W4, ?W5.
    + intros j Hj. rewrite list_lookup_alter_ne by done. by apply Hn2.
    + intros b _. by rewrite W3.
    + eexists (dataMapSet Device c (mkSpan (PScalar c) (outputSize info))
                 (dataMapSet Host c (mkSpan (PScalar c) (outputSize info)) d2)), _.
      split; [split|split; [|split; [|split; [|split]]]].
      * intros [] j Hj; simpl; rewrite ?lookup_insert_ne by done; by rewrite ?W4, ?W5.
      * intros j. simpl. rewrite W1. unfold d1. rewrite lookup_updNode.
        destruct (decide (c = j)) as [<-|]; [|done]. by destruct (_nodes d !! c).
      * intros b _. simpl. by rewrite W3.
      * simpl. by rewrite W6.
      * rewrite list_lookup_alter_eq, Hc2. simpl. reflexivity.
      * done.
      * done.
      * done.
      * simpl. rewrite Hn. rewrite W2, Hn1. split; [done|]. split; [done|]. split; [done|].
        intros []; simpl; by rewrite lookup_insert_eq.
  - apply Nat.eqb_neq in Hn as Hn1.
    assert (resetBuffer c d2 = d2) as Hreset.
    { unfold resetBuffer. rewrite Hc2. simpl. by rewrite Hbuf. }
    rewrite Hreset. unfold makeBuffer, runKernel. cbn [fst snd].
    rewrite !bufferPtr_emit, !bufferPtr_writePtr, !bufferPtr_dataMapSet.
    rewrite !bufferPtr_updNode_buffer by (simpl; by eapply lookup_lt_Some).
    rewrite W2. change (_nextBuffer d1) with (_nextBuffer d).
    split.
    + destruct (copyAfterEvaluation info); simpl; by rewrite W6.
    + intros σ j Hj.
      destruct (copyAfterEvaluation info), σ; simpl;
        rewrite ?lookup_insert_ne by done; by rewrite ?W4, ?W5.
    + intros j Hj.
      destruct (copyAfterEvaluation info); simpl;
        rewrite list_lookup_alter_ne by done; by apply Hn2.
    + intros b Hb.
      destruct (copyAfterEvaluation info); simpl;
        rewrite lookup_alter_ne, lookup_insert_ne, W3 by lia; done.
    + eexists (dataMapSet Device c (mkSpan (PBuf (_nextBuffer d) Device) (outputSize info))
                 (updNode c (set_buffer (Some (_nextBuffer d)))
                    (set_buffers
                       (<[_nextBuffer d :=
                            (if copyAfterEvaluation info then PinnedBuffer else GpuBuffer, [])]>
                          (_buffers d2))
                       (set_nextBuffer (S (_nextBuffer d)) d2)))), _.
      split; [split|split; [|split; [|split; [|split]]]].
      * intros [] j Hj; simpl; rewrite ?lookup_insert_ne by done; by rewrite ?W4, ?W5.
      * intros j. simpl. rewrite list_lookup_alter.
        destruct (decide (c = j)) as [<-|].
        -- rewrite Hc2. simpl. by rewrite Hc.
        -- by rewrite Hn2.
      * intros b Hb. simpl. rewrite lookup_insert_ne, W3 by lia. done.
      * simpl. by rewrite W6.
      * destruct (copyAfterEvaluation info); simpl; rewrite list_lookup_alter_eq, Hc2; simpl;
          reflexivity.
      * by destruct (copyAfterEvaluation info).
      * by destruct (copyAfterEvaluation info).
      * by destruct (copyAfterEvaluation info).
      * simpl. rewrite Hn. unfold bufferKindOf. rewrite Hgpu.
        destruct (copyAfterEvaluation info) eqn:Hcp; simpl;
          rewrite ?lookup_alter_eq, ?lookup_insert_eq, ?lookup_insert_eq, ?W4; simpl; done.
Qed.

Lemma hostKernel_effect w c d info :
  R__HAS_CUDA = true → _batchMode d = Cuda →
  _nodes d !! c = Some info → buffer info = None → computeInGPU info = false →
  (copyAfterEvaluation info = true → outputSize info ≠ 1) →
  kernelEffect w Host c (-2) info d (computeCPUNode w c (updNode c (set_remServers (-2)) d)).
Proof.
  intros Hcuda Hmode Hc Hbuf Hgpu Hcae.
  set (d1 := updNode c (set_remServers (-2)) d).
  assert (_nodes d1 !! c = Some (set_remServers (-2) info)) as Hc1.
  { unfold d1. by rewrite lookup_updNode_eq, Hc. }
  assert (∀ j, j ≠ c → _nodes d1 !! j = _nodes d !! j) as Hn1.
  { intros j Hj. unfold d1. by rewrite lookup_updNode_ne. }
  unfold computeCPUNode. rewrite Hc1. cbv zeta. unfold inCudaMode. rewrite Hcuda.
  change (_batchMode d1) with (_batchMode d). rewrite Hmode.
  rewrite (bool_decide_eq_true_2 (Cuda = Cuda)) by done.
  change (outputSize (set_remServers (-2) info)) with (outputSize info).
  change (copyAfterEvaluation (set_remServers (-2) info)) with (copyAfterEvaluation info).
  change (buffer (set_remServers (-2) info)) with (buffer info).
  change (hasLogged (set_remServers (-2) info)) with (hasLogged info).
  change (event (set_remServers (-2) info)) with (event info).
  rewrite Hbuf. cbn [andb].
  destruct (outputSize info =? 1) eqn:Hn.
  - apply Nat.eqb_eq in Hn as Hn'.
    assert (copyAfterEvaluation info = false) as Hcp
      by (destruct (copyAfterEvaluation info); [by destruct Hcae|done]).
    rewrite Hcp. split; simpl.
    + done.
    + intros [] j Hj; simpl; by rewrite ?lookup_insert_ne by done.
    + intros j Hj. rewrite list_lookup_alter_ne by done. by apply Hn1.
    + done.
    + eexists (dataMapSet Host c (mkSpan (PScalar c) (outputSize info))
                 (dataMapSet Device c (mkSpan (PScalar c) (outputSize info)) d1)), _.
      split; [split|split; [|split; [|split; [|split]]]].
      * intros [] j Hj; simpl; by rewrite ?lookup_insert_ne by done.
      * intros j. simpl. rewrite list_lookup_alter.
        destruct (decide (c = j)) as [<-|]; [|done]. by destruct (_nodes d !! c).
      * done.
      * done.
      * rewrite !list_lookup_alter_eq, Hc. simpl. reflexivity.
      * done.
      * done.
      * done.
      * simpl. rewrite Hn, Hn'. split; [done|]. split; [done|]. split; [done|].
        intros []; simpl; by rewrite lookup_insert_eq.
  - apply Nat.eqb_neq in Hn as Hn'.
    unfold makeBuffer, runKernel. cbn [fst snd]. rewrite !andb_true_r.
    set (dL := if negb (hasLogged info) then _ else d1).
    assert (_nodes dL !! c = Some (if negb (hasLogged info) then set_hasLogged true (set_remServers (-2) info)
                                   else set_remServers (-2) info)
            ∧ (∀ j, j ≠ c → _nodes dL !! j = _nodes d !! j)
            ∧ _nextBuffer dL = _nextBuffer d ∧ _buffers dL = _buffers d
            ∧ _dataMapCPU dL = _dataMapCPU d ∧ _dataMapCUDA dL = _dataMapCUDA d
            ∧ _cudaMemDataset dL = _cudaMemDataset d) as (L1 & L2 & L3 & L4 & L5 & L6 & L7).
    { unfold dL. destruct (negb (hasLogged info)).
      - split; [|split; [|done]].
        + simpl. by rewrite !list_lookup_alter_eq, Hc.
        + intros j Hj. simpl. by rewrite !list_lookup_alter_ne by done.
      - done. }
    rewrite !bufferPtr_emit, !bufferPtr_writePtr, !bufferPtr_dataMapSet.
    rewrite !bufferPtr_updNode_buffer by (simpl; rewrite ?L3; by eapply lookup_lt_Some).
    rewrite L3.
    split.
    + destruct (copyAfterEvaluation info), (event info); simpl; by rewrite L7.
    + intros σ j Hj.
      destruct (copyAfterEvaluation info), (event info), σ; simpl;
        rewrite ?lookup_insert_ne by done; by rewrite ?L5, ?L6.
    + intros j Hj.
      destruct (copyAfterEvaluation info), (event info); simpl;
        rewrite list_lookup_alter_ne by done; by apply L2.
    + intros b Hb.
      destruct (copyAfterEvaluation info), (event info); simpl;
        rewrite lookup_alter_ne, lookup_insert_ne, L4 by lia; done.
    + eexists (dataMapSet Host c (mkSpan (PBuf (_nextBuffer d) Host) (outputSize info))
                 (updNode c (set_buffer (Some (_nextBuffer d)))
                    (set_buffers
                       (<[_nextBuffer d :=
                            (if copyAfterEvaluation info then PinnedBuffer else CpuBuffer, [])]>
                          (_buffers dL))
                       (set_nextBuffer (S (_nextBuffer d)) dL)))), _.
      split; [split|split; [|split; [|split; [|split]]]].
      * intros [] j Hj; simpl; rewrite ?lookup_insert_ne by done; by rewrite ?L5, ?L6.
      * intros j. simpl. rewrite list_lookup_alter.
        destruct (decide (c = j)) as [<-|].
        -- rewrite L1. simpl. rewrite Hc. by destruct (negb (hasLogged info)).
        -- by rewrite L2.
      * intros b Hb. simpl. rewrite lookup_insert_ne, L4 by lia. done.
      * simpl. by rewrite L7.
      * destruct (copyAfterEvaluation info), (event info); simpl;
          rewrite list_lookup_alter_eq, L1; simpl; reflexivity.
      * by destruct (copyAfterEvaluation info), (event info), (negb (hasLogged info)).
      * by destruct (copyAfterEvaluation info), (event info), (negb (hasLogged info)).
      * by destruct (copyAfterEvaluation info), (event info), (negb (hasLogged info)).
      * simpl. rewrite Hn. unfold bufferKindOf. rewrite Hgpu, Hcuda.
        destruct (copyAfterEvaluation info) eqn:Hcp, (event info), (negb (hasLogged info)); simpl;
          rewrite ?lookup_alter_eq, ?lookup_insert_eq, ?lookup_insert_eq, ?L6; simpl; done.
Qed.

(** ** What an evaluation in device mode runs *)

Lemma resetCounters_buffer d i info :
  _nodes (resetCounters d) !! i = Some info → buffer info = None.
Proof.
  unfold resetCounters.
  pose (P := λ (k : nat) (d' : RooFitDriver),
    length (_nodes d') = length (_nodes d)
    ∧ ∀ j x, j < k → _nodes d' !! j = Some x → buffer x = None).
  match goal with |- context [forNodes ?body d] => assert (P (length (_nodes d)) (forNodes body d)) as [Hl Hb] end.
  { apply forNodes_ind; [split; [done|intros; lia]|].
    intros k d' Hk [Hl Hb]. split.
    - destruct (resetBuffer_frame k
        (updNode k (λ info, set_remServers (Z.of_nat (length (serverInfos info))) info)
          (updNode k (λ info, set_remClients (Z.of_nat (length (clientInfos info))) info) d')))
        as (_ & _ & _ & _ & _ & _ & ->).
      by rewrite !length_updNode.
    - intros j x Hj. rewrite resetBuffer_lookup. case_decide; subst.
      + destruct (_ !! j); simpl; [|done]. by intros [= <-].
      + rewrite !lookup_updNode_ne by done. apply Hb. lia. }
  intros Hinfo. apply (Hb i info); [|done]. rewrite <- Hl. by eapply lookup_lt_Some.
Qed.

(** C9.  In device mode an evaluation that follows another one drops the
    buffer of every node before anything else and runs the kernel of every
    node that is not bound to the dataset, on the side the node computes on,
    whatever the counters of the parameters are in the second evaluation: in
    particular when none has changed ([w' = w]). *)
Theorem device_recomputes_every_node (w w' : World) isActive isActive' fuel fuel' d r d1 r' d2 :
  R__HAS_CUDA = true → _batchMode d = Cuda →
  wellFormed (_nodes d) → reachesTop (_nodes d) →
  getVal w isActive fuel d = Some (r, d1) →
  getVal w' isActive' fuel' d1 = Some (r', d2) →
  (∀ i info,
     _nodes (resetCounters (set_getValInvocations (S (_getValInvocations d1)) d1)) !! i
       = Some info →
     buffer info = None)
  ∧ ∃ evs, _trace d2 = _trace d1 ++ evs
      ∧ ∀ i info, _nodes d1 !! i = Some info → fromDataset info = false →
          EKernel (if computeInGPU info then Device else Host) i ∈ evs.
Proof.
  intros Hcuda Hmode Hwf Hreach H1 H2.
  split; [intros i info; apply resetCounters_buffer|].
  destruct (getVal_device _ _ _ _ _ _ Hcuda Hmode Hwf Hreach H1) as (Hg & Hmode1 & _ & _).
  pose proof (wellFormed_sameGraph _ _ Hg Hwf) as Hwf1.
  pose proof (reachesTop_sameGraph _ _ Hg Hreach) as Hreach1.
  destruct (getVal_device _ _ _ _ _ _ Hcuda Hmode1 Hwf1 Hreach1 H2)
    as (_ & _ & _ & evs & Htr & _ & Hk).
  exists evs. split; [done|]. intros i info Hinfo Hfd.
  destruct (Hk i info Hinfo) as [Hdev Hhost].
  destruct (computeInGPU info); [by apply Hdev|by apply Hhost].
Qed.

(** C5 as the specification has it: in device mode every scalar node runs on
    the host and not on the device, and the device data map gets its span
    right after the host kernel. *)
Definition scalars_run_inline (l : list NodeInfo) (evs : list Event) : Prop :=
  ∀ i info, l !! i = Some info → outputSize info = 1 → fromDataset info = false →
    EKernel Host i ∈ evs ∧ (EKernel Device i ∉ evs)
    ∧ ∀ pre post, evs = pre ++ EKernel Host i :: post →
        ∃ post', post = ESetDataMap Device i (mkSpan (PScalar i) 1) :: post'.

(** C5, amended.  In device mode a scalar node that is not bound to the
    dataset runs on the device, and not on the host, when it is a reducer
    whose kernel has device capability; every other such node runs on the
    host, and not on the device, and each run of its host kernel comes right
    after the publication of its scalar buffer in the device data map and in
    the host data map. *)
Theorem device_scalar_nodes w isActive fuel d r d' :
  R__HAS_CUDA = true → _batchMode d = Cuda →
  wellFormed (_nodes d) → reachesTop (_nodes d) →
  getVal w isActive fuel d = Some (r, d') →
  ∃ evs, _trace d' = _trace d ++ evs
    ∧ ∀ i info, _nodes d !! i = Some info → outputSize info = 1 → fromDataset info = false →
        if isReducerNode (absArg info) && canComputeBatchWithCuda (absArg info)
        then EKernel Device i ∈ evs ∧ EKernel Host i ∉ evs
        else EKernel Host i ∈ evs ∧ (EKernel Device i ∉ evs)
             ∧ ∀ pre post, evs = pre ++ EKernel Host i :: post →
                 ∃ pre', pre = pre' ++ [ESetDataMap Device i (mkSpan (PScalar i) 1);
                                        ESetDataMap Host i (mkSpan (PScalar i) 1)].
Proof.
  intros Hcuda Hmode Hwf Hreach Hget.
  destruct (getVal_device _ _ _ _ _ _ Hcuda Hmode Hwf Hreach Hget)
    as (_ & _ & _ & evs & Htr & Hpub & Hk).
  exists evs. split; [done|]. intros i info Hinfo Hsize Hfd.
  destruct (Hk i info Hinfo) as [Hdev Hhost].
  assert (computeInGPU info
          = isReducerNode (absArg info) && canComputeBatchWithCuda (absArg info)) as Hgpu.
  { unfold computeInGPU, isScalar. rewrite Hsize. simpl. by rewrite orb_false_r. }
  rewrite Hgpu in Hdev, Hhost.
  destruct (isReducerNode (absArg info) && canComputeBatchWithCuda (absArg info)).
  - split; [by apply Hdev|]. rewrite Hhost. by intros [? _].
  - split; [by apply Hhost|]. split; [rewrite Hdev; done|].
    intros pre post Heq. by apply (Hpub pre post i info).
Qed.

(** ** The values an evaluation in device mode computes *)

(** What the driver relies on the kernels for: computeBatch reads the data
    map at the servers of its node only, and writes as many values as it is
    asked for. *)
Definition localKernels (w : World) (l : list NodeInfo) : Prop :=
  ∀ side i info n v v', l !! i = Some info →
    (∀ s, s ∈ serverInfos info → v s = v' s) →
    computeBatch w side i n v = computeBatch w side i n v'.

Definition sizedKernels (w : World) (l : list NodeInfo) : Prop :=
  ∀ side i info v, l !! i = Some info →
    length (computeBatch w side i (outputSize info) v) = outputSize info.

(** What markGPUNodes leaves: only batches are copied after the
    evaluation. *)
Definition copiesBatches (l : list NodeInfo) : Prop :=
  ∀ i info, l !! i = Some info → copyAfterEvaluation info = true → outputSize info ≠ 1.

(** The data map of [side] gets a span for the node from the evaluation:
    the kernel of the node runs, and it runs on this side, or its output is
    a scalar, or it is copied after the evaluation. *)
Definition published (info : NodeInfo) (side : Side) : bool :=
  ranNode info
  && (bool_decide (side = sideOf info) || (outputSize info =? 1) || copyAfterEvaluation info).

(** A pointer into memory no kernel writes to. *)
Definition stablePtr (p : Ptr) : Prop :=
  match p with PScalar _ | PBuf _ _ => False | _ => True end.

(** Where the evaluation publishes no span, the data maps hold spans of the
    dataset. *)
Definition stableSpans (d : RooFitDriver) : Prop :=
  ∀ j info side span, _nodes d !! j = Some info → published info side = false →
    dataMap side d !! j = Some span → stablePtr (spanPtr span).

Lemma static_fields x y :
  staticPart x = staticPart y →
  ranNode x = ranNode y ∧ sideOf x = sideOf y ∧ bufferKindOf x = bufferKindOf y
  ∧ (∀ side, published x side = published y side)
  ∧ computeInGPU x = computeInGPU y ∧ outputSize x = outputSize y
  ∧ copyAfterEvaluation x = copyAfterEvaluation y ∧ fromDataset x = fromDataset y
  ∧ serverInfos x = serverInfos y ∧ clientInfos x = clientInfos y.
Proof.
  intros H. pose proof (staticPart_computeInGPU _ _ H) as Hg.
  apply staticPart_fields in H as (Ha & Hfd & _ & Ho & Hc & Hs & Hcl & _).
  unfold published, ranNode, sideOf, bufferKindOf. by rewrite Hg, Hfd, Hc, Ho.
Qed.

Section Values.

Variable w : World.

(** The driver at the start of the evaluation. *)
Variable d0 : RooFitDriver.

(** The view of the data map of [side] at node [j] once the node is done,
    given the outputs of the kernels: where the evaluation publishes no
    span, what the data map holds at the start. *)
Definition expectedView (outs : list (list val)) (side : Side) (j : nat) : option (list val) :=
  match _nodes d0 !! j with
  | Some info => if published info side then outs !! j else dataMapView w side d0 j
  | None => dataMapView w side d0 j
  end.

(** The outputs of the kernels of the first [k] nodes. *)
Fixpoint outputs (k : nat) : list (list val) :=
  match k with
  | 0 => []
  | S k =>
      let outs := outputs k in
      outs ++ [match _nodes d0 !! k with
               | Some info =>
                   computeBatch w (sideOf info) k (outputSize info)
                     (expectedView outs (sideOf info))
               | None => []
               end]
  end.

Definition nodeOutputs : list (list val) := outputs (length (_nodes d0)).

Lemma length_outputs k : length (outputs k) = k.
Proof. induction k as [|k IH]; simpl; [done|]. rewrite length_app, IH. simpl. lia. Qed.

Lemma outputs_prefix k n j : j < k → k ≤ n → outputs n !! j = outputs k !! j.
Proof.
  intros Hj. induction 1 as [|n Hle IH]; [done|]. simpl.
  rewrite lookup_app_l by (rewrite length_outputs; lia). done.
Qed.

Lemma expectedView_prefix k n side j :
  j < k → k ≤ n → expectedView (outputs n) side j = expectedView (outputs k) side j.
Proof. intros Hj Hk. unfold expectedView. by rewrite (outputs_prefix k n). Qed.

Hypothesis graph : wellFormed (_nodes d0).
Hypothesis kernels_local : localKernels w (_nodes d0).

(** The output of node [i] is what its kernel computes from the views of
    its servers. *)
Lemma nodeOutputs_lookup i info :
  _nodes d0 !! i = Some info →
  nodeOutputs !! i
  = Some (computeBatch w (sideOf info) i (outputSize info)
            (expectedView nodeOutputs (sideOf info))).
Proof.
  intros Hi. pose proof (lookup_lt_Some _ _ _ Hi) as Hlt. unfold nodeOutputs.
  rewrite (outputs_prefix (S i)) by lia. simpl.
  rewrite lookup_app_r, length_outputs, Nat.sub_diag by (rewrite length_outputs; lia).
  simpl. rewrite Hi. f_equal. apply (kernels_local _ i info); [done|].
  intros s Hs. pose proof (wf_servers _ graph i info s Hi Hs).
  symmetry. apply expectedView_prefix; lia.
Qed.

Hypothesis has_cuda : R__HAS_CUDA = true.
Hypothesis cuda_mode : _batchMode d0 = Cuda.
Hypothesis kernels_sized : sizedKernels w (_nodes d0).
Hypothesis batches_copied : copiesBatches (_nodes d0).
Hypothesis spans_stable : stableSpans d0.

Lemma length_nodeOutputs i info out :
  _nodes d0 !! i = Some info → nodeOutputs !! i = Some out → length out = outputSize info.
Proof.
  intros Hi. rewrite (nodeOutputs_lookup i info Hi). intros [= <-].
  by apply kernels_sized.
Qed.

(** Where the span of node [j] is published, the buffer it points to can be
    read from that side. *)
Lemma published_visible info side :
  published info side = true → outputSize info ≠ 1 →
  visibleFrom (bufferKindOf info) side = true.
Proof.
  unfold published, bufferKindOf, sideOf. rewrite has_cuda. intros H Hn.
  apply Nat.eqb_neq in Hn. rewrite Hn in H.
  destruct (ranNode info), (computeInGPU info), (copyAfterEvaluation info), side; done.
Qed.

(** ** The invariant of an evaluation *)

(** State [X] holds at node [j] what state [d] holds. *)
Record agreesAt (j : nat) (d X : RooFitDriver) : Prop := {
  ag_maps : ∀ σ, dataMap σ X !! j = dataMap σ d !! j;
  ag_scalars : scalarBuffer <$> _nodes X !! j = scalarBuffer <$> _nodes d !! j;
  ag_buffers : ∀ b, b < _nextBuffer d → _buffers X !! b = _buffers d !! b;
  ag_mem : _cudaMemDataset X = _cudaMemDataset d;
}.

Lemma agreesAt_refl j d : agreesAt j d d.
Proof. by split. Qed.

Lemma sameMemory_agreesAt c d dK j : j ≠ c → sameMemory c d dK → agreesAt j d dK.
Proof. intros Hj [Hm Hs Hb Hc]. split; [|done..]. intros σ. by apply Hm. Qed.

(** A node that is launched or retired holds the output of its kernel: in
    its scalar buffer, or in a buffer of its own, until its last client is
    retired; the data maps point to it; and they hold what they held at the
    start where the evaluation publishes nothing. *)
Record valued (d : RooFitDriver) : Prop := {
  v_graph : sameGraph (_nodes d0) (_nodes d);
  v_mem : _cudaMemDataset d = _cudaMemDataset d0;
  v_kept : ∀ j info σ, _nodes d0 !! j = Some info → published info σ = false →
    dataMap σ d !! j = dataMap σ d0 !! j;
  v_fresh : ∀ j info b, _nodes d !! j = Some info → buffer info = Some b → b < _nextBuffer d;
  v_distinct : ∀ i j x y b, _nodes d !! i = Some x → _nodes d !! j = Some y →
    buffer x = Some b → buffer y = Some b → i = j;
  v_idle : ∀ j info, _nodes d !! j = Some info → (0 ≤ remServers info)%Z → buffer info = None;
  v_done : ∀ j info, _nodes d !! j = Some info → (remServers info < 0)%Z →
    ranNode info = true →
    ∃ out, nodeOutputs !! j = Some out
      ∧ if outputSize info =? 1
        then out = [scalarBuffer info] ∧ ∀ σ, dataMap σ d !! j = Some (mkSpan (PScalar j) 1)
        else remClients info ≠ 0%Z ∨ clientInfos info = [] →
             ∃ b, buffer info = Some b
               ∧ _buffers d !! b = Some (bufferKindOf info, out)
               ∧ ∀ σ, published info σ = true →
                   dataMap σ d !! j = Some (mkSpan (PBuf b σ) (outputSize info));
}.

Lemma valued_lookup d j info :
  valued d → _nodes d !! j = Some info →
  ∃ info0, _nodes d0 !! j = Some info0 ∧ staticPart info = staticPart info0.
Proof.
  intros Hv Hj. pose proof (v_graph d Hv j) as Hg. rewrite Hj in Hg.
  destruct (_nodes d0 !! j) as [info0|]; [|done]. exists info0. split; [done|].
  simpl in Hg. by apply (inj Some) in Hg.
Qed.

(** What a kernel sees of a node that is done, or that gets no span from the
    evaluation. *)
Lemma valued_view d X j info side :
  valued d → agreesAt j d X → _nodes d !! j = Some info →
  (published info side = true →
     (remServers info < 0)%Z
     ∧ (outputSize info ≠ 1 → remClients info ≠ 0%Z ∨ clientInfos info = [])) →
  dataMapView w side X j = expectedView nodeOutputs side j.
Proof.
  intros Hv [Hmaps Hscalar Hbuffers Hmem] Hj Hdone.
  destruct (valued_lookup d j info Hv Hj) as (info0 & Hj0 & Hst).
  destruct (static_fields _ _ Hst) as (Hran & Hside & Hkind & Hpub & Hgpu & Hsize & _).
  unfold expectedView, dataMapView. rewrite Hj0, <- Hpub, Hmaps.
  destruct (published info side) eqn:Hp.
  - destruct (Hdone eq_refl) as [Hneg Hlive].
    assert (ranNode info = true) as Hr by (unfold published in Hp; by destruct (ranNode info)).
    destruct (v_done d Hv j info Hj Hneg Hr) as (out & Hout & Hcase).
    pose proof (length_nodeOutputs j info0 out Hj0 Hout) as Hlen. rewrite <- Hsize in Hlen.
    rewrite Hout. destruct (outputSize info =? 1) eqn:Hn.
    + destruct Hcase as [-> Hmap]. rewrite (Hmap side). simpl.
      rewrite Hj in Hscalar. unfold readSpan. simpl.
      destruct (_nodes X !! j) as [x|]; [|done].
      simpl in *. injection Hscalar as ->. done.
    + apply Nat.eqb_neq in Hn.
      destruct (Hcase (Hlive Hn)) as (b & Hb & Hbuf & Hmap).
      rewrite (Hmap side Hp). simpl. unfold readSpan. simpl.
      rewrite bool_decide_eq_true_2 by done.
      rewrite (Hbuffers b) by (by eapply v_fresh). rewrite Hbuf. simpl.
      rewrite (published_visible info side Hp Hn). simpl.
      rewrite (proj2 (Nat.ltb_ge _ _)) by lia. by rewrite take_ge by lia.
  - rewrite (v_kept d Hv j info0 side Hj0) by (by rewrite <- Hpub).
    destruct (dataMap side d0 !! j) as [span|] eqn:Hspan; [|done]. simpl.
    pose proof (spans_stable j info0 side span Hj0) as Hstable.
    rewrite <- Hpub in Hstable. specialize (Hstable Hp Hspan).
    unfold readSpan. destruct (spanPtr span); try done. simpl.
    by rewrite Hmem, (v_mem d Hv).
Qed.

(** ** A kernel run keeps the invariant *)

Lemma side_cases (side σ : Side) : σ = side ∨ σ = otherSide side.
Proof. destruct side, σ; auto. Qed.

Lemma published_own info : ranNode info = true → published info (sideOf info) = true.
Proof. unfold published. intros ->. by rewrite bool_decide_eq_true_2. Qed.

Lemma published_other info :
  ranNode info = true → outputSize info ≠ 1 →
  published info (otherSide (sideOf info)) = copyAfterEvaluation info.
Proof.
  unfold published. intros -> Hn%Nat.eqb_neq. rewrite Hn.
  rewrite bool_decide_eq_false_2; [done|]. by destruct (sideOf info).
Qed.

(** The kernel of node [c] reads what the table of the outputs says. *)
Lemma kernel_output d dK c info :
  valued d → _nodes d !! c = Some info → sameMemory c d dK →
  (∀ j jinfo, j ∈ serverInfos info → _nodes d !! j = Some jinfo →
     (remServers jinfo < 0)%Z ∧ remClients jinfo ≠ 0%Z) →
  nodeOutputs !! c
  = Some (computeBatch w (sideOf info) c (outputSize info) (dataMapView w (sideOf info) dK)).
Proof.
  intros Hv Hc Hsame Hservers.
  destruct (valued_lookup d c info Hv Hc) as (info0 & Hc0 & Hst).
  destruct (static_fields _ _ Hst) as (_ & Hside & _ & _ & _ & Hsize & _ & _ & Hsrv & _).
  rewrite (nodeOutputs_lookup c info0 Hc0), <- Hside, <- Hsize. f_equal.
  apply (kernels_local _ c info0 _ _ _ Hc0). intros s Hs. rewrite <- Hsrv in Hs.
  pose proof (wf_servers _ graph c info0 s Hc0) as Hlt. rewrite <- Hsrv in Hlt.
  specialize (Hlt Hs).
  destruct (lookup_lt_is_Some_2 (_nodes d) s) as [sinfo Hsinfo].
  { apply lookup_lt_Some in Hc. lia. }
  destruct (Hservers s sinfo Hs Hsinfo) as [Hneg Hlive].
  symmetry. apply (valued_view d dK s sinfo); [done| |done|].
  - apply (sameMemory_agreesAt c); [lia|done].
  - intros _. split; [done|]. intros _. by left.
Qed.

Lemma valued_kernel d d' c info z :
  valued d → _nodes d !! c = Some info → ranNode info = true → (z < 0)%Z →
  (∀ j jinfo, j ∈ serverInfos info → _nodes d !! j = Some jinfo →
     (remServers jinfo < 0)%Z ∧ remClients jinfo ≠ 0%Z) →
  kernelEffect w (sideOf info) c z info d d' →
  valued d'.
Proof.
  intros Hv Hc Hran Hz Hservers [Hmem Hmaps Hnodes Hbuffers Hkernel].
  destruct Hkernel as (dK & info' & Hsame & Hc' & Hst' & Hrc' & Hrs' & Hout).
  pose proof (kernel_output d dK c info Hv Hc Hsame Hservers) as Hoc.
  destruct (valued_lookup d c info Hv Hc) as (info0 & Hc0 & Hst).
  destruct (static_fields _ _ Hst') as (Hran' & Hside' & Hkind' & Hpub' & _ & Hsize' & _).
  destruct (static_fields _ _ Hst) as (_ & _ & _ & Hpub & _ & Hsize & _).
  pose proof (length_nodeOutputs c info0 _ Hc0 Hoc) as Hlen. rewrite <- Hsize in Hlen.
  assert (_nextBuffer d ≤ _nextBuffer d') as Hnext.
  { cbv zeta in Hout. destruct (outputSize info =? 1); [destruct Hout as (_ & _ & -> & _)|
      destruct Hout as (_ & -> & _)]; lia. }
  split.
  - intros j. destruct (decide (j = c)) as [->|Hj].
    + rewrite Hc', Hc0. simpl. by rewrite Hst', Hst.
    + rewrite (Hnodes j Hj). apply (v_graph d Hv).
  - by rewrite Hmem, (v_mem d Hv).
  - intros j jinfo σ Hj0 Hp. destruct (decide (j = c)) as [->|Hj].
    + rewrite <- (v_kept d Hv c jinfo σ Hj0 Hp). rewrite Hc0 in Hj0. injection Hj0 as <-.
      rewrite <- Hpub in Hp. cbv zeta in Hout.
      destruct (outputSize info =? 1) eqn:Hn.
      { unfold published in Hp. rewrite Hran, Hn, orb_true_r in Hp. done. }
      apply Nat.eqb_neq in Hn. destruct Hout as (_ & _ & _ & _ & Hother).
      destruct (side_cases (sideOf info) σ) as [->| ->].
      * by rewrite published_own in Hp.
      * rewrite published_other in Hp by done. by rewrite Hother, Hp.
    + rewrite (Hmaps σ j Hj). by apply (v_kept d Hv j jinfo).
  - intros j jinfo b. destruct (decide (j = c)) as [->|Hj].
    + rewrite Hc'. intros [= <-] Hb. cbv zeta in Hout.
      destruct (outputSize info =? 1); [destruct Hout as (_ & Hnone & _); congruence|].
      destruct Hout as (Hsome & -> & _). rewrite Hsome in Hb. injection Hb as <-. lia.
    + rewrite (Hnodes j Hj). intros Hjinfo Hb. pose proof (v_fresh d Hv j jinfo b Hjinfo Hb). lia.
  - assert (∀ j y b, j ≠ c → _nodes d !! j = Some y → buffer y = Some b →
              buffer info' = Some b → False) as Hnew.
    { intros j y b Hj Hy Hb Hb'. pose proof (v_fresh d Hv j y b Hy Hb) as Hlt.
      cbv zeta in Hout.
      destruct (outputSize info =? 1); [destruct Hout as (_ & Hnone & _); congruence|].
      destruct Hout as (Hsome & _). rewrite Hsome in Hb'. injection Hb' as <-. lia. }
    intros i j x y b.
    destruct (decide (i = c)) as [->|Hi], (decide (j = c)) as [->|Hj]; [done|..].
    + rewrite Hc', (Hnodes j Hj). intros [= <-] Hy Hx Hb. by destruct (Hnew j y b).
    + rewrite Hc', (Hnodes i Hi). intros Hx [= <-] Hb Hy. by destruct (Hnew i x b).
    + rewrite (Hnodes i Hi), (Hnodes j Hj). apply (v_distinct d Hv).
  - intros j jinfo. destruct (decide (j = c)) as [->|Hj].
    + rewrite Hc'. intros [= <-]. lia.
    + rewrite (Hnodes j Hj). apply (v_idle d Hv).
  - intros j jinfo. destruct (decide (j = c)) as [->|Hj].
    + rewrite Hc'. intros [= <-] _ _. eexists. split; [exact Hoc|].
      rewrite Hsize'. cbv zeta in Hout. destruct (outputSize info =? 1) eqn:Hn.
      * destruct Hout as (Hscalar & _ & _ & Hmap). split; [|done].
        revert Hscalar Hlen. apply Nat.eqb_eq in Hn. rewrite Hn.
        generalize (computeBatch w (sideOf info) c 1 (dataMapView w (sideOf info) dK)).
        intros [|v [|]] Hscalar Hlen; simplify_eq/=; done.
      * apply Nat.eqb_neq in Hn. destruct Hout as (Hb & _ & Hbuf & Hown & Hother).
        intros _. exists (_nextBuffer d). split; [done|]. rewrite Hkind'. split; [done|].
        intros σ. rewrite Hpub'. intros Hp.
        destruct (side_cases (sideOf info) σ) as [->| ->]; [done|].
        rewrite published_other in Hp by done. by rewrite Hother, Hp.
    + rewrite (Hnodes j Hj). intros Hjinfo Hneg Hr.
      destruct (v_done d Hv j jinfo Hjinfo Hneg Hr) as (out & Ho & Hcase).
      exists out. split; [done|]. destruct (outputSize jinfo =? 1).
      * destruct Hcase as [-> Hmap]. split; [done|]. intros σ. by rewrite (Hmaps σ j Hj).
      * intros Hlive. destruct (Hcase Hlive) as (b & Hb & Hbuf & Hmap).
        exists b. split; [done|]. split.
        -- rewrite Hbuffers; [done|]. by eapply v_fresh.
        -- intros σ Hp. rewrite (Hmaps σ j Hj). by apply Hmap.
Qed.

(** ** Steps that run no kernel *)

(** A step on node [c] that changes neither its graph nor its memory, and
    that marks it as launched or retired only if no kernel computes it. *)
Lemma valued_update d c (g : NodeInfo → NodeInfo) :
  valued d →
  (∀ x, staticPart (g x) = staticPart x ∧ buffer (g x) = buffer x
        ∧ scalarBuffer (g x) = scalarBuffer x) →
  (∀ x, _nodes d !! c = Some x →
     ((remServers x < 0)%Z → (remServers (g x) < 0)%Z)
     ∧ ((0 ≤ remServers x)%Z → (remServers (g x) < 0)%Z → ranNode x = false)
     ∧ (remClients (g x) ≠ 0%Z ∨ clientInfos x = [] → remClients x ≠ 0%Z ∨ clientInfos x = [])) →
  valued (updNode c g d).
Proof.
  intros Hv Hg Hc.
  assert (∀ j y, _nodes (updNode c g d) !! j = Some y →
            ∃ x, _nodes d !! j = Some x ∧ staticPart y = staticPart x ∧ buffer y = buffer x
                 ∧ scalarBuffer y = scalarBuffer x
                 ∧ ((0 ≤ remServers y)%Z → (0 ≤ remServers x)%Z)
                 ∧ ((remServers y < 0)%Z → ranNode y = true → (remServers x < 0)%Z)
                 ∧ (remClients y ≠ 0%Z ∨ clientInfos y = [] →
                    remClients x ≠ 0%Z ∨ clientInfos x = [])) as Hlook.
  { intros j y. rewrite lookup_updNode. destruct (decide (c = j)) as [<-|].
    - destruct (_nodes d !! c) as [x|] eqn:Hx; [|done]. intros [= <-]. exists x.
      destruct (Hg x) as (Hs & Hb & Hsc). destruct (Hc x eq_refl) as (H1 & H2 & H3).
      destruct (static_fields _ _ Hs) as (Hr & _ & _ & _ & _ & _ & _ & _ & _ & Hcl).
      rewrite Hr, Hcl. repeat split; try done; try lia.
      intros Hneg Hran. destruct (decide (remServers x < 0)%Z); [done|].
      rewrite H2 in Hran; [done|lia|done].
    - intros Hy. exists y. repeat split; done. }
  split.
  - intros j. rewrite lookup_updNode. destruct (decide (c = j)) as [<-|]; [|apply (v_graph d Hv)].
    rewrite <- (v_graph d Hv c). destruct (_nodes d !! c) as [x|]; [|done]. simpl.
    by destruct (Hg x) as (-> & _).
  - apply (v_mem d Hv).
  - apply (v_kept d Hv).
  - intros j y b Hy Hb. destruct (Hlook j y Hy) as (x & Hx & _ & Hbx & _).
    rewrite Hbx in Hb. by apply (v_fresh d Hv j x).
  - intros i j x y b Hx Hy Hbx Hby.
    destruct (Hlook i x Hx) as (x0 & Hx0 & _ & Hb1 & _).
    destruct (Hlook j y Hy) as (y0 & Hy0 & _ & Hb2 & _).
    rewrite Hb1 in Hbx. rewrite Hb2 in Hby. by apply (v_distinct d Hv i j x0 y0 b).
  - intros j y Hy Hpos. destruct (Hlook j y Hy) as (x & Hx & _ & -> & _ & Hp & _).
    apply (v_idle d Hv j x Hx). by apply Hp.
  - intros j y Hy Hneg Hran.
    destruct (Hlook j y Hy) as (x & Hx & Hs & Hb & Hsc & _ & Hn & Hlive).
    destruct (static_fields _ _ Hs) as (Hr & _ & Hk & Hpub & _ & Hsz & _).
    rewrite Hr in Hran.
    destruct (v_done d Hv j x Hx (Hn Hneg ltac:(by rewrite Hr)) Hran) as (out & Hout & Hcase).
    exists out. split; [done|]. rewrite Hsz, Hsc, Hb, Hk.
    destruct (outputSize x =? 1); [done|]. intros Hl. destruct (Hcase (Hlive Hl)) as (b & ?).
    exists b. by setoid_rewrite Hpub.
Qed.

Lemma valued_resetBuffer d s x :
  valued d → _nodes d !! s = Some x → remClients x = 0%Z → clientInfos x ≠ [] →
  valued (resetBuffer s d).
Proof.
  intros Hv Hx Hrc Hcl. unfold resetBuffer. rewrite Hx.
  destruct (buffer x) as [b|] eqn:Hb; [|done].
  assert (∀ j y, _nodes (updNode s (set_buffer None) (set_buffers (delete b (_buffers d)) d)) !! j
                 = Some y →
            if decide (s = j) then y = set_buffer None x else _nodes d !! j = Some y) as Hlook.
  { intros j y. rewrite lookup_updNode. simpl. destruct (decide (s = j)) as [<-|]; [|done].
    rewrite Hx. by intros [= <-]. }
  split; simpl.
  - intros j. rewrite list_lookup_alter. destruct (decide (s = j)) as [<-|]; [|apply (v_graph d Hv)].
    rewrite <- (v_graph d Hv s), Hx. done.
  - apply (v_mem d Hv).
  - apply (v_kept d Hv).
  - intros j y b' Hy Hb'. specialize (Hlook j y Hy). destruct (decide (s = j)) as [<-|].
    + by subst.
    + by apply (v_fresh d Hv j y).
  - intros i j y z b' Hy Hz Hby Hbz.
    pose proof (Hlook i y Hy) as Hi. pose proof (Hlook j z Hz) as Hj.
    destruct (decide (s = i)) as [<-|]; [by subst|].
    destruct (decide (s = j)) as [<-|]; [by subst|].
    by apply (v_distinct d Hv i j y z b').
  - intros j y Hy Hpos. specialize (Hlook j y Hy). destruct (decide (s = j)) as [<-|].
    + by subst.
    + by apply (v_idle d Hv j y).
  - intros j y Hy Hneg Hran. specialize (Hlook j y Hy). destruct (decide (s = j)) as [<-|].
    + subst y. simpl in *.
      destruct (v_done d Hv s x Hx Hneg Hran) as (out & Hout & Hcase).
      exists out. split; [done|]. destruct (outputSize x =? 1); [done|].
      intros [?|?]; done.
    + destruct (v_done d Hv j y Hlook Hneg Hran) as (out & Hout & Hcase).
      exists out. split; [done|]. destruct (outputSize y =? 1); [done|].
      intros Hl. destruct (Hcase Hl) as (b' & Hb' & Hbuf & Hmap). exists b'.
      split; [done|]. split; [|done]. rewrite lookup_delete_ne; [done|].
      intros <-. by destruct (n (v_distinct d Hv s j x y b Hx Hlook Hb Hb')).
Qed.

(** ** The countdowns of the clients *)

(** The clients of a node that are not retired yet, counted with the
    multiplicity they have in the client list. *)
Definition unreleased (l : list NodeInfo) (info : NodeInfo) : nat :=
  length (filter (λ c, retiredIn l c = false) (clientInfos info)).

(** [remClients] counts the clients that are to be retired, and [owed j]
    further decrements that node [j] is to get from the loop over the
    servers of the node that was just retired. *)
Definition clientCounts (owed : nat → nat) (l : list NodeInfo) : Prop :=
  ∀ j info, l !! j = Some info → remClients info = Z.of_nat (unreleased l info + owed j).

Lemma clientCounts_step owed owed' l l' :
  (∀ j, retiredIn l' j = retiredIn l j) →
  (∀ j y', l' !! j = Some y' →
     ∃ y, l !! j = Some y ∧ clientInfos y' = clientInfos y
          ∧ (remClients y' - Z.of_nat (owed' j) = remClients y - Z.of_nat (owed j))%Z) →
  clientCounts owed l → clientCounts owed' l'.
Proof.
  intros Hret Hlook Hc j y' Hy'. destruct (Hlook j y' Hy') as (y & Hy & Hcl & Hrc).
  specialize (Hc j y Hy).
  assert (unreleased l' y' = unreleased l y) as ->; [|lia].
  unfold unreleased. rewrite Hcl. f_equal. apply list_filter_iff. intros c. by rewrite Hret.
Qed.

(** Node [c] is retired: its servers are owed a decrement each. *)
Lemma clientCounts_retire owed l l' c x x' :
  wellFormed l → clientCounts owed l →
  l !! c = Some x → remServers x ≠ (-2)%Z →
  l' !! c = Some x' → remServers x' = (-2)%Z → remClients x' = remClients x →
  clientInfos x' = clientInfos x →
  (∀ j, j ≠ c → l' !! j = l !! j) →
  clientCounts (λ j, owed j + occurrences j (serverInfos x)) l'.
Proof.
  intros Hwf Hc Hx Hold Hx' Hnew Hrc Hcl Hother j y' Hy'.
  assert (∀ k, retiredIn l' k = if decide (k = c) then true else retiredIn l k) as Hret.
  { intros k. unfold retiredIn. destruct (decide (k = c)) as [->|Hk].
    - rewrite Hx'. simpl. rewrite Hnew. by apply bool_decide_eq_true_2.
    - by rewrite Hother. }
  assert (∀ y, unreleased l y = unreleased l' y + occurrences c (clientInfos y)) as Hun.
  { intros y. unfold unreleased.
    rewrite (filter_remove_length (λ k, retiredIn l k = false) c).
    2:{ unfold retiredIn. rewrite Hx. simpl. apply bool_decide_eq_false_2. by intros [= ?]. }
    f_equal. f_equal. apply list_filter_iff. intros k. rewrite Hret.
    destruct (decide (k = c)); [split; [by intros [_ ?]|done]|split; [by intros [? _]|done]]. }
  assert (∀ k xs, (∀ e, e ∈ xs → e ≠ k) → occurrences k xs = 0) as Hnone.
  { intros k xs Hne. destruct (occurrences k xs) eqn:E; [done|].
    assert (k ∈ xs) as Hin by (apply occurrences_pos; lia). by destruct (Hne k Hin). }
  destruct (decide (j = c)) as [->|Hj].
  - rewrite Hx' in Hy'. injection Hy' as <-. rewrite Hrc, (Hc c x Hx), (Hun x).
    assert (unreleased l' x' = unreleased l' x) as -> by (unfold unreleased; by rewrite Hcl).
    rewrite (Hnone c (clientInfos x)), (Hnone c (serverInfos x)); [lia|..].
    + intros e He. pose proof (wf_servers _ Hwf c x e Hx He). lia.
    + intros e He. pose proof (wf_clients _ Hwf c x e Hx He). lia.
  - rewrite (Hother j Hj) in Hy'. rewrite (Hc j y' Hy'), (Hun y').
    rewrite (wf_edges _ Hwf j c y' x Hy' Hx). lia.
Qed.

(** ** The evaluation, step by step *)

(** The driver in the middle of the evaluation: the scheduler follows it,
    the countdowns of the servers and of the clients are right, and the
    nodes that are done hold their outputs. *)
Record running (owed owedC : nat → nat) (d : RooFitDriver) (s : Sched) : Prop := {
  rn_tracks : tracks d0 d s;
  rn_counting : counting owed s;
  rn_valued : valued d;
  rn_clients : clientCounts owedC (_nodes d);
}.

Lemma tracks_retiredIn d s j : tracks d0 d s → retiredIn (_nodes d) j = retiredIn s.1 j.
Proof.
  intros Ht. unfold retiredIn. pose proof (tr_nodes _ _ _ Ht j) as Hj.
  destruct (_nodes d !! j) as [x|], (s.1 !! j) as [y|]; simpl in *; try done.
  apply (inj Some) in Hj. by apply schedPart_fields in Hj as (-> & _).
Qed.

Lemma valued_wellFormed d : valued d → wellFormed (_nodes d).
Proof. intros Hv. by apply (wellFormed_sameGraph _ _ (v_graph d Hv)). Qed.

Lemma filter_length_pos {A} (P : A → Prop) `{!∀ x, Decision (P x)} (l : list A) x :
  x ∈ l → P x → 0 < length (filter P l).
Proof.
  intros Hx HP. assert (x ∈ filter P l) as Hin by (by apply list_elem_of_filter).
  destruct (filter P l); [by apply elem_of_nil in Hin|simpl; lia].
Qed.

(** When a node is ready, its servers are retired, and they still have a
    client to wait for. *)
Lemma ready_servers owed owedC d s c x :
  running owed owedC d s → _nodes d !! c = Some x → remServers x = 0%Z →
  ∀ j jinfo, j ∈ serverInfos x → _nodes d !! j = Some jinfo →
    (remServers jinfo < 0)%Z ∧ remClients jinfo ≠ 0%Z.
Proof.
  intros [Ht Hcnt Hv Hcl] Hx Hr j jinfo Hj Hjinfo.
  destruct (tracks_lookup _ _ _ _ _ Ht Hx) as (y & Hy & Hxy).
  apply schedPart_fields in Hxy as (Hry & _ & _ & _ & Hsrv & _).
  split.
  - assert (pending s.1 y = 0) as Hp.
    { destruct (cnt_count _ _ Hcnt c y Hy) as [H|(_ & _ & [H|H])]; lia. }
    pose proof (filter_length_0 _ _ j Hp) as Hret. rewrite <- Hsrv in Hret.
    specialize (Hret Hj). apply not_false_is_true in Hret.
    rewrite <- (tracks_retiredIn d s j Ht) in Hret. unfold retiredIn in Hret.
    apply bool_decide_eq_true in Hret. rewrite Hjinfo in Hret. simpl in Hret.
    injection Hret as ->. lia.
  - rewrite (Hcl j jinfo Hjinfo).
    assert (0 < unreleased (_nodes d) jinfo); [|lia].
    apply (filter_length_pos _ _ c).
    + by apply (wellFormed_client_server (_nodes d) j c jinfo x (valued_wellFormed d Hv)).
    + unfold retiredIn. rewrite Hx. simpl. apply bool_decide_eq_false_2. intros [= ?]. lia.
Qed.

(** What a kernel run does to the countdowns. *)
Lemma kernelEffect_counts side c z info d d' :
  kernelEffect w side c z info d d' → _nodes d !! c = Some info →
  ∀ j y', _nodes d' !! j = Some y' →
    ∃ y, _nodes d !! j = Some y ∧ clientInfos y' = clientInfos y
         ∧ remClients y' = remClients y
         ∧ remServers y' = if decide (j = c) then z else remServers y.
Proof.
  intros [_ _ Hnodes _ (dK & info' & _ & Hc' & Hst & Hrc & Hrs & _)] Hc j y'.
  destruct (decide (j = c)) as [->|Hj].
  - rewrite Hc'. intros [= <-]. exists info.
    by destruct (static_fields _ _ Hst) as (_ & _ & _ & _ & _ & _ & _ & _ & _ & ->).
  - rewrite (Hnodes j Hj). intros Hy. by exists y'.
Qed.

Lemma valued_static d c x :
  valued d → _nodes d !! c = Some x → copyAfterEvaluation x = true → outputSize x ≠ 1.
Proof.
  intros Hv Hx. destruct (valued_lookup d c x Hv Hx) as (x0 & Hx0 & Hst).
  destruct (static_fields _ _ Hst) as (_ & _ & _ & _ & _ & -> & -> & _).
  by apply (batches_copied c).
Qed.

(** assignToGPU *)
Lemma running_launch owed owedC d s c x :
  running owed owedC d s → _nodes d !! c = Some x → remServers x = 0%Z →
  computeInGPU x = true →
  running owed owedC (assignToGPU w c d) (launch c s).
Proof.
  intros Hrun Hx Hr Hg. pose proof Hrun as [Ht Hcnt Hv Hcl].
  destruct (tracks_lookup _ _ _ _ _ Ht Hx) as (y & Hy & Hxy).
  apply schedPart_fields in Hxy as (Hry & Hgy & _).
  assert (kernelEffect w Device c (-1) x d (assignToGPU w c d)) as Heff.
  { apply assignToGPU_effect; [done| |done|by apply (valued_static d c)].
    apply (v_idle d Hv c x Hx). lia. }
  split.
  - apply tracks_assignToGPU; [done|by exists x].
  - apply (counting_launch owed s c y); congruence.
  - apply (valued_kernel d _ c x (-1)); [done|done| |lia| |].
    + unfold ranNode. by rewrite Hg.
    + by apply (ready_servers owed owedC d s c x).
    + unfold sideOf. by rewrite Hg.
  - apply (clientCounts_step owedC owedC (_nodes d)); [| |done].
    + intros j. unfold retiredIn.
      destruct (_nodes (assignToGPU w c d) !! j) as [y'|] eqn:Hy'.
      * destruct (kernelEffect_counts _ _ _ _ _ _ Heff Hx j y' Hy') as (y0 & Hy0 & _ & _ & Hrs).
        rewrite Hy0. simpl. apply bool_decide_ext. rewrite Hrs.
        destruct (decide (j = c)) as [->|]; [|done].
        rewrite Hx in Hy0. injection Hy0 as <-. split; intros [= ?]; lia.
      * destruct (_nodes d !! j) as [y0|] eqn:Hy0; [|done].
        destruct (decide (j = c)) as [->|Hj].
        -- destruct Heff as [_ _ _ _ (? & ? & _ & Hsome & _)]. congruence.
        -- rewrite (ke_nodes _ _ _ _ _ _ _ Heff j Hj) in Hy'. congruence.
    + intros j y' Hy'.
      destruct (kernelEffect_counts _ _ _ _ _ _ Heff Hx j y' Hy') as (y0 & Hy0 & Hc' & Hrc & _).
      exists y0. split; [done|]. split; [done|]. lia.
Qed.

(** One round of the loop over the clients of a node that is done. *)
Lemma running_notifyClient owedC d s c cs :
  running (λ c', occurrences c' (c :: cs)) owedC d s → eager s.1 →
  running (λ c', occurrences c' cs) owedC
    (let d := updNode c (λ info, set_remServers (remServers info - 1) info) d in
     match _nodes d !! c with
     | Some info =>
         if bool_decide (remServers info = 0%Z) && computeInGPU info then assignToGPU w c d else d
     | None => d
     end)
    (countDownClient s c)
  ∧ eager (countDownClient s c).1.
Proof.
  intros Hrun He. pose proof Hrun as [Ht Hcnt Hv Hcl].
  destruct (counting_countDownClient s c cs Hcnt He) as [Hcnt' He'].
  split; [|done]. cbv zeta. unfold countDownClient in *.
  set (dec := λ info, set_remServers (remServers info - 1) info) in *.
  pose proof (tracks_updNode d0 d s c dec schedPart_decrement ltac:(done) Ht) as Ht1.
  assert (valued (updNode c dec d) ∧ clientCounts owedC (_nodes (updNode c dec d))) as [Hv1 Hcl1].
  { assert (∀ x, _nodes d !! c = Some x → (1 ≤ remServers x)%Z) as Hpos.
    { intros x Hx. destruct (tracks_lookup _ _ _ _ _ Ht Hx) as (y & Hy & Hxy).
      apply schedPart_fields in Hxy as (-> & _).
      destruct (cnt_count _ _ Hcnt c y Hy) as [H|(_ & H & _)];
        rewrite occurrences_cons, decide_True in H by done; lia. }
    split.
    - apply valued_update; [done|done|]. intros x Hx. specialize (Hpos x Hx). simpl.
      split; [lia|]. split; [lia|done].
    - apply (clientCounts_step owedC owedC (_nodes d)); [| |done].
      + intros j. unfold retiredIn. rewrite lookup_updNode.
        destruct (decide (c = j)) as [<-|]; [|done].
        destruct (_nodes d !! c) as [x|] eqn:Hx; [|done]. specialize (Hpos x eq_refl). simpl.
        apply bool_decide_ext. split; intros [= ?]; lia.
      + intros j y'. rewrite lookup_updNode. destruct (decide (c = j)) as [<-|].
        * destruct (_nodes d !! c) as [x|]; [|done]. intros [= <-]. exists x.
          split; [done|]. split; [done|]. simpl. lia.
        * intros Hy'. exists y'. split; [done|]. split; [done|]. lia. }
  destruct (_nodes (updNode c dec d) !! c) as [x|] eqn:Hx.
  - destruct (tracks_lookup _ _ _ _ _ Ht1 Hx) as (y & Hy & Hxy). simpl in Hy.
    rewrite Hy in Hcnt' |- *.
    apply schedPart_fields in Hxy as (Hr & Hg & _). rewrite <- Hr, <- Hg in Hcnt' |- *.
    assert (counting (λ c', occurrences c' cs) (alter dec c s.1, s.2)) as Hcnt1.
    { rewrite list_lookup_alter_eq in Hy. destruct (s.1 !! c) as [y0|] eqn:Hy0; [|done].
      by apply (counting_decrement s c y0). }
    destruct (bool_decide (remServers x = 0%Z) && computeInGPU x) eqn:Hgo; [|done].
    apply andb_true_iff in Hgo as [Hz%bool_decide_eq_true Hgx].
    by apply (running_launch _ owedC (updNode c dec d) (alter dec c s.1, s.2) c x).
  - pose proof (tracks_lookup_None _ _ _ _ Ht1 Hx) as Hy. simpl in Hy.
    rewrite Hy in Hcnt' |- *. done.
Qed.

Lemma running_notifyClients owedC cs d s :
  running (λ c', occurrences c' cs) owedC d s → eager s.1 →
  running (λ _, 0) owedC
    (foldl (λ d c,
       let d := updNode c (λ info, set_remServers (remServers info - 1) info) d in
       match _nodes d !! c with
       | Some info =>
           if bool_decide (remServers info = 0%Z) && computeInGPU info
           then assignToGPU w c d else d
       | None => d
       end) d cs)
    (foldl countDownClient s cs)
  ∧ eager (foldl countDownClient s cs).1.
Proof.
  revert d s. induction cs as [|c cs IH]; intros d s Hrun He; [done|].
  cbn [foldl]. destruct (running_notifyClient owedC d s c cs Hrun He) as [Hrun' He'].
  by apply IH.
Qed.

(** The loop over the servers of a node that is retired: a server is
    released when its last client is retired. *)
Lemma running_releaseServers owed ss d s :
  running owed (λ j, occurrences j ss) d s →
  (∀ j x0, j ∈ ss → _nodes d0 !! j = Some x0 → clientInfos x0 ≠ []) →
  running owed (λ _, 0)
    (foldl (λ d s,
       let d := updNode s (λ info, set_remClients (remClients info - 1) info) d in
       match _nodes d !! s with
       | Some info => if bool_decide (remClients info = 0%Z) then resetBuffer s d else d
       | None => d
       end) d ss)
    s.
Proof.
  revert d. induction ss as [|c ss IH]; intros d Hrun Hne; [done|].
  cbn [foldl]. apply IH; [|intros j x0 Hj; apply Hne; by right].
  destruct Hrun as [Ht Hcnt Hv Hcl]. cbv zeta.
  set (dec := λ info, set_remClients (remClients info - 1) info).
  assert (tracks d0 (updNode c dec d) s) as Ht1.
  { apply (tracks_silent d0 d); try done. intros j. rewrite lookup_updNode.
    case_decide; subst; [|done]. by destruct (_nodes d !! j). }
  assert (valued (updNode c dec d)) as Hv1.
  { apply valued_update; [done|done|]. intros x Hx. simpl. split; [done|]. split; [lia|].
    intros _. left. rewrite (Hcl c x Hx), occurrences_cons, decide_True by done. lia. }
  assert (clientCounts (λ j, occurrences j ss) (_nodes (updNode c dec d))) as Hcl1.
  { apply (clientCounts_step (λ j, occurrences j (c :: ss)) _ (_nodes d)); [| |done].
    - intros j. unfold retiredIn. rewrite lookup_updNode.
      destruct (decide (c = j)) as [<-|]; [|done]. by destruct (_nodes d !! c).
    - intros j y'. rewrite lookup_updNode, occurrences_cons.
      destruct (decide (c = j)) as [<-|].
      + destruct (_nodes d !! c) as [x|]; [|done]. intros [= <-]. exists x.
        split; [done|]. split; [done|]. rewrite decide_True by done. simpl. lia.
      + intros Hy'. exists y'. split; [done|]. split; [done|].
        rewrite decide_False by done. lia. }
  destruct (_nodes (updNode c dec d) !! c) as [x|] eqn:Hx; [|done].
  case_bool_decide as Hzero; [|done].
  destruct (resetBuffer_frame c (updNode c dec d)) as (_ & _ & Htr & Hbm & _).
  split.
  - apply (tracks_silent d0 _ _ s Ht1); [apply resetBuffer_schedPart|done..].
  - done.
  - apply (valued_resetBuffer _ c x Hv1 Hx Hzero).
    destruct (valued_lookup _ c x Hv1 Hx) as (x0 & Hx0 & Hst).
    destruct (static_fields _ _ Hst) as (_ & _ & _ & _ & _ & _ & _ & _ & _ & ->).
    apply (Hne c x0); [by left|done].
  - apply (clientCounts_step (λ j, occurrences j ss) _ (_nodes (updNode c dec d))); [| |done].
    + intros j. unfold retiredIn. rewrite resetBuffer_lookup.
      destruct (decide (c = j)) as [<-|]; [|done]. by destruct (_nodes (updNode c dec d) !! c).
    + intros j y'. rewrite resetBuffer_lookup. destruct (decide (c = j)) as [<-|].
      * rewrite Hx. intros [= <-]. exists x. split; [done|]. split; [done|]. simpl. lia.
      * intros Hy'. exists y'. split; [done|]. split; [done|]. lia.
Qed.

(** The scheduler when node [i], launched or ready on the host, is marked as
    retired. *)
Lemma counting_retiring s i y :
  counting (λ _, 0) s → s.1 !! i = Some y → remServers y = (-1)%Z →
  counting (λ c, occurrences c (clientInfos y)) (setRemServers i (-2) s).
Proof.
  intros Hcnt Hy Hr. apply (counting_retired s i y s.2 Hcnt Hy); [by right|..].
  - intros j info. rewrite list_lookup_alter. case_decide; subst.
    + rewrite Hy. intros [= <-]. simpl.
      rewrite ?computeInGPU_set_remServers, (cnt_device _ _ Hcnt j y Hy).
      pose proof (cnt_launched _ _ Hcnt j y Hy Hr). split; [by right|by left].
    + apply (cnt_device _ _ Hcnt).
  - intros j info. rewrite list_lookup_alter. case_decide; subst.
    + rewrite Hy. intros [= <-]. simpl.
      rewrite ?computeInGPU_set_remServers, (cnt_host _ _ Hcnt j y Hy).
      pose proof (cnt_launched _ _ Hcnt j y Hy Hr). split; [lia|]. intros (_ & ? & _). congruence.
    + apply (cnt_host _ _ Hcnt).
Qed.

Lemma counting_hostRunning s i y :
  counting (λ _, 0) s → s.1 !! i = Some y → remServers y = 0%Z → computeInGPU y = false →
  counting (λ c, occurrences c (clientInfos y))
    (alter (set_remServers (-2)) i s.1, s.2 ++ (if fromDataset y then [] else [(Host, i)])).
Proof.
  intros Hcnt Hy Hr Hg. apply (counting_retired s i y _ Hcnt Hy); [by left|..].
  - intros j info. rewrite list_lookup_alter, elem_of_app. case_decide; subst.
    + rewrite Hy. intros [= <-]. simpl.
      rewrite ?computeInGPU_set_remServers, (cnt_device _ _ Hcnt j y Hy). split.
      * intros [[?|[? _]]|Hin]; [lia..|]. destruct (fromDataset y); set_solver.
      * intros [?|[_ ?]]; [lia|congruence].
    + intros Hinfo. rewrite (cnt_device _ _ Hcnt j info Hinfo). split; [|by left].
      intros [?|Hin]; [done|]. destruct (fromDataset y); set_solver.
  - intros j info. rewrite list_lookup_alter, elem_of_app. case_decide; subst.
    + rewrite Hy. intros [= <-]. simpl.
      rewrite ?computeInGPU_set_remServers, (cnt_host _ _ Hcnt j y Hy). split.
      * intros [(? & _)|Hin]; [lia|]. destruct (fromDataset y); [set_solver|done].
      * intros (_ & _ & ->). right. set_solver.
    + intros Hinfo. rewrite (cnt_host _ _ Hcnt j info Hinfo). split; [|by left].
      intros [?|Hin]; [done|]. destruct (fromDataset y); set_solver.
Qed.

(** The two loops after node [i] is marked as retired. *)
Lemma running_finish d s i x :
  running (λ c, occurrences c (clientInfos x)) (λ j, occurrences j (serverInfos x)) d s →
  eager s.1 → _nodes d !! i = Some x →
  running (λ _, 0) (λ _, 0) (releaseServers i (notifyClients w i d)) (countDown i s)
  ∧ eager (countDown i s).1.
Proof.
  intros Hrun He Hx. pose proof Hrun as [Ht _ Hv _].
  destruct (tracks_lookup _ _ _ _ _ Ht Hx) as (y & Hy & Hxy).
  apply schedPart_fields in Hxy as (_ & _ & _ & Hcl & _).
  unfold notifyClients, countDown. rewrite Hx, Hy. simpl. rewrite <- Hcl.
  destruct (running_notifyClients _ (clientInfos x) d s Hrun He) as [Hrun2 He2].
  split; [|done]. set (d2 := foldl _ d (clientInfos x)) in *.
  destruct (valued_lookup d i x Hv Hx) as (x0 & Hx0 & Hst).
  destruct (static_fields _ _ Hst) as (_ & _ & _ & _ & _ & _ & _ & _ & Hsrv & _).
  assert (from_option serverInfos [] (_nodes d2 !! i) = serverInfos x) as Hss.
  { pose proof (v_graph d2 (rn_valued _ _ _ _ Hrun2) i) as Hg. rewrite Hx0 in Hg.
    destruct (_nodes d2 !! i) as [x2|]; [|done]. simpl in *. apply (inj Some) in Hg.
    destruct (static_fields _ _ Hg) as (_ & _ & _ & _ & _ & _ & _ & _ & -> & _). done. }
  unfold releaseServers. rewrite Hss.
  apply running_releaseServers; [done|].
  intros j j0 Hj Hj0 Hnil. rewrite Hsrv in Hj.
  apply (wellFormed_client_server _ j i j0 x0 graph Hj0 Hx0) in Hj.
  rewrite Hnil in Hj. by apply elem_of_nil in Hj.
Qed.

(** "find finished GPU nodes", for one node *)
Lemma running_retire active i d s :
  running (λ _, 0) (λ _, 0) d s → eager s.1 →
  running (λ _, 0) (λ _, 0) (retireGPUNode w active i d) (retire active i s)
  ∧ eager (retire active i s).1.
Proof.
  intros Hrun He. pose proof Hrun as [Ht Hcnt Hv Hcl]. unfold retireGPUNode, retire.
  destruct (_nodes d !! i) as [x|] eqn:Hx.
  2:{ by rewrite (tracks_lookup_None _ _ _ _ Ht Hx). }
  destruct (tracks_lookup _ _ _ _ _ Ht Hx) as (y & Hy & Hxy). rewrite Hy.
  apply schedPart_fields in Hxy as (Hr & _ & _ & Hcli & _). rewrite <- Hr.
  destruct (bool_decide (remServers x = (-1)%Z) && negb (active i)) eqn:Hgo; [|done].
  apply andb_true_iff in Hgo as [Hrx%bool_decide_eq_true _].
  apply (running_finish _ _ i (set_remServers (-2) x)).
  - split.
    + by apply (tracks_updNode d0 d s i (set_remServers (-2))).
    + simpl. rewrite Hcli. apply counting_retiring; [done..|congruence].
    + apply valued_update; [done|done|]. intros x' Hx'. simpl. split; [lia|].
      split; [|done]. rewrite Hx in Hx'. injection Hx' as <-. lia.
    + apply (clientCounts_retire (λ _, 0) (_nodes d) _ i x (set_remServers (-2) x));
        [by apply valued_wellFormed|done|done|lia| |done..|].
      * by rewrite lookup_updNode_eq, Hx.
      * intros j Hj. by rewrite lookup_updNode_ne.
  - by apply eager_retired.
  - by rewrite lookup_updNode_eq, Hx.
Qed.

(** "compute next CPU node" *)
Lemma running_hostRun i d s x :
  running (λ _, 0) (λ _, 0) d s → eager s.1 →
  _nodes d !! i = Some x → remServers x = 0%Z → computeInGPU x = false →
  running (λ _, 0) (λ _, 0) (runCPUNode w i d) (hostRun i s)
  ∧ eager (hostRun i s).1.
Proof.
  intros Hrun He Hx Hrx Hgx. pose proof Hrun as [Ht Hcnt Hv Hcl]. unfold runCPUNode, hostRun.
  rewrite Hx. destruct (tracks_lookup _ _ _ _ _ Ht Hx) as (y & Hy & Hxy). rewrite Hy.
  apply schedPart_fields in Hxy as (Hr & Hg & Hfd & Hcli & _). rewrite <- Hfd.
  assert (_batchMode d = Cuda) as Hmode by (by rewrite (tr_batchMode _ _ _ Ht)).
  pose proof (tracks_updNode d0 d s i (set_remServers (-2)) ltac:(done) ltac:(done) Ht) as Ht1.
  set (d1 := updNode i (set_remServers (-2)) d) in *.
  set (dK := if negb (fromDataset x) then computeCPUNode w i d1 else d1).
  assert (∃ x', _nodes dK !! i = Some x' ∧ clientInfos x' = clientInfos x
                ∧ serverInfos x' = serverInfos x ∧ remClients x' = remClients x
                ∧ remServers x' = (-2)%Z
                ∧ (∀ j, j ≠ i → _nodes dK !! j = _nodes d !! j) ∧ valued dK)
    as (x' & Hx' & Hcl' & Hsv' & Hrc' & Hrs' & Hother & HvK).
  { unfold dK. destruct (fromDataset x) eqn:Hfdx; cbn [negb].
    - exists (set_remServers (-2) x). unfold d1. rewrite lookup_updNode_eq, Hx.
      split_and!; try done.
      + intros j Hj. by rewrite lookup_updNode_ne.
      + apply valued_update; [done|done|]. intros x2 Hx2. rewrite Hx in Hx2.
        injection Hx2 as <-. simpl. split; [lia|]. split; [|done]. intros _ _.
        unfold ranNode. by rewrite Hgx, Hfdx.
    - assert (kernelEffect w Host i (-2) x d (computeCPUNode w i d1)) as Heff.
      { apply hostKernel_effect; try done; [|by apply (valued_static d i)].
        apply (v_idle d Hv i x Hx). lia. }
      pose proof Heff as [_ _ Hnodes _ (dM & x' & _ & Hx' & Hst & Hrc & Hrs & _)].
      destruct (static_fields _ _ Hst) as (_ & _ & _ & _ & _ & _ & _ & _ & Hsv & Hcli').
      exists x'. split_and!; try done.
      apply (valued_kernel d _ i x (-2)); [done|done| |lia| |].
      + unfold ranNode. by rewrite Hgx, Hfdx.
      + by apply (ready_servers (λ _, 0) (λ _, 0) d s i x).
      + unfold sideOf. by rewrite Hgx. }
  apply (running_finish dK _ i x'); [|by apply eager_retired|done].
  split.
  - unfold dK. destruct (fromDataset x); simpl.
    + by rewrite app_nil_r.
    + apply (tracks_computeCPUNode w d0 _ (_, s.2) i (set_remServers (-2) x)); try done.
      unfold d1. by rewrite lookup_updNode_eq, Hx.
  - rewrite Hcl', Hcli, Hfd. apply counting_hostRunning; [done..|congruence|congruence].
  - done.
  - rewrite Hsv'.
    apply (clientCounts_retire (λ _, 0) (_nodes d) _ i x x');
      [by apply valued_wellFormed|done|done|lia|done..].
Qed.

Lemma valued_emit e d : valued d → valued (emit e d).
Proof. intros []. by split. Qed.

(** One round of the while loop. *)
Lemma running_round active d s :
  running (λ _, 0) (λ _, 0) d s → eager s.1 →
  running (λ _, 0) (λ _, 0) (scheduleRound w active d) (round active s)
  ∧ eager (round active s).1.
Proof.
  intros Hrun He. unfold scheduleRound, round, forNodes.
  rewrite (tracks_length _ _ _ (rn_tracks _ _ _ _ Hrun)).
  assert (∀ (ns : list nat) d s, running (λ _, 0) (λ _, 0) d s → eager s.1 →
            running (λ _, 0) (λ _, 0) (foldl (λ d i, retireGPUNode w active i d) d ns)
              (foldl (λ s i, retire active i s) s ns)
            ∧ eager (foldl (λ s i, retire active i s) s ns).1) as Hfold.
  { induction ns as [|i ns IH]; intros d' s' Hr' He'; [done|]. cbn [foldl].
    destruct (running_retire active i d' s' Hr' He'). by apply IH. }
  destruct (Hfold (seq 0 (length (_nodes d))) d s Hrun He) as [Hrun1 He1].
  set (d1 := foldl _ d _) in *. set (s1 := foldl _ s _) in *.
  pose proof Hrun1 as [Ht1 Hcnt1 Hv1 Hcl1].
  rewrite (tracks_nextCPUNode _ _ _ Ht1). unfold nextHostNode.
  destruct (list_find _ s1.1) as [[i y]|] eqn:Hfind; simpl.
  - apply list_find_Some in Hfind as (Hy & [Hr Hg] & _).
    destruct (lookup_lt_is_Some_2 (_nodes d1) i) as [x Hx].
    { rewrite <- (tracks_length _ _ _ Ht1). by eapply lookup_lt_Some. }
    destruct (tracks_lookup _ _ _ _ _ Ht1 Hx) as (y' & Hy' & Hxy).
    rewrite Hy in Hy'. apply (inj Some) in Hy' as <-.
    apply schedPart_fields in Hxy as (Hrx & Hgx & _).
    apply (running_hostRun i d1 s1 x); [done|done|done|congruence|congruence].
  - split; [|done]. split; [by apply tracks_emit|done|by apply valued_emit|done].
Qed.

Lemma running_loopState isActive n t d s :
  running (λ _, 0) (λ _, 0) d s → eager s.1 →
  ∃ s', running (λ _, 0) (λ _, 0) (loopState w isActive n t d) s' ∧ eager s'.1.
Proof.
  revert t d s. induction n as [|n IH]; intros t d s Hrun He; [by exists s|].
  simpl. destruct (running_round (isActive t) d s Hrun He) as [Hrun' He'].
  by apply (IH _ _ _ Hrun' He').
Qed.

(** ** The start of the evaluation *)

(** The first loop of getValHeterogeneous. *)
Definition resetNode (info : NodeInfo) : NodeInfo :=
  set_buffer None
    (set_remServers (Z.of_nat (length (serverInfos info)))
       (set_remClients (Z.of_nat (length (clientInfos info))) info)).

Lemma resetCounters_fields d :
  (∀ j, _nodes (resetCounters d) !! j = resetNode <$> _nodes d !! j)
  ∧ _dataMapCPU (resetCounters d) = _dataMapCPU d
  ∧ _dataMapCUDA (resetCounters d) = _dataMapCUDA d
  ∧ _cudaMemDataset (resetCounters d) = _cudaMemDataset d
  ∧ _nextBuffer (resetCounters d) = _nextBuffer d.
Proof.
  unfold resetCounters.
  pose (P := λ (k : nat) (d' : RooFitDriver),
    (∀ j, _nodes d' !! j = if decide (j < k) then resetNode <$> _nodes d !! j
                            else _nodes d !! j)
    ∧ _dataMapCPU d' = _dataMapCPU d ∧ _dataMapCUDA d' = _dataMapCUDA d
    ∧ _cudaMemDataset d' = _cudaMemDataset d ∧ _nextBuffer d' = _nextBuffer d).
  match goal with |- context [forNodes ?body d] =>
    assert (P (length (_nodes d)) (forNodes body d)) as (Hn & H1 & H2 & H3 & H4) end.
  { apply forNodes_ind.
    - split; [|done]. intros j. by rewrite decide_False by lia.
    - intros k d' Hk (Hn & H1 & H2 & H3 & H4).
      match goal with |- P _ (resetBuffer k ?d1) => set (D1 := d1) end.
      destruct (resetBuffer_frame k D1) as (F1 & F2 & _ & _ & F5 & F6 & _).
      split; [|by rewrite F1, F2, F5, F6].
      intros j. rewrite resetBuffer_lookup. unfold D1. rewrite !lookup_updNode.
      destruct (decide (k = j)) as [->|Hne].
      + rewrite decide_True by lia. rewrite Hn, decide_False by lia.
        rewrite (decide_True (P := j < S j)) by lia. by destruct (_nodes d !! j).
      + rewrite Hn. repeat case_decide; try lia; done. }
  split; [|done]. intros j. rewrite Hn. case_decide as Hj; [done|].
  by rewrite (proj2 (lookup_ge_None (_nodes d) j)) by lia.
Qed.

Lemma running_resetCounters :
  running (λ _, 0) (λ _, 0) (resetCounters d0) (initialCounters (_nodes d0), []).
Proof.
  destruct (resetCounters_fields d0) as (Hn & H1 & H2 & H3 & H4).
  assert (∀ j y, _nodes (resetCounters d0) !! j = Some y →
            ∃ x, _nodes d0 !! j = Some x ∧ y = resetNode x) as Hlook.
  { intros j y. rewrite Hn. destruct (_nodes d0 !! j) as [x|]; [|done].
    intros [= <-]. by exists x. }
  split.
  - apply tracks_resetCounters.
  - by apply counting_initial.
  - split.
    + intros j. rewrite Hn. by destruct (_nodes d0 !! j).
    + done.
    + intros j info [] _ _; simpl; by rewrite ?H1, ?H2.
    + intros j y b Hy. by destruct (Hlook j y Hy) as (x & _ & ->).
    + intros i j x y b Hx. by destruct (Hlook i x Hx) as (x' & _ & ->).
    + intros j y Hy. by destruct (Hlook j y Hy) as (x & _ & ->).
    + intros j y Hy. destruct (Hlook j y Hy) as (x & _ & ->). simpl. lia.
  - intros j y Hy. destruct (Hlook j y Hy) as (x & Hx & ->). simpl.
    unfold unreleased. simpl. rewrite filter_all; [lia|].
    intros c. unfold retiredIn. rewrite Hn. apply bool_decide_eq_false_2.
    destruct (_nodes d0 !! c) as [z|]; [|done]. simpl. intros [= ?]. lia.
Qed.

Lemma running_start :
  ∃ s, running (λ _, 0) (λ _, 0) (assignInitialGPUNodes w (resetCounters d0)) s ∧ eager s.1.
Proof.
  exists (launchReady (initialCounters (_nodes d0), [])).
  split; [|by apply counting_launchReady, counting_initial].
  pose proof running_resetCounters as Hrun.
  unfold assignInitialGPUNodes, launchReady, forNodes.
  rewrite (tracks_length _ _ _ (rn_tracks _ _ _ _ Hrun)).
  generalize (seq 0 (length (_nodes (resetCounters d0)))). intros ns.
  revert Hrun. generalize (resetCounters d0), (initialCounters (_nodes d0), @nil (Side * nat)).
  induction ns as [|i ns IH]; intros d s Hrun; [done|]. cbn [foldl]. apply IH.
  unfold launchIfReady. destruct (_nodes d !! i) as [x|] eqn:Hx.
  - destruct (tracks_lookup _ _ _ _ _ (rn_tracks _ _ _ _ Hrun) Hx) as (y & -> & Hxy).
    apply schedPart_fields in Hxy as (Hr & Hg & _). rewrite <- Hr, <- Hg.
    destruct (bool_decide (remServers x = 0%Z) && computeInGPU x) eqn:Hgo; [|done].
    apply andb_true_iff in Hgo as [Hz%bool_decide_eq_true Hgx].
    by apply (running_launch _ _ d s i x).
  - by rewrite (tracks_lookup_None _ _ _ _ (rn_tracks _ _ _ _ Hrun) Hx).
Qed.

(** ** The result of the evaluation *)

(** What getValHeterogeneous returns: the first entry of the span of the top
    node in the host data map. *)
Definition expectedValue : option val :=
  expectedView nodeOutputs Host (topNode d0) ≫= head.

Lemma valued_topValue d :
  valued d → topRetired d = true → topValue w d = expectedValue.
Proof.
  intros Hv Htop. unfold expectedValue.
  assert (length (_nodes d) = length (_nodes d0)) as Hlen
    by (by apply sameGraph_length, (v_graph d Hv)).
  assert (topNode d = topNode d0) as Htn by (unfold topNode; by rewrite Hlen).
  unfold topRetired in Htop. rewrite last_lookup in Htop.
  destruct (_nodes d !! _) as [info|] eqn:Hinfo; [|done]. apply bool_decide_eq_true in Htop.
  replace (pred (length (_nodes d))) with (topNode d) in Hinfo by (unfold topNode; lia).
  rewrite <- Htn, <- (valued_view d d (topNode d) info Host Hv (agreesAt_refl _ d) Hinfo).
  - unfold topValue, dataMapView. simpl.
    destruct (_dataMapCPU d !! topNode d) as [span|]; [|done]. simpl.
    by destruct (readSpan w Host d span).
  - intros _. split; [lia|]. intros _. right.
    destruct (clientInfos info) as [|c cs] eqn:Hcl; [done|].
    pose proof (wf_clients _ (valued_wellFormed d Hv) (topNode d) info c Hinfo) as Hc.
    rewrite Hcl in Hc. specialize (Hc ltac:(by left)). unfold topNode in Hc. lia.
Qed.

Lemma getValHeterogeneous_valued isActive fuel r d' :
  getValHeterogeneous w isActive fuel d0 = Some (r, d') →
  valued d' ∧ _batchMode d' = Cuda ∧ r = expectedValue.
Proof.
  unfold getValHeterogeneous.
  destruct (schedule _ _ _ _ _) as [d1|] eqn:Hs; simpl; [|done]. intros [= <- <-].
  apply schedule_loopState in Hs as (n & _ & -> & Htop).
  destruct running_start as (s & Hrun & He).
  destruct (running_loopState isActive n 0 _ s Hrun He) as (s' & [Ht _ Hv _] & _).
  split; [done|]. split; [by rewrite (tr_batchMode _ _ _ Ht)|]. by apply valued_topValue.
Qed.

End Values.

(** ** The results of the evaluations in device mode *)

Lemma localKernels_sameGraph w l l' : sameGraph l l' → localKernels w l → localKernels w l'.
Proof.
  intros Hg Hk side i info' n v v' Hi Hv. specialize (Hg i). rewrite Hi in Hg.
  destruct (l !! i) as [info|] eqn:Hinfo; [|done]. simpl in Hg. apply (inj Some) in Hg.
  destruct (static_fields _ _ Hg) as (_ & _ & _ & _ & _ & _ & _ & _ & Hs & _).
  apply (Hk side i info n v v' Hinfo). by rewrite <- Hs.
Qed.

Lemma sizedKernels_sameGraph w l l' : sameGraph l l' → sizedKernels w l → sizedKernels w l'.
Proof.
  intros Hg Hk side i info' v Hi. specialize (Hg i). rewrite Hi in Hg.
  destruct (l !! i) as [info|] eqn:Hinfo; [|done]. simpl in Hg. apply (inj Some) in Hg.
  destruct (static_fields _ _ Hg) as (_ & _ & _ & _ & _ & -> & _).
  by apply (Hk side i info v).
Qed.

Lemma copiesBatches_sameGraph l l' : sameGraph l l' → copiesBatches l → copiesBatches l'.
Proof.
  intros Hg Hk i info' Hi. specialize (Hg i). rewrite Hi in Hg.
  destruct (l !! i) as [info|] eqn:Hinfo; [|done]. simpl in Hg. apply (inj Some) in Hg.
  destruct (static_fields _ _ Hg) as (_ & _ & _ & _ & _ & -> & -> & _).
  by apply (Hk i info).
Qed.

(** The evaluation leaves the data maps with spans of the dataset where it
    publishes nothing. *)
Lemma valued_stableSpans w d0 d : valued w d0 d → stableSpans d0 → stableSpans d.
Proof.
  intros Hv Hs j info side span Hj Hp Hspan.
  destruct (valued_lookup w d0 d j info Hv Hj) as (info0 & Hj0 & Hst).
  destruct (static_fields _ _ Hst) as (_ & _ & _ & Hpub & _).
  rewrite Hpub in Hp. rewrite (v_kept w d0 d Hv j info0 side Hj0 Hp) in Hspan.
  by apply (Hs j info0 side span).
Qed.

(** The table of the outputs depends on the graph and on what the data maps
    hold where the evaluation publishes nothing. *)
Lemma expectedView_agree w d d' outs side j info :
  sameGraph (_nodes d) (_nodes d') →
  (∀ side j info, _nodes d !! j = Some info → published info side = false →
     dataMapView w side d' j = dataMapView w side d j) →
  _nodes d !! j = Some info →
  expectedView w d' outs side j = expectedView w d outs side j.
Proof.
  intros Hg Hviews Hj. unfold expectedView. rewrite Hj.
  specialize (Hg j). rewrite Hj in Hg.
  destruct (_nodes d' !! j) as [info'|]; [|done]. simpl in Hg. apply (inj Some) in Hg.
  destruct (static_fields _ _ Hg) as (_ & _ & _ & Hpub & _). rewrite Hpub.
  destruct (published info side) eqn:Hp; [done|]. by apply (Hviews side j info).
Qed.

Lemma outputs_agree w d d' :
  wellFormed (_nodes d) → localKernels w (_nodes d) →
  sameGraph (_nodes d) (_nodes d') →
  (∀ side j info, _nodes d !! j = Some info → published info side = false →
     dataMapView w side d' j = dataMapView w side d j) →
  ∀ k, outputs w d' k = outputs w d k.
Proof.
  intros Hwf Hlocal Hg Hviews k. induction k as [|k IH]; [done|].
  simpl. rewrite IH. f_equal. f_equal.
  pose proof (Hg k) as Hk. destruct (_nodes d !! k) as [info|] eqn:Hinfo.
  - destruct (_nodes d' !! k) as [info'|]; [|done]. simpl in Hk. apply (inj Some) in Hk.
    destruct (static_fields _ _ Hk) as (_ & -> & _ & _ & _ & -> & _).
    apply (Hlocal _ k info _ _ _ Hinfo). intros s Hs.
    pose proof (wf_servers _ Hwf k info s Hinfo Hs) as Hlt.
    destruct (lookup_lt_is_Some_2 (_nodes d) s) as [sinfo Hsinfo].
    { apply lookup_lt_Some in Hinfo. lia. }
    by apply (expectedView_agree w d d' _ _ s sinfo).
  - by destruct (_nodes d' !! k).
Qed.

Lemma expectedValue_agree w d d' :
  wellFormed (_nodes d) → localKernels w (_nodes d) →
  sameGraph (_nodes d) (_nodes d') →
  (∀ side j info, _nodes d !! j = Some info → published info side = false →
     dataMapView w side d' j = dataMapView w side d j) →
  _nodes d ≠ [] →
  expectedValue w d' = expectedValue w d.
Proof.
  intros Hwf Hlocal Hg Hviews Hne. unfold expectedValue, nodeOutputs, topNode.
  rewrite (sameGraph_length _ _ Hg), (outputs_agree w d d' Hwf Hlocal Hg Hviews).
  destruct (lookup_lt_is_Some_2 (_nodes d) (length (_nodes d) - 1)) as [info Hinfo].
  { destruct (_nodes d); [done|simpl; lia]. }
  by rewrite (expectedView_agree w d d' _ _ _ info).
Qed.

(** What an evaluation in device mode returns does not depend on the
    streams: it is the value the table of the outputs has for the top
    node. *)
Lemma getVal_device_value w isActive fuel d r d' :
  R__HAS_CUDA = true → _batchMode d = Cuda → wellFormed (_nodes d) →
  localKernels w (_nodes d) → sizedKernels w (_nodes d) → copiesBatches (_nodes d) →
  stableSpans d →
  getVal w isActive fuel d = Some (r, d') →
  r = expectedValue w d ∧ valued w d d' ∧ _batchMode d' = Cuda ∧ _nodes d ≠ [].
Proof.
  intros Hcuda Hmode Hwf Hlocal Hsized Hcopies Hstable.
  unfold getVal, inCudaMode. simpl. rewrite Hcuda, Hmode. simpl.
  set (d0 := set_getValInvocations _ d). intros Hget.
  destruct (getValHeterogeneous_valued w d0 Hwf Hlocal Hcuda Hmode Hsized Hcopies Hstable
              isActive fuel r d' Hget) as (Hv & Hm & Hr).
  assert (valued w d d') as Hv' by (destruct Hv; by split).
  split; [done|]. split; [done|]. split; [done|].
  unfold getValHeterogeneous in Hget.
  destruct (schedule _ _ _ _ _) as [d1|] eqn:Hs; simpl in Hget; [|done].
  injection Hget as _ <-. apply schedule_loopState in Hs as (n & _ & _ & Htop).
  intros Hnil. pose proof (sameGraph_length _ _ (v_graph w d0 d1 Hv)) as Hlen.
  simpl in Hlen. rewrite Hnil in Hlen. unfold topRetired in Htop.
  destruct (_nodes d1); [done|simpl in Hlen; lia].
Qed.

(** Two evaluations in a row in device mode return the same. *)
Lemma getVal_twice_device w isActive isActive' fuel fuel' d r1 d1 r2 d2 :
  R__HAS_CUDA = true → _batchMode d = Cuda → wellFormed (_nodes d) →
  localKernels w (_nodes d) → sizedKernels w (_nodes d) → copiesBatches (_nodes d) →
  stableSpans d →
  getVal w isActive fuel d = Some (r1, d1) →
  getVal w isActive' fuel' d1 = Some (r2, d2) →
  r2 = r1.
Proof.
  intros Hcuda Hmode Hwf Hlocal Hsized Hcopies Hstable H1 H2.
  destruct (getVal_device_value w isActive fuel d r1 d1 Hcuda Hmode Hwf Hlocal Hsized Hcopies
              Hstable H1) as (-> & Hv & Hmode1 & Hne).
  pose proof (v_graph w d d1 Hv) as Hg.
  destruct (getVal_device_value w isActive' fuel' d1 r2 d2 Hcuda Hmode1) as (-> & _); try done.
  - by apply (wellFormed_sameGraph _ _ Hg).
  - by apply (localKernels_sameGraph w _ _ Hg).
  - by apply (sizedKernels_sameGraph w _ _ Hg).
  - by apply (copiesBatches_sameGraph _ _ Hg).
  - by apply (valued_stableSpans w d).
  - apply expectedValue_agree; try done.
    intros side j info Hj Hp.
    destruct (sameGraph_lookup _ _ j info Hg Hj) as (info1 & Hj1 & Hst).
    destruct (static_fields _ _ Hst) as (_ & _ & _ & Hpub & _).
    rewrite (valued_view w d Hwf Hlocal Hcuda Hsized Hstable d1 d1 j info1 side Hv
               (agreesAt_refl j d1) Hj1).
    + unfold expectedView. by rewrite Hj, Hp.
    + rewrite Hpub, Hp. done.
Qed.

(** X7.  In device mode the result of getVal is the value of the top node in
    the table of the outputs: the table the kernels fill when each of them
    runs once, in the order of the node list, on the outputs of its servers
    and on the spans of the dataset.  So the result does not depend on what
    the streams answer, nor on the order in which the scheduler runs the
    nodes: every evaluation from the same state returns the same. *)
Theorem device_result_is_scheduler_independent w isActive fuel d r d' :
  R__HAS_CUDA = true → _batchMode d = Cuda → wellFormed (_nodes d) →
  localKernels w (_nodes d) → sizedKernels w (_nodes d) → copiesBatches (_nodes d) →
  stableSpans d →
  getVal w isActive fuel d = Some (r, d') →
  r = expectedView w d (nodeOutputs w d) Host (topNode d) ≫= head
  ∧ (∀ i info, _nodes d !! i = Some info →
       nodeOutputs w d !! i
       = Some (computeBatch w (sideOf info) i (outputSize info)
                 (expectedView w d (nodeOutputs w d) (sideOf info))))
  ∧ ∀ isActive' fuel' r' d'', getVal w isActive' fuel' d = Some (r', d'') → r' = r.
Proof.
  intros Hcuda Hmode Hwf Hlocal Hsized Hcopies Hstable Hget.
  destruct (getVal_device_value w isActive fuel d r d' Hcuda Hmode Hwf Hlocal Hsized Hcopies
              Hstable Hget) as (-> & _).
  split; [done|]. split; [intros i info; by apply nodeOutputs_lookup|].
  intros isActive' fuel' r' d'' Hget'.
  by destruct (getVal_device_value w isActive' fuel' d r' d'' Hcuda Hmode Hwf Hlocal Hsized
                 Hcopies Hstable Hget') as (-> & _).
Qed.

(** ** The values an evaluation on the host computes *)

(** The run of the kernel of node [i] on the host, from [d] to [d']: the
    scalar buffers and the buffers of the other nodes, their host spans and
    the contents of the buffers that were allocated are as before, and no
    buffer is given back; the kernel reads a data map that is, away from
    [i], the one of [d]; and its output is in the scalar buffer of the node,
    or in the buffer the node had or in a fresh one, with the host data map
    pointing to it. *)
Record hostEffect (w : World) (i : nat) (info : NodeInfo) (d d' : RooFitDriver) : Prop := {
  he_scalars : ∀ j, j ≠ i → scalarBuffer <$> _nodes d' !! j = scalarBuffer <$> _nodes d !! j;
  he_bufs : ∀ j, j ≠ i → buffer <$> _nodes d' !! j = buffer <$> _nodes d !! j;
  he_maps : ∀ j, j ≠ i → _dataMapCPU d' !! j = _dataMapCPU d !! j;
  he_next : _nextBuffer d ≤ _nextBuffer d';
  he_buffers : ∀ b, b < _nextBuffer d → (outputSize info ≠ 1 → buffer info ≠ Some b) →
    _buffers d' !! b = _buffers d !! b;
  he_kernel : ∃ dK info',
    sameMemory i d dK
    ∧ _nodes d' !! i = Some info'
    ∧ let out := computeBatch w Host i (outputSize info) (dataMapView w Host dK) in
      if outputSize info =? 1
      then scalarBuffer info' = default (scalarBuffer info) (head out)
           ∧ buffer info' = buffer info
           ∧ _dataMapCPU d' !! i = Some (mkSpan (PScalar i) 1)
      else ∃ b kind,
             buffer info' = Some b ∧ b < _nextBuffer d'
             ∧ (∀ b', buffer info = Some b' → b' = b)
             ∧ (buffer info = None → b = _nextBuffer d)
             ∧ _buffers d' !! b = Some (kind, out) ∧ visibleFrom kind Host = true
             ∧ _dataMapCPU d' !! i = Some (mkSpan (PBuf b Host) (outputSize info));
}.

Lemma dataMapCPU_writePtr p out d : _dataMapCPU (writePtr p out d) = _dataMapCPU d.
Proof. by destruct p. Qed.

Lemma nextBuffer_writePtr p out d : _nextBuffer (writePtr p out d) = _nextBuffer d.
Proof. by destruct p. Qed.

Lemma computeCPUNode_hostEffect w i d info :
  inCudaMode d = false → _nodes d !! i = Some info →
  (∀ b, buffer info = Some b →
     b < _nextBuffer d
     ∧ ∃ kind data, _buffers d !! b = Some (kind, data) ∧ visibleFrom kind Host = true) →
  hostEffect w i info d (computeCPUNode w i d).
Proof.
  intros Hmode Hi Hbuf.
  destruct (computeCPUNode_spec w i d) as [_ _ _ _ Kother Kcomputed].
  assert (R__HAS_CUDA && negb (hasLogged info) && bool_decide (_batchMode d = Cuda) = false)
    as Hlog.
  { unfold inCudaMode in Hmode. destruct R__HAS_CUDA; simpl in *; [|done].
    by rewrite Hmode, andb_false_r. }
  split;
    [intros j Hj; by rewrite Kother by done|intros j Hj; by rewrite Kother by done|..];
    clear Kother Kcomputed; unfold computeCPUNode; rewrite Hi; cbv zeta; rewrite Hmode, Hlog.
  - (* the host data map away from [i] *)
    intros j Hj.
    destruct (outputSize info =? 1), (buffer info), (R__HAS_CUDA && copyAfterEvaluation info),
      (event info); unfold runKernel; simpl; rewrite ?dataMapCPU_writePtr; simpl;
      by rewrite lookup_insert_ne by done.
  - destruct (outputSize info =? 1), (buffer info), (R__HAS_CUDA && copyAfterEvaluation info),
      (event info); unfold runKernel; simpl; rewrite ?nextBuffer_writePtr; simpl; lia.
  - intros b Hb Hown.
    destruct (outputSize info =? 1) eqn:Hn; [by destruct (R__HAS_CUDA && copyAfterEvaluation info),
      (event info)|].
    apply Nat.eqb_neq in Hn. specialize (Hown Hn).
    destruct (buffer info) as [b0|] eqn:Hb0.
    + unfold runKernel, bufferPtr. simpl. rewrite Hi, Hb0.
      destruct (R__HAS_CUDA && copyAfterEvaluation info), (event info); simpl;
        rewrite lookup_alter_ne by congruence; done.
    + unfold runKernel, makeBuffer. cbn [fst snd].
      rewrite !bufferPtr_updNode_buffer by (simpl; by eapply lookup_lt_Some).
      destruct (R__HAS_CUDA && copyAfterEvaluation info) eqn:Hcp, (event info); simpl;
        rewrite lookup_alter_ne, lookup_insert_ne by lia; done.
  - destruct (outputSize info =? 1) eqn:Hn.
    + apply Nat.eqb_eq in Hn as Hn1.
      eexists (dataMapSet Host i (mkSpan (PScalar i) (outputSize info)) d),
        (set_scalarBuffer
           (default (scalarBuffer info)
              (head (computeBatch w Host i (outputSize info)
                       (dataMapView w Host
                          (dataMapSet Host i (mkSpan (PScalar i) (outputSize info)) d)))))
           info).
      split; [split|].
      * intros [] j Hj; simpl; by rewrite ?lookup_insert_ne by done.
      * done.
      * done.
      * done.
      * cbv zeta. rewrite Hn1. unfold runKernel.
        destruct (R__HAS_CUDA && copyAfterEvaluation info), (event info); simpl;
          rewrite list_lookup_alter_eq, Hi, lookup_insert_eq; done.
    + destruct (buffer info) as [b0|] eqn:Hb0.
      * destruct (Hbuf b0 eq_refl) as (Hlt & kind & data & Hkb & Hvis).
        eexists (dataMapSet Host i (mkSpan (PBuf b0 Host) (outputSize info)) d), info.
        assert (bufferPtr d i Host = PBuf b0 Host) as Hptr
          by (unfold bufferPtr; by rewrite Hi, Hb0).
        rewrite Hptr. unfold runKernel. simpl.
        split; [split|split].
        -- intros [] j Hj; simpl; by rewrite ?lookup_insert_ne by done.
        -- done.
        -- done.
        -- done.
        -- by destruct (R__HAS_CUDA && copyAfterEvaluation info), (event info).
        -- exists b0, kind. rewrite Hb0.
           destruct (R__HAS_CUDA && copyAfterEvaluation info), (event info); simpl;
             rewrite lookup_alter_eq, Hkb, ?lookup_insert_eq; simpl;
             (split_and!; [done|lia|by intros ? [= ->]|done|done|done|done]).
      * unfold runKernel, makeBuffer. cbn [fst snd].
        rewrite !bufferPtr_emit, !bufferPtr_writePtr, !bufferPtr_dataMapSet.
        rewrite !bufferPtr_updNode_buffer by (simpl; by eapply lookup_lt_Some).
        eexists (dataMapSet Host i (mkSpan (PBuf (_nextBuffer d) Host) (outputSize info))
                   (updNode i (set_buffer (Some (_nextBuffer d)))
                      (set_buffers
                         (<[_nextBuffer d :=
                              (if R__HAS_CUDA && copyAfterEvaluation info
                               then PinnedBuffer else CpuBuffer, [])]> (_buffers d))
                         (set_nextBuffer (S (_nextBuffer d)) d)))), _.
        split; [split|split].
        -- intros [] j Hj; simpl; by rewrite ?lookup_insert_ne by done.
        -- intros j. simpl. rewrite list_lookup_alter.
           destruct (decide (i = j)) as [<-|]; [|done]. by rewrite Hi.
        -- intros b Hb. simpl. by rewrite lookup_insert_ne by lia.
        -- done.
        -- destruct (R__HAS_CUDA && copyAfterEvaluation info), (event info); simpl;
             rewrite list_lookup_alter_eq, Hi; simpl; reflexivity.
        -- simpl.
           exists (_nextBuffer d),
             (if R__HAS_CUDA && copyAfterEvaluation info then PinnedBuffer else CpuBuffer).
           destruct (R__HAS_CUDA && copyAfterEvaluation info), (event info); simpl;
             rewrite lookup_alter_eq, !lookup_insert_eq; simpl;
             (split_and!; [done|lia|done|done|done|done|done]).
Qed.

(** The flags of the nodes are no part of the effect. *)
Lemma hostEffect_flags w i info info2 d d2 d3 d4 :
  frameEq d d2 →
  (∀ j, scalarBuffer <$> _nodes d2 !! j = scalarBuffer <$> _nodes d !! j) →
  (∀ j, buffer <$> _nodes d2 !! j = buffer <$> _nodes d !! j) →
  frameEq d3 d4 →
  (∀ j, scalarBuffer <$> _nodes d4 !! j = scalarBuffer <$> _nodes d3 !! j) →
  (∀ j, buffer <$> _nodes d4 !! j = buffer <$> _nodes d3 !! j) →
  outputSize info2 = outputSize info → scalarBuffer info2 = scalarBuffer info →
  buffer info2 = buffer info →
  hostEffect w i info2 d2 d3 → hostEffect w i info d d4.
Proof.
  intros (_ & _ & M1 & M2 & N1 & B1 & _ & C1 & _) S1 Bf1
         (_ & _ & M3 & _ & N3 & B3 & _ & _ & _) S3 Bf3 Ho Hs Hb
         [Es Eb Em En Ebuf (dK & info' & [Km Ks Kb Kc] & Hi' & Hk)].
  split.
  - intros j Hj. by rewrite S3, Es, S1.
  - intros j Hj. by rewrite Bf3, Eb, Bf1.
  - intros j Hj. by rewrite M3, Em, M1.
  - by rewrite N3, <- N1.
  - intros b Hlt Hown. rewrite B3, <- B1. apply Ebuf; [by rewrite N1|].
    by rewrite Ho, Hb.
  - pose proof (S3 i) as Hs4. pose proof (Bf3 i) as Hb4. rewrite Hi' in Hs4, Hb4.
    destruct (_nodes d4 !! i) as [x|]; [|done]. simpl in *.
    injection Hs4 as Hs4. injection Hb4 as Hb4.
    exists dK, x. split; [|split; [done|]].
    + split.
      * intros σ j Hj. rewrite (Km σ j Hj). destruct σ; simpl; congruence.
      * intros j. by rewrite Ks.
      * intros b Hlt. rewrite <- B1. apply Kb. by rewrite N1.
      * by rewrite Kc.
    + rewrite Ho, Hs, Hb, <- Hs4, <- Hb4, <- N3, <- M3, <- B3, N1 in Hk. done.
Qed.

(** A round of the loop of getVal that runs the kernel. *)
Lemma evaluateNode_hostEffect w i d info :
  inCudaMode d = false → _nodes d !! i = Some info → recomputes w i d = true →
  (∀ b, buffer info = Some b →
     b < _nextBuffer d
     ∧ ∃ kind data, _buffers d !! b = Some (kind, data) ∧ visibleFrom kind Host = true) →
  hostEffect w i info d (evaluateNode w i d).
Proof.
  intros Hmode Hi Hr Hbuf.
  assert (∀ f : NodeInfo → NodeInfo,
            (∀ x, scalarBuffer (f x) = scalarBuffer x) → (∀ x, buffer (f x) = buffer x) →
            (∀ x, outputSize (f x) = outputSize x) →
            hostEffect w i info d
              (updNode i (set_isDirty false)
                 (computeCPUNode w i
                    (foldl (λ d c, updNode c (set_isDirty true) d) (updNode i f d)
                       (clientInfos info))))) as Hgen.
  { intros f Hfs Hfb Hfo.
    destruct (clientsDirty_spec (clientInfos info) (updNode i f d)) as (Hf & _ & Hn).
    set (d2 := foldl _ (updNode i f d) _) in *.
    assert (∀ B (g : NodeInfo → B) j, (∀ x, g (set_isDirty true x) = g x) →
              (∀ x, g (f x) = g x) → g <$> _nodes d2 !! j = g <$> _nodes d !! j) as Hfield.
    { intros B g j Hg1 Hg2. rewrite Hn, lookup_updNode.
      destruct (decide (i = j)) as [Hij|]; rewrite ?Hij;
        destruct (_nodes d !! j) as [x|]; simpl;
        repeat case_decide; simpl; by rewrite ?Hg1, ?Hg2. }
    assert (frameEq d d2) as Hframe
      by (eapply frameEq_trans; [apply frameEq_updNode|done]).
    pose proof (Hfield _ scalarBuffer i ltac:(done) Hfs) as H2s.
    pose proof (Hfield _ buffer i ltac:(done) Hfb) as H2b.
    pose proof (Hfield _ outputSize i ltac:(done) Hfo) as H2o.
    rewrite Hi in H2s, H2b, H2o.
    destruct (_nodes d2 !! i) as [info2|] eqn:Hi2; [|done]. simpl in *.
    injection H2s as H2s. injection H2b as H2b. injection H2o as H2o.
    apply (hostEffect_flags w i info info2 d d2 (computeCPUNode w i d2)); try done.
    - intros j. by apply Hfield.
    - intros j. by apply Hfield.
    - intros j. rewrite lookup_updNode. case_decide as Hij; [rewrite <- Hij|done].
      by destruct (_nodes (computeCPUNode w i d2) !! i).
    - intros j. rewrite lookup_updNode. case_decide as Hij; [rewrite <- Hij|done].
      by destruct (_nodes (computeCPUNode w i d2) !! i).
    - apply computeCPUNode_hostEffect; [|done|].
      + destruct Hframe as (Hb & _). unfold inCudaMode in *. by rewrite Hb.
      + intros b Hb. rewrite H2b in Hb. destruct (Hbuf b Hb) as (Hlt & kind & data & Hk & Hv).
        destruct Hframe as (_ & _ & _ & _ & -> & -> & _). eauto. }
  unfold recomputes in Hr. rewrite Hi in Hr. unfold evaluateNode. rewrite Hi.
  destruct (fromDataset info); [done|]. simpl in *.
  destruct (isVariable info).
  - unfold processVariable. rewrite Hi, Hr. by apply Hgen.
  - rewrite Hr. unfold setClientsDirty. rewrite Hi.
    rewrite <- (updNode_id i d) at 2. by apply Hgen.
Qed.

(** ** The values an evaluation on the host computes *)

(** What the kernels read of node [j] on the host, given the outputs of the
    kernels: the span of the dataset where the node is bound to it, and the
    output of its kernel otherwise. *)
Definition hostView (w : World) (d0 : RooFitDriver) (outs : list (list val)) (j : nat)
    : option (list val) :=
  match _nodes d0 !! j with
  | Some info => if fromDataset info then dataMapView w Host d0 j else outs !! j
  | None => dataMapView w Host d0 j
  end.

(** The outputs of the kernels of the first [k] nodes, every one of them run
    on the host. *)
Fixpoint hostOutputs (w : World) (d0 : RooFitDriver) (k : nat) : list (list val) :=
  match k with
  | 0 => []
  | S k =>
      let outs := hostOutputs w d0 k in
      outs ++ [match _nodes d0 !! k with
               | Some info => computeBatch w Host k (outputSize info) (hostView w d0 outs)
               | None => []
               end]
  end.

Definition hostTable (w : World) (d0 : RooFitDriver) : list (list val) :=
  hostOutputs w d0 (length (_nodes d0)).

(** The value of the top node. *)
Definition hostExpectedValue (w : World) (d0 : RooFitDriver) : option val :=
  hostView w d0 (hostTable w d0) (topNode d0) ≫= head.

Lemma length_hostOutputs w d k : length (hostOutputs w d k) = k.
Proof. induction k as [|k IH]; simpl; [done|]. rewrite length_app, IH. simpl. lia. Qed.

Lemma hostOutputs_prefix w d k n j :
  j < k → k ≤ n → hostOutputs w d n !! j = hostOutputs w d k !! j.
Proof.
  intros Hj. induction 1 as [|n Hle IH]; [done|]. simpl.
  rewrite lookup_app_l by (rewrite length_hostOutputs; lia). done.
Qed.

Lemma hostView_prefix w d k n j :
  j < k → k ≤ n → hostView w d (hostOutputs w d n) j = hostView w d (hostOutputs w d k) j.
Proof. intros Hj Hk. unfold hostView. by rewrite (hostOutputs_prefix w d k n). Qed.

(** The output of node [i] is what its kernel computes from the outputs of
    the nodes before it. *)
Lemma hostTable_lookup w d i info :
  _nodes d !! i = Some info →
  hostTable w d !! i
  = Some (computeBatch w Host i (outputSize info) (hostView w d (hostOutputs w d i))).
Proof.
  intros Hi. pose proof (lookup_lt_Some _ _ _ Hi) as Hlt. unfold hostTable.
  rewrite (hostOutputs_prefix w d (S i)) by lia. simpl.
  rewrite lookup_app_r, length_hostOutputs, Nat.sub_diag by (rewrite length_hostOutputs; lia).
  simpl. by rewrite Hi.
Qed.

Lemma hostTable_view w d i info :
  wellFormed (_nodes d) → localKernels w (_nodes d) → _nodes d !! i = Some info →
  hostTable w d !! i
  = Some (computeBatch w Host i (outputSize info) (hostView w d (hostTable w d))).
Proof.
  intros Hwf Hlocal Hi. rewrite (hostTable_lookup w d i info Hi). f_equal.
  apply (Hlocal Host i info); [done|]. intros s Hs.
  pose proof (wf_servers _ Hwf i info s Hi Hs). pose proof (lookup_lt_Some _ _ _ Hi).
  symmetry. apply hostView_prefix; lia.
Qed.

(** ** What the host evaluation keeps from one call to the next *)

(** Node [j] holds [out]: in its scalar buffer, or in a buffer of its own
    that can be read on the host; and the host data map points to it. *)
Definition cachedOutput (d : RooFitDriver) (j : nat) (info : NodeInfo) (out : list val) : Prop :=
  if outputSize info =? 1
  then out = [scalarBuffer info] ∧ _dataMapCPU d !! j = Some (mkSpan (PScalar j) 1)
  else ∃ b kind, buffer info = Some b ∧ _buffers d !! b = Some (kind, out)
         ∧ visibleFrom kind Host = true
         ∧ _dataMapCPU d !! j = Some (mkSpan (PBuf b Host) (outputSize info)).

(** The getVal loop finds nothing to do at node [j] with world [w]. *)
Definition settled (w : World) (j : nat) (info : NodeInfo) : Prop :=
  if isVariable info then lastSetValCount info = valueResetCounter w j
  else isDirty info = false.

(** The buffers of the nodes are there, can be read on the host and are
    held by one node each; and the spans of the nodes bound to the dataset
    point to memory no kernel writes to. *)
Record hostStore (d : RooFitDriver) : Prop := {
  st_fresh : ∀ j info b, _nodes d !! j = Some info → buffer info = Some b →
    b < _nextBuffer d
    ∧ ∃ kind data, _buffers d !! b = Some (kind, data) ∧ visibleFrom kind Host = true;
  st_distinct : ∀ i j x y b, _nodes d !! i = Some x → _nodes d !! j = Some y →
    buffer x = Some b → buffer y = Some b → i = j;
  st_dataset : ∀ j info span, _nodes d !! j = Some info → fromDataset info = true →
    _dataMapCPU d !! j = Some span → stablePtr (spanPtr span);
}.

(** The driver holds the outputs of world [w]: every node the loop would
    pass over holds the output its kernel has for [w]. *)
Record hostCached (w : World) (d : RooFitDriver) : Prop := {
  hc_store : hostStore d;
  hc_holds : ∀ j info, _nodes d !! j = Some info → fromDataset info = false →
    settled w j info → ∃ out, hostTable w d !! j = Some out ∧ cachedOutput d j info out;
}.

(** What the reset counters promise from world [w] to world [w']: a
    parameter whose counter is the same has the same value; the kernels of
    the derived nodes and the dataset are the same; and a counter the driver
    has recorded and that is the one of [w'] is the one of [w] too. *)
Record sameInputs (w w' : World) (d : RooFitDriver) : Prop := {
  si_parameters : ∀ j info v, _nodes d !! j = Some info → isParameter info = true →
    valueResetCounter w' j = valueResetCounter w j →
    computeBatch w' Host j (outputSize info) v = computeBatch w Host j (outputSize info) v;
  si_derived : ∀ j info v, _nodes d !! j = Some info → isDerived info = true →
    computeBatch w' Host j (outputSize info) v = computeBatch w Host j (outputSize info) v;
  si_dataset : ∀ j info, _nodes d !! j = Some info → fromDataset info = true →
    dataMapView w' Host d j = dataMapView w Host d j;
  si_recorded : ∀ j info, _nodes d !! j = Some info → isParameter info = true →
    lastSetValCount info = valueResetCounter w' j →
    lastSetValCount info = valueResetCounter w j;
}.

Lemma sameInputs_refl w d : sameInputs w w d.
Proof. by split. Qed.

(** Node [i] is out of date for world [w]: a parameter with another counter
    recorded, a derived node that is flagged dirty, or a derived node with a
    server that is out of date. *)
Inductive outdated (w : World) (d : RooFitDriver) : nat → Prop :=
| outdated_parameter i info :
    _nodes d !! i = Some info → isParameter info = true →
    lastSetValCount info ≠ valueResetCounter w i →
    outdated w d i
| outdated_dirty i info :
    _nodes d !! i = Some info → isDerived info = true → isDirty info = true →
    outdated w d i
| outdated_server i info s :
    _nodes d !! i = Some info → isDerived info = true →
    s ∈ serverInfos info → outdated w d s →
    outdated w d i.

(** A node that is not out of date for [w'] has the same output for [w']
    as for [w]. *)
Lemma hostTable_unchanged w w' d :
  wellFormed (_nodes d) → leavesHaveNoServers (_nodes d) → localKernels w' (_nodes d) →
  sameInputs w w' d →
  ∀ j info, _nodes d !! j = Some info → fromDataset info = false → ¬ outdated w' d j →
    hostTable w' d !! j = hostTable w d !! j.
Proof.
  intros Hwf Hleaf Hlocal [Hp Hd Hds Hrec] j.
  induction (lt_wf j) as [j _ IH]. intros info Hj Hfd Hno.
  rewrite !(hostTable_lookup _ d j info Hj). f_equal.
  destruct (isVariable info) eqn:Hv.
  - assert (isParameter info = true) as Hpar by (unfold isParameter; by rewrite Hv, Hfd).
    destruct (decide (lastSetValCount info = valueResetCounter w' j)) as [Hc|Hc];
      [|destruct Hno; by eapply outdated_parameter].
    rewrite <- (Hp j info _ Hj Hpar) by (rewrite <- Hc; by eapply Hrec).
    apply (Hlocal Host j info); [done|]. intros s Hs.
    rewrite (Hleaf j info Hj) in Hs by auto. by apply elem_of_nil in Hs.
  - assert (isDerived info = true) as Hder by (unfold isDerived; by rewrite Hv, Hfd).
    rewrite <- (Hd j info _ Hj Hder).
    apply (Hlocal Host j info); [done|]. intros s Hs.
    pose proof (wf_servers _ Hwf j info s Hj Hs) as Hlt.
    pose proof (lookup_lt_Some _ _ _ Hj) as Hlen.
    destruct (lookup_lt_is_Some_2 (_nodes d) s) as [sinfo Hsi]; [lia|].
    unfold hostView. rewrite Hsi. destruct (fromDataset sinfo) eqn:Hsfd; [by eapply Hds|].
    rewrite <- !(hostOutputs_prefix _ d j (length (_nodes d)) s) by lia.
    apply (IH s Hlt sinfo Hsi Hsfd).
    intros Hos. destruct Hno. by eapply outdated_server.
Qed.

(** The outputs are a matter of the graph and of the dataset. *)
Lemma hostOutputs_agree w d d' k :
  wellFormed (_nodes d) → localKernels w (_nodes d) →
  sameGraph (_nodes d) (_nodes d') →
  (∀ j info, _nodes d !! j = Some info → fromDataset info = true →
     dataMapView w Host d' j = dataMapView w Host d j) →
  k ≤ length (_nodes d) → hostOutputs w d' k = hostOutputs w d k.
Proof.
  intros Hwf Hlocal Hg Hds. induction k as [|k IH]; intros Hk; [done|]. simpl.
  rewrite IH by lia. f_equal. f_equal.
  destruct (lookup_lt_is_Some_2 (_nodes d) k) as [info Hi]; [lia|].
  destruct (sameGraph_lookup _ _ _ _ Hg Hi) as (info' & Hi' & Hs).
  destruct (static_fields _ _ Hs) as (_ & _ & _ & _ & _ & Ho & _).
  rewrite Hi, Hi', Ho. apply (Hlocal Host k info); [done|]. intros s Hs'.
  pose proof (wf_servers _ Hwf k info s Hi Hs') as Hlt.
  destruct (lookup_lt_is_Some_2 (_nodes d) s) as [sinfo Hsi]; [lia|].
  destruct (sameGraph_lookup _ _ _ _ Hg Hsi) as (sinfo' & Hsi' & Hss).
  destruct (static_fields _ _ Hss) as (_ & _ & _ & _ & _ & _ & _ & Hfd & _).
  unfold hostView. rewrite Hsi, Hsi', Hfd.
  destruct (fromDataset sinfo) eqn:Hsfd; [by eapply Hds|done].
Qed.

(** ** The pass of the host evaluation over the nodes *)

(** A span of the dataset reads the same in every state. *)
Lemma dataset_view w d X j :
  _dataMapCPU X !! j = _dataMapCPU d !! j →
  (∀ span, _dataMapCPU d !! j = Some span → stablePtr (spanPtr span)) →
  dataMapView w Host X j = dataMapView w Host d j.
Proof.
  intros Hm Hst. unfold dataMapView. simpl. rewrite Hm.
  destruct (_dataMapCPU d !! j) as [span|] eqn:Hspan; [|done]. simpl.
  specialize (Hst span eq_refl). unfold readSpan. by destruct (spanPtr span).
Qed.

(** What a kernel reads of a node that holds its output. *)
Lemma cached_view w d X j info out :
  hostStore d → agreesAt j d X → _nodes d !! j = Some info →
  cachedOutput d j info out → length out = outputSize info →
  dataMapView w Host X j = Some out.
Proof.
  intros Hst [Hmaps Hscalar Hbuffers _] Hj Hc Hlen. unfold cachedOutput in Hc.
  unfold dataMapView. rewrite (Hmaps Host). simpl.
  destruct (outputSize info =? 1) eqn:Hn.
  - destruct Hc as [-> ->]. simpl. unfold readSpan. simpl.
    rewrite Hj in Hscalar. destruct (_nodes X !! j) as [x|]; [|done].
    simpl in *. by injection Hscalar as ->.
  - destruct Hc as (b & kind & Hb & Hbuf & Hvis & ->). simpl. unfold readSpan. simpl.
    destruct (st_fresh d Hst j info b Hj Hb) as [Hlt _].
    rewrite (Hbuffers b Hlt), Hbuf. simpl. rewrite Hvis. simpl.
    rewrite (proj2 (Nat.ltb_ge _ _)) by lia. by rewrite take_ge by lia.
Qed.

(** A kernel run keeps the buffers in order. *)
Lemma hostStore_step w i info d d' :
  hostStore d → hostEffect w i info d d' → _nodes d !! i = Some info →
  fromDataset info = false → sameGraph (_nodes d) (_nodes d') → hostStore d'.
Proof.
  intros [Hfresh Hdist Hds] [Es Eb Em En Ebuf (dK & info' & _ & Hi' & Hk)] Hi Hfd Hg.
  assert (∀ j y', j ≠ i → _nodes d' !! j = Some y' →
            ∃ y, _nodes d !! j = Some y ∧ buffer y = buffer y') as Hback.
  { intros j y' Hj Hy'. specialize (Eb j Hj). rewrite Hy' in Eb.
    destruct (_nodes d !! j) as [y|]; [|done]. exists y. split; [done|].
    by injection Eb. }
  assert (∀ j y b, j ≠ i → _nodes d !! j = Some y → buffer y = Some b →
            _buffers d' !! b = _buffers d !! b) as Hkeep.
  { intros j y b Hj Hy Hb. destruct (Hfresh j y b Hy Hb) as [Hlt _].
    apply Ebuf; [done|]. intros _ Hib. by destruct Hj, (Hdist j i y info b Hy Hi Hb Hib). }
  assert (∀ b, buffer info' = Some b →
            (buffer info = Some b ∨ (buffer info = None ∧ b = _nextBuffer d))
            ∧ b < _nextBuffer d'
            ∧ ∃ kind data, _buffers d' !! b = Some (kind, data)
                           ∧ visibleFrom kind Host = true) as Hown.
  { intros b Hb. cbv zeta in Hk. destruct (outputSize info =? 1) eqn:Hn.
    - destruct Hk as (_ & Hsame & _). rewrite Hsame in Hb.
      destruct (Hfresh i info b Hi Hb) as (Hlt & kind & data & Hbuf & Hvis).
      split; [by left|]. split; [lia|]. exists kind, data. split; [|done].
      rewrite <- Hbuf. apply Ebuf; [done|]. intros Hne. by apply Nat.eqb_eq in Hn.
    - destruct Hk as (b0 & kind & Hb0 & Hlt & Hold & Hnew & Hbuf & Hvis & _).
      rewrite Hb in Hb0. injection Hb0 as <-. split; [|split; [done|eauto]].
      destruct (buffer info) as [b'|]; [left; by rewrite (Hold b' eq_refl)|right; auto]. }
  split.
  - intros j y' b Hy' Hb. destruct (decide (j = i)) as [->|Hne].
    + rewrite Hi' in Hy'. injection Hy' as <-. by destruct (Hown b Hb) as (_ & ? & ?).
    + destruct (Hback j y' Hne Hy') as (y & Hy & Hyb). rewrite <- Hyb in Hb.
      destruct (Hfresh j y b Hy Hb) as (Hlt & kind & data & Hbuf & Hvis).
      split; [lia|]. exists kind, data. split; [|done]. rewrite <- Hbuf. by eapply Hkeep.
  - assert (∀ j y' b, j ≠ i → _nodes d' !! j = Some y' → buffer y' = Some b →
              buffer info' = Some b → False) as Hclash.
    { intros j y' b Hne Hy' Hb Hib. destruct (Hback j y' Hne Hy') as (y & Hy & Hyb).
      rewrite <- Hyb in Hb. destruct (Hfresh j y b Hy Hb) as [Hlt _].
      destruct (Hown b Hib) as ([Hold|[_ ->]] & _); [|lia].
      by destruct Hne, (Hdist j i y info b Hy Hi Hb Hold). }
    intros j1 j2 x y b Hx Hy Hxb Hyb.
    destruct (decide (j1 = i)) as [->|Hne1], (decide (j2 = i)) as [->|Hne2]; [done|..].
    + rewrite Hi' in Hx. injection Hx as <-. by destruct (Hclash j2 y b).
    + rewrite Hi' in Hy. injection Hy as <-. by destruct (Hclash j1 x b).
    + destruct (Hback j1 x Hne1 Hx) as (x0 & Hx0 & Hxb0).
      destruct (Hback j2 y Hne2 Hy) as (y0 & Hy0 & Hyb0).
      apply (Hdist j1 j2 x0 y0 b); congruence.
  - intros j y' span Hy' Hyfd Hspan.
    destruct (sameGraph_lookup _ _ _ _ (sameGraph_sym _ _ Hg) Hy') as (y & Hy & Hs).
    destruct (static_fields _ _ Hs) as (_ & _ & _ & _ & _ & _ & _ & Hf & _).
    assert (j ≠ i) as Hne by (intros ->; congruence).
    rewrite (Em j Hne) in Hspan. apply (Hds j y span); congruence.
Qed.

(** A kernel run keeps what the other nodes hold. *)
Lemma cachedOutput_step w i info d d' j x x' out :
  hostStore d → hostEffect w i info d d' → _nodes d !! i = Some info → j ≠ i →
  _nodes d !! j = Some x → _nodes d' !! j = Some x' → outputSize x' = outputSize x →
  cachedOutput d j x out → cachedOutput d' j x' out.
Proof.
  intros [Hfresh Hdist _] [Es Eb Em _ Ebuf _] Hi Hne Hx Hx' Ho. unfold cachedOutput.
  specialize (Es j Hne). specialize (Eb j Hne). rewrite Hx, Hx' in Es, Eb.
  injection Es as Es. injection Eb as Eb. rewrite Ho, Es, Eb, (Em j Hne).
  destruct (outputSize x =? 1); [done|].
  intros (b & kind & Hb & Hbuf & Hvis & Hmap). exists b, kind. split_and!; try done.
  rewrite <- Hbuf. destruct (Hfresh j x b Hx Hb) as [Hlt _]. apply Ebuf; [done|].
  intros _ Hib. by destruct Hne, (Hdist j i x info b Hx Hi Hb Hib).
Qed.

(** The state of the pass with world [w'] over the driver [d], before the
    round of node [k]: the nodes passed and the nodes that are not out of
    date hold their outputs for [w']; the nodes ahead have the counter
    recorded they had; and they are flagged dirty when they were or when a
    server that is out of date was passed. *)
Record hostPass (w' : World) (d : RooFitDriver) (k : nat) (d' : RooFitDriver) : Prop := {
  hp_graph : sameGraph (_nodes d) (_nodes d');
  hp_mode : _batchMode d' = _batchMode d;
  hp_store : hostStore d';
  hp_dataset : ∀ j info, _nodes d !! j = Some info → fromDataset info = true →
    _dataMapCPU d' !! j = _dataMapCPU d !! j;
  hp_holds : ∀ j info', _nodes d' !! j = Some info' → fromDataset info' = false →
    j < k ∨ ¬ outdated w' d j →
    ∃ out, hostTable w' d !! j = Some out ∧ cachedOutput d' j info' out;
  hp_ahead : ∀ j info info', k ≤ j → _nodes d !! j = Some info → _nodes d' !! j = Some info' →
    lastSetValCount info' = lastSetValCount info
    ∧ (isDirty info = true ∨ (∃ s, s < k ∧ s ∈ serverInfos info ∧ outdated w' d s) →
       isDirty info' = true);
}.

Lemma hostPass_start w w' d :
  wellFormed (_nodes d) → leavesHaveNoServers (_nodes d) → localKernels w' (_nodes d) →
  hostCached w d → sameInputs w w' d → hostPass w' d 0 d.
Proof.
  intros Hwf Hleaf Hlocal [Hst Hh] Hsame. split; try done.
  - intros j info Hj Hfd [Hlt|Hno]; [lia|].
    rewrite (hostTable_unchanged w w' d Hwf Hleaf Hlocal Hsame j info Hj Hfd Hno).
    apply Hh; [done|done|]. unfold settled. destruct (isVariable info) eqn:Hv.
    + assert (isParameter info = true) as Hp by (unfold isParameter; by rewrite Hv, Hfd).
      apply (si_recorded w w' d Hsame j info Hj Hp).
      destruct (decide (lastSetValCount info = valueResetCounter w' j)) as [|Hc]; [done|].
      destruct Hno. by eapply outdated_parameter.
    + destruct (isDirty info) eqn:Hd; [|done]. destruct Hno.
      eapply outdated_dirty; [done| |done]. unfold isDerived. by rewrite Hv, Hfd.
  - intros j info info' _ Hj Hj'. rewrite Hj in Hj'. injection Hj' as <-. split; [done|].
    intros [Hd|(s & Hlt & _)]; [done|lia].
Qed.

Lemma hostPass_step w' d k d' :
  inCudaMode d = false → wellFormed (_nodes d) → localKernels w' (_nodes d) →
  sizedKernels w' (_nodes d) → k < length (_nodes d) →
  hostPass w' d k d' → hostPass w' d (S k) (evaluateNode w' k d').
Proof.
  intros Hmode Hwf Hlocal Hsized Hk [Hg Hm Hst Hds Hh Ha].
  pose proof (evaluateNode_spec w' k d') as Hstep.
  pose proof (hostStep_sameGraph _ _ _ _ Hstep) as Hg'.
  pose proof (wellFormed_sameGraph _ _ Hg Hwf) as Hwf'.
  destruct (lookup_lt_is_Some_2 _ _ Hk) as [info Hi].
  destruct (sameGraph_lookup _ _ _ _ Hg Hi) as (info' & Hi' & Hs).
  destruct (staticPart_fields _ _ Hs) as (_ & Hfd & Hv & Ho & _ & Hsv & Hcl & _).
  destruct (Ha k info info' (le_n _) Hi Hi') as [Hlast Hdirty].
  assert (outdated w' d k → recomputes w' k d' = true) as Hout.
  { unfold recomputes. rewrite Hi', Hfd, Hv.
    inversion 1 as [? x Hx Hp Hc|? x Hx Hp Hdt|? x s Hx Hp Hin Hos]; subst;
      rewrite Hi in Hx; injection Hx as <-.
    - unfold isParameter in Hp. apply andb_true_iff in Hp as [-> ->%negb_true_iff]. simpl.
      apply bool_decide_eq_true_2. by rewrite Hlast.
    - unfold isDerived in Hp. apply andb_true_iff in Hp as [->%negb_true_iff ->%negb_true_iff].
      simpl. apply Hdirty. by left.
    - unfold isDerived in Hp. apply andb_true_iff in Hp as [->%negb_true_iff ->%negb_true_iff].
      simpl. apply Hdirty. right. exists s. split; [|done].
      by apply (wf_servers _ Hwf k info s). }
  destruct (recomputes w' k d') eqn:Hr.
  2:{ rewrite (hs_unchanged _ _ _ _ Hstep Hr). split; try done.
      - intros j x Hx Hfdx [Hlt|Hno]; [|apply Hh; auto].
        destruct (decide (j = k)) as [->|]; [|apply Hh; [done|done|left; lia]].
        apply Hh; [done|done|]. right. intros Ho'. by apply Hout in Ho'.
      - intros j x x' Hj Hx Hx'. destruct (Ha j x x' ltac:(lia) Hx Hx') as [Hl Hd].
        split; [done|].
        intros [Hdt|(s & Hlt & Hin & Hos)]; apply Hd; [by left|].
        destruct (decide (s = k)) as [->|]; [by apply Hout in Hos|].
        right. exists s. split; [lia|done]. }
  assert (fromDataset info' = false) as Hfd'.
  { unfold recomputes in Hr. rewrite Hi' in Hr. by destruct (fromDataset info'). }
  assert (inCudaMode d' = false) as Hmode' by (unfold inCudaMode in *; by rewrite Hm).
  pose proof (evaluateNode_hostEffect w' k d' info' Hmode' Hi' Hr
                (λ b, st_fresh d' Hst k info' b Hi')) as He.
  destruct Hstep as [_ _ Sm _ Sd Sl _]. rewrite Hr in Sd.
  set (d'' := evaluateNode w' k d') in *.
  split.
  - by eapply sameGraph_trans.
  - by rewrite Sm.
  - by eapply hostStore_step.
  - intros j x Hx Hfx. rewrite <- (Hds j x Hx Hfx). apply (he_maps _ _ _ _ _ He).
    intros ->. congruence.
  - intros j x'' Hx'' Hfd'' Hcase.
    destruct (sameGraph_lookup _ _ _ _ (sameGraph_sym _ _ Hg') Hx'') as (x' & Hx' & Hs').
    destruct (staticPart_fields _ _ Hs') as (_ & Hfdx & _ & Hox & _).
    destruct (decide (j = k)) as [->|Hne].
    2:{ destruct (Hh j x' Hx') as (out & Hout' & Hc); [congruence|destruct Hcase; [left; lia|by right]|].
        exists out. split; [done|]. by eapply (cachedOutput_step w' k info' d' d'' j x' x''). }
    rewrite Hi' in Hx'. injection Hx' as <-.
    rewrite (hostTable_lookup w' d k info Hi). eexists. split; [done|].
    destruct He as [_ _ _ _ _ (dK & info2 & Hmem & Hi2 & Hkernel)].
    rewrite Hi2 in Hx''. injection Hx'' as <-. cbv zeta in Hkernel.
    assert (computeBatch w' Host k (outputSize info') (dataMapView w' Host dK)
            = computeBatch w' Host k (outputSize info) (hostView w' d (hostOutputs w' d k)))
      as Hsame.
    { rewrite <- Ho. apply (Hlocal Host k info); [done|]. intros s Hin.
      pose proof (wf_servers _ Hwf k info s Hi Hin) as Hlt.
      destruct (lookup_lt_is_Some_2 (_nodes d) s) as [sinfo Hsi]; [lia|].
      destruct (sameGraph_lookup _ _ _ _ Hg Hsi) as (sinfo' & Hsi' & Hss).
      destruct (staticPart_fields _ _ Hss) as (_ & Hsfd & _ & Hso & _).
      assert (s ≠ k) as Hsk by lia.
      unfold hostView. rewrite Hsi. destruct (fromDataset sinfo) eqn:Hsd.
      - transitivity (dataMapView w' Host d' s).
        + apply dataset_view; [apply (sm_maps k d' dK Hmem Host s Hsk)|].
          intros span. by apply (st_dataset d' Hst s sinfo'); [|congruence].
        + apply dataset_view; [by rewrite (Hds s sinfo)|].
          intros span Hspan. apply (st_dataset d' Hst s sinfo' span); [done|congruence|].
          by rewrite (Hds s sinfo).
      - destruct (Hh s sinfo' Hsi') as (out & Hout' & Hc); [congruence|left; lia|].
        rewrite <- (hostOutputs_prefix w' d k (length (_nodes d)) s) by lia.
        change (hostOutputs w' d (length (_nodes d))) with (hostTable w' d). rewrite Hout'.
        apply (cached_view w' d' dK s sinfo' out); try done.
        + by apply (sameMemory_agreesAt k).
        + rewrite (hostTable_lookup w' d s sinfo Hsi) in Hout'. injection Hout' as <-.
          rewrite Hso. by apply (Hsized Host s sinfo). }
    rewrite Hsame in Hkernel. unfold cachedOutput. rewrite <- Hox.
    pose proof (Hsized Host k info (hostView w' d (hostOutputs w' d k)) Hi) as Hlen.
    destruct (outputSize info' =? 1) eqn:Hn.
    + destruct Hkernel as (Hscalar & _ & Hmap). split; [|done].
      apply Nat.eqb_eq in Hn. rewrite Hscalar.
      assert (length (computeBatch w' Host k (outputSize info)
                        (hostView w' d (hostOutputs w' d k))) = 1) as Hlen1 by congruence.
      revert Hlen1. generalize (computeBatch w' Host k (outputSize info)
                                 (hostView w' d (hostOutputs w' d k))).
      by intros [|v [|]].
    + destruct Hkernel as (b & kind & Hb & _ & _ & _ & Hbuf & Hvis & Hmap).
      exists b, kind. done.
  - intros j x x'' Hj Hx Hx''.
    destruct (sameGraph_lookup _ _ _ _ Hg Hx) as (x' & Hx' & Hs').
    destruct (staticPart_fields _ _ Hs') as (_ & _ & _ & _ & _ & Hsvx & _).
    destruct (Ha j x x' ltac:(lia) Hx Hx') as [Hl Hd].
    specialize (Sl j). specialize (Sd j). rewrite Hx'', Hx' in Sl, Sd.
    rewrite decide_False in Sl by lia. rewrite (decide_False (P := j = k)) in Sd by lia.
    rewrite Hi' in Sd. simpl in *.
    injection Sl as Sl. split; [congruence|].
    intros Hwhy. case_decide as Hclient; injection Sd as Sd; [done|].
    rewrite Sd. apply Hd. destruct Hwhy as [Hdt|(s & Hlt & Hin & Hos)]; [by left|].
    destruct (decide (s = k)) as [->|]; [|right; exists s; split; [lia|done]].
    destruct Hclient. apply (wellFormed_client_server _ k j info' x' Hwf' Hi' Hx').
    by rewrite Hsvx.
Qed.

(** ** The host evaluation returns the value of the graph *)

Lemma topValue_view w d : topValue w d = dataMapView w Host d (topNode d) ≫= head.
Proof.
  unfold topValue, dataMapView. simpl. by destruct (_dataMapCPU d !! topNode d).
Qed.

Lemma forNodes_empty body d : _nodes d = [] → forNodes body d = d.
Proof. intros H. unfold forNodes. by rewrite H. Qed.

(** Nothing is asked of a driver in which the loop passes over no node. *)
Lemma hostCached_unsettled w d :
  hostStore d →
  (∀ j info, _nodes d !! j = Some info → fromDataset info = false → ¬ settled w j info) →
  hostCached w d.
Proof. intros Hst Hno. split; [done|]. intros j info Hj Hfd Hs. by destruct (Hno j info). Qed.

(** The count of the calls is no part of it. *)
Lemma hostOutputs_invocations w x d k :
  hostOutputs w (set_getValInvocations x d) k = hostOutputs w d k.
Proof. induction k as [|k IH]; [done|]. cbn [hostOutputs]. rewrite IH. reflexivity. Qed.

Lemma hostCached_invocations w x d :
  hostCached w d → hostCached w (set_getValInvocations x d).
Proof.
  intros [[H1 H2 H3] H4]. split; [by split|]. intros j info Hj Hfd Hs.
  destruct (H4 j info Hj Hfd Hs) as (out & Hout & Hc). exists out. split; [|done].
  unfold hostTable. by rewrite hostOutputs_invocations.
Qed.

Lemma hostPass_cached w w' d :
  inCudaMode d = false → wellFormed (_nodes d) → leavesHaveNoServers (_nodes d) →
  localKernels w' (_nodes d) → sizedKernels w' (_nodes d) →
  hostCached w d → sameInputs w w' d →
  dataMapView w' Host (forNodes (evaluateNode w') d) (topNode (forNodes (evaluateNode w') d))
  = hostView w' d (hostTable w' d) (topNode d)
  ∧ hostCached w' (forNodes (evaluateNode w') d).
Proof.
  intros Hmode Hwf Hleaf Hlocal Hsized Hc Hsame.
  assert (hostPass w' d (length (_nodes d)) (forNodes (evaluateNode w') d))
    as [Hg Hm Hst Hds Hh _].
  { apply forNodes_ind; [by eapply hostPass_start|].
    intros k d' Hk HP. by apply hostPass_step. }
  set (d' := forNodes (evaluateNode w') d) in *.
  pose proof (sameGraph_length _ _ Hg) as Hlen.
  assert (∀ j info, _nodes d !! j = Some info → fromDataset info = true →
            dataMapView w' Host d' j = dataMapView w' Host d j) as Hview.
  { intros j info Hj Hfd. apply dataset_view; [by eapply Hds|].
    intros span Hspan. by apply (st_dataset d (hc_store w d Hc) j info). }
  assert (∀ j info out, _nodes d !! j = Some info → hostTable w' d !! j = Some out →
            length out = outputSize info) as Hsize.
  { intros j info out Hj. rewrite (hostTable_lookup w' d j info Hj). intros [= <-].
    by apply (Hsized Host j info). }
  split.
  - unfold topNode. rewrite Hlen. fold (topNode d). unfold hostView.
    destruct (_nodes d !! topNode d) as [info|] eqn:Hi.
    + destruct (sameGraph_lookup _ _ _ _ Hg Hi) as (info' & Hi' & Hs).
      destruct (staticPart_fields _ _ Hs) as (_ & Hfd & _ & Ho & _).
      destruct (fromDataset info) eqn:Hd; [by eapply Hview|].
      destruct (Hh (topNode d) info' Hi') as (out & Hout & Hcached); [congruence| |].
      { left. by eapply lookup_lt_Some. }
      rewrite Hout. apply (cached_view w' d' d' (topNode d) info' out); try done.
      rewrite Ho. by eapply Hsize.
    + assert (_nodes d = []) as Hnil.
      { apply lookup_ge_None in Hi. unfold topNode in Hi.
        destruct (_nodes d); [done|]. simpl in Hi. lia. }
      unfold d'. by rewrite forNodes_empty.
  - split; [done|]. intros j info' Hj' Hfd' _.
    destruct (Hh j info' Hj' Hfd') as (out & Hout & Hcached).
    { left. rewrite <- Hlen. by eapply lookup_lt_Some. }
    exists out. split; [|done]. unfold hostTable. rewrite Hlen.
    by rewrite (hostOutputs_agree w' d d' (length (_nodes d)) Hwf Hlocal Hg Hview).
Qed.

(** An evaluation on the host of a driver that holds the outputs of
    another world. *)
Lemma getVal_hostCached w w' isActive fuel d r d' :
  inCudaMode d = false → wellFormed (_nodes d) → leavesHaveNoServers (_nodes d) →
  localKernels w' (_nodes d) → sizedKernels w' (_nodes d) →
  hostCached w d → sameInputs w w' d →
  getVal w' isActive fuel d = Some (r, d') →
  r = hostExpectedValue w' d
  ∧ (∀ i info, _nodes d !! i = Some info →
       hostTable w' d !! i
       = Some (computeBatch w' Host i (outputSize info) (hostView w' d (hostTable w' d))))
  ∧ hostCached w' d'
  ∧ evaluatedAt w' (_nodes d').
Proof.
  intros Hmode Hwf Hleaf Hlocal Hsized Hc Hsame.
  rewrite (getVal_host _ _ _ _ Hmode). unfold getValHost. intros [= <- <-].
  set (d1 := set_getValInvocations (S (_getValInvocations d)) d).
  pose proof (hostCached_invocations w (S (_getValInvocations d)) d Hc) as Hc1.
  assert (sameInputs w w' d1) as Hsame1 by (destruct Hsame; by split).
  destruct (hostPass_cached w w' d1 Hmode Hwf Hleaf Hlocal Hsized Hc1 Hsame1) as [Hv Hc'].
  split_and!.
  - rewrite topValue_view, Hv. unfold hostExpectedValue, hostTable, d1.
    by rewrite hostOutputs_invocations.
  - intros i info Hi. by apply hostTable_view.
  - exact Hc'.
  - by apply hostPass_evaluated.
Qed.

(** X10.  The caching of the host evaluation is sound.  Take a driver in
    host mode that holds the outputs of world [w], and evaluate it with world
    [w'], where every parameter with the same reset counter has the same
    value and the kernels of the derived nodes and the dataset are the
    same.  Then getVal returns the first entry of what the kernel of the top
    node computes when every kernel is run, in the order of the nodes, on
    the outputs of the kernels before it and the spans of the dataset;
    afterwards the driver holds the outputs of [w'], and the loop finds
    nothing to do with [w']. *)
Theorem host_caching_sound w w' isActive fuel d r d' :
  inCudaMode d = false → wellFormed (_nodes d) → leavesHaveNoServers (_nodes d) →
  localKernels w' (_nodes d) → sizedKernels w' (_nodes d) →
  hostCached w d → sameInputs w w' d →
  getVal w' isActive fuel d = Some (r, d') →
  r = hostView w' d (hostTable w' d) (topNode d) ≫= head
  ∧ (∀ i info, _nodes d !! i = Some info →
       hostTable w' d !! i
       = Some (computeBatch w' Host i (outputSize info) (hostView w' d (hostTable w' d))))
  ∧ hostCached w' d'
  ∧ evaluatedAt w' (_nodes d').
Proof. apply getVal_hostCached. Qed.

(** ** getValues *)

Lemma readSpan_dataMapAt w side d j :
  readSpan w side d (dataMapAt side j d) = dataMapView w side d j.
Proof. unfold dataMapAt, dataMapView. by destruct (dataMap side d !! j). Qed.

(** X13.  getValues returns in host mode the whole output of the top node:
    under the conditions of the soundness of the caching, what the kernel
    of the top node computes when every kernel is run, in the order of the
    nodes, on the outputs of the kernels before it and the spans of the
    dataset, with as many entries as the output size of the node says; its
    first entry is what getVal returns from the same driver, and the driver
    is left as getVal leaves it. *)
Theorem getValues_host w w' isActive fuel d vs d' :
  inCudaMode d = false → wellFormed (_nodes d) → leavesHaveNoServers (_nodes d) →
  localKernels w' (_nodes d) → sizedKernels w' (_nodes d) →
  hostCached w d → sameInputs w w' d →
  getValues w' isActive fuel d = Some (vs, d') →
  vs = hostView w' d (hostTable w' d) (topNode d)
  ∧ getVal w' isActive fuel d = Some (vs ≫= head, d')
  ∧ ∀ info, _nodes d !! topNode d = Some info → fromDataset info = false →
      ∃ out, vs = Some out ∧ length out = outputSize info
        ∧ out = computeBatch w' Host (topNode d) (outputSize info)
                  (hostView w' d (hostTable w' d)).
Proof.
  intros Hmode Hwf Hleaf Hlocal Hsized Hc Hsame. unfold getValues.
  rewrite (getVal_host _ _ _ _ Hmode). unfold getValHost. simpl. intros [= <- <-].
  set (d1 := set_getValInvocations (S (_getValInvocations d)) d).
  pose proof (hostCached_invocations w (S (_getValInvocations d)) d Hc) as Hc1.
  assert (sameInputs w w' d1) as Hsame1 by (destruct Hsame; by split).
  destruct (hostPass_cached w w' d1 Hmode Hwf Hleaf Hlocal Hsized Hc1 Hsame1) as [Hv _].
  assert (hostView w' d1 (hostTable w' d1) (topNode d1)
          = hostView w' d (hostTable w' d) (topNode d)) as Hd1.
  { unfold hostTable, d1. by rewrite hostOutputs_invocations. }
  rewrite readSpan_dataMapAt, Hv, Hd1. split; [done|]. split.
  - by rewrite topValue_view, Hv, Hd1.
  - intros info Hi Hfd. unfold hostView at 1. rewrite Hi, Hfd.
    rewrite (hostTable_view w' d (topNode d) info Hwf Hlocal Hi). eexists. split; [done|].
    split; [by apply (Hsized Host (topNode d) info)|done].
Qed.

(** ** The device evaluation against the host evaluation *)

(** A kernel computes on the device what it computes on the host. *)
Definition sideIndependent (w : World) (l : list NodeInfo) : Prop :=
  ∀ i info n v, l !! i = Some info → computeBatch w Device i n v = computeBatch w Host i n v.

(** What markGPUNodes leaves: a batch with a client on the other side is
    copied after the evaluation. *)
Definition copiesAcross (l : list NodeInfo) : Prop :=
  ∀ s sinfo c cinfo, l !! s = Some sinfo → l !! c = Some cinfo → c ∈ clientInfos sinfo →
    computeInGPU sinfo ≠ computeInGPU cinfo →
    outputSize sinfo = 1 ∨ copyAfterEvaluation sinfo = true.

(** No node that is bound to the dataset computes on the device. *)
Definition datasetOnHost (l : list NodeInfo) : Prop :=
  ∀ i info, l !! i = Some info → fromDataset info = true → computeInGPU info = false.

(** The device data map shows of the dataset what the host data map
    shows. *)
Definition datasetCopied (w : World) (d : RooFitDriver) : Prop :=
  ∀ i info, _nodes d !! i = Some info → fromDataset info = true →
    dataMapView w Device d i = dataMapView w Host d i.

(** The output of the top node reaches the host: it is a scalar, or it is
    computed there. *)
Definition topOnHost (l : list NodeInfo) : Prop :=
  ∀ info, last l = Some info → outputSize info = 1 ∨ computeInGPU info = false.

(** The kernels get in device mode what they get in host mode. *)
Lemma nodeOutputs_host w d :
  wellFormed (_nodes d) → localKernels w (_nodes d) → sideIndependent w (_nodes d) →
  copiesAcross (_nodes d) → datasetOnHost (_nodes d) → datasetCopied w d →
  ∀ j info, _nodes d !! j = Some info → fromDataset info = false →
    nodeOutputs w d !! j = hostTable w d !! j.
Proof.
  intros Hwf Hlocal Hside Hacross Hhost Hcopied j.
  induction (lt_wf j) as [j _ IH]. intros info Hj Hfd.
  rewrite (nodeOutputs_lookup w d Hwf Hlocal j info Hj), (hostTable_view w d j info Hwf Hlocal Hj).
  f_equal.
  transitivity (computeBatch w Host j (outputSize info)
                  (expectedView w d (nodeOutputs w d) (sideOf info))).
  { unfold sideOf. destruct (computeInGPU info); [by eapply Hside|done]. }
  apply (Hlocal Host j info); [done|]. intros s Hs.
  pose proof (wf_servers _ Hwf j info s Hj Hs) as Hlt.
  pose proof (lookup_lt_Some _ _ _ Hj) as Hlen.
  destruct (lookup_lt_is_Some_2 (_nodes d) s) as [sinfo Hsi]; [lia|].
  unfold expectedView, hostView. rewrite Hsi.
  destruct (fromDataset sinfo) eqn:Hsd.
  - unfold published, ranNode. rewrite (Hhost s sinfo Hsi Hsd), Hsd. simpl.
    unfold sideOf. destruct (computeInGPU info); [by eapply Hcopied|done].
  - assert (published sinfo (sideOf info) = true) as ->.
    { unfold published, ranNode. rewrite Hsd, orb_true_r. simpl.
      destruct (decide (computeInGPU sinfo = computeInGPU info)) as [Heq|Hne].
      - unfold sideOf. rewrite Heq. by rewrite bool_decide_eq_true_2.
      - assert (j ∈ clientInfos sinfo) as Hcl
          by (by apply (wellFormed_client_server _ s j sinfo info Hwf Hsi Hj)).
        destruct (Hacross s sinfo j info Hsi Hj Hcl Hne) as [-> | ->];
          [by rewrite orb_true_r|by rewrite !orb_true_r]. }
    by eapply IH.
Qed.

Lemma expectedValue_host w d :
  wellFormed (_nodes d) → localKernels w (_nodes d) → sideIndependent w (_nodes d) →
  copiesAcross (_nodes d) → datasetOnHost (_nodes d) → datasetCopied w d →
  topOnHost (_nodes d) → _nodes d ≠ [] →
  expectedValue w d = hostExpectedValue w d.
Proof.
  intros Hwf Hlocal Hside Hacross Hhost Hcopied Htop Hne.
  unfold expectedValue, hostExpectedValue. f_equal.
  destruct (lookup_lt_is_Some_2 (_nodes d) (topNode d)) as [info Hi].
  { unfold topNode. destruct (_nodes d); [done|simpl; lia]. }
  assert (last (_nodes d) = Some info) as Hlast.
  { rewrite last_lookup. unfold topNode in Hi. by rewrite <- Nat.sub_1_r. }
  unfold expectedView, hostView. rewrite Hi.
  destruct (fromDataset info) eqn:Hfd.
  - unfold published, ranNode. by rewrite (Hhost _ info Hi Hfd), Hfd.
  - assert (published info Host = true) as ->.
    { unfold published, ranNode, sideOf. rewrite Hfd, orb_true_r. simpl.
      destruct (Htop info Hlast) as [-> | ->]; [by rewrite orb_true_r|done]. }
    by eapply nodeOutputs_host.
Qed.

(** ** The buffers of the nodes in device mode *)

(** A node that holds a buffer has a client that is to be retired, or no
    client at all. *)
Definition held (l : list NodeInfo) : Prop :=
  ∀ j info b, l !! j = Some info → buffer info = Some b →
    remClients info ≠ 0%Z ∨ clientInfos info = [].

Lemma held_frame l l' :
  (∀ j y', l' !! j = Some y' →
     ∃ y, l !! j = Some y ∧ buffer y' = buffer y ∧ remClients y' = remClients y
          ∧ clientInfos y' = clientInfos y) →
  held l → held l'.
Proof.
  intros Hlook Hh j y' b Hy' Hb. destruct (Hlook j y' Hy') as (y & Hy & Hbuf & -> & ->).
  rewrite Hbuf in Hb. by apply (Hh j y b).
Qed.

(** What a kernel run keeps of the nodes. *)
Lemma kernelRun_fields i d d' evs j y' :
  kernelRun i d d' evs → _nodes d' !! j = Some y' →
  ∃ y, _nodes d !! j = Some y ∧ clientInfos y' = clientInfos y
       ∧ serverInfos y' = serverInfos y ∧ remClients y' = remClients y
       ∧ remServers y' = remServers y ∧ (i ≠ j → y' = y).
Proof.
  intros [_ _ _ _ Ho Hc] Hy'. specialize (Hc j). rewrite Hy' in Hc.
  destruct (_nodes d !! j) as [y|] eqn:Hy; [|done]. exists y. simpl in Hc.
  apply (inj Some) in Hc. split; [done|].
  split; [exact (f_equal clientInfos Hc)|]. split; [exact (f_equal serverInfos Hc)|].
  split; [exact (f_equal remClients Hc)|]. split; [exact (f_equal remServers Hc)|].
  intros Hne. rewrite (Ho j Hne), Hy in Hy'. congruence.
Qed.

(** The scheduler when a node that is ready on the host is marked as
    retired. *)
Lemma counting_hostRetiring s i y :
  counting (λ _, 0) s → s.1 !! i = Some y → remServers y = 0%Z → computeInGPU y = false →
  counting (λ c, occurrences c (clientInfos y))
    (alter (set_remServers (-2)) i s.1, s.2 ++ (if fromDataset y then [] else [(Host, i)])).
Proof.
  intros Hcnt Hy Hr Hg. apply (counting_retired s i y _ Hcnt Hy); [by left|..].
  - intros j info. rewrite list_lookup_alter, elem_of_app. case_decide; subst.
    + rewrite Hy. intros [= <-]. simpl.
      rewrite ?computeInGPU_set_remServers, (cnt_device _ _ Hcnt j y Hy). split.
      * intros [[?|[? _]]|Hin]; [lia..|]. destruct (fromDataset y); set_solver.
      * intros [?|[_ ?]]; [lia|congruence].
    + intros Hinfo. rewrite (cnt_device _ _ Hcnt j info Hinfo). split; [|by left].
      intros [?|Hin]; [done|]. destruct (fromDataset y); set_solver.
  - intros j info. rewrite list_lookup_alter, elem_of_app. case_decide; subst.
    + rewrite Hy. intros [= <-]. simpl.
      rewrite ?computeInGPU_set_remServers, (cnt_host _ _ Hcnt j y Hy). split.
      * intros [(? & _)|Hin]; [lia|]. destruct (fromDataset y); [set_solver|done].
      * intros (_ & _ & ->). right. set_solver.
    + intros Hinfo. rewrite (cnt_host _ _ Hcnt j info Hinfo). split; [|by left].
      intros [?|Hin]; [done|]. destruct (fromDataset y); set_solver.
Qed.

(** ** The events of the streams in device mode *)

(** Before a kernel is launched on the device, the stream of its node has
    waited for the event of each server, and the event of a server that
    computes on the device was recorded before that; and the event of the
    node is recorded right after the launch. *)
Definition synced (l0 : list NodeInfo) (evs : list Event) : Prop :=
  (∀ pre post c cinfo s sinfo,
     evs = pre ++ EKernel Device c :: post →
     l0 !! c = Some cinfo → s ∈ serverInfos cinfo → l0 !! s = Some sinfo →
     event sinfo = true →
     ∃ pre1 pre2, pre = pre1 ++ EWaitForEvent c s :: pre2
       ∧ (computeInGPU sinfo = true → EEventRecord s ∈ pre1))
  ∧ (∀ pre post c, evs = pre ++ EKernel Device c :: post →
       ∃ post', post = EEventRecord c :: post').

Lemma synced_recorded l0 evs s : synced l0 evs → EKernel Device s ∈ evs → EEventRecord s ∈ evs.
Proof.
  intros [_ H] (pre & post & ->)%list_elem_of_split.
  destruct (H pre post s eq_refl) as [post' ->]. set_solver.
Qed.

(** Events without a launch on the device. *)
Lemma synced_app l0 evs block :
  synced l0 evs → (∀ c, EKernel Device c ∉ block) → synced l0 (evs ++ block).
Proof.
  intros [H1 H2] Hno.
  assert (∀ pre post c, evs ++ block = pre ++ EKernel Device c :: post →
            ∃ k, evs = pre ++ EKernel Device c :: k ∧ post = k ++ block) as Hsplit.
  { intros pre post c Heq. apply app_eq_inv in Heq as [(k & -> & Hk)|(k & -> & ->)].
    - destruct k as [|e k]; simpl in Hk.
      + destruct (Hno c). rewrite <- Hk. by left.
      + injection Hk as <- ->. by exists k.
    - destruct (Hno c). set_solver. }
  split.
  - intros pre post c cinfo s sinfo Heq. destruct (Hsplit pre post c Heq) as (k & Hevs & _).
    by apply (H1 pre k c cinfo s sinfo).
  - intros pre post c Heq. destruct (Hsplit pre post c Heq) as (k & Hevs & ->).
    destruct (H2 pre k c Hevs) as [post' ->]. by exists (post' ++ block).
Qed.

(** A launch on the device. *)
Lemma synced_kernel l0 evs c :
  synced l0 evs →
  (∀ cinfo s sinfo, l0 !! c = Some cinfo → s ∈ serverInfos cinfo → l0 !! s = Some sinfo →
     event sinfo = true →
     ∃ pre1 pre2, evs = pre1 ++ EWaitForEvent c s :: pre2
       ∧ (computeInGPU sinfo = true → EEventRecord s ∈ pre1)) →
  synced l0 (evs ++ [EKernel Device c; EEventRecord c]).
Proof.
  intros [H1 H2] Hc.
  assert (∀ pre post c', evs ++ [EKernel Device c; EEventRecord c]
                         = pre ++ EKernel Device c' :: post →
            (∃ k, evs = pre ++ EKernel Device c' :: k
                  ∧ post = k ++ [EKernel Device c; EEventRecord c])
            ∨ (pre = evs ∧ c' = c ∧ post = [EEventRecord c])) as Hsplit.
  { intros pre post c' Heq. apply app_eq_inv in Heq as [(k & -> & Hk)|(k & -> & Hk)].
    - destruct k as [|e k]; simpl in Hk.
      + injection Hk as -> ->. right. by rewrite app_nil_r.
      + injection Hk as <- ->. left. by exists k.
    - destruct k as [|e [|e' k]]; simplify_eq/=.
      + right. by rewrite app_nil_r.
      + by destruct k. }
  split.
  - intros pre post c' cinfo s sinfo Heq.
    destruct (Hsplit pre post c' Heq) as [(k & Hevs & _)|(-> & -> & _)].
    + by apply (H1 pre k c' cinfo s sinfo).
    + by apply Hc.
  - intros pre post c' Heq.
    destruct (Hsplit pre post c' Heq) as [(k & Hevs & ->)|(_ & -> & ->)].
    + destruct (H2 pre k c' Hevs) as [post' ->]. by eexists.
    + by eexists.
Qed.

(** The events of assignToGPU. *)
Lemma synced_assignToGPU l0 evs d c x cinfo :
  synced l0 evs → _nodes d !! c = Some x → l0 !! c = Some cinfo →
  serverInfos x = serverInfos cinfo →
  (∀ s sinfo, l0 !! s = Some sinfo → event sinfo = true →
     from_option event false (_nodes d !! s) = true) →
  (∀ s sinfo, s ∈ serverInfos cinfo → l0 !! s = Some sinfo → computeInGPU sinfo = true →
     EEventRecord s ∈ evs) →
  synced l0 (evs ++ assignToGPUEvents d c).
Proof.
  intros Hsyn Hx Hc Hsrv Hev Hrec. unfold assignToGPUEvents. rewrite Hx. cbv zeta.
  set (ws := filter (λ s, from_option event false (_nodes d !! s) = true) (serverInfos x)).
  set (maps := if outputSize x =? 1 then _ else _).
  set (maps' := if copyAfterEvaluation x then _ else _).
  rewrite !app_assoc. apply synced_app.
  2:{ intros k Hk. unfold maps' in Hk. destruct (copyAfterEvaluation x); set_solver. }
  rewrite <- !app_assoc. rewrite (app_assoc evs), (app_assoc (evs ++ _)).
  apply synced_kernel.
  - rewrite <- app_assoc. apply synced_app; [done|].
    intros k [Hk|Hk]%elem_of_app.
    + by apply list_elem_of_fmap in Hk as (? & ? & _).
    + unfold maps in Hk. destruct (outputSize x =? 1); set_solver.
  - intros cinfo' s sinfo Hc' Hs Hsi Hevent. rewrite Hc in Hc'. injection Hc' as <-.
    assert (s ∈ ws) as (w1 & w2 & Hws)%list_elem_of_split.
    { apply list_elem_of_filter. split; [by eapply Hev|by rewrite Hsrv]. }
    exists (evs ++ (EWaitForEvent c <$> w1)), ((EWaitForEvent c <$> w2) ++ maps).
    split.
    + rewrite Hws, fmap_app, fmap_cons, <- !app_assoc. done.
    + intros Hg. apply elem_of_app. left. by eapply Hrec.
Qed.

Section Release.

Variable w : World.

(** The driver at the start of the evaluation. *)
Variable d0 : RooFitDriver.

Hypothesis release_graph : wellFormed (_nodes d0).
Hypothesis release_cuda : R__HAS_CUDA = true.
Hypothesis release_mode : _batchMode d0 = Cuda.

(** The driver in the middle of the evaluation: the scheduler follows it,
    the countdowns of the servers and of the clients are right, the buffers
    are held by nodes that are waited for, and the streams have waited for
    the events of the servers. *)
Record releasing (owed owedC : nat → nat) (d : RooFitDriver) (s : Sched) : Prop := {
  rl_tracks : tracks d0 d s;
  rl_counting : counting owed s;
  rl_clients : clientCounts owedC (_nodes d);
  rl_held : held (_nodes d);
  rl_synced : ∃ evs, _trace d = _trace d0 ++ evs ∧ synced (_nodes d0) evs;
}.

Lemma tracks_wellFormed d s : tracks d0 d s → wellFormed (_nodes d).
Proof. intros Ht. by apply (wellFormed_sameGraph _ _ (tr_graph _ _ _ Ht)). Qed.

(** The clients of a node that is not retired are not retired either. *)
Lemma ready_clients owed owedC d s c x :
  releasing owed owedC d s → _nodes d !! c = Some x → remServers x ≠ (-2)%Z →
  remClients x ≠ 0%Z ∨ clientInfos x = [].
Proof.
  intros [Ht Hcnt Hcl _ _] Hx Hr.
  destruct (clientInfos x) as [|k ks] eqn:Hks; [by right|left].
  assert (k ∈ clientInfos x) as Hk by (rewrite Hks; by left).
  pose proof (tracks_wellFormed d s Ht) as Hwf.
  destruct (wf_clients _ Hwf c x k Hx Hk) as [_ Hklt].
  destruct (lookup_lt_is_Some_2 _ _ Hklt) as [xk Hxk].
  rewrite (Hcl c x Hx).
  assert (0 < unreleased (_nodes d) x); [|lia].
  apply (filter_length_pos _ _ k); [done|].
  unfold retiredIn. rewrite Hxk. simpl. apply bool_decide_eq_false_2. intros [= Hret].
  destruct (tracks_lookup _ _ _ _ _ Ht Hxk) as (yk & Hyk & Hxyk).
  apply schedPart_fields in Hxyk as (Hrk & _ & _ & _ & Hsk & _).
  assert (0 < pending s.1 yk) as Hpend.
  { apply (filter_length_pos _ _ c).
    - rewrite <- Hsk. by apply (wellFormed_client_server (_nodes d) c k x xk Hwf Hx Hxk).
    - rewrite <- (tracks_retiredIn d0 d s c Ht). unfold retiredIn. rewrite Hx. simpl.
      apply bool_decide_eq_false_2. by intros [= ?]. }
  destruct (cnt_count _ _ Hcnt k yk Hyk) as [H|(H & _)]; lia.
Qed.

(** assignToGPU *)
Lemma releasing_launch owed owedC d s c x :
  releasing owed owedC d s → _nodes d !! c = Some x → remServers x = 0%Z →
  computeInGPU x = true →
  releasing owed owedC (assignToGPU w c d) (launch c s).
Proof.
  intros Hrel Hx Hr Hg. pose proof Hrel as [Ht Hcnt Hcl Hh (evs & Htr & Hsyn)].
  destruct (tracks_lookup _ _ _ _ _ Ht Hx) as (y & Hy & Hxy).
  apply schedPart_fields in Hxy as (Hry & Hgy & _ & _ & Hsy & _).
  assert (is_Some (_nodes d !! c)) as Hsome by (by exists x).
  pose proof (assignToGPU_spec w c d Hsome) as Hrun.
  assert (∀ j y', _nodes (assignToGPU w c d) !! j = Some y' →
            ∃ y0, _nodes d !! j = Some y0 ∧ clientInfos y' = clientInfos y0
              ∧ remClients y' = remClients y0
              ∧ remServers y' = (if decide (j = c) then (-1)%Z else remServers y0)
              ∧ (j ≠ c → y' = y0)) as Hlook.
  { intros j y' Hy'.
    destruct (kernelRun_fields _ _ _ _ j y' Hrun Hy') as (y1 & Hy1 & Hc1 & _ & Hrc1 & Hrs1 & Hsame).
    rewrite lookup_updNode in Hy1. destruct (decide (c = j)) as [<-|Hne].
    - rewrite Hx in Hy1. injection Hy1 as <-. exists x. rewrite decide_True by done.
      simpl in *. done.
    - exists y1. rewrite decide_False by congruence. split_and!; try done.
      intros _. by apply Hsame. }
  assert (length (_nodes (assignToGPU w c d)) = length (_nodes d)) as Hlen
    by (by rewrite (run_length _ _ _ _ Hrun), length_updNode).
  split.
  - by apply tracks_assignToGPU.
  - apply (counting_launch owed s c y); congruence.
  - apply (clientCounts_step owedC owedC (_nodes d)); [| |done].
    + intros j. unfold retiredIn.
      destruct (_nodes (assignToGPU w c d) !! j) as [y'|] eqn:Hy'.
      * destruct (Hlook j y' Hy') as (y0 & Hy0 & _ & _ & Hrs & _).
        rewrite Hy0. simpl. apply bool_decide_ext. rewrite Hrs.
        destruct (decide (j = c)) as [->|]; [|done].
        rewrite Hx in Hy0. injection Hy0 as <-. split; intros [= ?]; lia.
      * apply lookup_ge_None in Hy'. rewrite Hlen in Hy'.
        by rewrite (proj2 (lookup_ge_None _ _) Hy').
    + intros j y' Hy'. destruct (Hlook j y' Hy') as (y0 & Hy0 & Hc' & Hrc & _).
      exists y0. split; [done|]. split; [done|]. lia.
  - intros j y' b Hy' Hb. destruct (Hlook j y' Hy') as (y0 & Hy0 & Hc' & Hrc & _ & Hsame).
    rewrite Hc', Hrc. destruct (decide (j = c)) as [->|Hne].
    + rewrite Hx in Hy0. injection Hy0 as <-.
      apply (ready_clients owed owedC d s c x); [done|done|lia].
    + rewrite (Hsame Hne) in Hb. by apply (Hh j y0 b).
  - exists (evs ++ assignToGPUEvents d c). split.
    { rewrite (run_trace _ _ _ _ Hrun). simpl. by rewrite Htr, app_assoc. }
    destruct (sameGraph_lookup _ _ _ _ (sameGraph_sym _ _ (tr_graph _ _ _ Ht)) Hx)
      as (cinfo & Hc0 & Hst).
    apply staticPart_fields in Hst as (_ & _ & _ & _ & _ & Hsrv0 & _).
    apply (synced_assignToGPU _ evs d c x cinfo); [done|done|done|done|..].
    + intros j jinfo Hj0 Hev.
      destruct (sameGraph_lookup _ _ _ _ (tr_graph _ _ _ Ht) Hj0) as (jx & -> & Hjst).
      apply staticPart_fields in Hjst as (_ & _ & _ & _ & _ & _ & _ & Hje). simpl. congruence.
    + intros j jinfo Hj Hj0 Hjg.
      apply (synced_recorded (_nodes d0)); [done|].
      destruct Ht as [Hgr Hn _ (evs' & Htr' & Hk & _)].
      rewrite Htr in Htr'. apply app_inv_head in Htr' as <-.
      apply elem_of_kernels. rewrite Hk.
      destruct (sameGraph_lookup _ _ _ _ Hgr Hj0) as (jx & Hjx & Hjst).
      pose proof (Hn j) as Hnj. rewrite Hjx in Hnj.
      destruct (s.1 !! j) as [jy|] eqn:Hjy; [|done]. simpl in Hnj. apply (inj Some) in Hnj.
      apply schedPart_fields in Hnj as (_ & Hgj & _).
      apply (cnt_device _ _ Hcnt j jy Hjy). right.
      assert (computeInGPU jy = true) as Hgy'.
      { rewrite <- Hgj, (staticPart_computeInGPU _ _ Hjst). done. }
      split; [|done].
      assert (pending s.1 y = 0) as Hp.
      { destruct (cnt_count _ _ Hcnt c y Hy) as [H|(H & _)]; lia. }
      assert (j ∈ serverInfos y) as Hjs by (rewrite <- Hsy, <- Hsrv0; done).
      pose proof (filter_length_0 _ _ j Hp Hjs) as Hret.
      apply not_false_is_true in Hret. unfold retiredIn in Hret.
      apply bool_decide_eq_true in Hret. rewrite Hjy in Hret. by injection Hret.
Qed.

(** One round of the loop over the clients of a node that is done. *)
Lemma releasing_notifyClient owedC d s c cs :
  releasing (λ c', occurrences c' (c :: cs)) owedC d s → eager s.1 →
  releasing (λ c', occurrences c' cs) owedC
    (let d := updNode c (λ info, set_remServers (remServers info - 1) info) d in
     match _nodes d !! c with
     | Some info =>
         if bool_decide (remServers info = 0%Z) && computeInGPU info then assignToGPU w c d else d
     | None => d
     end)
    (countDownClient s c)
  ∧ eager (countDownClient s c).1.
Proof.
  intros Hrel He. pose proof Hrel as [Ht Hcnt Hcl Hh Hsy].
  destruct (counting_countDownClient s c cs Hcnt He) as [Hcnt' He'].
  split; [|done]. cbv zeta. unfold countDownClient in *.
  set (dec := λ info, set_remServers (remServers info - 1) info) in *.
  pose proof (tracks_updNode d0 d s c dec schedPart_decrement ltac:(done) Ht) as Ht1.
  assert (∃ evs, _trace (updNode c dec d) = _trace d0 ++ evs ∧ synced (_nodes d0) evs)
    as Hsy1 by done.
  assert (clientCounts owedC (_nodes (updNode c dec d)) ∧ held (_nodes (updNode c dec d)))
    as [Hcl1 Hh1].
  { assert (∀ x, _nodes d !! c = Some x → (1 ≤ remServers x)%Z) as Hpos.
    { intros x Hx. destruct (tracks_lookup _ _ _ _ _ Ht Hx) as (y & Hy & Hxy).
      apply schedPart_fields in Hxy as (-> & _).
      destruct (cnt_count _ _ Hcnt c y Hy) as [H|(_ & H & _)];
        rewrite occurrences_cons, decide_True in H by done; lia. }
    split.
    - apply (clientCounts_step owedC owedC (_nodes d)); [| |done].
      + intros j. unfold retiredIn. rewrite lookup_updNode.
        destruct (decide (c = j)) as [<-|]; [|done].
        destruct (_nodes d !! c) as [x|] eqn:Hx; [|done]. specialize (Hpos x eq_refl). simpl.
        apply bool_decide_ext. split; intros [= ?]; lia.
      + intros j y'. rewrite lookup_updNode. destruct (decide (c = j)) as [<-|].
        * destruct (_nodes d !! c) as [x|]; [|done]. intros [= <-]. exists x.
          split; [done|]. split; [done|]. simpl. lia.
        * intros Hy'. exists y'. split; [done|]. split; [done|]. lia.
    - apply (held_frame (_nodes d)); [|done].
      intros j y'. rewrite lookup_updNode. destruct (decide (c = j)) as [<-|].
      + destruct (_nodes d !! c) as [x|]; [|done]. intros [= <-]. by exists x.
      + intros Hy'. by exists y'. }
  destruct (_nodes (updNode c dec d) !! c) as [x|] eqn:Hx.
  - destruct (tracks_lookup _ _ _ _ _ Ht1 Hx) as (y & Hy & Hxy). simpl in Hy.
    rewrite Hy in Hcnt' |- *.
    apply schedPart_fields in Hxy as (Hr & Hg & _). rewrite <- Hr, <- Hg in Hcnt' |- *.
    assert (counting (λ c', occurrences c' cs) (alter dec c s.1, s.2)) as Hcnt1.
    { rewrite list_lookup_alter_eq in Hy. destruct (s.1 !! c) as [y0|] eqn:Hy0; [|done].
      by apply (counting_decrement s c y0). }
    destruct (bool_decide (remServers x = 0%Z) && computeInGPU x) eqn:Hgo; [|done].
    apply andb_true_iff in Hgo as [Hz%bool_decide_eq_true Hgx].
    by apply (releasing_launch _ owedC (updNode c dec d) (alter dec c s.1, s.2) c x).
  - pose proof (tracks_lookup_None _ _ _ _ Ht1 Hx) as Hy. simpl in Hy.
    rewrite Hy in Hcnt' |- *. done.
Qed.

Lemma releasing_notifyClients owedC cs d s :
  releasing (λ c', occurrences c' cs) owedC d s → eager s.1 →
  releasing (λ _, 0) owedC
    (foldl (λ d c,
       let d := updNode c (λ info, set_remServers (remServers info - 1) info) d in
       match _nodes d !! c with
       | Some info =>
           if bool_decide (remServers info = 0%Z) && computeInGPU info
           then assignToGPU w c d else d
       | None => d
       end) d cs)
    (foldl countDownClient s cs)
  ∧ eager (foldl countDownClient s cs).1.
Proof.
  revert d s. induction cs as [|c cs IH]; intros d s Hrel He; [done|].
  cbn [foldl]. destruct (releasing_notifyClient owedC d s c cs Hrel He) as [Hrel' He'].
  by apply IH.
Qed.

(** The loop over the servers of a node that is retired: the buffer of a
    server is released when its countdown reaches zero. *)
Lemma releasing_releaseServers owed ss d s :
  releasing owed (λ j, occurrences j ss) d s →
  releasing owed (λ _, 0)
    (foldl (λ d s,
       let d := updNode s (λ info, set_remClients (remClients info - 1) info) d in
       match _nodes d !! s with
       | Some info => if bool_decide (remClients info = 0%Z) then resetBuffer s d else d
       | None => d
       end) d ss)
    s.
Proof.
  revert d. induction ss as [|c ss IH]; intros d Hrel; [done|].
  cbn [foldl]. apply IH.
  destruct Hrel as [Ht Hcnt Hcl Hh Hsy]. cbv zeta.
  set (dec := λ info, set_remClients (remClients info - 1) info).
  assert (tracks d0 (updNode c dec d) s) as Ht1.
  { apply (tracks_silent d0 d); try done. intros j. rewrite lookup_updNode.
    case_decide; subst; [|done]. by destruct (_nodes d !! j). }
  assert (clientCounts (λ j, occurrences j ss) (_nodes (updNode c dec d))) as Hcl1.
  { apply (clientCounts_step (λ j, occurrences j (c :: ss)) _ (_nodes d)); [| |done].
    - intros j. unfold retiredIn. rewrite lookup_updNode.
      destruct (decide (c = j)) as [<-|]; [|done]. by destruct (_nodes d !! c).
    - intros j y'. rewrite lookup_updNode, occurrences_cons.
      destruct (decide (c = j)) as [<-|].
      + destruct (_nodes d !! c) as [x|]; [|done]. intros [= <-]. exists x.
        split; [done|]. split; [done|]. rewrite decide_True by done. simpl. lia.
      + intros Hy'. exists y'. split; [done|]. split; [done|].
        rewrite decide_False by done. lia. }
  destruct (_nodes (updNode c dec d) !! c) as [x|] eqn:Hx.
  2:{ split; [done|done|done| |done]. intros j y' b. rewrite lookup_updNode.
      destruct (decide (c = j)) as [<-|]; [|apply Hh].
      rewrite lookup_updNode_eq in Hx. by destruct (_nodes d !! c). }
  case_bool_decide as Hzero.
  - destruct (resetBuffer_frame c (updNode c dec d)) as (_ & _ & Htr & Hbm & _).
    split.
    + apply (tracks_silent d0 _ _ s Ht1); [apply resetBuffer_schedPart|done..].
    + done.
    + apply (clientCounts_step (λ j, occurrences j ss) _ (_nodes (updNode c dec d))); [| |done].
      * intros j. unfold retiredIn. rewrite resetBuffer_lookup.
        destruct (decide (c = j)) as [<-|]; [|done]. by destruct (_nodes (updNode c dec d) !! c).
      * intros j y'. rewrite resetBuffer_lookup. destruct (decide (c = j)) as [<-|].
        -- rewrite Hx. intros [= <-]. exists x. split; [done|]. split; [done|]. simpl. lia.
        -- intros Hy'. exists y'. split; [done|]. split; [done|]. lia.
    + intros j y' b. rewrite resetBuffer_lookup. destruct (decide (c = j)) as [<-|Hne].
      * rewrite Hx. by intros [= <-].
      * rewrite lookup_updNode_ne by done. apply Hh.
    + by rewrite Htr.
  - split; [done|done|done| |done]. intros j y' b. destruct (decide (c = j)) as [<-|Hne].
    + rewrite Hx. intros [= <-] _. by left.
    + rewrite lookup_updNode_ne by done. apply Hh.
Qed.

(** The two loops after node [i] is marked as retired. *)
Lemma releasing_finish d s i x :
  releasing (λ c, occurrences c (clientInfos x)) (λ j, occurrences j (serverInfos x)) d s →
  eager s.1 → _nodes d !! i = Some x →
  releasing (λ _, 0) (λ _, 0) (releaseServers i (notifyClients w i d)) (countDown i s)
  ∧ eager (countDown i s).1.
Proof.
  intros Hrel He Hx. pose proof Hrel as [Ht _ _ _ _].
  destruct (tracks_lookup _ _ _ _ _ Ht Hx) as (y & Hy & Hxy).
  apply schedPart_fields in Hxy as (_ & _ & _ & Hcl & _).
  unfold notifyClients, countDown. rewrite Hx, Hy. simpl. rewrite <- Hcl.
  destruct (releasing_notifyClients _ (clientInfos x) d s Hrel He) as [Hrel2 He2].
  split; [|done]. set (d2 := foldl _ d (clientInfos x)) in *.
  assert (from_option serverInfos [] (_nodes d2 !! i) = serverInfos x) as Hss.
  { pose proof (tr_graph _ _ _ (rl_tracks _ _ _ _ Hrel2) i) as Hg2.
    pose proof (tr_graph _ _ _ Ht i) as Hg. rewrite <- Hg2, Hx in Hg.
    destruct (_nodes d2 !! i) as [x2|]; [|done]. simpl in *. apply (inj Some) in Hg.
    by apply staticPart_fields in Hg as (_ & _ & _ & _ & _ & <- & _). }
  unfold releaseServers. rewrite Hss. by apply releasing_releaseServers.
Qed.

Lemma held_retired i d : held (_nodes d) → held (_nodes (updNode i (set_remServers (-2)) d)).
Proof.
  apply held_frame. intros j y'. rewrite lookup_updNode. destruct (decide (i = j)) as [<-|].
  - destruct (_nodes d !! i) as [x|]; [|done]. intros [= <-]. by exists x.
  - intros Hy'. by exists y'.
Qed.

(** "find finished GPU nodes", for one node *)
Lemma releasing_retire active i d s :
  releasing (λ _, 0) (λ _, 0) d s → eager s.1 →
  releasing (λ _, 0) (λ _, 0) (retireGPUNode w active i d) (retire active i s)
  ∧ eager (retire active i s).1.
Proof.
  intros Hrel He. pose proof Hrel as [Ht Hcnt Hcl Hh Hsy]. unfold retireGPUNode, retire.
  destruct (_nodes d !! i) as [x|] eqn:Hx.
  2:{ by rewrite (tracks_lookup_None _ _ _ _ Ht Hx). }
  destruct (tracks_lookup _ _ _ _ _ Ht Hx) as (y & Hy & Hxy). rewrite Hy.
  apply schedPart_fields in Hxy as (Hr & _ & _ & Hcli & _). rewrite <- Hr.
  destruct (bool_decide (remServers x = (-1)%Z) && negb (active i)) eqn:Hgo; [|done].
  apply andb_true_iff in Hgo as [Hrx%bool_decide_eq_true _].
  apply (releasing_finish _ _ i (set_remServers (-2) x)).
  - split.
    + by apply (tracks_updNode d0 d s i (set_remServers (-2))).
    + simpl. rewrite Hcli. apply counting_retiring; [done..|congruence].
    + apply (clientCounts_retire (λ _, 0) (_nodes d) _ i x (set_remServers (-2) x));
        [by apply (tracks_wellFormed d s)|done|done|lia| |done..|].
      * by rewrite lookup_updNode_eq, Hx.
      * intros j Hj. by rewrite lookup_updNode_ne.
    + by apply held_retired.
    + done.
  - by apply eager_retired.
  - by rewrite lookup_updNode_eq, Hx.
Qed.

(** "compute next CPU node" *)
Lemma releasing_hostRun i d s x :
  releasing (λ _, 0) (λ _, 0) d s → eager s.1 →
  _nodes d !! i = Some x → remServers x = 0%Z → computeInGPU x = false →
  releasing (λ _, 0) (λ _, 0) (runCPUNode w i d) (hostRun i s)
  ∧ eager (hostRun i s).1.
Proof.
  intros Hrel He Hx Hrx Hgx. pose proof Hrel as [Ht Hcnt Hcl Hh (evs & Htr & Hsyn)].
  unfold runCPUNode, hostRun.
  rewrite Hx. destruct (tracks_lookup _ _ _ _ _ Ht Hx) as (y & Hy & Hxy). rewrite Hy.
  apply schedPart_fields in Hxy as (Hr & Hg & Hfd & Hcli & _). rewrite <- Hfd.
  pose proof (tracks_updNode d0 d s i (set_remServers (-2)) ltac:(done) ltac:(done) Ht) as Ht1.
  set (d1 := updNode i (set_remServers (-2)) d) in *.
  set (dK := if negb (fromDataset x) then computeCPUNode w i d1 else d1).
  assert (_nodes d1 !! i = Some (set_remServers (-2) x)) as Hx1
    by (unfold d1; by rewrite lookup_updNode_eq, Hx).
  assert (∃ x', _nodes dK !! i = Some x' ∧ clientInfos x' = clientInfos x
                ∧ serverInfos x' = serverInfos x ∧ remClients x' = remClients x
                ∧ remServers x' = (-2)%Z
                ∧ (∀ j, j ≠ i → _nodes dK !! j = _nodes d !! j))
    as (x' & Hx' & Hcl' & Hsv' & Hrc' & Hrs' & Hother).
  { unfold dK. destruct (fromDataset x) eqn:Hfdx; cbn [negb].
    - exists (set_remServers (-2) x). split_and!; try done.
      intros j Hj. unfold d1. by rewrite lookup_updNode_ne.
    - pose proof (computeCPUNode_spec w i d1) as Hrun.
      destruct (lookup_lt_is_Some_2 (_nodes (computeCPUNode w i d1)) i) as [x' Hx'].
      { rewrite (run_length _ _ _ _ Hrun). by eapply lookup_lt_Some. }
      destruct (kernelRun_fields _ _ _ _ i x' Hrun Hx') as (x1 & Hx1' & H1 & H2 & H3 & H4 & _).
      rewrite Hx1 in Hx1'. injection Hx1' as <-. exists x'. split_and!; try done.
      intros j Hj. rewrite (run_other _ _ _ _ Hrun j) by done. unfold d1.
      by rewrite lookup_updNode_ne. }
  assert (held (_nodes dK)) as HhK.
  { intros j y' b Hy' Hb. destruct (decide (j = i)) as [->|Hne].
    - rewrite Hx' in Hy'. injection Hy' as <-. rewrite Hcl', Hrc'.
      apply (ready_clients _ _ d s i x Hrel Hx). lia.
    - rewrite (Hother j Hne) in Hy'. by apply (Hh j y' b). }
  apply (releasing_finish dK _ i x'); [|by apply eager_retired|done].
  split.
  - unfold dK. destruct (fromDataset x); simpl.
    + by rewrite app_nil_r.
    + by apply (tracks_computeCPUNode w d0 _ (_, s.2) i (set_remServers (-2) x)).
  - rewrite Hcl', Hcli, Hfd. apply counting_hostRetiring; [done..|congruence|congruence].
  - rewrite Hsv'.
    apply (clientCounts_retire (λ _, 0) (_nodes d) _ i x x');
      [by apply (tracks_wellFormed d s)|done|done|lia|done..].
  - done.
  - unfold dK. destruct (fromDataset x); cbn [negb]; [by exists evs|].
    exists (evs ++ computeCPUNodeEvents d1 i). split.
    + rewrite (run_trace _ _ _ _ (computeCPUNode_spec w i d1)). simpl.
      by rewrite Htr, app_assoc.
    + apply synced_app; [done|]. intros k Hk.
      by apply kernel_in_computeCPUNodeEvents in Hk as (_ & ? & _).
Qed.

(** One round of the while loop. *)
Lemma releasing_round active d s :
  releasing (λ _, 0) (λ _, 0) d s → eager s.1 →
  releasing (λ _, 0) (λ _, 0) (scheduleRound w active d) (round active s)
  ∧ eager (round active s).1.
Proof.
  intros Hrel He. unfold scheduleRound, round, forNodes.
  rewrite (tracks_length _ _ _ (rl_tracks _ _ _ _ Hrel)).
  assert (∀ (ns : list nat) d s, releasing (λ _, 0) (λ _, 0) d s → eager s.1 →
            releasing (λ _, 0) (λ _, 0) (foldl (λ d i, retireGPUNode w active i d) d ns)
              (foldl (λ s i, retire active i s) s ns)
            ∧ eager (foldl (λ s i, retire active i s) s ns).1) as Hfold.
  { induction ns as [|i ns IH]; intros d' s' Hr' He'; [done|]. cbn [foldl].
    destruct (releasing_retire active i d' s' Hr' He'). by apply IH. }
  destruct (Hfold (seq 0 (length (_nodes d))) d s Hrel He) as [Hrel1 He1].
  set (d1 := foldl _ d _) in *. set (s1 := foldl _ s _) in *.
  pose proof Hrel1 as [Ht1 Hcnt1 Hcl1 Hh1 (evs1 & Htr1 & Hsyn1)].
  rewrite (tracks_nextCPUNode _ _ _ Ht1). unfold nextHostNode.
  destruct (list_find _ s1.1) as [[i y]|] eqn:Hfind; simpl.
  - apply list_find_Some in Hfind as (Hy & [Hr Hg] & _).
    destruct (lookup_lt_is_Some_2 (_nodes d1) i) as [x Hx].
    { rewrite <- (tracks_length _ _ _ Ht1). by eapply lookup_lt_Some. }
    destruct (tracks_lookup _ _ _ _ _ Ht1 Hx) as (y' & Hy' & Hxy).
    rewrite Hy in Hy'. apply (inj Some) in Hy' as <-.
    apply schedPart_fields in Hxy as (Hrx & Hgx & _).
    apply (releasing_hostRun i d1 s1 x); [done|done|done|congruence|congruence].
  - split; [|done]. split; [by apply tracks_emit|done|done|done|].
    exists (evs1 ++ [ESleep]). split; [simpl; by rewrite Htr1, app_assoc|].
    apply synced_app; [done|]. intros k Hk. set_solver.
Qed.

Lemma releasing_loopState isActive n t d s :
  releasing (λ _, 0) (λ _, 0) d s → eager s.1 →
  ∃ s', releasing (λ _, 0) (λ _, 0) (loopState w isActive n t d) s' ∧ eager s'.1.
Proof.
  revert t d s. induction n as [|n IH]; intros t d s Hrel He; [by exists s|].
  simpl. destruct (releasing_round (isActive t) d s Hrel He) as [Hrel' He'].
  by apply (IH _ _ _ Hrel' He').
Qed.

Lemma releasing_resetCounters :
  releasing (λ _, 0) (λ _, 0) (resetCounters d0) (initialCounters (_nodes d0), []).
Proof.
  destruct (resetCounters_fields d0) as (Hn & _).
  assert (∀ j y, _nodes (resetCounters d0) !! j = Some y →
            ∃ x, _nodes d0 !! j = Some x ∧ y = resetNode x) as Hlook.
  { intros j y. rewrite Hn. destruct (_nodes d0 !! j) as [x|]; [|done].
    intros [= <-]. by exists x. }
  split.
  - apply tracks_resetCounters.
  - by apply counting_initial.
  - intros j y Hy. destruct (Hlook j y Hy) as (x & Hx & ->). simpl.
    unfold unreleased. simpl. rewrite filter_all; [lia|].
    intros c. unfold retiredIn. rewrite Hn. apply bool_decide_eq_false_2.
    destruct (_nodes d0 !! c) as [z|]; [|done]. simpl. intros [= ?]. lia.
  - intros j y b Hy. by destruct (Hlook j y Hy) as (x & _ & ->).
  - destruct (tracks_resetCounters d0) as [_ _ _ (evs & Htr & Hk & _)].
    exists evs. split; [done|].
    rewrite <- (app_nil_l evs). apply synced_app.
    + split; intros pre post c; by destruct pre.
    + intros c Hc. apply elem_of_kernels in Hc. rewrite Hk in Hc. by apply elem_of_nil in Hc.
Qed.

Lemma releasing_start :
  ∃ s, releasing (λ _, 0) (λ _, 0) (assignInitialGPUNodes w (resetCounters d0)) s ∧ eager s.1.
Proof.
  exists (launchReady (initialCounters (_nodes d0), [])).
  split; [|by apply counting_launchReady, counting_initial].
  pose proof releasing_resetCounters as Hrel.
  unfold assignInitialGPUNodes, launchReady, forNodes.
  rewrite (tracks_length _ _ _ (rl_tracks _ _ _ _ Hrel)).
  generalize (seq 0 (length (_nodes (resetCounters d0)))). intros ns.
  revert Hrel. generalize (resetCounters d0), (initialCounters (_nodes d0), @nil (Side * nat)).
  induction ns as [|i ns IH]; intros d s Hrel; [done|]. cbn [foldl]. apply IH.
  unfold launchIfReady. destruct (_nodes d !! i) as [x|] eqn:Hx.
  - destruct (tracks_lookup _ _ _ _ _ (rl_tracks _ _ _ _ Hrel) Hx) as (y & -> & Hxy).
    apply schedPart_fields in Hxy as (Hr & Hg & _). rewrite <- Hr, <- Hg.
    destruct (bool_decide (remServers x = 0%Z) && computeInGPU x) eqn:Hgo; [|done].
    apply andb_true_iff in Hgo as [Hz%bool_decide_eq_true Hgx].
    by apply (releasing_launch _ _ d s i x).
  - by rewrite (tracks_lookup_None _ _ _ _ (rl_tracks _ _ _ _ Hrel) Hx).
Qed.

End Release.

(** The driver an evaluation in device mode leaves. *)
Lemma getVal_releasing w isActive fuel d r d' :
  R__HAS_CUDA = true → _batchMode d = Cuda → wellFormed (_nodes d) →
  getVal w isActive fuel d = Some (r, d') →
  wellFormed (_nodes d') ∧ clientCounts (λ _, 0) (_nodes d') ∧ held (_nodes d')
  ∧ ∃ evs, _trace d' = _trace d ++ evs ∧ synced (_nodes d) evs.
Proof.
  intros Hcuda Hmode Hwf Hget.
  unfold getVal, inCudaMode in Hget. simpl in Hget. rewrite Hcuda, Hmode in Hget.
  simpl in Hget. set (d1 := set_getValInvocations _ d) in Hget.
  unfold getValHeterogeneous in Hget.
  destruct (schedule _ _ _ _ _) as [d2|] eqn:Hs; simpl in Hget; [|done].
  injection Hget as _ <-. apply schedule_loopState in Hs as (n & _ & -> & _).
  destruct (releasing_start w d1 Hwf) as (s & Hrel & He).
  destruct (releasing_loopState w d1 Hwf Hcuda Hmode isActive n 0 _ s Hrel He)
    as (s' & [Ht _ Hcl Hh Hsy] & _).
  split; [by apply (tracks_wellFormed d1 Hwf _ _ Ht)|]. done.
Qed.

(** X14.  In device mode every buffer is released by the time getVal
    returns, but those of the nodes without a client: on a graph in which
    every node but the top node has a client, a node that has a client holds
    no buffer in the driver getVal leaves, and its countdown of clients is
    zero. *)
Theorem device_releases_buffers w isActive fuel d r d' :
  R__HAS_CUDA = true → _batchMode d = Cuda →
  wellFormed (_nodes d) → reachesTop (_nodes d) →
  getVal w isActive fuel d = Some (r, d') →
  ∀ j info, _nodes d' !! j = Some info → clientInfos info ≠ [] →
    buffer info = None ∧ remClients info = 0%Z.
Proof.
  intros Hcuda Hmode Hwf Hreach Hget.
  destruct (getVal_device w isActive fuel d r d' Hcuda Hmode Hwf Hreach Hget)
    as (_ & _ & Hall & _).
  destruct (getVal_releasing w isActive fuel d r d' Hcuda Hmode Hwf Hget)
    as (Hwf' & Hcl & Hh & _).
  intros j info Hj Hne.
  assert (remClients info = 0%Z) as Hzero.
  { rewrite (Hcl j info Hj). unfold unreleased. rewrite filter_none; [done|].
    intros c Hc. destruct (wf_clients _ Hwf' j info c Hj Hc) as [_ Hlt].
    destruct (lookup_lt_is_Some_2 _ _ Hlt) as [xc Hxc].
    unfold retiredIn. rewrite Hxc. simpl. rewrite (Hall c xc Hxc).
    by rewrite bool_decide_eq_true_2. }
  split; [|done]. destruct (buffer info) as [b|] eqn:Hb; [|done].
  by destruct (Hh j info b Hj Hb).
Qed.

(** X15.  In device mode the streams are synchronised with the events: in
    the events of an evaluation, before the kernel of a node is launched on
    the device the stream of the node has waited for the event of each of
    its servers that has one, and where that server computes on the device
    its event was recorded before the wait; and the event of the node is
    recorded right after the launch of its kernel. *)
Theorem device_waits_for_servers w isActive fuel d r d' :
  R__HAS_CUDA = true → _batchMode d = Cuda → wellFormed (_nodes d) →
  getVal w isActive fuel d = Some (r, d') →
  ∃ evs, _trace d' = _trace d ++ evs
    ∧ (∀ pre post c cinfo s sinfo,
         evs = pre ++ EKernel Device c :: post →
         _nodes d !! c = Some cinfo → s ∈ serverInfos cinfo → _nodes d !! s = Some sinfo →
         event sinfo = true →
         ∃ pre1 pre2, pre = pre1 ++ EWaitForEvent c s :: pre2
           ∧ (computeInGPU sinfo = true → EEventRecord s ∈ pre1))
    ∧ (∀ pre post c, evs = pre ++ EKernel Device c :: post →
         ∃ post', post = EEventRecord c :: post').
Proof.
  intros Hcuda Hmode Hwf Hget.
  destruct (getVal_releasing w isActive fuel d r d' Hcuda Hmode Hwf Hget)
    as (_ & _ & _ & evs & Htr & Hsyn).
  exists evs. split; [done|]. exact Hsyn.
Qed.

(** ** getParameters *)

(** The order of names: lexicographic on the character codes. *)
Definition nameLe (a b : RooAbsArg) : Prop := String.leb (namePtr a) (namePtr b) = true.

Global Instance nameLe_dec a b : Decision (nameLe a b).
Proof. unfold nameLe. apply _. Defined.

(** Modelled from the spec: RooArgSet::add is not in this source.  The result
    of getParameters is a set of node identities keyed by name, so an
    argument whose name the set already holds is not added. *)
Definition RooArgSet_add (set : list RooAbsArg) (a : RooAbsArg) : list RooAbsArg :=
  if bool_decide (namePtr a ∈ namePtr <$> set) then set else set ++ [a].

(** Modelled from the spec: RooArgSet::sort is not in this source.  The set is
    "sorted by name". *)
Definition RooArgSet_sort (set : list RooAbsArg) : list RooAbsArg := merge_sort nameLe set.

Definition getParameters (d : RooFitDriver) : list RooAbsArg :=
  let parameters :=
    foldl (λ parameters nodeInfo,
             if negb (fromDataset nodeInfo) && isVariable nodeInfo
             then RooArgSet_add parameters (absArg nodeInfo)
             else parameters) [] (_nodes d) in
  RooArgSet_sort parameters.

(** Modelled from the spec: the parameter enumeration of the graph provider
    (RooAbsArg::getParameters) is not in this source.  The provider yields the
    value-reachable nodes with their names and classes; the leaves are either
    scalar parameters or dataset-backed, so its parameters are the variables
    among its nodes that the dataset has no column for, sorted by name. *)
Definition providerParameters (graph : list RooAbsArg) (dataSpans : gmap string Span)
    : list RooAbsArg :=
  RooArgSet_sort
    (filter (λ a, isRooRealVar a = true ∧ dataSpans !! namePtr a = None) graph).

Lemma String_leb_trans s1 s2 s3 :
  String.leb s1 s2 = true → String.leb s2 s3 = true → String.leb s1 s3 = true.
Proof.
  unfold String.leb. revert s2 s3.
  induction s1 as [|c1 s1 IH]; intros [|c2 s2] [|c3 s3]; simpl; try done.
  unfold Ascii.compare.
  destruct (N.compare_spec (Ascii.N_of_ascii c1) (Ascii.N_of_ascii c2)),
           (N.compare_spec (Ascii.N_of_ascii c2) (Ascii.N_of_ascii c3)),
           (N.compare_spec (Ascii.N_of_ascii c1) (Ascii.N_of_ascii c3));
    try done; try lia.
  apply IH.
Qed.

Global Instance nameLe_total : Total nameLe.
Proof. intros a b. apply String.leb_total. Qed.

Global Instance nameLe_trans : Transitive nameLe.
Proof. intros a b c. apply String_leb_trans. Qed.

(** A list of arguments with different names has one sorted arrangement. *)
Lemma sorted_by_name_unique (l1 l2 : list RooAbsArg) :
  NoDup (namePtr <$> l1) → l1 ≡ₚ l2 →
  RooArgSet_sort l1 = RooArgSet_sort l2.
Proof.
  intros Hnd Hperm. unfold RooArgSet_sort.
  apply (Sorted_unique_strong nameLe); try apply Sorted_merge_sort; try apply _.
  - intros a b Ha Hb Hab Hba.
    rewrite merge_sort_Permutation in Ha. rewrite merge_sort_Permutation, <- Hperm in Hb.
    pose proof (String.leb_antisym _ _ Hab Hba) as Hname.
    apply list_elem_of_lookup in Ha as [i Hi]. apply list_elem_of_lookup in Hb as [j Hj].
    assert (i = j) as ->; [|congruence].
    apply (NoDup_lookup _ _ _ (namePtr a) Hnd); rewrite list_lookup_fmap.
    + by rewrite Hi.
    + rewrite Hj. simpl. by rewrite Hname.
  - by rewrite !merge_sort_Permutation.
Qed.

(** With different names every add appends. *)
Lemma add_parameters_filter (l : list NodeInfo) :
  NoDup (namePtr ∘ absArg <$> l) →
  foldl (λ parameters nodeInfo,
           if negb (fromDataset nodeInfo) && isVariable nodeInfo
           then RooArgSet_add parameters (absArg nodeInfo)
           else parameters) [] l
  = absArg <$> filter (λ info, fromDataset info = false ∧ isVariable info = true) l.
Proof.
  induction l as [|x l IH] using rev_ind; [done|].
  rewrite fmap_app, NoDup_app. intros (Hnd & Hx & _).
  rewrite foldl_snoc, filter_app, fmap_app, IH by done.
  destruct (fromDataset x) eqn:Hfd, (isVariable x) eqn:Hv; simpl;
    rewrite ?filter_cons_False, ?filter_nil, ?app_nil_r by (rewrite ?Hfd, ?Hv; naive_solver);
    try done.
  rewrite filter_cons_True, filter_nil by (by rewrite Hfd, Hv). simpl.
  unfold RooArgSet_add. rewrite bool_decide_eq_false_2; [done|].
  intros Hin. rewrite <- list_fmap_compose in Hin.
  apply list_elem_of_fmap in Hin as (y & Hy & Hin). apply list_elem_of_filter in Hin as [_ Hin].
  apply (Hx (namePtr (absArg x))); [|set_solver].
  apply list_elem_of_fmap. exists y. by split.
Qed.

Lemma filter_fmap_pointwise {A B C} (f : A → C) (g : B → C) (P : A → Prop) (Q : C → Prop)
    `{!∀ a, Decision (P a)} `{!∀ c, Decision (Q c)} (l : list A) (k : list B) :
  Forall2 (λ a b, f a = g b ∧ (P a ↔ Q (g b))) l k →
  f <$> filter P l = filter Q (g <$> k) ∧ f <$> l = g <$> k.
Proof.
  induction 1 as [|a b l k [Hfg HPQ] _ [IH1 IH2]]; [done|].
  rewrite !fmap_cons, Hfg, IH2. split; [|done].
  destruct (decide (P a)) as [HP|HP].
  - rewrite filter_cons_True, (filter_cons_True Q) by tauto. by rewrite fmap_cons, Hfg, IH1.
  - rewrite filter_cons_False, (filter_cons_False Q) by tauto. done.
Qed.

(** The members getParameters reads, after setData. *)
Lemma setData_parameters w dataSpans m d0 :
  (∀ x, x ∈ _nodes d0 → isVariable x = isRooRealVar (absArg x)) →
  Forall2 (λ info x, absArg info = absArg x
                     ∧ (fromDataset info = false ∧ isVariable info = true
                        ↔ isRooRealVar (absArg x) = true ∧ dataSpans !! namePtr (absArg x) = None))
    (_nodes (setData w dataSpans m d0)) (_nodes d0).
Proof.
  intros Hvar.
  destruct (setData_nodes w dataSpans m d0) as (Hlen & _ & _ & _ & Hn).
  apply Forall2_same_length_lookup_2; [done|]. intros j info x Hinfo Hx.
  destruct (Hn j x Hx) as [c Hc]. rewrite Hc in Hinfo. apply (inj Some) in Hinfo as <-.
  destruct (sizedNode_fields m j (boundNode dataSpans j x)) as (_ & Hfd & _ & Ha & _ & _ & _ & Hv).
  destruct (boundNode_fields dataSpans j x) as (_ & Ha' & _ & _ & _ & Hv' & Hfd' & _).
  simpl. rewrite Ha, Ha', Hfd, Hfd', Hv, Hv', (Hvar x) by (by eapply list_elem_of_lookup_2).
  split; [done|]. destruct (dataSpans !! namePtr (absArg x)) as [found|].
  - rewrite bool_decide_eq_true_2 by done. naive_solver.
  - rewrite bool_decide_eq_false_2 by (by intros [? ?]). naive_solver.
Qed.

(** C8.  After setData, getParameters returns the arguments of exactly the
    nodes with isVariable true and fromDataset false, sorted by name, and the
    result is the parameter enumeration of the graph provider for the same
    graph and dataset.  The names of the nodes differ, as they do in the
    RooArgSet the node list is filled from. *)
Theorem getParameters_is_provider_enumeration w dataSpans m d0 graph :
  NoDup (namePtr ∘ absArg <$> _nodes d0) →
  (∀ x, x ∈ _nodes d0 → isVariable x = isRooRealVar (absArg x)) →
  graph ≡ₚ absArg <$> _nodes d0 →
  let d := setData w dataSpans m d0 in
  (∀ a, a ∈ getParameters d ↔
        ∃ info, info ∈ _nodes d ∧ absArg info = a
                ∧ isVariable info = true ∧ fromDataset info = false)
  ∧ StronglySorted nameLe (getParameters d)
  ∧ getParameters d = providerParameters graph dataSpans.
Proof.
  intros Hnd Hvar Hperm d.
  destruct (filter_fmap_pointwise absArg absArg
              (λ info, fromDataset info = false ∧ isVariable info = true)
              (λ a, isRooRealVar a = true ∧ dataSpans !! namePtr a = None)
              _ _ (setData_parameters w dataSpans m d0 Hvar)) as [Hfilter Hargs].
  fold d in Hfilter, Hargs.
  assert (getParameters d
          = RooArgSet_sort
              (absArg <$> filter (λ info, fromDataset info = false ∧ isVariable info = true)
                            (_nodes d))) as Hget.
  { unfold getParameters. rewrite add_parameters_filter; [done|].
    by rewrite list_fmap_compose, Hargs, <- list_fmap_compose. }
  split; [|split].
  - intros a. rewrite Hget. unfold RooArgSet_sort. rewrite merge_sort_Permutation.
    rewrite list_elem_of_fmap. split.
    + intros (info & -> & ([Hfd Hv] & Hin)%list_elem_of_filter). by exists info.
    + intros (info & Hin & <- & Hv & Hfd). exists info. split; [done|].
      by apply list_elem_of_filter.
  - apply StronglySorted_merge_sort; apply _.
  - rewrite Hget, Hfilter. unfold providerParameters. apply sorted_by_name_unique.
    + apply (sublist_NoDup _ (namePtr <$> (absArg <$> _nodes d0)));
        [by rewrite <- list_fmap_compose|].
      apply fmap_sublist, sublist_filter.
    + by rewrite Hperm.
Qed.

(** ** What an evaluation leaves as it is *)

Lemma foldl_pointwise {A B} (f : A → B → A) (a : A) (l l' : list B) :
  Forall2 (λ x y, ∀ a, f a x = f a y) l l' → foldl f a l = foldl f a l'.
Proof.
  intros H. revert a. induction H as [|x y l l' Hxy _ IH]; intros a; [done|].
  simpl. by rewrite Hxy, IH.
Qed.

Lemma getParameters_sameGraph d d' :
  sameGraph (_nodes d) (_nodes d') → getParameters d' = getParameters d.
Proof.
  intros Hg. unfold getParameters. f_equal. apply foldl_pointwise.
  apply Forall2_same_length_lookup_2; [by apply sameGraph_length|].
  intros j x' x Hx' Hx parameters. specialize (Hg j). rewrite Hx', Hx in Hg. simpl in Hg.
  apply (inj Some) in Hg. by apply staticPart_fields in Hg as (-> & -> & -> & _).
Qed.

(** X8.  getVal, in either mode, leaves the graph as it is: the arguments of
    the nodes, their client and server lists, their output sizes, which of
    them are bound to the dataset and which are copied after the evaluation;
    it leaves the mode as it is; and getParameters returns afterwards what it
    returned before. *)
Theorem getVal_keeps_graph w isActive fuel d r d' :
  getVal w isActive fuel d = Some (r, d') →
  sameGraph (_nodes d) (_nodes d') ∧ _batchMode d' = _batchMode d
  ∧ getParameters d' = getParameters d.
Proof.
  intros Hget.
  assert (sameGraph (_nodes d) (_nodes d') ∧ _batchMode d' = _batchMode d) as [Hg Hb].
  { destruct (inCudaMode d) eqn:Hmode.
    - unfold getVal in Hget. simpl in Hget.
      change (inCudaMode (set_getValInvocations (S (_getValInvocations d)) d))
        with (inCudaMode d) in Hget. rewrite Hmode in Hget.
      unfold inCudaMode in Hmode.
      apply andb_true_iff in Hmode as [Hcuda Hcu%bool_decide_eq_true].
      pose proof (tracks_getValHeterogeneous w isActive fuel
                    (set_getValInvocations (S (_getValInvocations d)) d) Hcuda Hcu) as Ht.
      rewrite Hget in Ht. destruct (rounds _ _ _ _) as [s'|]; [|done].
      destruct Ht as [[Hgraph _ Hbm _] _]. done.
    - rewrite (getVal_host w isActive fuel d Hmode) in Hget. unfold getValHost in Hget.
      injection Hget as _ <-.
      split; [apply (hostPass_sameGraph w (set_getValInvocations _ d))
             |apply (hostPass_batchMode w (set_getValInvocations _ d))]. }
  split; [done|]. split; [done|]. by apply getParameters_sameGraph.
Qed.

(** ** Two evaluations in a row *)

(** In host mode the second of two evaluations with the same values finds
    nothing to do. *)
Lemma getVal_twice_host w isActive isActive' fuel fuel' d r1 d1 r2 d2 :
  inCudaMode d = false → wellFormed (_nodes d) →
  getVal w isActive fuel d = Some (r1, d1) →
  getVal w isActive' fuel' d1 = Some (r2, d2) →
  r2 = r1 ∧ _trace d2 = _trace d1.
Proof.
  intros Hhost Hwf. rewrite (getVal_host _ _ _ _ Hhost). unfold getValHost.
  intros [= <- <-].
  set (d0 := set_getValInvocations (S (_getValInvocations d)) d).
  set (d1 := forNodes (evaluateNode w) d0).
  assert (inCudaMode d1 = false) as Hhost1.
  { unfold inCudaMode in *. unfold d1. by rewrite hostPass_batchMode. }
  rewrite (getVal_host _ _ _ _ Hhost1). unfold getValHost.
  pose proof (hostPass_evaluated w d0 Hwf) as Hev. fold d1 in Hev.
  pose proof (wellFormed_sameGraph _ _ (hostPass_sameGraph w d0) Hwf) as Hwf1. fold d1 in Hwf1.
  rewrite (hostPass_again w (set_getValInvocations (S (_getValInvocations d1)) d1)) by done.
  by intros [= <- <-].
Qed.

(** setData keeps the edges of the graph, and in device mode it ends with
    markGPUNodes, which marks batches only. *)
Lemma setData_wellFormed w dataSpans m d :
  wellFormed (_nodes d) → wellFormed (_nodes (setData w dataSpans m d)).
Proof.
  apply wellFormed_edges. intros j.
  destruct (setData_nodes w dataSpans m d) as (Hlen & _ & _ & _ & Hn).
  destruct (_nodes d !! j) as [x|] eqn:Hx.
  - destruct (Hn j x Hx) as (c & ->). simpl.
    destruct (sizedNode_fields m j (boundNode dataSpans j x)) as (_ & _ & _ & _ & _ & -> & -> & _).
    by destruct (boundNode_fields dataSpans j x) as (_ & _ & _ & -> & -> & _).
  - rewrite (proj2 (lookup_ge_None _ _)); [done|].
    rewrite Hlen. by apply lookup_ge_None.
Qed.

Lemma setData_copiesBatches w dataSpans m d :
  R__HAS_CUDA = true → _batchMode d = Cuda → copiesBatches (_nodes (setData w dataSpans m d)).
Proof.
  intros Hcuda Hmode.
  destruct (setData_stages w dataSpans m d) as (total & d1 & d2 & H1 & H2 & ->).
  pose proof (bindDataSpan_loop dataSpans d) as B. rewrite H1 in B.
  destruct B as [_ _ _ _ (_ & Bf2 & _) _]. simpl in *.
  destruct (bindOutputSize_loop m d1) as ((S1 & _) & _). rewrite <- H2 in S1.
  rewrite Hcuda. simpl. rewrite bool_decide_eq_false_2 by (intros H; apply H; congruence).
  match goal with |- context [markGPUNodes ?d3] => set (D3 := d3) end.
  intros i info' Hi Hcae.
  destruct (lookup_lt_is_Some_2 (_nodes D3) i) as [x Hx].
  { rewrite <- length_markGPUNodes. by eapply lookup_lt_Some. }
  rewrite (markGPUNodes_lookup D3 i x Hx) in Hi. injection Hi as <-. simpl in *.
  apply andb_true_iff in Hcae as [Hns _]. unfold isScalar in Hns.
  by apply negb_true_iff, Nat.eqb_neq in Hns.
Qed.

(** C2.  After setData, two evaluations in a row with the same values of the
    variables return the same result, and in host mode the second of them
    runs no kernel: it leaves the trace of the driver as it is.  In device
    mode every kernel runs again, and the result is the same when the
    kernels read the spans of their servers only and fill their output, and
    the data maps hold spans of the dataset wherever the evaluation
    publishes none. *)
Theorem getVal_twice_after_setData w dataSpans m d0 isActive isActive' fuel fuel' r1 d1 r2 d2 :
  let d := setData w dataSpans m d0 in
  wellFormed (_nodes d0) →
  (inCudaMode d = true →
     localKernels w (_nodes d) ∧ sizedKernels w (_nodes d) ∧ stableSpans d) →
  getVal w isActive fuel d = Some (r1, d1) →
  getVal w isActive' fuel' d1 = Some (r2, d2) →
  r2 = r1 ∧ (inCudaMode d = false → _trace d2 = _trace d1).
Proof.
  intros d Hwf0 Hdevice H1 H2.
  pose proof (setData_wellFormed w dataSpans m d0 Hwf0) as Hwf. fold d in Hwf.
  destruct (inCudaMode d) eqn:Hmode.
  - split; [|done]. destruct (Hdevice eq_refl) as (Hlocal & Hsized & Hstable).
    unfold inCudaMode in Hmode. apply andb_true_iff in Hmode as [Hcuda Hcu%bool_decide_eq_true].
    apply (getVal_twice_device w isActive isActive' fuel fuel' d r1 d1 r2 d2); try done.
    apply setData_copiesBatches; [done|].
    destruct (setData_nodes w dataSpans m d0) as (_ & _ & Hb & _). fold d in Hb. congruence.
  - destruct (getVal_twice_host w isActive isActive' fuel fuel' d r1 d1 r2 d2 Hmode Hwf H1 H2).
    done.
Qed.

(** ** The first evaluation on the host *)

(** What setData leaves: no node holds a buffer, and the nodes bound to the
    dataset have the spans they were given. *)
Lemma setData_hostStore w dataSpans m d :
  (∀ name span, dataSpans !! name = Some span → stablePtr (spanPtr span)) →
  hostStore (setData w dataSpans m d).
Proof.
  intros Hstable.
  destruct (setData_nodes w dataSpans m d) as (Hlen & Hmap & _ & _ & Hn).
  assert (∀ j info', _nodes (setData w dataSpans m d) !! j = Some info' →
            ∃ x c, _nodes d !! j = Some x
              ∧ info' = set_copyAfterEvaluation c (sizedNode m j (boundNode dataSpans j x)))
    as Hback.
  { intros j info' Hj. destruct (lookup_lt_is_Some_2 (_nodes d) j) as [x Hx].
    { rewrite <- Hlen. by eapply lookup_lt_Some. }
    destruct (Hn j x Hx) as (c & Hc). exists x, c. split; [done|]. congruence. }
  assert (∀ j info', _nodes (setData w dataSpans m d) !! j = Some info' →
            buffer info' = None) as Hnone.
  { intros j info' (x & c & _ & ->)%Hback. simpl.
    destruct (sizedNode_fields m j (boundNode dataSpans j x)) as (-> & _).
    by destruct (boundNode_fields dataSpans j x) as (-> & _). }
  split.
  - intros j info b Hj Hb. by rewrite (Hnone j info Hj) in Hb.
  - intros i j x y b Hx _ Hb. by rewrite (Hnone i x Hx) in Hb.
  - intros j info' span Hj Hfd Hspan. destruct (Hback j info' Hj) as (x & c & Hx & ->).
    simpl in Hfd.
    destruct (sizedNode_fields m j (boundNode dataSpans j x)) as (_ & Hf & _).
    destruct (boundNode_fields dataSpans j x) as (_ & _ & _ & _ & _ & _ & Hb & _).
    rewrite Hf, Hb in Hfd. apply bool_decide_eq_true in Hfd as [found Hfound].
    rewrite Hmap, decide_True in Hspan by (by eapply lookup_lt_Some).
    unfold boundSpan in Hspan. rewrite Hx in Hspan. simpl in Hspan.
    rewrite Hfound in Hspan. injection Hspan as <-. by eapply Hstable.
Qed.

Lemma setData_unsettled w dataSpans m d j info' :
  (∀ i info, _nodes d !! i = Some info → isVariable info = true →
     dataSpans !! namePtr (absArg info) = None →
     lastSetValCount info ≠ valueResetCounter w i) →
  _nodes (setData w dataSpans m d) !! j = Some info' → fromDataset info' = false →
  ¬ settled w j info'.
Proof.
  intros Hcount Hj Hfd.
  destruct (setData_nodes w dataSpans m d) as (Hlen & _ & _ & _ & Hn).
  destruct (lookup_lt_is_Some_2 (_nodes d) j) as [x Hx].
  { rewrite <- Hlen. by eapply lookup_lt_Some. }
  destruct (Hn j x Hx) as (c & Hc). rewrite Hc in Hj. injection Hj as <-.
  unfold settled. simpl in *.
  destruct (sizedNode_fields m j (boundNode dataSpans j x))
    as (_ & Hf & Hdt & _ & _ & _ & _ & Hv).
  destruct (boundNode_fields dataSpans j x) as (_ & _ & _ & _ & _ & Hbv & Hb & Hbd).
  rewrite Hv, Hbv, Hdt, Hbd. rewrite Hf in Hfd. rewrite Hfd. simpl.
  destruct (isVariable x) eqn:Hvar; [|done].
  assert (dataSpans !! namePtr (absArg x) = None) as Hnot.
  { rewrite Hb in Hfd. apply bool_decide_eq_false in Hfd.
    destruct (dataSpans !! namePtr (absArg x)); [|done]. by destruct Hfd. }
  replace (lastSetValCount (sizedNode m j (boundNode dataSpans j x)))
    with (lastSetValCount x); [by apply Hcount|].
  unfold sizedNode, boundNode. by repeat case_match.
Qed.

(** X11.  After setData, an evaluation in host mode returns the value of
    the graph: the first entry of what the kernel of the top node computes
    when every kernel is run, in the order of the nodes, on the outputs of
    the kernels before it and the spans of the dataset.  This is so when no
    parameter has the reset counter of its variable recorded already, as on
    a driver that was not evaluated before. *)
Theorem getVal_after_setData_host w dataSpans m d0 isActive fuel r d' :
  let d := setData w dataSpans m d0 in
  inCudaMode d = false → wellFormed (_nodes d0) → leavesHaveNoServers (_nodes d) →
  localKernels w (_nodes d) → sizedKernels w (_nodes d) →
  (∀ name span, dataSpans !! name = Some span → stablePtr (spanPtr span)) →
  (∀ i info, _nodes d0 !! i = Some info → isVariable info = true →
     dataSpans !! namePtr (absArg info) = None →
     lastSetValCount info ≠ valueResetCounter w i) →
  getVal w isActive fuel d = Some (r, d') →
  r = hostView w d (hostTable w d) (topNode d) ≫= head
  ∧ (∀ i info, _nodes d !! i = Some info →
       hostTable w d !! i
       = Some (computeBatch w Host i (outputSize info) (hostView w d (hostTable w d))))
  ∧ hostCached w d'.
Proof.
  intros d Hmode Hwf0 Hleaf Hlocal Hsized Hstable Hcount Hget.
  pose proof (setData_wellFormed w dataSpans m d0 Hwf0) as Hwf. fold d in Hwf.
  assert (hostCached w d) as Hc.
  { apply hostCached_unsettled; [by apply setData_hostStore|].
    intros j info'. by apply setData_unsettled. }
  destruct (getVal_hostCached w w isActive fuel d r d' Hmode Hwf Hleaf Hlocal Hsized Hc
              (sameInputs_refl w d) Hget) as (H1 & H2 & H3 & _).
  done.
Qed.

(** ** The device evaluation returns the value of the graph *)

(** setData ends with markGPUNodes, which has the batches copied that a
    client on the other side reads. *)
Lemma setData_copiesAcross w dataSpans m d :
  R__HAS_CUDA = true → _batchMode d = Cuda → copiesAcross (_nodes (setData w dataSpans m d)).
Proof.
  intros Hcuda Hmode.
  destruct (setData_stages w dataSpans m d) as (total & d1 & d2 & H1 & H2 & ->).
  pose proof (bindDataSpan_loop dataSpans d) as B. rewrite H1 in B.
  destruct B as [_ _ _ _ (_ & Bf2 & _) _]. simpl in *.
  destruct (bindOutputSize_loop m d1) as ((S1 & _) & _). rewrite <- H2 in S1.
  rewrite Hcuda. simpl. rewrite bool_decide_eq_false_2 by (intros H; apply H; congruence).
  match goal with |- context [markGPUNodes ?d3] => set (D3 := d3) end.
  intros s sinfo' c cinfo' Hs Hc Hin Hne.
  destruct (lookup_lt_is_Some_2 (_nodes D3) s) as [x Hx].
  { rewrite <- length_markGPUNodes. by eapply lookup_lt_Some. }
  destruct (lookup_lt_is_Some_2 (_nodes D3) c) as [y Hy].
  { rewrite <- length_markGPUNodes. by eapply lookup_lt_Some. }
  rewrite (markGPUNodes_lookup D3 s x Hx) in Hs. injection Hs as <-.
  rewrite (markGPUNodes_lookup D3 c y Hy) in Hc. injection Hc as <-.
  simpl in *. unfold isScalar.
  destruct (outputSize x =? 1) eqn:Hn; [left; by apply Nat.eqb_eq|right]. simpl.
  unfold clientOnOtherSide. apply elem_of_existsb. exists c. split; [done|].
  unfold computeInGPUAt. rewrite Hy. simpl.
  change (computeInGPU (set_copyAfterEvaluation ?b ?z)) with (computeInGPU z) in Hne.
  by destruct (computeInGPU x), (computeInGPU y).
Qed.

(** X12.  After setData, an evaluation in device mode returns what the
    sequential evaluation of the graph on the host gives: the first entry of
    what the kernel of the top node computes when every kernel is run on the
    host, in the order of the nodes, on the outputs of the kernels before
    it and the spans of the dataset.  This is so when the kernels read the
    spans of their servers only, fill their output and compute the same on
    either side; the data maps hold spans of the dataset wherever the
    evaluation publishes none, and the device data map shows of the
    dataset what the host data map shows; no node bound to the dataset
    computes on the device; and the top node is a scalar or computes on the
    host. *)
Theorem device_agrees_with_host w dataSpans m d0 isActive fuel r d' :
  let d := setData w dataSpans m d0 in
  inCudaMode d = true → wellFormed (_nodes d0) →
  localKernels w (_nodes d) → sizedKernels w (_nodes d) → sideIndependent w (_nodes d) →
  stableSpans d → datasetCopied w d → datasetOnHost (_nodes d) → topOnHost (_nodes d) →
  getVal w isActive fuel d = Some (r, d') →
  r = hostView w d (hostTable w d) (topNode d) ≫= head
  ∧ ∀ i info, _nodes d !! i = Some info →
      hostTable w d !! i
      = Some (computeBatch w Host i (outputSize info) (hostView w d (hostTable w d))).
Proof.
  intros d Hmode Hwf0 Hlocal Hsized Hside Hstable Hcopied Hhost Htop Hget.
  pose proof (setData_wellFormed w dataSpans m d0 Hwf0) as Hwf. fold d in Hwf.
  unfold inCudaMode in Hmode. apply andb_true_iff in Hmode as [Hcuda Hcu%bool_decide_eq_true].
  assert (_batchMode d0 = Cuda) as Hcu0.
  { destruct (setData_nodes w dataSpans m d0) as (_ & _ & Hb & _). fold d in Hb. congruence. }
  pose proof (setData_copiesBatches w dataSpans m d0 Hcuda Hcu0) as Hbatches.
  pose proof (setData_copiesAcross w dataSpans m d0 Hcuda Hcu0) as Hacross.
  fold d in Hbatches, Hacross.
  destruct (getVal_device_value w isActive fuel d r d' Hcuda Hcu Hwf Hlocal Hsized Hbatches
              Hstable Hget) as (-> & _ & _ & Hne).
  split; [by apply expectedValue_host|].
  intros i info Hi. by apply hostTable_view.
Qed.

(** ** Construction without a device backend *)

(** The two errors that say that the device is not available. *)
Definition deviceUnavailable (what : string) : Prop :=
  what = "Can't create RooFitDriver in CUDA mode because ROOT was compiled without CUDA support!"
  ∨ what = "Cuda implementation of the computing library is not available".

Lemma linkServers_what c srv nodes what :
  linkServers c srv nodes = Thrown what → what = "map::at".
Proof.
  revert nodes. induction srv as [|[s v] srv IH]; intros nodes; simpl; [done|].
  destruct v; [|apply IH]. destruct (nodes !! s); [apply IH|]. by intros [= <-].
Qed.

Lemma linkNodes_what cs nodes what : linkNodes cs nodes = Thrown what → what = "map::at".
Proof.
  revert nodes. induction cs as [|c cs IH]; intros nodes; simpl; [done|].
  destruct (linkServers _ _ _) as [nodes'|what'] eqn:Hl; [apply IH|].
  intros [= <-]. by eapply linkServers_what.
Qed.

(** C3.  With no device backend (ROOT built without CUDA, or the CUDA
    library not available when the driver is constructed), the construction
    in CUDA mode ends with a device-unavailable error exactly when ROOT was
    built without CUDA, or the message stream is active and the architecture
    was not logged for CUDA mode before.  In the other cases the missing
    backend goes unnoticed: logArchitectureInfo returns before its check. *)
Theorem construct_device_unavailable_iff rt lastBatchMode serverSet :
  R__HAS_CUDA = false ∨ hasCuda rt = false →
  (∃ lastBatchMode' what,
     construct rt lastBatchMode serverSet Cuda = (lastBatchMode', Thrown what)
     ∧ deviceUnavailable what)
  ↔ R__HAS_CUDA = false ∨ (msgActive rt = true ∧ lastBatchMode ≠ (Cuda, true)).
Proof.
  intros Hno. unfold construct, logArchitectureInfo.
  destruct R__HAS_CUDA eqn:Hcuda; simpl.
  2:{ split; [by left|]. intros _. eexists _, _. split; [done|]. by left. }
  destruct Hno as [?|Hno]; [done|]. rewrite Hno. simpl.
  destruct (msgActive rt); simpl.
  2:{ split; [|by intros [?|[? _]]]. intros (lb & what & Hc & Hw).
      destruct (linkNodes _ _) as [nodes|what'] eqn:Hl; [done|].
      apply linkNodes_what in Hl. injection Hc as <- <-. subst.
      by destruct Hw. }
  destruct lastBatchMode as [mode logged]. simpl.
  destruct (logged && bool_decide (mode = Cuda)) eqn:Hlogged; simpl.
  - apply andb_true_iff in Hlogged as [-> ->%bool_decide_eq_true].
    split; [|by intros [?|[_ ?]]]. intros (lb & what & Hc & Hw).
    destruct (linkNodes _ _) as [nodes|what'] eqn:Hl; [done|].
    apply linkNodes_what in Hl. injection Hc as <- <-. subst.
    by destruct Hw.
  - split.
    + intros _. right. split; [done|]. intros [= -> ->]. by rewrite bool_decide_eq_true_2 in Hlogged.
    + intros _. eexists _, _. split; [done|]. by right.
Qed.

(** ** Logging the architecture *)

(** X6.  Whatever a call of logArchitectureInfo did, the next call for the
    same mode logs nothing, leaves the record of the last mode as it is, and
    does not throw: not even when the first call threw because the CUDA
    library is missing.  After a call for another mode, with the message
    stream active, the call for the first mode logs or throws again. *)
Theorem logArchitectureInfo_again rt lastBatchMode batchMode :
  let first := logArchitectureInfo rt lastBatchMode batchMode in
  logArchitectureInfo rt first.1 batchMode = (first.1, Returned [])
  ∧ ∀ other,
      other ≠ batchMode → msgActive rt = true →
      (logArchitectureInfo rt (logArchitectureInfo rt first.1 other).1 batchMode).2
        ≠ Returned [].
Proof.
  unfold logArchitectureInfo. destruct lastBatchMode as [mode logged]. simpl. split.
  - destruct (msgActive rt); simpl; [|done].
    destruct (logged && bool_decide (mode = batchMode)) eqn:Hl; simpl.
    + by rewrite Hl.
    + destruct (bool_decide (batchMode = Cuda) && negb (hasCuda rt)); simpl;
        by rewrite bool_decide_eq_true_2.
  - intros other Hother ->. simpl.
    destruct (logged && bool_decide (mode = batchMode)) eqn:Hl; simpl.
    + apply andb_true_iff in Hl as [-> ->%bool_decide_eq_true]. simpl.
      rewrite (bool_decide_eq_false_2 (batchMode = other)) by done. simpl.
      destruct (bool_decide (other = Cuda) && negb (hasCuda rt)); simpl;
        rewrite (bool_decide_eq_false_2 (other = batchMode)) by done; simpl;
        destruct (bool_decide (batchMode = Cuda) && negb (hasCuda rt)); simpl; try done;
        by destruct (bool_decide (cpuArchitecture rt = GENERIC)).
    + destruct (bool_decide (batchMode = Cuda) && negb (hasCuda rt)) eqn:Hthrow; simpl;
        rewrite (bool_decide_eq_false_2 (batchMode = other)) by done; simpl;
        destruct (bool_decide (other = Cuda) && negb (hasCuda rt)); simpl;
        rewrite (bool_decide_eq_false_2 (other = batchMode)) by done; simpl;
        rewrite ?Hthrow; simpl; try done;
        by destruct (bool_decide (cpuArchitecture rt = GENERIC)).
Qed.

(** ** The graph the constructor builds *)

(** The value servers of an argument, in the order of its server list. *)
Definition valueServers (arg : RooAbsArg) : list nat :=
  fst <$> filter (λ sv : nat * bool, sv.2 = true) (servers arg).

(** The node list while the constructor links servers and clients: but for
    the two lists every node is as the first loop left it, the two lists
    agree edge by edge, the servers of a node are value servers of its
    argument, and the clients are nodes. *)
Record linked (serverSet : list RooAbsArg) (nodes : list NodeInfo) : Prop := {
  lk_args : ∀ j,
    (λ x, set_serverInfos [] (set_clientInfos [] x)) <$> nodes !! j
      = newNodeInfo j <$> serverSet !! j;
  lk_edges : ∀ s c sinfo cinfo, nodes !! s = Some sinfo → nodes !! c = Some cinfo →
    occurrences c (clientInfos sinfo) = occurrences s (serverInfos cinfo);
  lk_servers : ∀ c cinfo s, nodes !! c = Some cinfo → s ∈ serverInfos cinfo →
    s ∈ valueServers (absArg cinfo);
  lk_clients : ∀ s sinfo c, nodes !! s = Some sinfo → c ∈ clientInfos sinfo →
    c < length nodes;
}.

Lemma occurrences_app x l k : occurrences x (l ++ k) = occurrences x l + occurrences x k.
Proof. unfold occurrences. by rewrite filter_app, length_app. Qed.

Lemma occurrences_singleton x y : occurrences x [y] = if decide (x = y) then 1 else 0.
Proof. unfold occurrences. rewrite filter_cons, filter_nil. by case_decide. Qed.

Lemma linked_new serverSet : linked serverSet (imap newNodeInfo serverSet).
Proof.
  split.
  - intros j. rewrite list_lookup_imap. by destruct (serverSet !! j).
  - intros s c sinfo cinfo. rewrite !list_lookup_imap.
    destruct (serverSet !! s), (serverSet !! c); simpl; try done. by intros [= <-] [= <-].
  - intros c cinfo s. rewrite list_lookup_imap.
    destruct (serverSet !! c); simpl; [|done]. intros [= <-]. by intros ?%elem_of_nil.
  - intros s sinfo c. rewrite list_lookup_imap.
    destruct (serverSet !! s); simpl; [|done]. intros [= <-]. by intros ?%elem_of_nil.
Qed.

Lemma linked_args serverSet nodes j x :
  linked serverSet nodes → nodes !! j = Some x →
  serverSet !! j = Some (absArg x) ∧ isVariable x = isRooRealVar (absArg x)
  ∧ isCategory x = isRooAbsCategory (absArg x) ∧ iNode x = j
  ∧ dataToken x = (if isRooRealVar (absArg x) then None else Some j)
  ∧ fromDataset x = false ∧ isDirty x = true ∧ outputSize x = 1 ∧ buffer x = None.
Proof.
  intros [Ha _ _ _] Hx. specialize (Ha j). rewrite Hx in Ha.
  destruct (serverSet !! j) as [arg|]; [|done]. apply (inj Some) in Ha.
  pose proof (f_equal absArg Ha) as H1. pose proof (f_equal isVariable Ha) as H2.
  pose proof (f_equal isCategory Ha) as H3. pose proof (f_equal iNode Ha) as H4.
  pose proof (f_equal dataToken Ha) as H5. pose proof (f_equal fromDataset Ha) as H6.
  pose proof (f_equal isDirty Ha) as H7. pose proof (f_equal outputSize Ha) as H8.
  pose proof (f_equal buffer Ha) as H9. simpl in *. by subst.
Qed.

Lemma linked_length serverSet nodes : linked serverSet nodes → length nodes = length serverSet.
Proof.
  intros [Ha _ _ _].
  destruct (decide (length nodes = length serverSet)) as [|Hne]; [done|exfalso].
  destruct (decide (length nodes < length serverSet)).
  - specialize (Ha (length nodes)).
    rewrite (proj2 (lookup_ge_None nodes _)) in Ha by lia.
    destruct (lookup_lt_is_Some_2 serverSet (length nodes)) as [a Hs]; [lia|].
    by rewrite Hs in Ha.
  - specialize (Ha (length serverSet)).
    rewrite (proj2 (lookup_ge_None serverSet _)) in Ha by lia.
    destruct (lookup_lt_is_Some_2 nodes (length serverSet)) as [a Hs]; [lia|].
    by rewrite Hs in Ha.
Qed.

(** One edge: [s] becomes a server of [c] and [c] a client of [s]. *)
Definition link (s c : nat) (nodes : list NodeInfo) : list NodeInfo :=
  alter (λ info, set_clientInfos (clientInfos info ++ [c]) info) s
    (alter (λ info, set_serverInfos (serverInfos info ++ [s]) info) c nodes).

Lemma link_lookup s c nodes j :
  link s c nodes !! j =
    (λ x, let x := if decide (c = j) then set_serverInfos (serverInfos x ++ [s]) x else x in
          if decide (s = j) then set_clientInfos (clientInfos x ++ [c]) x else x)
      <$> nodes !! j.
Proof.
  unfold link. rewrite !list_lookup_alter.
  repeat case_decide; simplify_eq; by destruct (nodes !! _).
Qed.

Lemma linked_link serverSet nodes s c cinfo :
  linked serverSet nodes → nodes !! c = Some cinfo → s ∈ valueServers (absArg cinfo) →
  linked serverSet (link s c nodes).
Proof.
  intros [Ha He Hs Hc] Hcinfo Hsv. split.
  - intros j. rewrite link_lookup, <- Ha.
    destruct (nodes !! j) as [x|]; simpl; [|done]. f_equal.
    by destruct (decide (c = j)), (decide (s = j)).
  - intros s' c' sinfo' cinfo'. rewrite !link_lookup.
    destruct (nodes !! s') as [x|] eqn:Hx; simpl; [|done].
    destruct (nodes !! c') as [y|] eqn:Hy; simpl; [|done].
    intros [= <-] [= <-]. specialize (He s' c' x y Hx Hy).
    destruct (decide (c = s')), (decide (s = s')), (decide (c = c')), (decide (s = c'));
      simpl; rewrite ?occurrences_app, ?occurrences_singleton;
      repeat case_decide; subst; try lia; congruence.
  - intros c' cinfo' s'. rewrite link_lookup.
    destruct (nodes !! c') as [y|] eqn:Hy; simpl; [|done]. intros [= <-].
    destruct (decide (c = c')) as [->|], (decide (s = c')); simpl;
      rewrite ?elem_of_app, ?list_elem_of_singleton; try apply (Hs c' y s' Hy).
    + intros [? | ->]; [by apply (Hs c' y)|]. by simplify_eq.
    + intros [? | ->]; [by apply (Hs c' y)|]. by simplify_eq.
  - intros s' sinfo' c'. rewrite link_lookup. unfold link. rewrite !length_alter.
    destruct (nodes !! s') as [x|] eqn:Hx; simpl; [|done]. intros [= <-].
    destruct (decide (c = s')), (decide (s = s')); simpl;
      rewrite ?elem_of_app, ?list_elem_of_singleton; try apply (Hc s' x c' Hx).
    + intros [? | ->]; [by apply (Hc s' x)|]. by eapply lookup_lt_Some.
    + intros [? | ->]; [by apply (Hc s' x)|]. by eapply lookup_lt_Some.
Qed.

Lemma link_serverInfos s c nodes j :
  serverInfos <$> link s c nodes !! j =
    (λ x, if decide (c = j) then serverInfos x ++ [s] else serverInfos x) <$> nodes !! j.
Proof.
  rewrite link_lookup. destruct (nodes !! j); simpl; [|done]. f_equal.
  by destruct (decide (c = j)), (decide (s = j)).
Qed.

(** The inner loop, for a node [c] whose value servers are all in the list. *)
Lemma linkServers_linked serverSet c cinfo srv nodes :
  linked serverSet nodes → nodes !! c = Some cinfo →
  (∀ s, s ∈ fst <$> filter (λ sv : nat * bool, sv.2 = true) srv →
        s ∈ valueServers (absArg cinfo) ∧ s < length nodes) →
  ∃ nodes', linkServers c srv nodes = Returned nodes' ∧ linked serverSet nodes'
    ∧ ∀ j, serverInfos <$> nodes' !! j =
        (λ x, if decide (c = j)
              then serverInfos x ++ (fst <$> filter (λ sv : nat * bool, sv.2 = true) srv)
              else serverInfos x) <$> nodes !! j.
Proof.
  revert nodes cinfo. induction srv as [|[s v] srv IH]; intros nodes cinfo Hl Hc Hsrv.
  { exists nodes. split; [done|]. split; [done|]. intros j.
    destruct (nodes !! j); simpl; [|done]. case_decide; by rewrite ?app_nil_r. }
  simpl. destruct v.
  2:{ rewrite filter_cons_False in Hsrv |- * by (simpl; congruence). by apply (IH nodes cinfo). }
  rewrite filter_cons_True in Hsrv |- * by done.
  destruct (Hsrv s) as [Hsv Hlt]; [set_solver|].
  destruct (lookup_lt_is_Some_2 nodes s Hlt) as [sinfo ->].
  change (alter _ s (alter _ c nodes)) with (link s c nodes).
  assert (∃ cinfo', link s c nodes !! c = Some cinfo' ∧ absArg cinfo' = absArg cinfo)
    as (cinfo' & Hc' & Harg).
  { rewrite link_lookup, Hc. simpl. eexists. split; [done|].
    by repeat case_decide. }
  destruct (IH (link s c nodes) cinfo') as (nodes' & -> & Hl' & Hsi).
  - by apply (linked_link _ _ _ _ cinfo).
  - done.
  - intros s' Hs'. rewrite Harg. unfold link. rewrite !length_alter. apply Hsrv. set_solver.
  - exists nodes'. split; [done|]. split; [done|]. intros j.
    rewrite Hsi. pose proof (link_serverInfos s c nodes j) as Hj.
    destruct (link s c nodes !! j) as [y|], (nodes !! j) as [x|]; simplify_eq/=; try done.
    f_equal. case_decide; [|done]. by rewrite Hj, <- app_assoc.
Qed.

(** The outer loop over the nodes [k], ..., [k + m - 1]. *)
Lemma linkNodes_linked serverSet m k nodes :
  linked serverSet nodes →
  (∀ c arg s, serverSet !! c = Some arg → s ∈ valueServers arg → s < length serverSet) →
  ∃ nodes', linkNodes (seq k m) nodes = Returned nodes' ∧ linked serverSet nodes'
    ∧ ∀ j, serverInfos <$> nodes' !! j =
        (λ x, if decide (k ≤ j < k + m) then serverInfos x ++ valueServers (absArg x)
              else serverInfos x) <$> nodes !! j.
Proof.
  intros Hl Hin. revert k nodes Hl. induction m as [|m IH]; intros k nodes Hl.
  { exists nodes. split; [done|]. split; [done|]. intros j.
    destruct (nodes !! j); simpl; [|done]. rewrite decide_False by lia. done. }
  simpl. destruct (nodes !! k) as [cinfo|] eqn:Hc; simpl.
  - destruct (linkServers_linked serverSet k cinfo (servers (absArg cinfo)) nodes Hl Hc)
      as (nodes1 & -> & Hl1 & Hs1).
    { intros s Hs. split; [done|]. rewrite (linked_length _ _ Hl).
      destruct (linked_args _ _ _ _ Hl Hc) as (Harg & _). by apply (Hin k (absArg cinfo)). }
    destruct (IH (S k) nodes1 Hl1) as (nodes' & -> & Hl' & Hs').
    exists nodes'. split; [done|]. split; [done|]. intros j. rewrite Hs'.
    specialize (Hs1 j).
    assert (absArg <$> nodes1 !! j = absArg <$> nodes !! j) as Ha.
    { pose proof (lk_args _ _ Hl1 j) as H1. pose proof (lk_args _ _ Hl j) as H2.
      rewrite <- H2 in H1. destruct (nodes1 !! j), (nodes !! j); simpl in *; try done.
      apply (inj Some) in H1. f_equal. by apply (f_equal absArg) in H1. }
    destruct (decide (k = j)) as [->|Hne].
    + rewrite Hc in Hs1, Ha |- *. destruct (nodes1 !! j) as [y|]; simplify_eq/=.
      f_equal. rewrite ?decide_True in Hs1 by done.
      rewrite decide_False, decide_True by lia. done.
    + destruct (nodes1 !! j) as [y|], (nodes !! j) as [x|]; simplify_eq/=; try done.
      f_equal. rewrite ?decide_False in Hs1 by done. rewrite Hs1, Ha.
      repeat case_decide; try lia; done.
  - destruct (IH (S k) nodes Hl) as (nodes' & -> & Hl' & Hs').
    exists nodes'. split; [done|]. split; [done|]. intros j. rewrite Hs'.
    destruct (nodes !! j) as [x|] eqn:Hx; simpl; [|done]. f_equal.
    repeat case_decide; try lia; try done. assert (j = k) as -> by lia. congruence.
Qed.

(** The nodes are sorted: every value server comes before its clients. *)
Definition serversFirst (serverSet : list RooAbsArg) : Prop :=
  ∀ c arg s, serverSet !! c = Some arg → s ∈ valueServers arg → s < c.

Lemma linked_wellFormed serverSet nodes :
  serversFirst serverSet → linked serverSet nodes → wellFormed nodes.
Proof.
  intros Hsorted Hl. pose proof Hl as [Ha He Hs Hc]. split; [done|..].
  - intros s sinfo c Hsi Hin. pose proof (Hc s sinfo c Hsi Hin) as Hlt. split; [|done].
    destruct (lookup_lt_is_Some_2 nodes c Hlt) as [cinfo Hci].
    destruct (linked_args _ _ _ _ Hl Hci) as (Harg & _).
    apply (Hsorted c (absArg cinfo) s Harg), (Hs c cinfo s Hci).
    apply occurrences_pos. rewrite <- (He s c sinfo cinfo Hsi Hci). by apply occurrences_pos.
  - intros c cinfo s Hci Hin. destruct (linked_args _ _ _ _ Hl Hci) as (Harg & _).
    by apply (Hsorted c (absArg cinfo) s Harg), (Hs c cinfo s Hci).
Qed.

(** The loops only return when every value server is in the list. *)
Lemma linkServers_returned c srv nodes nodes' :
  linkServers c srv nodes = Returned nodes' →
  length nodes' = length nodes ∧ absArg <$> nodes' = absArg <$> nodes
  ∧ ∀ s, s ∈ fst <$> filter (λ sv : nat * bool, sv.2 = true) srv → s < length nodes.
Proof.
  revert nodes. induction srv as [|[s v] srv IH]; intros nodes; simpl.
  { intros [= <-]. split; [done|]. split; [done|]. by intros s ?%elem_of_nil. }
  destruct v.
  2:{ rewrite filter_cons_False by (simpl; congruence). apply IH. }
  rewrite filter_cons_True by done.
  destruct (nodes !! s) as [sinfo|] eqn:Hs; [|done].
  intros (Hlen & Hargs & Hin)%IH. rewrite !length_alter in Hlen, Hin.
  split; [done|]. split.
  - rewrite Hargs. apply list_eq. intros j. rewrite !list_lookup_fmap.
    change (alter _ s (alter _ c nodes)) with (link s c nodes). rewrite link_lookup.
    destruct (nodes !! j); simpl; [|done]. f_equal. by repeat case_decide.
  - intros s'. rewrite fmap_cons, elem_of_cons. intros [->|?]; [|by apply Hin].
    by eapply lookup_lt_Some.
Qed.

Lemma linkNodes_returned m k nodes nodes' :
  linkNodes (seq k m) nodes = Returned nodes' →
  ∀ c cinfo s, k ≤ c < k + m → nodes !! c = Some cinfo → s ∈ valueServers (absArg cinfo) →
    s < length nodes.
Proof.
  revert k nodes. induction m as [|m IH]; intros k nodes; simpl; [intros; lia|].
  destruct (linkServers _ _ _) as [nodes1|] eqn:Hl; [|done].
  apply linkServers_returned in Hl as (Hlen & Hargs & Hin).
  intros Hrest c cinfo s Hc Hci Hs.
  destruct (decide (c = k)) as [->|Hne].
  - apply Hin. by rewrite Hci.
  - rewrite <- Hlen.
    assert (absArg <$> nodes1 !! c = Some (absArg cinfo)) as Ha.
    { by rewrite <- list_lookup_fmap, Hargs, list_lookup_fmap, Hci. }
    destruct (nodes1 !! c) as [y|] eqn:Hy; simplify_eq/=.
    apply (IH (S k) nodes1 Hrest c y s); [lia|done|]. by rewrite Ha.
Qed.

(** X1.  When the arguments are sorted, servers first, a constructed driver
    holds a well-formed graph over them: the client and server lists agree
    edge by edge and point forward and backward in the list, each node sits
    at the position of its argument with the value servers of the argument
    as its servers, the flags are those of the class of the argument, no node
    is bound to the dataset, every node is dirty and holds no buffer, and the
    events and streams exist exactly in CUDA mode. *)
Theorem construct_nodes rt lastBatchMode serverSet batchMode lastBatchMode' messages d :
  serversFirst serverSet →
  construct rt lastBatchMode serverSet batchMode = (lastBatchMode', Returned (messages, d)) →
  wellFormed (_nodes d) ∧ absArg <$> _nodes d = serverSet ∧ _batchMode d = batchMode
  ∧ ∀ i info, _nodes d !! i = Some info →
      iNode info = i ∧ serverInfos info = valueServers (absArg info)
      ∧ isVariable info = isRooRealVar (absArg info)
      ∧ isCategory info = isRooAbsCategory (absArg info)
      ∧ dataToken info = (if isRooRealVar (absArg info) then None else Some i)
      ∧ event info = (R__HAS_CUDA && bool_decide (batchMode = Cuda))
      ∧ stream info = (R__HAS_CUDA && bool_decide (batchMode = Cuda))
      ∧ fromDataset info = false ∧ isDirty info = true ∧ buffer info = None.
Proof.
  intros Hsorted. unfold construct.
  destruct (negb R__HAS_CUDA && bool_decide (batchMode = Cuda)); [done|].
  destruct (logArchitectureInfo rt lastBatchMode batchMode) as [lb [msgs|what]]; [|done].
  destruct (linkNodes_linked serverSet (length serverSet) 0 (imap newNodeInfo serverSet)
              (linked_new serverSet)) as (nodes & Hlink & Hl & Hsi).
  { intros c arg s Hc Hs. pose proof (Hsorted c arg s Hc Hs).
    apply lookup_lt_Some in Hc. lia. }
  rewrite Hlink. intros [= <- <- <-].
  set (flag := R__HAS_CUDA && bool_decide (batchMode = Cuda)).
  set (nodes' := if flag then _ else nodes). simpl.
  assert (∀ j, nodes' !! j =
               (λ x, if flag then set_stream true (set_event true x) else x) <$> nodes !! j)
    as Hn'.
  { intros j. unfold nodes'. destruct flag; [by rewrite list_lookup_fmap|].
    by destruct (nodes !! j). }
  split.
  { apply (wellFormed_edges nodes); [|by apply (linked_wellFormed serverSet)].
    intros j. rewrite Hn'. destruct (nodes !! j); simpl; [|done]. by destruct flag. }
  split.
  { apply list_eq. intros j. rewrite list_lookup_fmap, Hn'.
    destruct (nodes !! j) as [x|] eqn:Hx; simpl.
    - destruct (linked_args _ _ _ _ Hl Hx) as (-> & _). by destruct flag.
    - pose proof (lk_args _ _ Hl j) as Ha. rewrite Hx in Ha. by destruct (serverSet !! j). }
  split; [done|]. intros i info. rewrite Hn'.
  destruct (nodes !! i) as [x|] eqn:Hx; simpl; [|done]. intros [= <-].
  destruct (linked_args _ _ _ _ Hl Hx) as (Harg & Hv & Hcat & Hi & Ht & Hfd & Hd & _ & Hb).
  specialize (Hsi i). rewrite Hx, list_lookup_imap, Harg in Hsi. simpl in Hsi.
  apply (inj Some) in Hsi. rewrite decide_True in Hsi by (apply lookup_lt_Some in Harg; lia).
  assert (event x = false ∧ stream x = false) as [He Hst].
  { pose proof (lk_args _ _ Hl i) as Ha. rewrite Hx, Harg in Ha. simpl in Ha.
    apply (inj Some) in Ha. split; [by apply (f_equal event) in Ha|by apply (f_equal stream) in Ha]. }
  destruct flag; simpl; rewrite ?He, ?Hst; done.
Qed.

(** X2.  The constructor returns a driver exactly when the build supports
    the requested mode, logArchitectureInfo returns, and every value server
    of every argument is in the given set; it never fails for another
    reason. *)
Theorem construct_returns_iff rt lastBatchMode serverSet batchMode :
  (∃ lastBatchMode' messages d,
     construct rt lastBatchMode serverSet batchMode = (lastBatchMode', Returned (messages, d)))
  ↔ ¬ (R__HAS_CUDA = false ∧ batchMode = Cuda)
    ∧ (∃ messages, (logArchitectureInfo rt lastBatchMode batchMode).2 = Returned messages)
    ∧ ∀ c arg s, serverSet !! c = Some arg → s ∈ valueServers arg → s < length serverSet.
Proof.
  unfold construct. split.
  - intros (lb' & msgs & d & Hc).
    destruct (negb R__HAS_CUDA && bool_decide (batchMode = Cuda)) eqn:Hbuild; [done|].
    split.
    { intros [Hcuda ->]. by rewrite Hcuda, bool_decide_eq_true_2 in Hbuild. }
    destruct (logArchitectureInfo rt lastBatchMode batchMode) as [lb [msgs'|what]]; [|done].
    split; [by exists msgs'|].
    destruct (linkNodes _ _) as [nodes|] eqn:Hl; [|done].
    intros c arg s Harg Hs.
    pose proof (linkNodes_returned _ _ _ _ Hl c (newNodeInfo c arg) s) as Hlt.
    rewrite length_imap in Hlt. apply Hlt; [|by rewrite list_lookup_imap, Harg|done].
    apply lookup_lt_Some in Harg. lia.
  - intros (Hbuild & [msgs Hlog] & Hin).
    rewrite (proj2 (andb_false_iff _ _)).
    2:{ destruct R__HAS_CUDA; [by left|right]. apply bool_decide_eq_false.
        intros ->. by apply Hbuild. }
    destruct (logArchitectureInfo rt lastBatchMode batchMode) as [lb logged].
    simpl in Hlog. subst logged.
    destruct (linkNodes_linked serverSet (length serverSet) 0 (imap newNodeInfo serverSet)
                (linked_new serverSet) Hin) as (nodes & -> & _).
    by eexists _, _, _.
Qed.

(** ** The message of computeCPUNode *)

(** How often the message for node [i] was logged. *)
Definition logCount (i : nat) (evs : list Event) : nat :=
  length (filter (λ e, e = ELogNotOnGPU i) evs).

Lemma logCount_app i a b : logCount i (a ++ b) = logCount i a + logCount i b.
Proof. unfold logCount. by rewrite filter_app, length_app. Qed.

Lemma logCount_one i e : (∀ j, e ≠ ELogNotOnGPU j) → logCount i [e] = 0.
Proof. intros He. unfold logCount. by rewrite filter_cons_False by apply He. Qed.

(** A step of the driver: it logs the message for nodes whose flag is not
    set, once, in device mode, and sets their flag; and it clears no
    flag. *)
Record logStep (d d' : RooFitDriver) : Prop := {
  ls_length : length (_nodes d') = length (_nodes d);
  ls_batchMode : _batchMode d' = _batchMode d;
  ls_kept : ∀ i, hasLogged <$> _nodes d !! i = Some true →
    hasLogged <$> _nodes d' !! i = Some true;
  ls_events : ∃ evs, _trace d' = _trace d ++ evs
    ∧ ∀ i, logCount i evs ≤ 1
        ∧ (0 < logCount i evs →
           hasLogged <$> _nodes d !! i = Some false
           ∧ hasLogged <$> _nodes d' !! i = Some true
           ∧ inCudaMode d = true);
}.

Lemma logStep_refl d : logStep d d.
Proof.
  split; try done. exists []. split; [by rewrite app_nil_r|]. intros i.
  unfold logCount. simpl. split; lia.
Qed.

Lemma logStep_trans d1 d2 d3 : logStep d1 d2 → logStep d2 d3 → logStep d1 d3.
Proof.
  intros [Hl1 Hb1 Hk1 (e1 & Ht1 & He1)] [Hl2 Hb2 Hk2 (e2 & Ht2 & He2)].
  assert (∀ i, hasLogged <$> _nodes d2 !! i = Some false →
               hasLogged <$> _nodes d1 !! i = Some false) as Hback.
  { intros i H2. destruct (_nodes d1 !! i) as [x|] eqn:Hx.
    - simpl. destruct (hasLogged x) eqn:Hlx; [|done].
      assert (hasLogged <$> _nodes d1 !! i = Some true) as H1 by (by rewrite Hx; simpl; f_equal).
      apply Hk1 in H1. congruence.
    - apply lookup_ge_None in Hx. rewrite <- Hl1 in Hx.
      by rewrite (proj2 (lookup_ge_None _ _) Hx) in H2. }
  split.
  - congruence.
  - congruence.
  - intros i Hi. by apply Hk2, Hk1.
  - exists (e1 ++ e2). split; [rewrite Ht2, Ht1; by rewrite app_assoc|].
    intros i. rewrite logCount_app.
    destruct (He1 i) as [Hc1 Hp1], (He2 i) as [Hc2 Hp2].
    assert (inCudaMode d2 = inCudaMode d1) as Hmode by (unfold inCudaMode; by rewrite Hb1).
    destruct (logCount i e1) as [|n1] eqn:E1.
    + simpl. split; [done|]. intros Hpos. destruct (Hp2 Hpos) as (H2 & H3 & Hm).
      split; [by apply Hback|]. split; [done|congruence].
    + destruct (Hp1 ltac:(lia)) as (H1 & H2 & Hm).
      destruct (logCount i e2) as [|n2] eqn:E2.
      * split; [lia|]. intros _. split; [done|]. split; [by apply Hk2|done].
      * destruct (Hp2 ltac:(lia)) as (H2' & _). congruence.
Qed.

(** A step that logs nothing and leaves the flags as they are. *)
Lemma logStep_quiet d d' evs :
  hasLogged <$> _nodes d' = hasLogged <$> _nodes d → _batchMode d' = _batchMode d →
  _trace d' = _trace d ++ evs → (∀ i, logCount i evs = 0) → logStep d d'.
Proof.
  intros Hn Hb Ht He. split.
  - apply (f_equal length) in Hn. by rewrite !length_fmap in Hn.
  - done.
  - intros i. by rewrite <- !list_lookup_fmap, Hn.
  - exists evs. split; [done|]. intros i. rewrite (He i). split; lia.
Qed.

Lemma logStep_same d d' :
  _nodes d' = _nodes d → _batchMode d' = _batchMode d → _trace d' = _trace d → logStep d d'.
Proof.
  intros Hn Hb Ht. apply (logStep_quiet d d' []); [by rewrite Hn|done|by rewrite app_nil_r|done].
Qed.

Lemma logStep_updNode i f d :
  (∀ x, hasLogged (f x) = hasLogged x) → logStep d (updNode i f d).
Proof.
  intros Hf. apply (logStep_quiet _ _ []); [|done|by rewrite app_nil_r|done].
  apply list_eq. intros j. rewrite !list_lookup_fmap, lookup_updNode.
  case_decide; subst; [|done]. destruct (_nodes d !! j); simpl; [|done]. by rewrite Hf.
Qed.

Lemma logStep_emit e d : (∀ j, e ≠ ELogNotOnGPU j) → logStep d (emit e d).
Proof.
  intros He. apply (logStep_quiet _ _ [e]); [done|done|done|].
  intros i. by apply logCount_one.
Qed.

Lemma logStep_dataMapSet side i s d : logStep d (dataMapSet side i s d).
Proof.
  apply (logStep_quiet _ _ [ESetDataMap side i s]); [by destruct side..|].
  intros j. by apply logCount_one.
Qed.

Lemma logStep_writePtr p out d : logStep d (writePtr p out d).
Proof. destruct p; try apply logStep_refl; [by apply logStep_updNode|by apply logStep_same]. Qed.

Lemma logStep_resetBuffer i d : logStep d (resetBuffer i d).
Proof.
  unfold resetBuffer. destruct (_nodes d !! i) as [info|]; [|apply logStep_refl].
  destruct (buffer info); [|apply logStep_refl].
  eapply logStep_trans; [|by apply logStep_updNode]. by apply logStep_same.
Qed.

(** The one place where the message is logged. *)
Lemma logStep_log i d info :
  _nodes d !! i = Some info → hasLogged info = false → inCudaMode d = true →
  logStep d (updNode i (set_hasLogged true) (emit (ELogNotOnGPU i) d)).
Proof.
  intros Hi Hl Hm. split; simpl.
  - apply length_alter.
  - done.
  - intros j. rewrite list_lookup_alter. case_decide; subst; [|done].
    by destruct (_nodes d !! j).
  - exists [ELogNotOnGPU i]. split; [done|]. intros j. unfold logCount.
    rewrite filter_cons. case_decide as Hj; simpl; [|split; lia].
    injection Hj as ->. split; [lia|]. intros _.
    rewrite list_lookup_alter_eq, Hi. simpl. by rewrite Hl.
Qed.

Lemma logStep_foldl {A} (f : RooFitDriver → A → RooFitDriver) (l : list A) d :
  (∀ a x, logStep a (f a x)) → logStep d (foldl f d l).
Proof.
  intros Hf. revert d. induction l as [|x l IH]; intros d; [apply logStep_refl|].
  simpl. eapply logStep_trans; [apply Hf|apply IH].
Qed.

Lemma logStep_foldl_pair {A B} (f : B * RooFitDriver → A → B * RooFitDriver) (l : list A) acc :
  (∀ a x, logStep a.2 (f a x).2) → logStep acc.2 (foldl f acc l).2.
Proof.
  intros Hf. revert acc. induction l as [|x l IH]; intros acc; [apply logStep_refl|].
  simpl. eapply logStep_trans; [apply Hf|apply IH].
Qed.

Lemma logStep_forNodes body d : (∀ i a, logStep a (body i a)) → logStep d (forNodes body d).
Proof. intros H. unfold forNodes. apply logStep_foldl. intros a x. apply H. Qed.

Ltac log_step :=
  cbv beta iota zeta;
  lazymatch goal with
  | |- logStep ?d ?d => apply logStep_refl
  | |- logStep _ (updNode ?i (set_hasLogged true) (emit (ELogNotOnGPU ?i) _)) => fail
  | |- logStep _ (emit _ _) => eapply logStep_trans; [|by apply logStep_emit]
  | |- logStep _ (dataMapSet _ _ _ _) => eapply logStep_trans; [|apply logStep_dataMapSet]
  | |- logStep _ (updNode _ _ _) => eapply logStep_trans; [|by apply logStep_updNode]
  | |- logStep _ (writePtr _ _ _) => eapply logStep_trans; [|apply logStep_writePtr]
  | |- logStep _ (resetBuffer _ _) => eapply logStep_trans; [|apply logStep_resetBuffer]
  | |- logStep _ (set_buffers _ ?a) => apply (logStep_trans _ a); [|by apply logStep_same]
  | |- logStep _ (set_nextBuffer _ ?a) => apply (logStep_trans _ a); [|by apply logStep_same]
  | |- logStep _ (set_cudaMemDataset _ ?a) => apply (logStep_trans _ a); [|by apply logStep_same]
  | |- logStep _ (set_cudaMemDatasetSize _ ?a) => apply (logStep_trans _ a); [|by apply logStep_same]
  | |- logStep _ (set_changeOperModeRAIIs _ ?a) => apply (logStep_trans _ a); [|by apply logStep_same]
  | |- logStep _ (set_getValInvocations _ ?a) => apply (logStep_trans _ a); [|by apply logStep_same]
  end.

Ltac log_steps := repeat log_step.

Lemma logStep_computeCPUNode w i d : logStep d (computeCPUNode w i d).
Proof.
  unfold computeCPUNode. destruct (_nodes d !! i) as [info|] eqn:Hi; [|apply logStep_refl].
  cbv zeta. unfold runKernel. destruct (outputSize info =? 1).
  - destruct (inCudaMode d), (R__HAS_CUDA && copyAfterEvaluation info), (event info); log_steps.
  - destruct (R__HAS_CUDA && negb (hasLogged info) && bool_decide (_batchMode d = Cuda)) eqn:Hlog.
    + apply andb_true_iff in Hlog as [[Hc Hl%negb_true_iff]%andb_true_iff Hm].
      assert (logStep d (updNode i (set_hasLogged true) (emit (ELogNotOnGPU i) d))) as Hstep
        by (apply (logStep_log i d info Hi Hl); unfold inCudaMode; by rewrite Hc, Hm).
      destruct (buffer info), (R__HAS_CUDA && copyAfterEvaluation info), (event info);
        unfold makeBuffer; cbn [fst snd]; log_steps; exact Hstep.
    + destruct (buffer info), (R__HAS_CUDA && copyAfterEvaluation info), (event info);
        unfold makeBuffer; cbn [fst snd]; log_steps.
Qed.

Lemma logStep_assignToGPU w i d : logStep d (assignToGPU w i d).
Proof.
  unfold assignToGPU. destruct (_nodes d !! i) as [info|] eqn:Hi; [|apply logStep_refl].
  cbv zeta. unfold runKernel.
  assert (∀ a, logStep a
            (foldl (λ d s, if from_option event false (_nodes d !! s)
                           then emit (EWaitForEvent i s) d else d) a (serverInfos info)))
    as Hwait.
  { intros a. apply logStep_foldl. intros b s. destruct (from_option event false _); log_steps. }
  destruct (outputSize info =? 1), (copyAfterEvaluation info);
    unfold makeBuffer; cbn [fst snd]; log_steps.
  all: eapply logStep_trans; [|apply Hwait]; log_steps.
Qed.

Lemma logStep_notifyClients w i d : logStep d (notifyClients w i d).
Proof.
  unfold notifyClients. apply logStep_foldl. intros a c. cbv zeta.
  destruct (_nodes _ !! c) as [info|]; [|log_steps].
  destruct (bool_decide _ && _); [|log_steps].
  eapply logStep_trans; [|apply logStep_assignToGPU]. log_steps.
Qed.

Lemma logStep_releaseServers i d : logStep d (releaseServers i d).
Proof.
  unfold releaseServers. apply logStep_foldl. intros a c. cbv zeta.
  destruct (_nodes _ !! c) as [info|]; [|log_steps].
  destruct (bool_decide _); log_steps.
Qed.

Lemma logStep_retireGPUNode w active i d : logStep d (retireGPUNode w active i d).
Proof.
  unfold retireGPUNode. destruct (_nodes d !! i) as [info|]; [|apply logStep_refl].
  destruct (_ && _); [|apply logStep_refl]. cbv zeta.
  eapply logStep_trans; [|apply logStep_releaseServers].
  eapply logStep_trans; [|apply logStep_notifyClients]. log_steps.
Qed.

Lemma logStep_runCPUNode w i d : logStep d (runCPUNode w i d).
Proof.
  unfold runCPUNode. destruct (_nodes d !! i) as [info|]; [|apply logStep_refl]. cbv zeta.
  eapply logStep_trans; [|apply logStep_releaseServers].
  eapply logStep_trans; [|apply logStep_notifyClients].
  destruct (negb (fromDataset info)); [|log_steps].
  eapply logStep_trans; [|apply logStep_computeCPUNode]. log_steps.
Qed.

Lemma logStep_scheduleRound w active d : logStep d (scheduleRound w active d).
Proof.
  unfold scheduleRound. cbv zeta.
  assert (logStep d (forNodes (retireGPUNode w active) d)) as Hretire
    by (apply logStep_forNodes; intros; apply logStep_retireGPUNode).
  destruct (nextCPUNode _) as [i|].
  - eapply logStep_trans; [exact Hretire|apply logStep_runCPUNode].
  - eapply logStep_trans; [exact Hretire|]. log_steps.
Qed.

Lemma logStep_schedule w isActive fuel t d d' :
  schedule w isActive fuel t d = Some d' → logStep d d'.
Proof.
  revert t d. induction fuel as [|fuel IH]; intros t d; simpl;
    destruct (topRetired d); try done; try (intros [= <-]; apply logStep_refl).
  intros H. eapply logStep_trans; [apply logStep_scheduleRound|by eapply IH].
Qed.

Lemma logStep_getVal w isActive fuel d r d' :
  getVal w isActive fuel d = Some (r, d') → logStep d d'.
Proof.
  unfold getVal. cbv zeta.
  set (d1 := set_getValInvocations _ d).
  assert (logStep d d1) as H1 by (by apply logStep_same).
  destruct (inCudaMode d1).
  - unfold getValHeterogeneous. cbv zeta.
    destruct (schedule _ _ _ _ _) as [d2|] eqn:Hs; simpl; [|done]. intros [= _ <-].
    eapply logStep_trans; [exact H1|].
    eapply logStep_trans; [|by eapply logStep_schedule].
    eapply logStep_trans; [|apply logStep_forNodes].
    + apply logStep_forNodes. intros i a. log_steps.
    + intros i a. destruct (_nodes a !! i) as [info|]; [|apply logStep_refl].
      destruct (_ && _); [apply logStep_assignToGPU|apply logStep_refl].
  - unfold getValHost. intros [= _ <-]. eapply logStep_trans; [exact H1|].
    apply logStep_forNodes. intros i a. unfold evaluateNode.
    destruct (_nodes a !! i) as [info|] eqn:Hi; [|apply logStep_refl].
    destruct (negb (fromDataset info)); [|apply logStep_refl].
    assert (∀ b cs, logStep b (foldl (λ d c, updNode c (set_isDirty true) d) b cs)) as Hdirty.
    { intros b cs. apply logStep_foldl. intros; log_steps. }
    destruct (isVariable info).
    + unfold processVariable. rewrite Hi. destruct (bool_decide _); [|apply logStep_refl].
      cbv zeta. eapply logStep_trans; [|by apply logStep_updNode].
      eapply logStep_trans; [|apply logStep_computeCPUNode].
      eapply logStep_trans; [|apply Hdirty]. log_steps.
    + destruct (isDirty info); [|apply logStep_refl]. cbv zeta.
      eapply logStep_trans; [|by apply logStep_updNode].
      eapply logStep_trans; [|apply logStep_computeCPUNode].
      unfold setClientsDirty. rewrite Hi. apply Hdirty.
Qed.

Lemma logStep_setData w dataSpans m d : logStep d (setData w dataSpans m d).
Proof.
  destruct (setData_stages w dataSpans m d) as (total & d1 & d2 & H1 & -> & ->).
  assert (logStep d d1) as Hbind.
  { change d with (0, d).2 at 1. change d1 with (total, d1).2. rewrite <- H1.
    apply logStep_foldl_pair. intros [n a] i. unfold bindDataSpan.
    assert (logStep a (resetBuffer i a)) as Hr by apply logStep_resetBuffer.
    destruct (_nodes (resetBuffer i a) !! i) as [info|]; [|done].
    destruct (dataSpans !! namePtr (absArg info)); simpl;
      (eapply logStep_trans; [exact Hr|]); log_steps. }
  assert (logStep d1 (forNodes (bindOutputSize m) d1)) as Hsize.
  { apply logStep_forNodes. intros i a. unfold bindOutputSize, setOperMode. cbv zeta.
    destruct (negb _); [|log_steps].
    destruct (_nodes _ !! i) as [info|]; [|log_steps].
    destruct (bool_decide _); log_steps. }
  set (d2 := forNodes (bindOutputSize m) d1) in *.
  destruct (negb R__HAS_CUDA); [by eapply logStep_trans|].
  destruct (bool_decide _); [by eapply logStep_trans|].
  eapply logStep_trans; [exact Hbind|]. eapply logStep_trans; [exact Hsize|].
  eapply logStep_trans.
  2:{ unfold markGPUNodes. apply logStep_forNodes. intros i a.
      destruct (_nodes a !! i) as [info|]; [|apply logStep_refl]. cbv zeta.
      destruct (negb _); [|log_steps]. destruct (clientOnOtherSide _ _); log_steps. }
  match goal with |- logStep _ (foldl ?f ?acc ?l).2 =>
    eapply logStep_trans; [|apply (logStep_foldl_pair f l acc)] end.
  - simpl. log_steps.
  - intros [n a] i. unfold copyToDevice.
    destruct (_nodes a !! i) as [info|]; [|apply logStep_refl].
    destruct (negb _); [apply logStep_refl|]. cbv zeta.
    destruct (_ =? 1); simpl; log_steps.
Qed.

(** ** The life of a driver *)

(** The calls on a driver: setData, getVal and getValues. *)
Inductive Call :=
| CallSetData (w : World) (dataSpans : gmap string Span) (outputSizeMap : nat → nat)
| CallGetVal (w : World) (isActive : nat → nat → bool) (fuel : nat)
| CallGetValues (w : World) (isActive : nat → nat → bool) (fuel : nat).

(** The driver after a call; nothing where the call does not return. *)
Definition call (c : Call) (d : RooFitDriver) : option RooFitDriver :=
  match c with
  | CallSetData w dataSpans m => Some (setData w dataSpans m d)
  | CallGetVal w isActive fuel => snd <$> getVal w isActive fuel d
  | CallGetValues w isActive fuel => snd <$> getValues w isActive fuel d
  end.

Fixpoint calls (cs : list Call) (d : RooFitDriver) : option RooFitDriver :=
  match cs with
  | [] => Some d
  | c :: cs => d' ← call c d; calls cs d'
  end.

Lemma logStep_call c d d' : call c d = Some d' → logStep d d'.
Proof.
  destruct c as [w ds m|w a f|w a f]; simpl.
  - intros [= <-]. apply logStep_setData.
  - destruct (getVal w a f d) as [[r d1]|] eqn:Hg; simpl; [|done]. intros [= <-].
    by eapply logStep_getVal.
  - unfold getValues. destruct (getVal w a f d) as [[r d1]|] eqn:Hg; simpl; [|done].
    intros [= <-]. by eapply logStep_getVal.
Qed.

Lemma logStep_calls cs d d' : calls cs d = Some d' → logStep d d'.
Proof.
  revert d. induction cs as [|c cs IH]; intros d; simpl.
  - intros [= <-]. apply logStep_refl.
  - destruct (call c d) as [d1|] eqn:Hc; simpl; [|done]. intros H.
    eapply logStep_trans; [by eapply logStep_call|by apply IH].
Qed.

(** X16.  Over the life of a driver the message of computeCPUNode, that a
    node could not be evaluated on the GPU, is logged at most once for each
    node, whatever calls of setData, getVal and getValues are made after the
    construction; and a driver that is not in device mode never logs it. *)
Theorem message_logged_once rt lastBatchMode serverSet batchMode lastBatchMode' messages d0
    cs d i :
  construct rt lastBatchMode serverSet batchMode = (lastBatchMode', Returned (messages, d0)) →
  calls cs d0 = Some d →
  logCount i (_trace d) ≤ 1
  ∧ (R__HAS_CUDA && bool_decide (batchMode = Cuda) = false → logCount i (_trace d) = 0).
Proof.
  intros Hc Hcs.
  assert (_trace d0 = [] ∧ _batchMode d0 = batchMode) as [Ht0 Hb0].
  { clear Hcs. revert Hc. unfold construct.
    destruct (negb R__HAS_CUDA && bool_decide (batchMode = Cuda)); [done|].
    destruct (logArchitectureInfo rt lastBatchMode batchMode) as [lb [msgs|what]]; [|done].
    destruct (linkNodes _ _) as [nodes|what]; [|done]. by intros [= <- <- <-]. }
  destruct (logStep_calls cs d0 d Hcs) as [_ _ _ (evs & Ht & He)].
  rewrite Ht, Ht0. simpl. destruct (He i) as [Hle Hpos]. split; [done|].
  intros Hhost. destruct (logCount i evs) eqn:E; [done|].
  destruct (Hpos ltac:(lia)) as (_ & _ & Hm). unfold inCudaMode in Hm. rewrite Hb0, Hhost in Hm. done.
Qed.

(** ** Checking a graph *)

(** The properties of a graph as properties of the list of its nodes with
    their positions, which can be decided. *)
Lemma nodes_forall (P : nat → NodeInfo → Prop) (l : list NodeInfo) :
  Forall (λ ix, P ix.1 ix.2) (imap pair l) → ∀ i x, l !! i = Some x → P i x.
Proof.
  rewrite Forall_lookup. intros H i x Hx. apply (H i (i, x)).
  by rewrite list_lookup_imap, Hx.
Qed.

Definition wellFormedCheck (l : list NodeInfo) : Prop :=
  Forall (λ sx : nat * NodeInfo,
    Forall (λ cx : nat * NodeInfo,
      occurrences cx.1 (clientInfos sx.2) = occurrences sx.1 (serverInfos cx.2)) (imap pair l)
    ∧ Forall (λ c, sx.1 < c < length l) (clientInfos sx.2)
    ∧ Forall (λ s, s < sx.1) (serverInfos sx.2)) (imap pair l).

Global Instance wellFormedCheck_dec l : Decision (wellFormedCheck l).
Proof. unfold wellFormedCheck. apply _. Defined.

Lemma wellFormedCheck_sound l : wellFormedCheck l → wellFormed l.
Proof.
  intros H.
  pose proof (nodes_forall (λ s sinfo,
    Forall (λ cx : nat * NodeInfo,
      occurrences cx.1 (clientInfos sinfo) = occurrences s (serverInfos cx.2)) (imap pair l)
    ∧ Forall (λ c, s < c < length l) (clientInfos sinfo)
    ∧ Forall (λ s', s' < s) (serverInfos sinfo)) l H) as Hn.
  split.
  - intros s c sinfo cinfo Hs Hc. destruct (Hn s sinfo Hs) as (He & _ & _).
    by apply (nodes_forall (λ c cinfo,
      occurrences c (clientInfos sinfo) = occurrences s (serverInfos cinfo)) l He c cinfo).
  - intros s sinfo c Hs Hc. destruct (Hn s sinfo Hs) as (_ & Hcl & _).
    rewrite Forall_forall in Hcl. by apply Hcl.
  - intros c cinfo s Hc Hs. destruct (Hn c cinfo Hc) as (_ & _ & Hsv).
    rewrite Forall_forall in Hsv. by apply Hsv.
Qed.

Definition leavesCheck (l : list NodeInfo) : Prop :=
  Forall (λ info, isVariable info = true ∨ fromDataset info = true → serverInfos info = []) l.

Global Instance leavesCheck_dec l : Decision (leavesCheck l).
Proof. unfold leavesCheck. apply _. Defined.

Lemma leavesCheck_sound l : leavesCheck l → leavesHaveNoServers l.
Proof.
  unfold leavesCheck. rewrite Forall_lookup. intros H i info Hi. by apply (H i).
Qed.

Definition reachesTopCheck (l : list NodeInfo) : Prop :=
  Forall (λ ix : nat * NodeInfo, S ix.1 < length l → clientInfos ix.2 ≠ []) (imap pair l).

Global Instance reachesTopCheck_dec l : Decision (reachesTopCheck l).
Proof. unfold reachesTopCheck. apply _. Defined.

Lemma reachesTopCheck_sound l : reachesTopCheck l → reachesTop l.
Proof.
  intros H i info Hi.
  by apply (nodes_forall (λ i info, S i < length l → clientInfos info ≠ []) l H i info).
Qed.

Definition variablesCheck (l : list NodeInfo) : Prop :=
  Forall (λ x, isVariable x = isRooRealVar (absArg x)) l.

Global Instance variablesCheck_dec l : Decision (variablesCheck l).
Proof. unfold variablesCheck. apply _. Defined.

Lemma variablesCheck_sound l :
  variablesCheck l → ∀ x, x ∈ l → isVariable x = isRooRealVar (absArg x).
Proof. unfold variablesCheck. rewrite Forall_forall. auto. Qed.

Definition serversFirstCheck (serverSet : list RooAbsArg) : Prop :=
  Forall (λ ca : nat * RooAbsArg, Forall (λ s, s < ca.1) (valueServers ca.2))
    (imap pair serverSet).

Global Instance serversFirstCheck_dec l : Decision (serversFirstCheck l).
Proof. unfold serversFirstCheck. apply _. Defined.

Lemma serversFirstCheck_sound serverSet : serversFirstCheck serverSet → serversFirst serverSet.
Proof.
  unfold serversFirstCheck. rewrite Forall_lookup. intros H c arg s Hc Hs.
  specialize (H c (c, arg)). rewrite list_lookup_imap, Hc in H.
  specialize (H eq_refl). rewrite Forall_forall in H. by apply H.
Qed.

Definition stablePtrCheck (p : Ptr) : bool :=
  match p with PScalar _ | PBuf _ _ => false | _ => true end.

Definition stableSpansCheck (d : RooFitDriver) : bool :=
  forallb (λ jx : nat * NodeInfo,
    forallb (λ side,
      published jx.2 side
      || match dataMap side d !! jx.1 with
         | Some span => stablePtrCheck (spanPtr span)
         | None => true
         end) [Host; Device]) (imap pair (_nodes d)).

Lemma stableSpansCheck_sound d : stableSpansCheck d = true → stableSpans d.
Proof.
  unfold stableSpansCheck. rewrite forallb_forall. intros H j info side span Hj Hp Hspan.
  specialize (H (j, info)). rewrite <- list_elem_of_In in H.
  assert ((j, info) ∈ imap pair (_nodes d)) as Hin.
  { apply list_elem_of_lookup. exists j. by rewrite list_lookup_imap, Hj. }
  specialize (H Hin). rewrite forallb_forall in H. specialize (H side).
  rewrite <- list_elem_of_In in H. simpl in H. rewrite Hp, Hspan in H. simpl in H.
  assert (side ∈ [Host; Device]) as Hs by (destruct side; set_solver).
  specialize (H Hs). by destruct (spanPtr span).
Qed.

Definition copiesBatchesCheck (l : list NodeInfo) : bool :=
  forallb (λ info, negb (copyAfterEvaluation info) || negb (outputSize info =? 1)) l.

Lemma copiesBatchesCheck_sound l : copiesBatchesCheck l = true → copiesBatches l.
Proof.
  unfold copiesBatchesCheck. rewrite forallb_forall. intros H i info Hi Hcae.
  specialize (H info). rewrite <- list_elem_of_In in H.
  specialize (H (list_elem_of_lookup_2 _ _ _ Hi)). rewrite Hcae in H. simpl in H.
  by apply negb_true_iff, Nat.eqb_neq in H.
Qed.
End Driver.

(** * A graph to run the driver on

    top = sum(y), y = x * s, where x is a column of the dataset with four
    entries and s is a parameter.  The kernels of y and of top have device
    capability, and top is a reducer. *)

Module Example.

(** The values of the variables and their reset counters. *)
Record World := mkWorld { value : nat → Z; resetCounter : nat → N }.

Definition graph : list RooAbsArg :=
  [ mkArg "x" true false false false Auto [];
    mkArg "s" true false false false Auto [];
    mkArg "y" false false false true Auto [(0, true); (1, true)];
    mkArg "top" false false true true Auto [(2, true)] ].

Definition computeBatch (w : World) (side : Side) (i nOut : nat) (v : nat → option (list Z))
    : list Z :=
  match i with
  | 1 => [value w 1]
  | 2 => match v 0, v 1 with
         | Some xs, Some [s] => (λ x, (x * s)%Z) <$> xs
         | _, _ => replicate nOut 0%Z
         end
  | 3 => match v 2 with
         | Some ys => [foldr Z.add 0%Z ys]
         | None => [0%Z]
         end
  | _ => replicate nOut 0%Z
  end.

(** The column x is stored at address 100. *)
Definition hostMemory (w : World) (a : N) : option (list Z) :=
  if (a =? 100)%N then Some [1; 2; 3; 4]%Z else None.

Definition dataSpans : gmap string Span := {[ "x" := mkSpan (PExt 100) 4 ]}.

Definition outputSizes (i : nat) : nat := match i with 0 | 2 => 4 | _ => 1 end.

(** The message stream is active and the CUDA library is there. *)
Definition runtime : Runtime := mkRuntime true true AVX2 "avx2".

(** The message stream is not active and the CUDA library is missing. *)
Definition quietRuntime : Runtime := mkRuntime false false AVX2 "avx2".

Definition w1 : World := mkWorld (λ _, 2%Z) (λ _, 5%N).

(** The parameter s is set to 3. *)
Definition w2 : World := mkWorld (λ _, 3%Z) (λ i, if i =? 1 then 6%N else 5%N).

(** The streams are idle at once, or busy for two rounds. *)
Definition idle : nat → nat → bool := λ _ _, false.
Definition busy : nat → nat → bool := λ t _, t <? 2.

Definition emptyDriver : RooFitDriver (val := Z) := mkDriver [] Off 0 ∅ ∅ 0 ∅ 0 ∅ [] [].

Definition constructed (cuda : bool) (mode : BatchModeOption) : RooFitDriver :=
  match construct 0%Z cuda runtime lastBatchMode0 graph mode with
  | (_, Returned (_, d)) => d
  | _ => emptyDriver
  end.

Definition hostDriver : RooFitDriver :=
  setData false hostMemory w1 dataSpans outputSizes (constructed false Cpu).

Definition deviceDriver : RooFitDriver :=
  setData true hostMemory w1 dataSpans outputSizes (constructed true Cuda).

Definition nodeAt (d : RooFitDriver) (i : nat) : NodeInfo :=
  default (newNodeInfo 0%Z i (mkArg "" false false false false Auto [])) (_nodes d !! i).

(** An evaluation that is given ten rounds. *)
Definition eval (cuda : bool) (w : World) (isActive : nat → nat → bool) (d : RooFitDriver)
    : option Z * RooFitDriver :=
  default (None, d) (getVal cuda resetCounter hostMemory computeBatch w isActive 10 d).

Definition hostFirst : option Z * RooFitDriver := eval false w1 idle hostDriver.
Definition hostSecond : option Z * RooFitDriver := eval false w2 idle hostFirst.2.
Definition deviceFirst : option Z * RooFitDriver := eval true w1 busy deviceDriver.
Definition deviceSecond : option Z * RooFitDriver := eval true w1 idle deviceFirst.2.

(** The events of an evaluation from [d] to [d']. *)
Definition eventsSince (d d' : RooFitDriver (val := Z)) : list Event :=
  drop (length (_trace d)) (_trace d').

Ltac by_evaluation := vm_compute; reflexivity.
Ltac by_decision := apply (bool_decide_unpack _); vm_compute; exact I.

Lemma hostDriver_wellFormed : wellFormed (_nodes hostDriver).
Proof. apply wellFormedCheck_sound. by_decision. Defined.

Lemma deviceDriver_wellFormed : wellFormed (_nodes deviceDriver).
Proof. apply wellFormedCheck_sound. by_decision. Defined.

Lemma deviceDriver_reachesTop : reachesTop (_nodes deviceDriver).
Proof. apply reachesTopCheck_sound. by_decision. Defined.

Lemma hostDriver_leaves : leavesHaveNoServers (_nodes hostDriver).
Proof. apply leavesCheck_sound. by_decision. Defined.

(** The host evaluation returns 1*2 + 2*2 + 3*2 + 4*2, and 30 after s is set
    to 3. *)
Example host_results : hostFirst.1 = Some 20%Z ∧ hostSecond.1 = Some 30%Z.
Proof. split; by_evaluation. Qed.

Example device_results : deviceFirst.1 = Some 20%Z ∧ deviceSecond.1 = Some 20%Z.
Proof. split; by_evaluation. Qed.

(** ** The theorems at this graph *)

Lemma markGPUNodes_placement_witness :
  _nodes deviceDriver !! 0 = Some (nodeAt deviceDriver 0)
  ∧ (computeInGPU (nodeAt deviceDriver 0) = true ↔
       (isReducerNode (absArg (nodeAt deviceDriver 0)) = true
        ∨ outputSize (nodeAt deviceDriver 0) ≠ 1)
       ∧ canComputeBatchWithCuda (absArg (nodeAt deviceDriver 0)) = true)
  ∧ ∃ info',
      _nodes (markGPUNodes deviceDriver) !! 0 = Some info'
      ∧ computeInGPU info' = computeInGPU (nodeAt deviceDriver 0)
      ∧ outputSize info' = outputSize (nodeAt deviceDriver 0)
      ∧ clientInfos info' = clientInfos (nodeAt deviceDriver 0)
      ∧ (copyAfterEvaluation info' = true ↔
           outputSize info' ≠ 1
           ∧ ∃ c, c ∈ clientInfos info'
                  ∧ computeInGPUAt (markGPUNodes deviceDriver) c ≠ computeInGPU info').
Proof.
  split; [by_evaluation|].
  apply (markGPUNodes_placement deviceDriver 0 (nodeAt deviceDriver 0)). by_evaluation.
Defined.

Lemma setData_binds_dataset_witness :
  _nodes (constructed false Cpu) !! 1 = Some (nodeAt (constructed false Cpu) 1)
  ∧ ∃ info', _nodes hostDriver !! 1 = Some info'
      ∧ buffer info' = None
      ∧ (∀ b, buffer (nodeAt (constructed false Cpu) 1) = Some b →
              _buffers hostDriver !! b = None)
      ∧ match dataSpans !! namePtr (absArg (nodeAt (constructed false Cpu) 1)) with
        | Some found =>
            _dataMapCPU hostDriver !! 1 = Some found
            ∧ fromDataset info' = true ∧ isDirty info' = false
        | None =>
            _dataMapCPU hostDriver !! 1 = _dataMapCPU (constructed false Cpu) !! 1
            ∧ fromDataset info' = false ∧ isDirty info' = true
        end.
Proof.
  split; [by_evaluation|].
  apply (setData_binds_dataset false hostMemory w1 dataSpans outputSizes
           (constructed false Cpu) 1 (nodeAt (constructed false Cpu) 1)).
  by_evaluation.
Defined.

(** The parameter s has no column in the dataset, and setData leaves it
    dirty. *)
Lemma setData_clears_flags_counterexample :
  ¬ setData_clears_flags false hostMemory w1 dataSpans outputSizes (constructed false Cpu).
Proof.
  intros H.
  destruct (H 1 (nodeAt (constructed false Cpu) 1) eq_refl) as (info' & Hinfo' & _ & Hflags).
  vm_compute in Hinfo'. injection Hinfo' as <-. vm_compute in Hflags.
  destruct Hflags as [_ Hdirty]. discriminate Hdirty.
Qed.

Lemma setData_device_spans_witness :
  true = true ∧ _batchMode (constructed true Cuda) = Cuda
  ∧ (∀ j found, spanOf dataSpans (constructed true Cuda) j = Some found →
       _dataMapCPU deviceDriver !! j = Some found
       ∧ _dataMapCUDA deviceDriver !! j =
           Some (if outputSizes j =? 1 then found
                 else mkSpan (PDataset (datasetOffset dataSpans outputSizes
                                          (constructed true Cuda) j)) (outputSizes j)))
  ∧ ∃ evs, _trace deviceDriver = _trace (constructed true Cuda) ++ evs
      ∧ hostToDeviceCopies evs =
          omap (λ j, match spanOf dataSpans (constructed true Cuda) j with
                     | Some found =>
                         if outputSizes j =? 1 then None
                         else Some (spanPtr found,
                                    PDataset (datasetOffset dataSpans outputSizes
                                                (constructed true Cuda) j),
                                    outputSizes j)
                     | None => None
                     end) (seq 0 (length (_nodes (constructed true Cuda)))).
Proof.
  split; [reflexivity|]. split; [by_evaluation|].
  apply (setData_device_spans true hostMemory w1 dataSpans outputSizes (constructed true Cuda));
    by_evaluation.
Defined.

Lemma host_recompute_iff_parameter_changed_witness :
  inCudaMode false hostDriver = false
  ∧ wellFormed (_nodes hostDriver)
  ∧ leavesHaveNoServers (_nodes hostDriver)
  ∧ getVal false resetCounter hostMemory computeBatch w1 idle 10 hostDriver
    = Some (hostFirst.1, hostFirst.2)
  ∧ getVal false resetCounter hostMemory computeBatch w2 idle 10 hostFirst.2
    = Some (hostSecond.1, hostSecond.2)
  ∧ ∃ evs, _trace hostSecond.2 = _trace hostFirst.2 ++ evs
      ∧ (∀ i, EKernel Device i ∉ evs)
      ∧ ∀ i info, _nodes hostDriver !! i = Some info → fromDataset info = false →
          EKernel Host i ∈ evs ↔
            if isVariable info then resetCounter w2 i ≠ resetCounter w1 i
            else changedParameterAbove resetCounter w1 w2 (_nodes hostDriver) i.
Proof.
  split; [by_evaluation|]. split; [exact hostDriver_wellFormed|].
  split; [exact hostDriver_leaves|]. split; [by_evaluation|]. split; [by_evaluation|].
  apply (host_recompute_iff_parameter_changed 0%Z false resetCounter hostMemory computeBatch
           w1 w2 idle idle 10 10 hostDriver hostFirst.1 hostFirst.2 hostSecond.1 hostSecond.2);
    [by_evaluation|exact hostDriver_wellFormed|exact hostDriver_leaves
    |by_evaluation|by_evaluation].
Defined.

Lemma device_returns_iff_all_retired_witness :
  true = true ∧ _batchMode deviceDriver = Cuda
  ∧ wellFormed (_nodes deviceDriver) ∧ reachesTop (_nodes deviceDriver)
  ∧ _nodes deviceDriver ≠ []
  ∧ let start :=
      assignInitialGPUNodes hostMemory computeBatch w1
        (resetCounters (set_getValInvocations (S (_getValInvocations deviceDriver))
                          deviceDriver)) in
    let retiredAt n i :=
      remServers <$> _nodes (loopState true hostMemory computeBatch w1 busy n 0 start) !! i
        = Some (-2)%Z in
    ((∃ fuel, is_Some (getVal true resetCounter hostMemory computeBatch w1 busy fuel
                         deviceDriver))
       ↔ ∃ n, ∀ i, i < length (_nodes deviceDriver) → retiredAt n i)
    ∧ (∀ n, retiredAt n (topNode deviceDriver) →
            ∀ i, i < length (_nodes deviceDriver) → retiredAt n i)
    ∧ (∀ fuel r d', getVal true resetCounter hostMemory computeBatch w1 busy fuel deviceDriver
                      = Some (r, d') →
         ∀ i, i < length (_nodes deviceDriver) → remServers <$> _nodes d' !! i = Some (-2)%Z)
    ∧ (∀ T, (∀ t i, T ≤ t → busy t i = false) →
         ∃ fuel, is_Some (getVal true resetCounter hostMemory computeBatch w1 busy fuel
                            deviceDriver)).
Proof.
  split; [reflexivity|]. split; [by_evaluation|].
  split; [exact deviceDriver_wellFormed|]. split; [exact deviceDriver_reachesTop|].
  split; [by_decision|].
  apply (device_returns_iff_all_retired 0%Z true resetCounter hostMemory computeBatch w1 busy
           deviceDriver);
    [reflexivity|by_evaluation|exact deviceDriver_wellFormed|exact deviceDriver_reachesTop
    |by_decision].
Defined.

Lemma device_recomputes_every_node_witness :
  true = true ∧ _batchMode deviceDriver = Cuda
  ∧ wellFormed (_nodes deviceDriver) ∧ reachesTop (_nodes deviceDriver)
  ∧ getVal true resetCounter hostMemory computeBatch w1 busy 10 deviceDriver
    = Some (deviceFirst.1, deviceFirst.2)
  ∧ getVal true resetCounter hostMemory computeBatch w1 idle 10 deviceFirst.2
    = Some (deviceSecond.1, deviceSecond.2)
  ∧ (∀ i info,
       _nodes (resetCounters (set_getValInvocations (S (_getValInvocations deviceFirst.2))
                                deviceFirst.2)) !! i = Some info →
       buffer info = None)
  ∧ ∃ evs, _trace deviceSecond.2 = _trace deviceFirst.2 ++ evs
      ∧ ∀ i info, _nodes deviceFirst.2 !! i = Some info → fromDataset info = false →
          EKernel (if computeInGPU info then Device else Host) i ∈ evs.
Proof.
  split; [reflexivity|]. split; [by_evaluation|].
  split; [exact deviceDriver_wellFormed|]. split; [exact deviceDriver_reachesTop|].
  split; [by_evaluation|]. split; [by_evaluation|].
  apply (device_recomputes_every_node 0%Z true resetCounter hostMemory computeBatch w1 w1
           busy idle 10 10 deviceDriver deviceFirst.1 deviceFirst.2
           deviceSecond.1 deviceSecond.2);
    [reflexivity|by_evaluation|exact deviceDriver_wellFormed|exact deviceDriver_reachesTop
    |by_evaluation|by_evaluation].
Defined.

(** The top node is scalar, a reducer with device capability, and runs on
    the device. *)
Lemma scalars_run_inline_counterexample :
  ¬ scalars_run_inline (_nodes deviceDriver) (eventsSince deviceDriver deviceFirst.2).
Proof.
  intros H.
  destruct (H 3 (nodeAt deviceDriver 3)) as (_ & Hdevice & _); [by_evaluation..|].
  apply Hdevice. by_decision.
Qed.

Lemma device_scalar_nodes_witness :
  true = true ∧ _batchMode deviceDriver = Cuda
  ∧ wellFormed (_nodes deviceDriver) ∧ reachesTop (_nodes deviceDriver)
  ∧ getVal true resetCounter hostMemory computeBatch w1 busy 10 deviceDriver
    = Some (deviceFirst.1, deviceFirst.2)
  ∧ ∃ evs, _trace deviceFirst.2 = _trace deviceDriver ++ evs
      ∧ ∀ i info, _nodes deviceDriver !! i = Some info → outputSize info = 1 →
          fromDataset info = false →
          if isReducerNode (absArg info) && canComputeBatchWithCuda (absArg info)
          then EKernel Device i ∈ evs ∧ EKernel Host i ∉ evs
          else EKernel Host i ∈ evs ∧ (EKernel Device i ∉ evs)
               ∧ ∀ pre post, evs = pre ++ EKernel Host i :: post →
                   ∃ pre', pre = pre' ++ [ESetDataMap Device i (mkSpan (PScalar i) 1);
                                          ESetDataMap Host i (mkSpan (PScalar i) 1)].
Proof.
  split; [reflexivity|]. split; [by_evaluation|].
  split; [exact deviceDriver_wellFormed|]. split; [exact deviceDriver_reachesTop|].
  split; [by_evaluation|].
  apply (device_scalar_nodes 0%Z true resetCounter hostMemory computeBatch w1 busy 10
           deviceDriver deviceFirst.1 deviceFirst.2);
    [reflexivity|by_evaluation|exact deviceDriver_wellFormed|exact deviceDriver_reachesTop
    |by_evaluation].
Defined.

Lemma getParameters_is_provider_enumeration_witness :
  NoDup (namePtr ∘ absArg <$> _nodes (constructed true Cuda))
  ∧ (∀ x, x ∈ _nodes (constructed true Cuda) → isVariable x = isRooRealVar (absArg x))
  ∧ graph ≡ₚ absArg <$> _nodes (constructed true Cuda)
  ∧ (∀ a, a ∈ getParameters deviceDriver ↔
          ∃ info, info ∈ _nodes deviceDriver ∧ absArg info = a
                  ∧ isVariable info = true ∧ fromDataset info = false)
  ∧ StronglySorted nameLe (getParameters deviceDriver)
  ∧ getParameters deviceDriver = providerParameters graph dataSpans.
Proof.
  assert (NoDup (namePtr ∘ absArg <$> _nodes (constructed true Cuda))) as Hnames
    by by_decision.
  assert (graph ≡ₚ absArg <$> _nodes (constructed true Cuda)) as Hgraph by by_evaluation.
  split; [exact Hnames|].
  split; [apply variablesCheck_sound; by_decision|]. split; [exact Hgraph|].
  apply (getParameters_is_provider_enumeration true resetCounter hostMemory computeBatch w1
           dataSpans outputSizes (constructed true Cuda) graph Hnames);
    [apply variablesCheck_sound; by_decision|exact Hgraph].
Defined.

(** ROOT is built with CUDA, the CUDA library is missing and the message
    stream is not active: the driver is constructed in CUDA mode. *)
Example construct_without_backend :
  ∃ d, construct 0%Z true quietRuntime lastBatchMode0 graph Cuda
       = (lastBatchMode0, Returned ([], d))
       ∧ _batchMode d = Cuda.
Proof. eexists. split; by_evaluation. Qed.

(** The first construction throws and records the mode as logged; the second
    one, in the same process, goes through. *)
Example construct_twice_without_backend :
  let rt := mkRuntime true false AVX2 "avx2" in
  ∃ d, construct 0%Z true rt lastBatchMode0 graph Cuda
       = ((Cuda, true),
          Thrown "Cuda implementation of the computing library is not available")
       ∧ construct 0%Z true rt (Cuda, true) graph Cuda = ((Cuda, true), Returned ([], d))
       ∧ _batchMode d = Cuda.
Proof. eexists. split; [by_evaluation|]. split; by_evaluation. Qed.

Lemma construct_device_unavailable_iff_witness :
  (true = false ∨ hasCuda quietRuntime = false)
  ∧ ((∃ lastBatchMode' what,
        construct 0%Z true quietRuntime lastBatchMode0 graph Cuda
          = (lastBatchMode', Thrown what)
        ∧ deviceUnavailable what)
     ↔ true = false ∨ (msgActive quietRuntime = true ∧ lastBatchMode0 ≠ (Cuda, true))).
Proof.
  split; [right; reflexivity|].
  apply (construct_device_unavailable_iff 0%Z true quietRuntime lastBatchMode0 graph).
  right. reflexivity.
Defined.

(** ** Two evaluations in device mode

    A kernel writes [nOut] values whatever it reads: the kernels of the
    graph, with their output cut or filled up to that length. *)
Definition filledBatch (w : World) (side : Side) (i nOut : nat) (v : nat → option (list Z))
    : list Z :=
  resize nOut 0%Z (computeBatch w side i nOut v).

Definition filledFirst : option Z * RooFitDriver :=
  default (None, deviceDriver)
    (getVal true resetCounter hostMemory filledBatch w1 busy 10 deviceDriver).

Definition filledSecond : option Z * RooFitDriver :=
  default (None, filledFirst.2)
    (getVal true resetCounter hostMemory filledBatch w1 idle 10 filledFirst.2).

Lemma filledBatch_sized : sizedKernels filledBatch w1 (_nodes deviceDriver).
Proof. intros side i info v _. apply length_resize. Defined.

Lemma filledBatch_local : localKernels filledBatch w1 (_nodes deviceDriver).
Proof.
  intros side i info n v v' Hi Hv. unfold filledBatch. f_equal.
  destruct i as [|[|[|[|i]]]]; vm_compute in Hi; try discriminate Hi;
    injection Hi as <-; simpl in Hv; simpl.
  - done.
  - done.
  - by rewrite (Hv 0), (Hv 1) by set_solver.
  - by rewrite (Hv 2) by set_solver.
Defined.

Lemma constructed_wellFormed : wellFormed (_nodes (constructed true Cuda)).
Proof. apply wellFormedCheck_sound. by_decision. Defined.

Lemma deviceDriver_stableSpans : stableSpans deviceDriver.
Proof. apply stableSpansCheck_sound. by_evaluation. Defined.

Example filled_results : filledFirst.1 = Some 20%Z ∧ filledSecond.1 = Some 20%Z.
Proof. split; by_evaluation. Qed.

Lemma getVal_twice_after_setData_witness :
  wellFormed (_nodes (constructed true Cuda))
  ∧ (inCudaMode true deviceDriver = true →
       localKernels filledBatch w1 (_nodes deviceDriver)
       ∧ sizedKernels filledBatch w1 (_nodes deviceDriver)
       ∧ stableSpans deviceDriver)
  ∧ getVal true resetCounter hostMemory filledBatch w1 busy 10 deviceDriver
    = Some (filledFirst.1, filledFirst.2)
  ∧ getVal true resetCounter hostMemory filledBatch w1 idle 10 filledFirst.2
    = Some (filledSecond.1, filledSecond.2)
  ∧ filledSecond.1 = filledFirst.1
  ∧ (inCudaMode true deviceDriver = false → _trace filledSecond.2 = _trace filledFirst.2).
Proof.
  assert (inCudaMode true deviceDriver = true →
            localKernels filledBatch w1 (_nodes deviceDriver)
            ∧ sizedKernels filledBatch w1 (_nodes deviceDriver)
            ∧ stableSpans deviceDriver) as Hdevice.
  { intros _. split; [exact filledBatch_local|].
    split; [exact filledBatch_sized|exact deviceDriver_stableSpans]. }
  split; [exact constructed_wellFormed|]. split; [exact Hdevice|].
  split; [by_evaluation|]. split; [by_evaluation|].
  apply (getVal_twice_after_setData 0%Z true resetCounter hostMemory filledBatch w1 dataSpans
           outputSizes (constructed true Cuda) busy idle 10 10
           filledFirst.1 filledFirst.2 filledSecond.1 filledSecond.2);
    [exact constructed_wellFormed|exact Hdevice|by_evaluation|by_evaluation].
Defined.

(** ** The further theorems at this graph *)

Lemma graph_serversFirst : serversFirst graph.
Proof. apply serversFirstCheck_sound. by_decision. Defined.

Lemma construct_nodes_witness :
  serversFirst graph
  ∧ construct 0%Z true runtime lastBatchMode0 graph Cuda
    = ((Cuda, true),
       Returned (["using CPU computation library compiled with -mavx2";
                  "using CUDA computation library"], constructed true Cuda))
  ∧ wellFormed (_nodes (constructed true Cuda))
  ∧ absArg <$> _nodes (constructed true Cuda) = graph
  ∧ _batchMode (constructed true Cuda) = Cuda
  ∧ ∀ i info, _nodes (constructed true Cuda) !! i = Some info →
      iNode info = i
      ∧ serverInfos info = valueServers (absArg info)
      ∧ isVariable info = isRooRealVar (absArg info)
      ∧ isCategory info = isRooAbsCategory (absArg info)
      ∧ dataToken info = (if isRooRealVar (absArg info) then None else Some i)
      ∧ event info = true && bool_decide (Cuda = Cuda)
      ∧ stream info = true && bool_decide (Cuda = Cuda)
      ∧ fromDataset info = false ∧ isDirty info = true ∧ buffer info = None.
Proof.
  split; [exact graph_serversFirst|]. split; [by_evaluation|].
  apply (construct_nodes 0%Z true runtime lastBatchMode0 graph Cuda (Cuda, true)
           ["using CPU computation library compiled with -mavx2";
            "using CUDA computation library"] (constructed true Cuda));
    [exact graph_serversFirst|by_evaluation].
Defined.

Lemma device_kernels_once_after_servers_witness :
  true = true ∧ _batchMode deviceDriver = Cuda ∧ wellFormed (_nodes deviceDriver)
  ∧ getVal true resetCounter hostMemory computeBatch w1 busy 10 deviceDriver
    = Some (deviceFirst.1, deviceFirst.2)
  ∧ ∃ evs, _trace deviceFirst.2 = _trace deviceDriver ++ evs
      ∧ NoDup (kernels evs)
      ∧ ∀ pre side c post cinfo j sinfo,
          evs = pre ++ EKernel side c :: post →
          _nodes deviceDriver !! c = Some cinfo → j ∈ serverInfos cinfo →
          _nodes deviceDriver !! j = Some sinfo →
          computeInGPU sinfo = true ∨ fromDataset sinfo = false →
          EKernel (if computeInGPU sinfo then Device else Host) j ∈ pre.
Proof.
  split; [reflexivity|]. split; [by_evaluation|]. split; [exact deviceDriver_wellFormed|].
  split; [by_evaluation|].
  apply (device_kernels_once_after_servers 0%Z true resetCounter hostMemory computeBatch w1
           busy 10 deviceDriver deviceFirst.1 deviceFirst.2);
    [reflexivity|by_evaluation|exact deviceDriver_wellFormed|by_evaluation].
Defined.

Lemma device_returns_within_witness :
  true = true ∧ _batchMode deviceDriver = Cuda ∧ wellFormed (_nodes deviceDriver)
  ∧ _nodes deviceDriver ≠ []
  ∧ (∀ t i, 2 ≤ t → busy t i = false)
  ∧ 2 + 2 * length (_nodes deviceDriver) + edges (_nodes deviceDriver) ≤ 13
  ∧ is_Some (getVal true resetCounter hostMemory computeBatch w1 busy 13 deviceDriver).
Proof.
  assert (∀ t i, 2 ≤ t → busy t i = false) as Hbusy.
  { intros t i Ht. unfold busy. apply Nat.ltb_ge. exact Ht. }
  split; [reflexivity|]. split; [by_evaluation|]. split; [exact deviceDriver_wellFormed|].
  split; [by_decision|]. split; [exact Hbusy|]. split; [by_decision|].
  apply (device_returns_within 0%Z true resetCounter hostMemory computeBatch w1 busy 2
           deviceDriver 13);
    [reflexivity|by_evaluation|exact deviceDriver_wellFormed|by_decision|exact Hbusy
    |by_decision].
Defined.

Lemma dataSpans_fit j found :
  spanOf dataSpans (constructed true Cuda) j = Some found → outputSizes j ≤ spanSize found.
Proof.
  intros H. destruct j as [|[|[|[|j]]]]; vm_compute in H; try discriminate H.
  injection H as <-. by_decision.
Defined.

Lemma setData_device_region_witness :
  true = true ∧ _batchMode (constructed true Cuda) = Cuda
  ∧ (∀ j found, spanOf dataSpans (constructed true Cuda) j = Some found →
       outputSizes j ≤ spanSize found)
  ∧ _cudaMemDatasetSize deviceDriver
    = sum_list_with (datasetSpanSize dataSpans (constructed true Cuda))
        (seq 0 (length (_nodes (constructed true Cuda))))
  ∧ (∀ j, j < length (_nodes (constructed true Cuda)) →
       datasetOffset dataSpans outputSizes (constructed true Cuda) j
         + datasetCopySize dataSpans outputSizes (constructed true Cuda) j
       ≤ _cudaMemDatasetSize deviceDriver)
  ∧ ∀ i j, i < j →
      datasetOffset dataSpans outputSizes (constructed true Cuda) i
        + datasetCopySize dataSpans outputSizes (constructed true Cuda) i
      ≤ datasetOffset dataSpans outputSizes (constructed true Cuda) j.
Proof.
  split; [reflexivity|]. split; [by_evaluation|]. split; [exact dataSpans_fit|].
  apply (setData_device_region true hostMemory w1 dataSpans outputSizes (constructed true Cuda));
    [reflexivity|by_evaluation|exact dataSpans_fit].
Defined.

Lemma logArchitectureInfo_again_witness :
  Cpu ≠ Cuda ∧ msgActive runtime = true
  ∧ logArchitectureInfo runtime (logArchitectureInfo runtime lastBatchMode0 Cuda).1 Cuda
    = ((logArchitectureInfo runtime lastBatchMode0 Cuda).1, Returned [])
  ∧ (logArchitectureInfo runtime
       (logArchitectureInfo runtime (logArchitectureInfo runtime lastBatchMode0 Cuda).1 Cpu).1
       Cuda).2 ≠ Returned [].
Proof.
  assert (Cpu ≠ Cuda) as Hne by discriminate.
  split; [exact Hne|]. split; [reflexivity|].
  destruct (logArchitectureInfo_again runtime lastBatchMode0 Cuda) as [Hsame Hother].
  split; [exact Hsame|]. exact (Hother Cpu Hne eq_refl).
Defined.

Lemma device_result_is_scheduler_independent_witness :
  true = true ∧ _batchMode deviceDriver = Cuda ∧ wellFormed (_nodes deviceDriver)
  ∧ localKernels filledBatch w1 (_nodes deviceDriver)
  ∧ sizedKernels filledBatch w1 (_nodes deviceDriver)
  ∧ copiesBatches (_nodes deviceDriver) ∧ stableSpans deviceDriver
  ∧ getVal true resetCounter hostMemory filledBatch w1 busy 10 deviceDriver
    = Some (filledFirst.1, filledFirst.2)
  ∧ filledFirst.1
    = expectedView hostMemory w1 deviceDriver
        (nodeOutputs hostMemory filledBatch w1 deviceDriver) Host (topNode deviceDriver) ≫= head
  ∧ (∀ i info, _nodes deviceDriver !! i = Some info →
       nodeOutputs hostMemory filledBatch w1 deviceDriver !! i
       = Some (filledBatch w1 (sideOf info) i (outputSize info)
                 (expectedView hostMemory w1 deviceDriver
                    (nodeOutputs hostMemory filledBatch w1 deviceDriver) (sideOf info))))
  ∧ ∀ isActive' fuel' r' d'',
      getVal true resetCounter hostMemory filledBatch w1 isActive' fuel' deviceDriver
        = Some (r', d'') → r' = filledFirst.1.
Proof.
  assert (copiesBatches (_nodes deviceDriver)) as Hcopies
    by (apply copiesBatchesCheck_sound; by_evaluation).
  split; [reflexivity|]. split; [by_evaluation|]. split; [exact deviceDriver_wellFormed|].
  split; [exact filledBatch_local|]. split; [exact filledBatch_sized|].
  split; [exact Hcopies|]. split; [exact deviceDriver_stableSpans|]. split; [by_evaluation|].
  apply (device_result_is_scheduler_independent 0%Z true resetCounter hostMemory filledBatch w1
           busy 10 deviceDriver filledFirst.1 filledFirst.2);
    [reflexivity|by_evaluation|exact deviceDriver_wellFormed|exact filledBatch_local
    |exact filledBatch_sized|exact Hcopies|exact deviceDriver_stableSpans|by_evaluation].
Defined.

Lemma getVal_keeps_graph_witness :
  getVal true resetCounter hostMemory computeBatch w1 busy 10 deviceDriver
    = Some (deviceFirst.1, deviceFirst.2)
  ∧ sameGraph 0%Z (_nodes deviceDriver) (_nodes deviceFirst.2)
  ∧ _batchMode deviceFirst.2 = _batchMode deviceDriver
  ∧ getParameters deviceFirst.2 = getParameters deviceDriver.
Proof.
  split; [by_evaluation|].
  apply (getVal_keeps_graph 0%Z true resetCounter hostMemory computeBatch w1 busy 10
           deviceDriver deviceFirst.1 deviceFirst.2).
  by_evaluation.
Defined.

Lemma setData_operModes_witness :
  _nodes (constructed false Cpu) !! 2 = Some (nodeAt (constructed false Cpu) 2)
  ∧ ∃ info', _nodes hostDriver !! 2 = Some info'
      ∧ operMode info' = if outputSizes 2 =? 1 then operMode (nodeAt (constructed false Cpu) 2)
                         else ADirty.
Proof.
  split; [by_evaluation|].
  apply (proj1 (setData_operModes false hostMemory w1 dataSpans outputSizes
                  (constructed false Cpu)) 2 (nodeAt (constructed false Cpu) 2)).
  by_evaluation.
Defined.

(** ** The host evaluation with kernels that fill their output *)

Definition cachedFirst : option Z * RooFitDriver :=
  default (None, hostDriver)
    (getVal false resetCounter hostMemory filledBatch w1 idle 10 hostDriver).

(** The evaluation after the parameter s was set to 3. *)
Definition cachedSecond : option Z * RooFitDriver :=
  default (None, cachedFirst.2)
    (getVal false resetCounter hostMemory filledBatch w2 idle 10 cachedFirst.2).

Example cached_results : cachedFirst.1 = Some 20%Z ∧ cachedSecond.1 = Some 30%Z.
Proof. split; by_evaluation. Qed.

Lemma filledBatch_sized_any w l : sizedKernels filledBatch w l.
Proof. intros side i info v _. apply length_resize. Defined.

Lemma filledBatch_local_host w d :
  serverInfos <$> _nodes d = serverInfos <$> _nodes hostDriver →
  localKernels filledBatch w (_nodes d).
Proof.
  intros Hd side i info n v v' Hi Hv. unfold filledBatch. f_equal.
  assert (serverInfos <$> _nodes hostDriver !! i = Some (serverInfos info)) as Hs
    by (by rewrite <- list_lookup_fmap, <- Hd, list_lookup_fmap, Hi).
  set (ss := serverInfos info) in *. clearbody ss.
  destruct i as [|[|[|[|i]]]]; vm_compute in Hs; try discriminate Hs;
    injection Hs as <-; simpl.
  - done.
  - done.
  - by rewrite (Hv 0), (Hv 1) by set_solver.
  - by rewrite (Hv 2) by set_solver.
Defined.

Lemma hostConstructed_wellFormed : wellFormed (_nodes (constructed false Cpu)).
Proof. apply wellFormedCheck_sound. by_decision. Defined.

Lemma dataSpans_stable name span : dataSpans !! name = Some span → stablePtr (spanPtr span).
Proof. unfold dataSpans. by intros [_ <-]%lookup_singleton_Some. Defined.

Lemma hostConstructed_counters i info :
  _nodes (constructed false Cpu) !! i = Some info → isVariable info = true →
  dataSpans !! namePtr (absArg info) = None →
  lastSetValCount info ≠ resetCounter w1 i.
Proof.
  intros Hi _ _.
  destruct i as [|[|[|[|i]]]]; vm_compute in Hi; try discriminate Hi;
    injection Hi as <-; by vm_compute.
Defined.

Lemma getVal_after_setData_host_witness :
  inCudaMode false hostDriver = false
  ∧ wellFormed (_nodes (constructed false Cpu))
  ∧ leavesHaveNoServers (_nodes hostDriver)
  ∧ localKernels filledBatch w1 (_nodes hostDriver)
  ∧ sizedKernels filledBatch w1 (_nodes hostDriver)
  ∧ (∀ name span, dataSpans !! name = Some span → stablePtr (spanPtr span))
  ∧ (∀ i info, _nodes (constructed false Cpu) !! i = Some info → isVariable info = true →
       dataSpans !! namePtr (absArg info) = None →
       lastSetValCount info ≠ resetCounter w1 i)
  ∧ getVal false resetCounter hostMemory filledBatch w1 idle 10 hostDriver
    = Some (cachedFirst.1, cachedFirst.2)
  ∧ cachedFirst.1
    = hostView hostMemory w1 hostDriver (hostTable hostMemory filledBatch w1 hostDriver)
        (topNode hostDriver) ≫= head
  ∧ (∀ i info, _nodes hostDriver !! i = Some info →
       hostTable hostMemory filledBatch w1 hostDriver !! i
       = Some (filledBatch w1 Host i (outputSize info)
                 (hostView hostMemory w1 hostDriver
                    (hostTable hostMemory filledBatch w1 hostDriver))))
  ∧ hostCached resetCounter hostMemory filledBatch w1 cachedFirst.2.
Proof.
  split; [by_evaluation|]. split; [exact hostConstructed_wellFormed|].
  split; [exact hostDriver_leaves|].
  split; [exact (filledBatch_local_host w1 hostDriver eq_refl)|].
  split; [exact (filledBatch_sized_any w1 _)|]. split; [exact dataSpans_stable|].
  split; [exact hostConstructed_counters|]. split; [by_evaluation|].
  apply (getVal_after_setData_host 0%Z false resetCounter hostMemory filledBatch w1 dataSpans
           outputSizes (constructed false Cpu) idle 10 cachedFirst.1 cachedFirst.2);
    [by_evaluation|exact hostConstructed_wellFormed|exact hostDriver_leaves
    |exact (filledBatch_local_host w1 hostDriver eq_refl)|exact (filledBatch_sized_any w1 _)
    |exact dataSpans_stable|exact hostConstructed_counters|by_evaluation].
Defined.

(** The driver after the first evaluation holds the outputs of w1. *)
Lemma cachedFirst_hostCached : hostCached resetCounter hostMemory filledBatch w1 cachedFirst.2.
Proof.
  assert (hostCached resetCounter hostMemory filledBatch w1 hostDriver) as Hc.
  { apply hostCached_unsettled.
    - apply (setData_hostStore false hostMemory w1 dataSpans outputSizes (constructed false Cpu)).
      exact dataSpans_stable.
    - intros j info'.
      apply (setData_unsettled false resetCounter hostMemory w1 dataSpans outputSizes
               (constructed false Cpu) j info').
      exact hostConstructed_counters. }
  apply (getVal_hostCached 0%Z false resetCounter hostMemory filledBatch w1 w1 idle 10
           hostDriver cachedFirst.1 cachedFirst.2);
    [by_evaluation|apply wellFormedCheck_sound; by_decision|exact hostDriver_leaves
    |exact (filledBatch_local_host w1 hostDriver eq_refl)|exact (filledBatch_sized_any w1 _)
    |exact Hc|apply sameInputs_refl|by_evaluation].
Defined.

(** From w1 to w2 the counter of the parameter s changes, and nothing
    else. *)
Lemma sameInputs_w1_w2 :
  sameInputs resetCounter hostMemory filledBatch w1 w2 cachedFirst.2.
Proof.
  split.
  - intros j info v Hj Hp Hc.
    destruct j as [|[|[|[|j]]]]; vm_compute in Hj; try discriminate Hj;
      injection Hj as <-; try discriminate Hp. vm_compute in Hc. discriminate Hc.
  - intros j info v Hj Hd.
    destruct j as [|[|[|[|j]]]]; vm_compute in Hj; try discriminate Hj;
      injection Hj as <-; try discriminate Hd; reflexivity.
  - intros j info Hj _. reflexivity.
  - intros j info Hj Hp Hc.
    destruct j as [|[|[|[|j]]]]; vm_compute in Hj; try discriminate Hj;
      injection Hj as <-; try discriminate Hp. vm_compute in Hc. discriminate Hc.
Defined.

Lemma host_caching_sound_witness :
  inCudaMode false cachedFirst.2 = false
  ∧ wellFormed (_nodes cachedFirst.2)
  ∧ leavesHaveNoServers (_nodes cachedFirst.2)
  ∧ localKernels filledBatch w2 (_nodes cachedFirst.2)
  ∧ sizedKernels filledBatch w2 (_nodes cachedFirst.2)
  ∧ hostCached resetCounter hostMemory filledBatch w1 cachedFirst.2
  ∧ sameInputs resetCounter hostMemory filledBatch w1 w2 cachedFirst.2
  ∧ getVal false resetCounter hostMemory filledBatch w2 idle 10 cachedFirst.2
    = Some (cachedSecond.1, cachedSecond.2)
  ∧ cachedSecond.1
    = hostView hostMemory w2 cachedFirst.2
        (hostTable hostMemory filledBatch w2 cachedFirst.2) (topNode cachedFirst.2) ≫= head
  ∧ (∀ i info, _nodes cachedFirst.2 !! i = Some info →
       hostTable hostMemory filledBatch w2 cachedFirst.2 !! i
       = Some (filledBatch w2 Host i (outputSize info)
                 (hostView hostMemory w2 cachedFirst.2
                    (hostTable hostMemory filledBatch w2 cachedFirst.2))))
  ∧ hostCached resetCounter hostMemory filledBatch w2 cachedSecond.2
  ∧ evaluatedAt resetCounter w2 (_nodes cachedSecond.2).
Proof.
  assert (wellFormed (_nodes cachedFirst.2)) as Hwf
    by (apply wellFormedCheck_sound; by_decision).
  assert (leavesHaveNoServers (_nodes cachedFirst.2)) as Hleaf
    by (apply leavesCheck_sound; by_decision).
  assert (localKernels filledBatch w2 (_nodes cachedFirst.2)) as Hlocal
    by (apply filledBatch_local_host; by_evaluation).
  split; [by_evaluation|]. split; [exact Hwf|]. split; [exact Hleaf|].
  split; [exact Hlocal|]. split; [exact (filledBatch_sized_any w2 _)|].
  split; [exact cachedFirst_hostCached|]. split; [exact sameInputs_w1_w2|].
  split; [by_evaluation|].
  apply (host_caching_sound 0%Z false resetCounter hostMemory filledBatch w1 w2 idle 10
           cachedFirst.2 cachedSecond.1 cachedSecond.2);
    [by_evaluation|exact Hwf|exact Hleaf|exact Hlocal|exact (filledBatch_sized_any w2 _)
    |exact cachedFirst_hostCached|exact sameInputs_w1_w2|by_evaluation].
Defined.

Lemma filledBatch_sideIndependent w l : sideIndependent filledBatch w l.
Proof. intros i info n v _. reflexivity. Defined.

Lemma deviceDriver_datasetCopied : datasetCopied hostMemory w1 deviceDriver.
Proof.
  intros i info Hi Hfd.
  destruct i as [|[|[|[|i]]]]; vm_compute in Hi; try discriminate Hi;
    injection Hi as <-; try discriminate Hfd. by_evaluation.
Defined.

Lemma deviceDriver_datasetOnHost : datasetOnHost (_nodes deviceDriver).
Proof.
  intros i info Hi Hfd.
  destruct i as [|[|[|[|i]]]]; vm_compute in Hi; try discriminate Hi;
    injection Hi as <-; try discriminate Hfd. by_evaluation.
Defined.

Lemma deviceDriver_topOnHost : topOnHost (_nodes deviceDriver).
Proof. intros info Hlast. vm_compute in Hlast. injection Hlast as <-. by left. Defined.

Lemma device_agrees_with_host_witness :
  inCudaMode true deviceDriver = true
  ∧ wellFormed (_nodes (constructed true Cuda))
  ∧ localKernels filledBatch w1 (_nodes deviceDriver)
  ∧ sizedKernels filledBatch w1 (_nodes deviceDriver)
  ∧ sideIndependent filledBatch w1 (_nodes deviceDriver)
  ∧ stableSpans deviceDriver
  ∧ datasetCopied hostMemory w1 deviceDriver
  ∧ datasetOnHost (_nodes deviceDriver)
  ∧ topOnHost (_nodes deviceDriver)
  ∧ getVal true resetCounter hostMemory filledBatch w1 busy 10 deviceDriver
    = Some (filledFirst.1, filledFirst.2)
  ∧ filledFirst.1
    = hostView hostMemory w1 deviceDriver (hostTable hostMemory filledBatch w1 deviceDriver)
        (topNode deviceDriver) ≫= head
  ∧ ∀ i info, _nodes deviceDriver !! i = Some info →
      hostTable hostMemory filledBatch w1 deviceDriver !! i
      = Some (filledBatch w1 Host i (outputSize info)
                (hostView hostMemory w1 deviceDriver
                   (hostTable hostMemory filledBatch w1 deviceDriver))).
Proof.
  split; [by_evaluation|]. split; [exact constructed_wellFormed|].
  split; [exact filledBatch_local|]. split; [exact filledBatch_sized|].
  split; [exact (filledBatch_sideIndependent w1 _)|].
  split; [exact deviceDriver_stableSpans|]. split; [exact deviceDriver_datasetCopied|].
  split; [exact deviceDriver_datasetOnHost|]. split; [exact deviceDriver_topOnHost|].
  split; [by_evaluation|].
  apply (device_agrees_with_host 0%Z true resetCounter hostMemory filledBatch w1 dataSpans
           outputSizes (constructed true Cuda) busy 10 filledFirst.1 filledFirst.2);
    [by_evaluation|exact constructed_wellFormed|exact filledBatch_local
    |exact filledBatch_sized|exact (filledBatch_sideIndependent w1 _)
    |exact deviceDriver_stableSpans|exact deviceDriver_datasetCopied
    |exact deviceDriver_datasetOnHost|exact deviceDriver_topOnHost|by_evaluation].
Defined.

(** getValues after the parameter s was set to 3. *)
Definition cachedValues : option (list Z) * RooFitDriver :=
  default (None, cachedFirst.2)
    (getValues false resetCounter hostMemory filledBatch w2 idle 10 cachedFirst.2).

Example cachedValues_result : cachedValues.1 = Some [30%Z].
Proof. by_evaluation. Qed.

Lemma getValues_host_witness :
  inCudaMode false cachedFirst.2 = false
  ∧ wellFormed (_nodes cachedFirst.2)
  ∧ leavesHaveNoServers (_nodes cachedFirst.2)
  ∧ localKernels filledBatch w2 (_nodes cachedFirst.2)
  ∧ sizedKernels filledBatch w2 (_nodes cachedFirst.2)
  ∧ hostCached resetCounter hostMemory filledBatch w1 cachedFirst.2
  ∧ sameInputs resetCounter hostMemory filledBatch w1 w2 cachedFirst.2
  ∧ getValues false resetCounter hostMemory filledBatch w2 idle 10 cachedFirst.2
    = Some (cachedValues.1, cachedValues.2)
  ∧ cachedValues.1
    = hostView hostMemory w2 cachedFirst.2
        (hostTable hostMemory filledBatch w2 cachedFirst.2) (topNode cachedFirst.2)
  ∧ getVal false resetCounter hostMemory filledBatch w2 idle 10 cachedFirst.2
    = Some (cachedValues.1 ≫= head, cachedValues.2)
  ∧ ∀ info, _nodes cachedFirst.2 !! topNode cachedFirst.2 = Some info →
      fromDataset info = false →
      ∃ out, cachedValues.1 = Some out ∧ length out = outputSize info
        ∧ out = filledBatch w2 Host (topNode cachedFirst.2) (outputSize info)
                  (hostView hostMemory w2 cachedFirst.2
                     (hostTable hostMemory filledBatch w2 cachedFirst.2)).
Proof.
  assert (wellFormed (_nodes cachedFirst.2)) as Hwf
    by (apply wellFormedCheck_sound; by_decision).
  assert (leavesHaveNoServers (_nodes cachedFirst.2)) as Hleaf
    by (apply leavesCheck_sound; by_decision).
  assert (localKernels filledBatch w2 (_nodes cachedFirst.2)) as Hlocal
    by (apply filledBatch_local_host; by_evaluation).
  split; [by_evaluation|]. split; [exact Hwf|]. split; [exact Hleaf|].
  split; [exact Hlocal|]. split; [exact (filledBatch_sized_any w2 _)|].
  split; [exact cachedFirst_hostCached|]. split; [exact sameInputs_w1_w2|].
  split; [by_evaluation|].
  apply (getValues_host 0%Z false resetCounter hostMemory filledBatch w1 w2 idle 10
           cachedFirst.2 cachedValues.1 cachedValues.2);
    [by_evaluation|exact Hwf|exact Hleaf|exact Hlocal|exact (filledBatch_sized_any w2 _)
    |exact cachedFirst_hostCached|exact sameInputs_w1_w2|by_evaluation].
Defined.

Lemma device_releases_buffers_witness :
  true = true ∧ _batchMode deviceDriver = Cuda ∧ wellFormed (_nodes deviceDriver)
  ∧ reachesTop (_nodes deviceDriver)
  ∧ getVal true resetCounter hostMemory computeBatch w1 busy 10 deviceDriver
    = Some (deviceFirst.1, deviceFirst.2)
  ∧ ∀ j info, _nodes deviceFirst.2 !! j = Some info → clientInfos info ≠ [] →
      buffer info = None ∧ remClients info = 0%Z.
Proof.
  split; [reflexivity|]. split; [by_evaluation|]. split; [exact deviceDriver_wellFormed|].
  split; [exact deviceDriver_reachesTop|]. split; [by_evaluation|].
  apply (device_releases_buffers 0%Z true resetCounter hostMemory computeBatch w1 busy 10
           deviceDriver deviceFirst.1 deviceFirst.2);
    [reflexivity|by_evaluation|exact deviceDriver_wellFormed|exact deviceDriver_reachesTop
    |by_evaluation].
Defined.

Lemma device_waits_for_servers_witness :
  true = true ∧ _batchMode deviceDriver = Cuda ∧ wellFormed (_nodes deviceDriver)
  ∧ getVal true resetCounter hostMemory computeBatch w1 busy 10 deviceDriver
    = Some (deviceFirst.1, deviceFirst.2)
  ∧ ∃ evs, _trace deviceFirst.2 = _trace deviceDriver ++ evs
      ∧ (∀ pre post c cinfo s sinfo,
           evs = pre ++ EKernel Device c :: post →
           _nodes deviceDriver !! c = Some cinfo → s ∈ serverInfos cinfo →
           _nodes deviceDriver !! s = Some sinfo → event sinfo = true →
           ∃ pre1 pre2, pre = pre1 ++ EWaitForEvent c s :: pre2
             ∧ (computeInGPU sinfo = true → EEventRecord s ∈ pre1))
      ∧ (∀ pre post c, evs = pre ++ EKernel Device c :: post →
           ∃ post', post = EEventRecord c :: post').
Proof.
  split; [reflexivity|]. split; [by_evaluation|]. split; [exact deviceDriver_wellFormed|].
  split; [by_evaluation|].
  apply (device_waits_for_servers 0%Z true resetCounter hostMemory computeBatch w1 busy 10
           deviceDriver deviceFirst.1 deviceFirst.2);
    [reflexivity|by_evaluation|exact deviceDriver_wellFormed|by_evaluation].
Defined.

(** The graph where y has no device kernel: in device mode y is computed on
    the host, and the message is logged for it. *)
Definition plainGraph : list RooAbsArg :=
  [ mkArg "x" true false false false Auto [];
    mkArg "s" true false false false Auto [];
    mkArg "y" false false false false Auto [(0, true); (1, true)];
    mkArg "top" false false true true Auto [(2, true)] ].

Definition plainDriver : RooFitDriver :=
  match construct 0%Z true runtime lastBatchMode0 plainGraph Cuda with
  | (_, Returned (_, d)) => d
  | _ => emptyDriver
  end.

(** Two evaluations, new data, and a third evaluation. *)
Definition life : list Call :=
  [ CallSetData w1 dataSpans outputSizes; CallGetVal w1 busy 10; CallGetVal w2 idle 10;
    CallSetData w2 dataSpans outputSizes; CallGetValues w2 busy 10 ].

Definition lived : RooFitDriver :=
  default emptyDriver (calls true resetCounter hostMemory computeBatch life plainDriver).

(** The kernel of y runs three times on the host, and the message is logged
    once. *)
Example lived_logs :
  length (filter (λ e, e = EKernel Host 2) (_trace lived)) = 3
  ∧ logCount 2 (_trace lived) = 1.
Proof. split; by_evaluation. Qed.

Lemma message_logged_once_witness :
  construct 0%Z true runtime lastBatchMode0 plainGraph Cuda
    = ((Cuda, true),
       Returned (["using CPU computation library compiled with -mavx2";
                  "using CUDA computation library"], plainDriver))
  ∧ calls true resetCounter hostMemory computeBatch life plainDriver = Some lived
  ∧ logCount 2 (_trace lived) ≤ 1
  ∧ (true && bool_decide (Cuda = Cuda) = false → logCount 2 (_trace lived) = 0).
Proof.
  split; [by_evaluation|]. split; [by_evaluation|].
  apply (message_logged_once 0%Z true resetCounter hostMemory computeBatch runtime
           lastBatchMode0 plainGraph Cuda (Cuda, true)
           ["using CPU computation library compiled with -mavx2";
            "using CUDA computation library"] plainDriver life lived 2);
    by_evaluation.
Defined.

End Example.
